(* ===== verification/_CoqProject ===== *)
-Q . S2P
Prelude.v
Doubles.v
Buffer.v
LinkedList.v
Dname.v
Qtype.v
Edns.v
Tsig.v
Dns.v
Update.v
Datafile.v
Opt.v
CommandLine.v
ParseUri.v
Net.v
Hg64.v
Hg64Stats.v
Stats.v
Queries.v
DoSend.v
Dnsperf.v
SendLoop.v
RecvLoop.v
IntervalStats.v
NetTcp.v
NetUdp.v
Lock.v
NetDot.v
DohRequest.v
NetDoh.v
NetSocket.v
Sockets.v
Setup.v
Finish.v
Report.v
DnsperfMain.v
Resperf.v
ResperfSetup.v
ResperfMain.v
ResperfReport.v
ResperfRun.v
