(* ===== verification/Prelude.v ===== *)
(** * A verification of dnsperf and resperf

    dnsperf sends DNS queries from an input file to a server and reports how many were answered
    and how fast; resperf raises the rate of queries step by step until the server fails to
    keep up.  Both are C programs under src/src/.  This library is a model of their code in
    Rocq, written definition by definition after the C functions, with the theorems that make
    the code correct.

    ** The parts of the program and the files that model them

    - buffers ([perf_buffer_t], buffer.h): Buffer.v, a record with the memory of the buffer, its
      length and the number of bytes used; one operation per macro;
    - lists ([perf_list], list.h): LinkedList.v, the macros over an explicit store of links, so
      that aliasing of [prev] and [next] is what is proved about;
    - names, types and requests (dns.c, qtype.c, edns.c, tsig.c): Dname.v, Qtype.v, Edns.v,
      Tsig.v and Dns.v, up to [perf_dns_buildrequest], which turns a line of input into a packet,
      and Update.v for dynamic updates;
    - input (datafile.c): Datafile.v, the buffered reader of text and of binary input;
    - options (opt.c): Opt.v, and CommandLine.v for [getopt] and the usage texts; URIs
      (ext/parse_uri.c): ParseUri.v;
    - addresses and waiting (net.c, os.c): Net.v;
    - transports (net_udp.c, net_tcp.c, net_dot.c, net_doh.c): NetUdp.v, NetTcp.v, NetDot.v and
      NetDoh.v, one record
      per socket and one operation per function of the [perf_net_socket] structure; Lock.v has
      the mutex of a socket, DohRequest.v the requests of DoH, and NetDoh.v also the callbacks
      that nghttp2 makes; NetSocket.v is the interface of net.h, a class with an instance per
      transport; Sockets.v opens a socket of any transport;
    - histograms (ext/hg64.c): Hg64.v, and Hg64Stats.v for their mean and variance;
    - dnsperf itself (dnsperf.c): Stats.v (counters, bit sets, shares of the threads),
      IntervalStats.v (histograms of latencies, interval statistics), Queries.v
      (the table of 65536 queries on two lists), DoSend.v (rate limiting and flushing), Dnsperf.v
      (the locked regions of the sender and the receiver of a thread, and all their
      interleavings), SendLoop.v and RecvLoop.v (the loops of [do_send] and [do_recv] as a
      whole), Setup.v (the options, and the start of the threads), Finish.v (the wait of the
      main thread, the cleaning up and the totals), Report.v (what is printed) and DnsperfMain.v
      (a whole run, from the command line to the report);
    - resperf itself (resperf.c): Resperf.v, ResperfSetup.v for its options, ResperfMain.v for the
      schedule and the main loop, ResperfReport.v for the plot file and the report, and
      ResperfRun.v for a whole run;
    - the C type [double]: Doubles.v, on the Standard Library's specification of binary64.

    Components meet the way the code composes them: Dns.v calls Dname.v, Qtype.v, Edns.v and
    Tsig.v; Queries.v moves queries with the operations of LinkedList.v; Dnsperf.v works on the
    table of Queries.v and the counters of Stats.v; Resperf.v builds its requests through the
    class [RequestBuilder], which an instance made of [perf_dns_buildrequest] discharges;
    NetSocket.v states what net.h promises about [sockready] and the callback [sent] as the laws
    of a class, which all transports keep and from which the callers' side is proved;
    Setup.v and ResperfSetup.v name their variables with the class [Variables], over which the
    typing of options is proved, open the sockets with Sockets.v and start what Dnsperf.v and
    Resperf.v model.  Where the two threads of dnsperf share an object, their steps are
    interleaved wherever the code holds no lock: the table of queries in Dnsperf.v, a DoT socket
    in NetDot.v.

    ** Conventions

    Integers are [Z]; arithmetic of a C type is followed by [u8], [u16], [u32], [u64], [s32] or
    [s64] where it can leave the range of the type.  Bytes are [Z] between 0 and 255, strings
    lists of bytes.  A C function is a function into [run]: it returns ([Done]), fails an
    [assert] ([Abort]), ends the process ([Exit]), leaves the memory it was given ([Undef]) or
    uses up the fuel of a modelled loop ([NoFuel]).  State is passed by the monad [M].  System
    calls, OpenSSL, nghttp2, ldns and the clock are not code of this repository: their answers are
    arguments of the operations, or fields of a class with the laws the code relies on
    ([FileIO] and [FileLaws], [Hmac] and [HmacLaws], [Base64] and [Base64Laws], [Ldns] and
    [LdnsLaws]), of which an instance is given.

    ** What is proved

    - Requests: a query line gives exactly the packet it stands for, and no line makes the
      builder leave its buffer or fail an assertion ([buildrequest_correct],
      [buildrequest_total]); an update block gives the message RFC 2136 assigns to its commands,
      and an error in it leaves the message unchanged ([update_request_correct],
      [build_update_total]); names, types, the OPT and the TSIG record agree with independent
      one-pass definitions of them.
    - Input: the reader refines an abstract sequence of lines read a number of times, however
      the file is cut into reads ([datafile_next_refines], [datafile_delivers_all]).
    - Lists and the query table: pointer manipulation refines sequences
      ([list_ops_refine], [query_moves_refine]).
    - Threads: in all interleavings of the sender's and the receiver's steps the counters agree
      with what happened and ids are neither lost nor used twice ([threads_accounting] and the
      theorems after it), also when a query is answered or timed out before its sending fails
      ([all_queries_accounted], and [lost_query_unaccounted] for what that can hide); no slice of
      a second gets more queries than the limit on the rate ([rate_limit_holds]).  The two loops take
      only steps of this system, the sender sends the requests of the lines of the input in
      order, and every round of the receiver returns ([sender_sends_input],
      [sender_round_sends], [receiver_loop_total], [recv_batch_complete]).
    - The end of a run: from the command line on, over all threads and interleavings, the report
      that is printed accounts for every query that was sent ([dnsperf_run]); how long the main
      thread waits ([main_wait_limit]).
    - resperf: the counters add up after every round, the loop ends, it never sends more than one
      query beyond its schedule, and the report adds up and prints the highest throughput
      of the intervals that count
      ([resperf_accounting], [resperf_terminates], [resperf_on_schedule],
      [resperf_run], [resperf_max_throughput]).
    - Transports: the messages delivered are the messages of the byte stream, whatever the
      reads return ([tcp_framing], [dot_framing]), what is written is whole frames
      ([tcp_wire_frames], [dot_wire_frames]); the operations on a DoT socket, in any
      interleaving of the two threads, give back the lock, apart from one error path
      ([dot_sendto_keeps_lock]) and one race that breaks the framing ([dot_starts_mid_frame]).
      DoH responses are put together from whatever chunks arrive, as long as no read holds bytes
      of two ([doh_reassembles]), every operation of a DoH socket gives back the lock and stays
      inside its buffers, and a query that was sent is in the request, in the path or in the body
      ([doh_safe]); the query can
      be read back from the path of a GET request, which has the headers it should have
      ([doh_get_roundtrip]). Over all transports, the callback [sent] reports only queries
      whose sending was put off, in order and once each ([net_sent_contract]).
    - Start: command lines are read as they are meant ([setup_reads_command_line]); every one
      ends the program or gives a configuration with the properties the threads need, and the
      clients have sockets of their own, bound to their ports, unless one of the calls that open
      them fails ([setup_configures], [threads_sockets], [resperf_configures]).
    - Statistics and histograms: sums, differences, extremes and buckets, and that the
      reports of all intervals account for everything counted, in both histograms
      ([interval_reports_add_up]);
      the histogram that is printed is a partition of the values recorded and times are
      printed exactly ([histogram_report], [time_exact]).

    Theorems whose name says so ([dname_escape_base_7], [tcp_resumes_midway] and others) show
    inputs on which the code does not do what it is meant to do.

    ** Bounds and fuel

    Loops with a C bound recurse on it.  Loops over a string or list recurse on it.  The other
    loops take fuel; each has a lemma that a given fuel is enough: the reader of input needs the
    length of what is left plus a constant ([file_fuel]), the loop over timed out or cancelled
    queries one step per id and one ([NQIDS] + 1), the walk over a histogram one step per key
    ([loop_fuel]).  Theorems state that the result is [Done], never only what holds if it is.

    ** What is not modelled

    The status lines resperf prints during a run, how [printf] writes a
    [double] (the formulas are modelled), signals, thread creation and names, freeing of memory,
    failure of [malloc] other than where a socket is opened or a number of elements cannot be
    had, closing of sockets, and inside DoH the HTTP/2 protocol itself (nghttp2).
    Memory ordering of the atomics of ext/hg64.c and net_tcp.c is not modelled: they are
    sequentially consistent here. *)

From stdpp Require Export prelude gmap strings.
From Stdlib Require Export ZArith Lia.

(** ** Outcomes of a C function

    A modelled C function returns ([Done]), fails an [assert] ([Abort]), ends the
    process with [exit] ([Exit]), reads or writes outside the object it was given
    ([Undef]) or exhausts the fuel of one of its modelled loops ([NoFuel]).  The
    last two are there to be proved impossible. *)
Inductive run (A : Type) : Type :=
| Done (a : A)
| Abort
| Exit (code : Z)
| Undef
| NoFuel.
Arguments Done {A} a.
Arguments Abort {A}.
Arguments Exit {A} code.
Arguments Undef {A}.
Arguments NoFuel {A}.

#[export] Instance run_eq_dec `{EqDecision A} : EqDecision (run A).
Proof. solve_decision. Defined.

#[export] Instance run_ret : MRet run := λ A a, Done a.
#[export] Instance run_bind : MBind run := λ A B f m,
  match m with
  | Done a => f a
  | Abort => Abort
  | Exit c => Exit c
  | Undef => Undef
  | NoFuel => NoFuel
  end.

(** A computation over a piece of C state [S]. *)
Definition M (S A : Type) : Type := S → run (A * S).

#[export] Instance M_ret {S} : MRet (M S) := λ A a s, Done (a, s).
#[export] Instance M_bind {S} : MBind (M S) := λ A B f m s,
  match m s with
  | Done (a, s') => f a s'
  | Abort => Abort
  | Exit c => Exit c
  | Undef => Undef
  | NoFuel => NoFuel
  end.

Definition get {S} : M S S := λ s, Done (s, s).
Definition put {S} (s : S) : M S unit := λ _, Done ((), s).
Definition modify {S} (f : S → S) : M S unit := λ s, Done ((), f s).
Definition gets {S A} (f : S → A) : M S A := λ s, Done (f s, s).
Definition lift {S A} (m : run A) : M S A := λ s,
  match m with
  | Done a => Done (a, s)
  | Abort => Abort
  | Exit c => Exit c
  | Undef => Undef
  | NoFuel => NoFuel
  end.
(** [assert(P)]. *)
Definition assert {S} (P : Prop) `{Decision P} : M S unit := λ s,
  if decide P then Done ((), s) else Abort.
(** [perf_log_fatal] of log.c: the message is printed and the process exits. *)
Definition perf_log_fatal {S A} : M S A := λ _, Exit 1.

(** Sequencing after a computation whose result is known. *)
Lemma bind_Done {S A B} (m : M S A) (k : A → M S B) s a s' :
  m s = Done (a, s') → (m ≫= k) s = k a s'.
Proof. intros H. unfold mbind, M_bind. by rewrite H. Qed.

Lemma bound {A B} (m : run A) (k : A → run B) b : (x ← m; k x) = Done b → ∃ a, m = Done a ∧ k a = Done b.
Proof. destruct m as [a| | | |]; try done. intros H. by exists a. Qed.
Lemma then_run {A B} (m : run A) (k : A → run B) a : m = Done a → (x ← m; k x) = k a.
Proof. by intros ->. Qed.
Lemma done_triple {A B C} (a a' : A) (b b' : B) (c c' : C) : Done (a, b, c) = Done (a', b', c') → b = b' ∧ c = c'.
Proof. by intros [= _ -> ->]. Qed.

(** [m] returns normally and its value satisfies [Q]. *)
Definition returns {A} (m : run A) (Q : A → Prop) : Prop :=
  match m with Done a => Q a | _ => False end.

(** The sum of a list. *)
Definition sumZ (l : list Z) : Z := foldr Z.add 0%Z l.

(** [m] does not touch memory outside its objects and does not run out of fuel. *)
Definition well_defined {A} (m : run A) : Prop :=
  match m with Undef | NoFuel => False | _ => True end.

(** From a state that satisfies [P], [m] returns a value and a state that satisfy [Q], or ends
    the process with status 1. *)
Definition triple {S A} (P : S → Prop) (m : M S A) (Q : A → S → Prop) : Prop :=
  ∀ s, P s → match m s with Done (a, s') => Q a s' | Exit c => c = 1%Z | _ => False end.

Lemma triple_bind {S A B} P (m : M S A) Q (k : A → M S B) R :
  triple P m Q → (∀ a, triple (Q a) (k a) R) → triple P (m ≫= k) R.
Proof.
  intros Hm Hk s Hs. specialize (Hm s Hs). unfold mbind, M_bind.
  destruct (m s) as [[a s']| | | |]; try done. exact (Hk a s' Hm).
Qed.
Lemma triple_ret {S A} (P : S → Prop) (a : A) (Q : A → S → Prop) : (∀ s, P s → Q a s) → triple P (mret a) Q.
Proof. intros H s Hs. by apply H. Qed.
Lemma triple_get {S} (P : S → Prop) (Q : S → S → Prop) : (∀ s, P s → Q s s) → triple P get Q.
Proof. intros H s Hs. by apply H. Qed.
Lemma triple_modify {S} (P : S → Prop) f (Q : unit → S → Prop) : (∀ s, P s → Q () (f s)) → triple P (modify f) Q.
Proof. intros H s Hs. by apply H. Qed.
Lemma triple_fatal {S A} (P : S → Prop) (Q : A → S → Prop) : triple P perf_log_fatal Q.
Proof. done. Qed.
Lemma triple_weaken {S A} (P P' : S → Prop) (m : M S A) (Q Q' : A → S → Prop) :
  (∀ s, P' s → P s) → (∀ a s, Q a s → Q' a s) → triple P m Q → triple P' m Q'.
Proof.
  intros HP HQ Hm s Hs. specialize (Hm s (HP s Hs)). destruct (m s) as [[a s']| | | |]; auto.
Qed.

(** Rules for the common forms of a sequence. *)
Lemma triple_eq {S A} (P : S → Prop) (m : M S A) Q s : P s → triple P m Q → triple (eq s) m Q.
Proof. intros Hs Hm. apply (triple_weaken P _ m Q Q); [by intros ? <-|done|done]. Qed.
Lemma triple_get_bind {S A} (P : S → Prop) (k : S → M S A) Q :
  (∀ s, P s → triple (eq s) (k s) Q) → triple P (get ≫= k) Q.
Proof. intros H s Hs. exact (H s Hs s eq_refl). Qed.
Lemma triple_put_bind {S A} (P R : S → Prop) x (k : unit → M S A) Q :
  R x → triple R (k ()) Q → triple P (put x ≫= k) Q.
Proof. intros Hx Hk s _. exact (Hk x Hx). Qed.
Lemma triple_modify_bind {S A} (P R : S → Prop) f (k : unit → M S A) Q :
  (∀ s, P s → R (f s)) → triple R (k ()) Q → triple P (modify f ≫= k) Q.
Proof. intros Hf Hk s Hs. exact (Hk (f s) (Hf s Hs)). Qed.
Lemma triple_lift_bind {S A B} (P : S → Prop) (a : A) (m : run A) (k : A → M S B) Q :
  m = Done a → triple P (k a) Q → triple P (lift m ≫= k) Q.
Proof. intros -> Hk s Hs. exact (Hk s Hs). Qed.

(** ** Result codes (result.h) *)
Inductive perf_result : Set :=
| PERF_R_SUCCESS
| PERF_R_FAILURE
| PERF_R_CANCELED
| PERF_R_EOF
| PERF_R_INVALIDFILE
| PERF_R_NOMORE
| PERF_R_NOSPACE
| PERF_R_TIMEDOUT
| PERF_R_INVALIDUPDATE.

#[export] Instance perf_result_eq_dec : EqDecision perf_result.
Proof. solve_decision. Defined.

(** [if (result != PERF_R_SUCCESS) ...] after a success. *)
Lemma ok_branch {A} (m m' : A) : (if decide (PERF_R_SUCCESS ≠ PERF_R_SUCCESS) then m else m') = m'.
Proof. reflexivity. Qed.

(** ** Machine integers *)
Definition u8 (z : Z) : Z := (z mod 2 ^ 8)%Z.
Definition u16 (z : Z) : Z := (z mod 2 ^ 16)%Z.
Definition u32 (z : Z) : Z := (z mod 2 ^ 32)%Z.
Definition u64 (z : Z) : Z := (z mod 2 ^ 64)%Z.
(** Conversion to a signed w-bit integer (two's complement). *)
Definition swrap (w : Z) (z : Z) : Z := ((z + 2 ^ (w - 1)) mod 2 ^ w - 2 ^ (w - 1))%Z.
Definition s32 (z : Z) : Z := swrap 32 z.
Definition s64 (z : Z) : Z := swrap 64 z.
Definition UINT64_MAX : Z := (2 ^ 64 - 1)%Z.
Definition ULONG_MAX : Z := (2 ^ 64 - 1)%Z.
Definition UINT32_MAX : Z := (2 ^ 32 - 1)%Z.
Definition MILLION : Z := 1000000%Z.

(** Big-endian (network order) encoding of 16 and 32 bit values. *)
Definition be16 (v : Z) : list Z := [Z.shiftr v 8; u8 v].
Definition be32 (v : Z) : list Z :=
  [Z.shiftr v 24; u8 (Z.shiftr v 16); u8 (Z.shiftr v 8); u8 v].
(** [ntohs] of two bytes in memory. *)
Definition rd16 (hi lo : Z) : Z := (hi * 256 + lo)%Z.

Definition byte_ok (b : Z) : Prop := (0 ≤ b < 256)%Z.

#[export] Instance byte_ok_dec b : Decision (byte_ok b).
Proof. unfold byte_ok. apply _. Defined.

Create HintDb perf discriminated.
Create Rewrite HintDb perf_len.

Lemma u8_range z : byte_ok (u8 z).
Proof. unfold byte_ok, u8. apply Z.mod_pos_bound. lia. Qed.
Lemma u8_small z : byte_ok z → u8 z = z.
Proof. intros. apply Z.mod_small. done. Qed.
Lemma u16_range z : (0 ≤ u16 z < 65536)%Z.
Proof. apply Z.mod_pos_bound. lia. Qed.
Lemma u16_small z : (0 ≤ z < 65536)%Z → u16 z = z.
Proof. intros. apply Z.mod_small. done. Qed.
Lemma sumZ_app l1 l2 : sumZ (l1 ++ l2) = (sumZ l1 + sumZ l2)%Z.
Proof. unfold sumZ. induction l1 as [|x l1 IH]; simpl; [done|]. rewrite IH. lia. Qed.

Lemma sumZ_alter l i :
  i < length l → u64 (sumZ (alter (λ c, u64 (c + 1)) i l)) = u64 (sumZ l + 1).
Proof.
  revert i. induction l as [|c l IH]; intros i Hi; [simpl in Hi; lia|]. destruct i as [|i].
  - change (u64 (u64 (c + 1) + sumZ l) = u64 (c + sumZ l + 1)).
    unfold u64. rewrite Zplus_mod_idemp_l. f_equal. lia.
  - simpl in Hi. specialize (IH i ltac:(lia)).
    change (u64 (c + sumZ (alter (λ c, u64 (c + 1)) i l)) = u64 (c + sumZ l + 1)).
    revert IH. generalize (sumZ (alter (λ c, u64 (c + 1)) i l)). intros a IH. unfold u64 in *.
    rewrite Zplus_mod, IH, <- Zplus_mod. f_equal. lia.
Qed.

(** A response code has 4 bits. *)
Lemma rcode_range z : Z.to_nat (Z.land z 15) < 16.
Proof.
  change 15%Z with (Z.ones 4). rewrite Z.land_ones by lia. pose proof (Z.mod_pos_bound z (2 ^ 4) ltac:(lia)). lia.
Qed.

(** Equality modulo 2^32, for counters of different widths. *)
Definition eq32 (a b : Z) : Prop := u32 a = u32 b.
#[export] Instance eq32_equiv : Equivalence eq32.
Proof. unfold eq32. split; congruence. Qed.
#[export] Instance eq32_add : Proper (eq32 ==> eq32 ==> eq32) Z.add.
Proof. unfold eq32, u32. intros a b Hab c d Hcd. by rewrite Zplus_mod, Hab, Hcd, <- Zplus_mod. Qed.
#[export] Instance eq32_sub : Proper (eq32 ==> eq32 ==> eq32) Z.sub.
Proof. unfold eq32, u32. intros a b Hab c d Hcd. by rewrite Zminus_mod, Hab, Hcd, <- Zminus_mod. Qed.
Lemma eq32_u64 z : eq32 (u64 z) z.
Proof. unfold eq32, u32, u64. apply Z.mod_mod_divide. by exists (2 ^ 32)%Z. Qed.
Lemma eq32_s32 z : eq32 (s32 z) z.
Proof. unfold eq32, u32, s32, swrap. rewrite Zminus_mod_idemp_l. f_equal. lia. Qed.

Lemma u64_range z : (0 ≤ u64 z < 2 ^ 64)%Z.
Proof. apply Z.mod_pos_bound. lia. Qed.
Lemma u64_small z : (0 ≤ z < 2 ^ 64)%Z → u64 z = z.
Proof. intros. apply Z.mod_small. done. Qed.
Lemma u32_range z : (0 ≤ u32 z < 2 ^ 32)%Z.
Proof. apply Z.mod_pos_bound. lia. Qed.
Lemma u32_small z : (0 ≤ z < 2 ^ 32)%Z → u32 z = z.
Proof. intros. apply Z.mod_small. done. Qed.

Lemma be16_length v : length (be16 v) = 2.
Proof. done. Qed.
Lemma be32_length v : length (be32 v) = 4.
Proof. done. Qed.
#[export] Hint Rewrite be16_length be32_length : perf_len.

Lemma be16_bytes v : (0 ≤ v < 65536)%Z → Forall byte_ok (be16 v).
Proof.
  intros Hv. unfold be16. rewrite !Forall_cons. split; [|split; [apply u8_range|constructor]].
  unfold byte_ok. rewrite Z.shiftr_div_pow2 by lia.
  split; [apply Z.div_pos; lia | apply Z.div_lt_upper_bound; lia].
Qed.

(** Reading back what was written in network order. *)
Lemma rd16_be16 v : (0 ≤ v)%Z → rd16 (Z.shiftr v 8) (u8 v) = v.
Proof.
  intros. unfold rd16, u8. rewrite Z.shiftr_div_pow2 by lia.
  change (2 ^ 8)%Z with 256%Z. pose proof (Z.div_mod v 256). lia.
Qed.

(** ** Bytes and C strings

    Memory is a list of bytes.  A C string is the memory from a pointer on: it ends
    at the first zero byte, or at the end of the list, which stands for the
    terminating zero of a string literal or argument. *)
Fixpoint bytes (s : string) : list Z :=
  match s with
  | EmptyString => []
  | String c s' => Z.of_N (Ascii.N_of_ascii c) :: bytes s'
  end.

Definition is_digit (c : Z) : bool := bool_decide (48 ≤ c ∧ c ≤ 57)%Z.
(** [isspace] in the C locale. *)
Definition isspace (c : Z) : bool := bool_decide (c = 32 ∨ (9 ≤ c ∧ c ≤ 13))%Z.
(** [tolower] in the C locale. *)
Definition tolower (c : Z) : Z := if decide (65 ≤ c ∧ c ≤ 90)%Z then (c + 32)%Z else c.

Definition char0 (s : list Z) : Z := default 0%Z (head s).

(** [strcspn(s, reject)]. *)
Fixpoint strcspn (s reject : list Z) : nat :=
  match s with
  | [] => 0
  | c :: s' => if decide (c = 0%Z ∨ c ∈ reject) then 0 else S (strcspn s' reject)
  end.

(** The bytes of the C string at the start of [s], and [strlen]. *)
Definition cstr (s : list Z) : list Z := take (strcspn s []) s.
Definition strlen (s : list Z) : nat := strcspn s [].

(** The end of a line of output. *)
Definition nl : list Z := [10]%Z.

(** [strchr(s, c)] for a nonzero [c]: the offset of the first occurrence. *)
Definition strchr (s : list Z) (c : Z) : option nat :=
  let n := strcspn s [c] in
  if decide (s !! n = Some c) then Some n else None.

(** [strncasecmp(a, b, n) == 0] and [strcasecmp(a, b) == 0], [strncmp(a, b, n) == 0],
    [strcmp(a, b) == 0]: one comparison with a fold on the characters. *)
Fixpoint strn_eq (fold : Z → Z) (n : nat) (a b : list Z) : bool :=
  match n with
  | 0 => true
  | S n' =>
      if decide (fold (char0 a) = fold (char0 b)) then
        if decide (char0 a = 0%Z) then true else strn_eq fold n' (tail a) (tail b)
      else false
  end.
Definition strncasecmp_eq (a b : list Z) (n : nat) : bool := strn_eq tolower n a b.
Definition strncmp_eq (a b : list Z) (n : nat) : bool := strn_eq id n a b.
Definition strcmp_eq (a b : list Z) : bool := strn_eq id (S (length a)) a b.
Definition strcasecmp_eq (a b : list Z) : bool := strn_eq tolower (S (length a)) a b.

Fixpoint skip_space (s : list Z) : list Z :=
  match s with
  | c :: s' => if isspace c then skip_space s' else s
  | [] => []
  end.

(** The digits [strtoul] and [strtol] accept. *)
Definition digit_val (c : Z) : option Z :=
  if decide (48 ≤ c ∧ c ≤ 57)%Z then Some (c - 48)%Z
  else if decide (97 ≤ c ∧ c ≤ 122)%Z then Some (c - 87)%Z
  else if decide (65 ≤ c ∧ c ≤ 90)%Z then Some (c - 55)%Z
  else None.

(** The value of the longest prefix of base [base] digits, and its length. *)
Fixpoint strto_digits (base : Z) (s : list Z) (acc : Z) (n : nat) : Z * nat :=
  match s with
  | [] => (acc, n)
  | c :: s' =>
      match digit_val c with
      | Some d => if decide (d < base)%Z then strto_digits base s' (acc * base + d)%Z (S n)
                  else (acc, n)
      | None => (acc, n)
      end
  end.

(** [strtoul(s, &endptr, base)]: the value, [endptr - s], and whether the value was out
    of range ([errno = ERANGE]).  Leading white space and a sign are accepted, a
    negative value wraps around, and no digits means no conversion. *)
Definition strtoul (base : Z) (s : list Z) : Z * nat * bool :=
  let s1 := skip_space s in
  let neg := bool_decide (char0 s1 = 45%Z) in
  let s2 := if decide (char0 s1 = 45%Z ∨ char0 s1 = 43%Z) then tail s1 else s1 in
  let hexp := bool_decide (base = 16%Z ∧ char0 s2 = 48%Z ∧ tolower (char0 (tail s2)) = 120%Z
                           ∧ snd (strto_digits 16 (take 1 (drop 2 s2)) 0 0) = 1%nat) in
  let s3 := if hexp then drop 2 s2 else s2 in
  let '(v, n) := strto_digits base s3 0 0 in
  if decide (n = 0) then (0%Z, 0, false)
  else
    let consumed := length s - length s3 + n in
    if decide (ULONG_MAX < v)%Z then (ULONG_MAX, consumed, true)
    else (if neg then u64 (- v) else v, consumed, false).

(** ** Lists *)
Lemma take_list_inserts {A} i (k l : list A) :
  i + length k ≤ length l → take (i + length k) (list_inserts i k l) = take i l ++ k.
Proof.
  intros Hl. apply list_eq. intros j.
  destruct (decide (j < i + length k)) as [Hj|Hj].
  - rewrite lookup_take_lt by done.
    destruct (decide (j < i)) as [Hji|Hji].
    + rewrite list_lookup_inserts_lt by done.
      rewrite lookup_app_l by (rewrite length_take; lia). by rewrite lookup_take_lt.
    + rewrite list_lookup_inserts by lia.
      rewrite lookup_app_r by (rewrite length_take; lia). rewrite length_take.
      f_equal. lia.
  - rewrite lookup_take_ge by lia. symmetry. apply lookup_ge_None_2.
    rewrite length_app, length_take. lia.
Qed.

(** A comparison of [n] characters depends only on the folded characters. *)
Lemma strn_eq_ext fold n a b b' :
  n ≤ length b → n ≤ length b' → map fold (take n b) = map fold (take n b') →
  strn_eq fold n a b = strn_eq fold n a b'.
Proof.
  revert a b b'. induction n as [|n IH]; intros a b b' Hb Hb' He; [done|].
  destruct b as [|c b], b' as [|c' b']; simpl in *; try lia. injection He as Hc He.
  change (char0 (c :: b)) with c. change (char0 (c' :: b')) with c'.
  repeat case_decide; try congruence. apply IH; [lia|lia|done].
Qed.

Lemma tolower_0 c : tolower c = 0%Z ↔ c = 0%Z.
Proof. unfold tolower. case_decide; lia. Qed.

Lemma strncasecmp_sym n a b : strncasecmp_eq a b n = strncasecmp_eq b a n.
Proof.
  unfold strncasecmp_eq. revert a b. induction n as [|n IH]; intros a b; [done|]. simpl.
  destruct (decide (tolower (char0 a) = tolower (char0 b))) as [He|He].
  - rewrite (decide_True (P := tolower (char0 b) = _)) by done.
    destruct (decide (char0 a = 0%Z)) as [Ha|Ha].
    + rewrite decide_True; [done|]. apply tolower_0. rewrite <- He. by apply tolower_0.
    + rewrite decide_False; [by rewrite IH|]. intros Hb. apply Ha, tolower_0.
      rewrite He. by apply tolower_0.
  - by rewrite decide_False.
Qed.

Lemma strcspn_le s r : strcspn s r ≤ length s.
Proof. induction s as [|c s IH]; simpl; [done|]. case_decide; lia. Qed.

Lemma strcspn_app l s r :
  Forall (λ c, c ≠ 0%Z ∧ c ∉ r) l → strcspn (l ++ s) r = length l + strcspn s r.
Proof.
  induction 1 as [|c l [Hc Hr] Hl IH]; [done|]. simpl. rewrite decide_False by tauto. by rewrite IH.
Qed.

(** [strcspn] does not look past its end, nor past a zero byte. *)
Lemma strcspn_app_lt s t r : strcspn s r < length s → strcspn (s ++ t) r = strcspn s r.
Proof.
  induction s as [|c s IH]; simpl; [lia|]. case_decide; [done|]. intros. rewrite IH; [done|lia].
Qed.
Lemma strcspn_app_0 s t r : strcspn (s ++ 0%Z :: t) r = strcspn s r.
Proof.
  induction s as [|c s IH]; simpl; [done|]. case_decide; [done|]. by rewrite IH.
Qed.

Lemma strchr_app l c s :
  Forall (λ x, x ≠ 0%Z ∧ x ≠ c) l → strchr (l ++ c :: s) c = Some (length l).
Proof.
  intros Hl. unfold strchr. rewrite strcspn_app; cycle 1.
  { eapply Forall_impl; [exact Hl|]. intros x [??]. rewrite list_elem_of_singleton. done. }
  simpl. rewrite (decide_True (P := c = 0%Z ∨ _)) by (right; by apply list_elem_of_singleton).
  rewrite Nat.add_0_r. by rewrite decide_True by (by apply list_lookup_middle).
Qed.

Lemma strlen_nz s : Forall (λ c, c ≠ 0%Z) s → strlen s = length s.
Proof.
  intros H. unfold strlen. rewrite <- (app_nil_r s) at 1. rewrite strcspn_app; [simpl; lia|].
  eapply Forall_impl; [exact H|]. intros c Hc. split; [done|apply not_elem_of_nil].
Qed.

Lemma cstr_id s : Forall (λ c, c ≠ 0%Z) s → cstr s = s.
Proof. intros H. unfold cstr. apply take_ge. fold (strlen s). by rewrite strlen_nz. Qed.

Lemma cstr_nz s : Forall (λ c, c ≠ 0%Z) (cstr s).
Proof.
  unfold cstr. induction s as [|c s IH]; simpl; [constructor|].
  destruct (decide _) as [H|H]; simpl; constructor; [|done]. intros ->. apply H. by left.
Qed.

Lemma skip_space_le s : length (skip_space s) ≤ length s.
Proof. induction s as [|c s IH]; simpl; [done|]. destruct (isspace c); simpl; lia. Qed.

(** ** Decimal numbers in text *)

(** The decimal digits of [n] (at most [fuel] of them), as [printf("%u")] writes them. *)
Fixpoint dec (fuel : nat) (n : Z) : list Z :=
  match fuel with
  | 0 => []
  | S f => if decide (n < 10)%Z then [48 + n]%Z else dec f (n / 10) ++ [48 + n mod 10]%Z
  end.

Lemma digit_val_dec d : (0 ≤ d < 10)%Z → digit_val (48 + d) = Some d.
Proof. intros. unfold digit_val. rewrite decide_True by lia. f_equal. lia. Qed.

Lemma strto_digits_dec fuel n rest acc k :
  (0 ≤ n < 10 ^ Z.of_nat fuel)%Z →
  strto_digits 10 (dec fuel n ++ rest) acc k =
    strto_digits 10 rest (acc * 10 ^ Z.of_nat (length (dec fuel n)) + n)%Z (k + length (dec fuel n)).
Proof.
  revert n rest acc k. induction fuel as [|f IH]; intros n rest acc k Hn.
  - simpl in *. replace n with 0%Z by lia. f_equal; lia.
  - cbn [dec]. case_decide as Hlt.
    + cbn [app length]. cbn [strto_digits]. rewrite digit_val_dec, decide_True by lia.
      f_equal; lia.
    + rewrite Nat2Z.inj_succ, Z.pow_succ_r in Hn by lia.
      pose proof (Z.mod_pos_bound n 10 ltac:(lia)). pose proof (Z.div_mod n 10 ltac:(lia)).
      rewrite <- app_assoc, IH by (split; [apply Z.div_pos|apply Z.div_lt_upper_bound]; lia).
      cbn [app]. cbn [strto_digits]. rewrite digit_val_dec, decide_True by lia.
      rewrite length_app. cbn [length]. rewrite Nat2Z.inj_add, Z.pow_add_r by lia.
      change (10 ^ Z.of_nat 1)%Z with 10%Z. f_equal; lia.
Qed.

Lemma dec_digits fuel n :
  (0 ≤ n)%Z → Forall (λ c, is_digit c = true) (dec fuel n).
Proof.
  revert n. induction fuel as [|f IH]; intros n Hn; simpl; [constructor|].
  pose proof (Z.mod_pos_bound n 10 ltac:(lia)).
  case_decide; [constructor; [|constructor]; apply bool_decide_eq_true_2; lia|].
  apply Forall_app; split; [apply IH, Z.div_pos; lia|].
  constructor; [apply bool_decide_eq_true_2; lia|constructor].
Qed.

Lemma dec_nonempty fuel n : 0 < length (dec (S fuel) n).
Proof. simpl. case_decide; simpl; rewrite ?length_app; simpl; lia. Qed.

(** A number in text ends where no further digit follows. *)
Definition ends_number (rest : list Z) : Prop := is_digit (char0 rest) = false.

Lemma strto_digits_end rest acc k : ends_number rest → strto_digits 10 rest acc k = (acc, k).
Proof.
  destruct rest as [|c rest]; [done|]. unfold ends_number, is_digit, char0. simpl. intros Hc.
  apply bool_decide_eq_false_1 in Hc. unfold digit_val. rewrite decide_False by done.
  destruct (decide (97 ≤ c ∧ c ≤ 122)%Z); [simpl; by rewrite decide_False by lia|].
  destruct (decide (65 ≤ c ∧ c ≤ 90)%Z); [simpl; by rewrite decide_False by lia|done].
Qed.

(** [strtoul] reads a number back. *)
Lemma strtoul_dec fuel n rest :
  (0 ≤ n < 10 ^ Z.of_nat (S fuel))%Z → (n ≤ ULONG_MAX)%Z → ends_number rest →
  strtoul 10 (dec (S fuel) n ++ rest) = (n, length (dec (S fuel) n), false).
Proof.
  intros Hn Hm Hrest. pose proof (dec_digits (S fuel) n ltac:(lia)) as Hd.
  pose proof (dec_nonempty fuel n) as Hl. pose proof (strto_digits_dec (S fuel) n rest 0 0 Hn) as He.
  rewrite (strto_digits_end rest) in He by done.
  remember (dec (S fuel) n ++ rest) as t eqn:Ht.
  assert (48 ≤ char0 t ∧ char0 t ≤ 57)%Z as Hc.
  { subst t. destruct (dec (S fuel) n) as [|c l]; [simpl in Hl; lia|].
    apply Forall_cons in Hd as [Hc _]. by apply bool_decide_eq_true_1 in Hc. }
  assert (skip_space t = t) as Hs.
  { destruct t as [|c l]; [done|]. unfold char0 in Hc. simpl in *.
    unfold isspace. by rewrite bool_decide_eq_false_2 by lia. }
  unfold strtoul. rewrite Hs. rewrite (decide_False (P := _ ∨ _)) by lia.
  rewrite (bool_decide_eq_false_2 (10 = 16 ∧ _)%Z) by lia.
  rewrite (bool_decide_eq_false_2 (char0 _ = _)) by lia.
  rewrite He. rewrite decide_False by lia. rewrite decide_False by lia.
  repeat f_equal; lia.
Qed.

Lemma strto_digits_nonneg base s acc n :
  (0 ≤ base)%Z → (0 ≤ acc)%Z → (0 ≤ fst (strto_digits base s acc n))%Z.
Proof.
  intros Hb. revert acc n. induction s as [|c s IH]; intros acc n Ha; simpl; [done|].
  destruct (digit_val c) as [v|] eqn:Ev; [|done]. case_decide; [|done]. apply IH.
  assert (0 ≤ v)%Z by (unfold digit_val in Ev; repeat case_decide; simplify_eq; lia). nia.
Qed.

Lemma strtoul_nonneg base s u n e : (0 ≤ base)%Z → strtoul base s = (u, n, e) → (0 ≤ u)%Z.
Proof.
  intros Hb. unfold strtoul. set (s3 := if (_ : bool) then _ else _).
  pose proof (strto_digits_nonneg base s3 0 0 Hb ltac:(lia)).
  destruct (strto_digits base s3 0 0) as [v m]. simpl in *.
  destruct (decide (m = 0)); [intros; simplify_eq; lia|].
  destruct (decide (ULONG_MAX < v)%Z); [intros; simplify_eq; unfold ULONG_MAX; lia|].
  intros [= <- <- <-]. pose proof (u64_range (- v)).
  destruct (bool_decide (char0 (skip_space s) = 45%Z)); lia.
Qed.

(** ** Tactics *)

(** Unfold the monad in a goal about a run. *)
Ltac run_unfold :=
  unfold mret, mbind, M_ret, M_bind, run_ret, run_bind, get, put, gets, modify, lift,
    perf_log_fatal in *.
