(* ===== verification/Doubles.v ===== *)
(** * The C type [double]

    IEEE 754 binary64 as the Standard Library specifies it ([SpecFloat]), the conversions C makes
    to and from integers, and formulas over doubles in the form in which the code evaluates
    them. *)

From Stdlib Require Import SpecFloat.
From S2P Require Import Prelude.

Definition double : Type := spec_float.

#[export] Instance double_eq_dec : EqDecision double.
Proof. solve_decision. Defined.

Definition d_zero : double := S754_zero false.
Definition d_add : double → double → double := SFadd 53 1024.
Definition d_sub : double → double → double := SFsub 53 1024.
Definition d_mul : double → double → double := SFmul 53 1024.
Definition d_div : double → double → double := SFdiv 53 1024.
Definition d_sqrt : double → double := SFsqrt 53 1024.

(** The conversion of an integer: the nearest double. *)
Definition d_of_int (n : Z) : double := binary_normalize 53 1024 n 0 false.

(** The integer part of a finite double, and the conversion to [int], which C does not define
    when that is out of range. *)
Definition d_trunc (x : double) : option Z :=
  match x with
  | S754_zero _ => Some 0%Z
  | S754_finite s m e =>
      let v := if decide (0 ≤ e)%Z then Z.shiftl (Z.pos m) e else Z.shiftr (Z.pos m) (- e) in
      Some (if s then (- v)%Z else v)
  | _ => None
  end.
Definition d_to_int (x : double) : run Z :=
  match d_trunc x with
  | Some v => if decide (- 2 ^ 31 ≤ v < 2 ^ 31)%Z then Done v else Undef
  | None => Undef
  end.

(** [x < y] and [x <= y]; both are false when one is not a number. *)
Definition d_lt (x y : double) : Prop := SFltb x y = true.
Definition d_le (x y : double) : Prop := SFleb x y = true.
#[export] Instance d_lt_dec x y : Decision (d_lt x y).
Proof. unfold d_lt. apply _. Defined.
#[export] Instance d_le_dec x y : Decision (d_le x y).
Proof. unfold d_le. apply _. Defined.

(** ** Formulas

    An expression of type [double]; [r_int] is an integer converted and [r_val] a double that the
    program holds in a variable. *)
Inductive real : Type :=
| r_int (n : Z)
| r_val (d : double)
| r_add (x y : real)
| r_sub (x y : real)
| r_mul (x y : real)
| r_div (x y : real)
| r_sqrt (x : real).

Fixpoint eval (r : real) : double :=
  match r with
  | r_int n => d_of_int n
  | r_val d => d
  | r_add x y => d_add (eval x) (eval y)
  | r_sub x y => d_sub (eval x) (eval y)
  | r_mul x y => d_mul (eval x) (eval y)
  | r_div x y => d_div (eval x) (eval y)
  | r_sqrt x => d_sqrt (eval x)
  end.

(** ** The order

    Doubles other than NaN are ordered by a key: their class, the exponent and the mantissa. *)
Definition d_key (x : double) : option (Z * Z * Z) :=
  match x with
  | S754_nan => None
  | S754_infinity s => Some (if s then -2 else 2, 0, 0)%Z
  | S754_zero _ => Some (0, 0, 0)%Z
  | S754_finite true m e => Some (-1, - e, - Z.pos m)%Z
  | S754_finite false m e => Some (1, e, Z.pos m)%Z
  end.
Definition key_lt (a b : Z * Z * Z) : Prop :=
  (a.1.1 < b.1.1 ∨ a.1.1 = b.1.1 ∧ (a.1.2 < b.1.2 ∨ a.1.2 = b.1.2 ∧ a.2 < b.2))%Z.

Lemma key_lt_trans a b c : key_lt a b → key_lt b c → key_lt a c.
Proof. unfold key_lt. lia. Qed.

Lemma compare_mantissa m m' : Pos.compare_cont Eq m m' = Z.compare (Z.pos m) (Z.pos m').
Proof. done. Qed.

Lemma d_lt_key x y : d_lt x y ↔ ∃ a b, d_key x = Some a ∧ d_key y = Some b ∧ key_lt a b.
Proof.
  unfold d_lt, SFltb. split.
  - destruct x as [s|s| |s m e], y as [s'|s'| |s' m' e']; simpl; try done;
      try destruct s; try destruct s'; try done; intros H; eexists _, _; (split; [done|]); (split; [done|]);
      unfold key_lt; simpl; try lia; revert H; rewrite compare_mantissa;
      destruct (Z.compare_spec e e'); try done; try lia; destruct (Z.compare_spec (Z.pos m) (Z.pos m')); try done; lia.
  - intros (a & b & Ha & Hb & H). revert Ha Hb.
    destruct x as [s|s| |s m e], y as [s'|s'| |s' m' e']; simpl; try done;
      try destruct s; try destruct s'; intros [= <-] [= <-]; unfold key_lt in H; simpl in H; try lia; try done;
      rewrite compare_mantissa; destruct (Z.compare_spec e e'); try done; try lia;
      destruct (Z.compare_spec (Z.pos m) (Z.pos m')); try done; lia.
Qed.

Lemma d_lt_trans x y z : d_lt x y → d_lt y z → d_lt x z.
Proof.
  rewrite !d_lt_key. intros (a & b & Ha & Hb & H) (b' & c & Hb' & Hc & H'). simplify_eq.
  eexists _, _. split_and!; [done|done|]. by eapply key_lt_trans.
Qed.

Lemma d_lt_irrefl x : ¬ d_lt x x.
Proof. rewrite d_lt_key. intros (a & b & Ha & Hb & H). simplify_eq. unfold key_lt in H. lia. Qed.

(** ** Signs

    A formula of non-negative numbers is not negative. *)
Definition nonneg (x : double) : Prop :=
  match x with S754_zero s | S754_infinity s | S754_finite s _ _ => s = false | S754_nan => True end.

Lemma round_nonneg m e l : nonneg (binary_round_aux 53 1024 false m e l).
Proof.
  unfold binary_round_aux. destruct (shr_fexp _ _ _ _ _) as [mrs e1]. destruct (shr_fexp _ _ _ _ _) as [mrs' e2].
  destruct (shr_m mrs'); [done| |done]. by destruct (_ <=? _)%Z.
Qed.
Lemma normalize_nonneg m e : (0 ≤ m)%Z → nonneg (binary_normalize 53 1024 m e false).
Proof.
  intros Hm. destruct m as [|m|m]; [done| |lia]. simpl. unfold binary_round.
  destruct (shl_align _ _ _) as [mz ez]. apply round_nonneg.
Qed.
Lemma of_int_nonneg n : (0 ≤ n)%Z → nonneg (d_of_int n).
Proof. apply normalize_nonneg. Qed.
Lemma mul_nonneg x y : nonneg x → nonneg y → nonneg (d_mul x y).
Proof.
  destruct x as [s|s| |s m e], y as [s'|s'| |s' m' e']; simpl; intros; subst; try done. apply round_nonneg.
Qed.
Lemma div_nonneg x y : nonneg x → nonneg y → nonneg (d_div x y).
Proof.
  destruct x as [s|s| |s m e], y as [s'|s'| |s' m' e']; cbn [nonneg]; intros; subst; try done.
  unfold d_div, SFdiv. destruct (SFdiv_core_binary _ _ _ _ _ _) as [[mz ez] lz]. apply round_nonneg.
Qed.
Lemma add_nonneg x y : nonneg x → nonneg y → nonneg (d_add x y).
Proof.
  destruct x as [s|s| |s m e], y as [s'|s'| |s' m' e']; cbn [nonneg]; intros; subst; try done.
  unfold d_add, SFadd. apply normalize_nonneg. simpl. lia.
Qed.
Lemma to_int_nonneg x n : nonneg x → d_to_int x = Done n → (0 ≤ n < 2 ^ 31)%Z.
Proof.
  unfold d_to_int. intros Hx. destruct (d_trunc x) as [v|] eqn:E; [|done]. destruct (decide _); [|done]. intros [= <-].
  split; [|lia]. destruct x as [s|s| |s m e]; simpl in *; try done; [by injection E as <-|]. subst s. injection E as <-.
  destruct (decide (0 ≤ e)%Z); [rewrite Z.shiftl_nonneg|rewrite Z.shiftr_nonneg]; lia.
Qed.
Lemma to_int_cases x : match d_to_int x with Done _ | Undef => True | _ => False end.
Proof. unfold d_to_int. destruct (d_trunc x); [|done]. by destruct (decide _). Qed.

Create HintDb nonneg discriminated.
#[export] Hint Resolve of_int_nonneg mul_nonneg div_nonneg add_nonneg : nonneg.
#[export] Hint Extern 1 (_ ≤ _)%Z => lia : nonneg.

(** Some conversions, products and quotients. *)
Example d_examples :
  d_to_int (d_of_int 1000000) = Done 1000000%Z ∧
  d_to_int (d_mul (d_of_int (-7)) (d_div (d_of_int 1) (d_of_int 2))) = Done (-3)%Z ∧
  d_to_int (d_of_int (2 ^ 31)) = Undef ∧
  d_of_int (2 ^ 53 + 1) = d_of_int (2 ^ 53).
Proof. vm_compute. done. Qed.
