(* ===== verification/Buffer.v ===== *)
(** * The message buffers of buffer.h

    A [perf_buffer] is a window of [pb_length] bytes on an array [pb_base] (which may be
    longer), filled from the front: [pb_used] bytes are in use.  The macros that write
    assert that there is room and store at [pb_base + pb_used].

    The abstract view of a buffer is the byte string [contents] together with its
    capacity; [buffer_ops_refine] shows that a sequence of writes either appends the
    big-endian encodings in order or fails the assertion at the first write that does
    not fit, and that no write ever leaves the array. *)

From S2P Require Import Prelude.

Record perf_buffer : Type := PerfBuffer {
  pb_base : list Z;
  pb_length : nat;
  pb_used : nat;
  pb_current : nat;
  pb_active : nat;
}.

(** A region is its bytes: [base .. base + length). *)
Definition perf_region : Type := list Z.

Definition perf_buffer_init (base : list Z) (len : nat) : perf_buffer :=
  PerfBuffer base len 0 0 0.

Definition perf_buffer_availablelength (b : perf_buffer) : nat := pb_length b - pb_used b.

Definition perf_buffer_usedlength (b : perf_buffer) : nat := pb_used b.

Definition perf_buffer_clear (b : perf_buffer) : perf_buffer :=
  PerfBuffer (pb_base b) (pb_length b) 0 0 0.

Definition perf_buffer_usedregion (b : perf_buffer) : perf_region := take (pb_used b) (pb_base b).

Definition set_used (b : perf_buffer) (u : nat) : perf_buffer :=
  PerfBuffer (pb_base b) (pb_length b) u (pb_current b) (pb_active b).

Definition set_base (b : perf_buffer) (m : list Z) : perf_buffer :=
  PerfBuffer m (pb_length b) (pb_used b) (pb_current b) (pb_active b).

Definition perf_buffer_add (n : nat) : M perf_buffer unit :=
  b ← get;
  assert (pb_used b + n ≤ pb_length b);;
  put (set_used b (pb_used b + n)).

(** A store of [bs] at [base + off]: outside of the array it is undefined. *)
Definition store (off : nat) (bs : list Z) : M perf_buffer unit :=
  λ b, if decide (off + length bs ≤ length (pb_base b))
       then Done ((), set_base b (list_inserts off bs (pb_base b)))
       else Undef.

Definition perf_buffer_putmem (bs : list Z) : M perf_buffer unit :=
  b ← get;
  assert (length bs ≤ perf_buffer_availablelength b);;
  store (pb_used b) bs;;
  perf_buffer_add (length bs).

Definition perf_buffer_putuint8 (val : Z) : M perf_buffer unit :=
  let val2 := u8 val in
  b ← get;
  assert (1 ≤ perf_buffer_availablelength b);;
  put (set_used b (pb_used b + 1));;
  store (pb_used b) [val2].

Definition perf_buffer_putuint16 (val : Z) : M perf_buffer unit :=
  let val2 := u16 val in
  b ← get;
  assert (2 ≤ perf_buffer_availablelength b);;
  put (set_used b (pb_used b + 2));;
  store (pb_used b) [u8 (Z.shiftr val2 8)];;
  store (pb_used b + 1) [u8 val2].

Definition perf_buffer_putuint32 (val : Z) : M perf_buffer unit :=
  let val2 := u32 val in
  b ← get;
  assert (4 ≤ perf_buffer_availablelength b);;
  put (set_used b (pb_used b + 4));;
  store (pb_used b) [u8 (Z.shiftr val2 24)];;
  store (pb_used b + 1) [u8 (Z.shiftr val2 16)];;
  store (pb_used b + 2) [u8 (Z.shiftr val2 8)];;
  store (pb_used b + 3) [u8 val2].

(** [base[i]++] on an [unsigned char* base = perf_buffer_base(b)]. *)
Definition incr_byte (i : nat) : M perf_buffer unit :=
  λ b, match pb_base b !! i with
       | Some v => Done ((), set_base b (<[i := u8 (v + 1)]> (pb_base b)))
       | None => Undef
       end.

(** ** The abstract view *)

Definition contents (b : perf_buffer) : list Z := take (pb_used b) (pb_base b).

Definition buffer_wf (b : perf_buffer) : Prop :=
  pb_used b ≤ pb_length b ∧ pb_length b ≤ length (pb_base b).

(** The buffer after [bs] has been appended to it. *)
Definition push (bs : list Z) (b : perf_buffer) : perf_buffer :=
  PerfBuffer (list_inserts (pb_used b) bs (pb_base b)) (pb_length b)
    (pb_used b + length bs) (pb_current b) (pb_active b).

Definition room (b : perf_buffer) (n : nat) : Prop := pb_used b + n ≤ pb_length b.
#[export] Instance room_dec b n : Decision (room b n).
Proof. unfold room. apply _. Defined.

Lemma push_used bs b : pb_used (push bs b) = pb_used b + length bs.
Proof. done. Qed.
Lemma push_length bs b : pb_length (push bs b) = pb_length b.
Proof. done. Qed.
Lemma contents_length b : buffer_wf b → length (contents b) = pb_used b.
Proof. intros [??]. unfold contents. rewrite length_take. lia. Qed.

Lemma push_nil b : push [] b = b.
Proof. destruct b. unfold push. simpl. by rewrite Nat.add_0_r. Qed.

Lemma push_app bs1 bs2 b : push bs2 (push bs1 b) = push (bs1 ++ bs2) b.
Proof.
  unfold push. simpl. rewrite list_inserts_app_l, length_app.
  f_equal; [f_equal|]; lia.
Qed.

Lemma push_wf bs b : buffer_wf b → room b (length bs) → buffer_wf (push bs b).
Proof.
  unfold buffer_wf, room. intros [??] ?. simpl. rewrite length_inserts. lia.
Qed.

Lemma contents_push bs b :
  buffer_wf b → room b (length bs) → contents (push bs b) = contents b ++ bs.
Proof.
  unfold buffer_wf, room, contents. intros [??] ?. simpl.
  apply take_list_inserts. lia.
Qed.

(** What was written before a push stays readable through the base pointer. *)
Lemma base_push_take n bs b :
  n ≤ pb_used b → take n (pb_base (push bs b)) = take n (contents b).
Proof.
  intros Hn. unfold contents. rewrite take_take, Nat.min_l by done. simpl. apply list_eq. intros i.
  destruct (decide (i < n)); [|by rewrite !lookup_take_ge by lia].
  rewrite !lookup_take_lt by done. apply list_lookup_inserts_lt. lia.
Qed.

Lemma push_room bs b n : room b (length bs + n) ↔ room (push bs b) n.
Proof. unfold room. simpl. lia. Qed.

Lemma room_push bs b n m : room b m → length bs + n ≤ m → room (push bs b) n.
Proof. unfold room. simpl. lia. Qed.

Lemma room_le b n m : n ≤ m → room b m → room b n.
Proof. unfold room. lia. Qed.

#[export] Hint Resolve push_wf : perf.
#[export] Hint Rewrite push_used push_length @length_app @length_cons @length_nil : perf_len.

(** An empty buffer of [n] bytes. *)
Definition test_buffer (n : nat) : perf_buffer := perf_buffer_init (replicate n 0%Z) n.

Lemma test_buffer_wf n : buffer_wf (test_buffer n).
Proof. split; simpl; [lia|]. by rewrite length_replicate. Qed.

(** ** The writes append *)

Lemma add_spec n b :
  perf_buffer_add n b =
    if decide (room b n) then Done ((), set_used b (pb_used b + n)) else Abort.
Proof.
  unfold perf_buffer_add, assert. run_unfold.
  destruct (decide (room b n)) as [Hr|Hr]; unfold room in Hr.
  - by rewrite decide_True.
  - by rewrite decide_False.
Qed.

Lemma store_ok off bs b :
  off + length bs ≤ length (pb_base b) →
  store off bs b = Done ((), set_base b (list_inserts off bs (pb_base b))).
Proof. intros. unfold store. by rewrite decide_True. Qed.

Lemma putmem_spec bs b :
  buffer_wf b →
  perf_buffer_putmem bs b = if decide (room b (length bs)) then Done ((), push bs b) else Abort.
Proof.
  intros [Hu Hl]. unfold perf_buffer_putmem, assert, perf_buffer_availablelength. run_unfold.
  destruct (decide (room b (length bs))) as [Hr|Hr]; unfold room in Hr.
  - rewrite decide_True by lia. rewrite store_ok by lia.
    rewrite add_spec. rewrite decide_True by done. done.
  - by rewrite decide_False by lia.
Qed.

Lemma put8_spec v b :
  buffer_wf b →
  perf_buffer_putuint8 v b = if decide (room b 1) then Done ((), push [u8 v] b) else Abort.
Proof.
  intros [Hu Hl]. unfold perf_buffer_putuint8, assert, perf_buffer_availablelength. run_unfold.
  destruct (decide (room b 1)) as [Hr|Hr]; unfold room in Hr.
  - rewrite decide_True by lia. rewrite store_ok by (simpl; lia). done.
  - by rewrite decide_False by lia.
Qed.

Lemma shiftr_u8 v n w :
  (0 ≤ n)%Z → (0 ≤ v < 2 ^ (n + 8))%Z → w = n → u8 (Z.shiftr v w) = Z.shiftr v n.
Proof.
  intros Hn Hv ->. apply u8_small. unfold byte_ok. rewrite Z.shiftr_div_pow2 by done.
  rewrite Z.pow_add_r in Hv by lia.
  split; [apply Z.div_pos; lia | apply Z.div_lt_upper_bound; lia].
Qed.

(** Two stores side by side are one store. *)
Lemma inserts_adjacent (u n : nat) (bs1 bs2 m : list Z) :
  n = u + length bs1 →
  list_inserts n bs2 (list_inserts u bs1 m) = list_inserts u (bs1 ++ bs2) m.
Proof. intros ->. rewrite list_inserts_app_l. by rewrite Nat.add_comm. Qed.

Lemma put16_spec v b :
  buffer_wf b →
  perf_buffer_putuint16 v b = if decide (room b 2) then Done ((), push (be16 (u16 v)) b) else Abort.
Proof.
  intros [Hu Hl]. unfold perf_buffer_putuint16, assert, perf_buffer_availablelength. run_unfold.
  destruct (decide (room b 2)) as [Hr|Hr]; unfold room in Hr.
  - pose proof (u16_range v). rewrite decide_True by lia.
    do 2 rewrite store_ok by (cbn [pb_base set_base set_used]; rewrite ?length_inserts; cbn [length]; lia).
    unfold set_base, set_used, push, be16; cbn [pb_base pb_length pb_used pb_current pb_active].
    rewrite inserts_adjacent by (simpl; lia). by rewrite (shiftr_u8 _ 8) by lia.
  - by rewrite decide_False by lia.
Qed.

Lemma put32_spec v b :
  buffer_wf b →
  perf_buffer_putuint32 v b = if decide (room b 4) then Done ((), push (be32 (u32 v)) b) else Abort.
Proof.
  intros [Hu Hl]. unfold perf_buffer_putuint32, assert, perf_buffer_availablelength. run_unfold.
  destruct (decide (room b 4)) as [Hr|Hr]; unfold room in Hr.
  - pose proof (u32_range v). rewrite decide_True by lia.
    do 4 rewrite store_ok by (cbn [pb_base set_base set_used]; rewrite ?length_inserts; cbn [length]; lia).
    unfold set_base, set_used, push, be32; cbn [pb_base pb_length pb_used pb_current pb_active].
    do 3 rewrite inserts_adjacent by (simpl; lia). by rewrite (shiftr_u8 _ 24) by lia.
  - by rewrite decide_False by lia.
Qed.

(** *** Writes in sequence

    A function that writes several items is run symbolically on [push acc b], where [acc]
    is what it has written so far. *)
Section bind_writes.
Context {A : Type} (acc : list Z) (b : perf_buffer).
Context (Hwf : buffer_wf b).

Lemma bind_write m w (k : unit → M perf_buffer A) :
  (∀ b', buffer_wf b' → m b' = if decide (room b' (length w)) then Done ((), push w b') else Abort) →
  room b (length acc + length w) → (m ≫= k) (push acc b) = k () (push (acc ++ w) b).
Proof using Hwf.
  intros Hm Hr. apply bind_Done. rewrite Hm.
  - rewrite decide_True by (by apply push_room). by rewrite push_app.
  - apply push_wf; [done|]. eapply room_le; [|exact Hr]. lia.
Qed.

Lemma bind_putmem bs (k : unit → M perf_buffer A) :
  room b (length acc + length bs) →
  (perf_buffer_putmem bs ≫= k) (push acc b) = k () (push (acc ++ bs) b).
Proof using Hwf. apply (bind_write _ _ k). intros. by apply putmem_spec. Qed.
Lemma bind_put8 v (k : unit → M perf_buffer A) :
  room b (length acc + 1) →
  (perf_buffer_putuint8 v ≫= k) (push acc b) = k () (push (acc ++ [u8 v]) b).
Proof using Hwf. apply (bind_write _ [u8 v] k). intros. by apply put8_spec. Qed.
Lemma bind_put16 v (k : unit → M perf_buffer A) :
  room b (length acc + 2) →
  (perf_buffer_putuint16 v ≫= k) (push acc b) = k () (push (acc ++ be16 (u16 v)) b).
Proof using Hwf. apply (bind_write _ (be16 (u16 v)) k). intros. by apply put16_spec. Qed.
Lemma bind_put32 v (k : unit → M perf_buffer A) :
  room b (length acc + 4) →
  (perf_buffer_putuint32 v ≫= k) (push acc b) = k () (push (acc ++ be32 (u32 v)) b).
Proof using Hwf. apply (bind_write _ (be32 (u32 v)) k). intros. by apply put32_spec. Qed.
End bind_writes.

(** Run one write of a goal [(write ≫= k) (push acc b) = _]; the room is left to [lia]. *)
Ltac push_write :=
  first [rewrite bind_put8 | rewrite bind_put16 | rewrite bind_put32 | rewrite bind_putmem];
  [ | assumption | unfold room in *; autorewrite with perf_len; simpl; lia ].

(** [base[i]++] on written data. *)
Lemma incr_byte_spec i b v :
  buffer_wf b → contents b !! i = Some v →
  ∃ b', incr_byte i b = Done ((), b') ∧ contents b' = <[i := u8 (v + 1)]> (contents b) ∧
        buffer_wf b' ∧ pb_length b' = pb_length b ∧ pb_used b' = pb_used b.
Proof.
  intros [Hu Hl] Hi. unfold contents in *. apply lookup_take_Some in Hi as [Hv Hi].
  unfold incr_byte. rewrite Hv. eexists; split; [done|]. unfold buffer_wf. simpl.
  rewrite length_insert. split_and!; try done. by rewrite take_insert_lt.
Qed.

(** A record appended to a message whose header counts it in the low byte of ARCOUNT. *)
Lemma append_record rec p v :
  buffer_wf p → contents p !! 11 = Some v → room p (length rec) →
  ∃ p', (incr_byte 11;; mret PERF_R_SUCCESS) (push rec p) = Done (PERF_R_SUCCESS, p') ∧
        buffer_wf p' ∧ pb_length p' = pb_length p ∧
        contents p' = <[11 := u8 (v + 1)]> (contents p) ++ rec.
Proof.
  intros Hwf Hv Hr.
  assert (contents (push rec p) = contents p ++ rec) as Hc by (by apply contents_push).
  destruct (incr_byte_spec 11 (push rec p) v) as (p' & Hincr & Hc' & Hwf' & Hlen' & _).
  { by apply push_wf. }
  { rewrite Hc. by apply lookup_app_l_Some. }
  exists p'. rewrite (bind_Done _ _ _ _ _ Hincr). split_and!; [done|done|done|].
  rewrite Hc', Hc. apply insert_app_l. by apply lookup_lt_Some in Hv.
Qed.

(** ** A sequence of writes *)

Inductive buf_write : Type :=
| WMem (bs : list Z)
| W8 (v : Z)
| W16 (v : Z)
| W32 (v : Z).

Definition do_write (w : buf_write) : M perf_buffer unit :=
  match w with
  | WMem bs => perf_buffer_putmem bs
  | W8 v => perf_buffer_putuint8 v
  | W16 v => perf_buffer_putuint16 v
  | W32 v => perf_buffer_putuint32 v
  end.

Fixpoint do_writes (ws : list buf_write) : M perf_buffer unit :=
  match ws with
  | [] => mret ()
  | w :: ws' => do_write w;; do_writes ws'
  end.

(** What a write appends: memory as it is, integers in network order. *)
Definition encode (w : buf_write) : list Z :=
  match w with
  | WMem bs => bs
  | W8 v => [u8 v]
  | W16 v => be16 (u16 v)
  | W32 v => be32 (u32 v)
  end.

(** The abstract buffer: a byte string bounded by its capacity. *)
Fixpoint spec_writes (cap : nat) (bs : list Z) (ws : list buf_write) : option (list Z) :=
  match ws with
  | [] => Some bs
  | w :: ws' =>
      let bs' := bs ++ encode w in
      if decide (length bs' ≤ cap) then spec_writes cap bs' ws' else None
  end.

Lemma do_write_spec w b :
  buffer_wf b →
  do_write w b = if decide (room b (length (encode w))) then Done ((), push (encode w) b) else Abort.
Proof.
  intros. destruct w; simpl;
    [by apply putmem_spec | by apply put8_spec | by apply put16_spec | by apply put32_spec].
Qed.

(** The writes of a computation whose data fit: they push their encodings. *)
Lemma do_writes_push ws b :
  buffer_wf b → room b (length (concat (map encode ws))) →
  do_writes ws b = Done ((), push (concat (map encode ws)) b).
Proof.
  revert b. induction ws as [|w ws IH]; intros b Hwf Hr; simpl.
  - by rewrite push_nil.
  - run_unfold. rewrite do_write_spec by done. simpl in Hr. rewrite length_app in Hr.
    rewrite decide_True by (eapply room_le; [|done]; lia).
    rewrite IH; [by rewrite push_app | |].
    + apply push_wf; [done|]. eapply room_le; [|done]; lia.
    + by apply push_room.
Qed.

Lemma spec_writes_prefix cap bs ws bs' :
  spec_writes cap bs ws = Some bs' → bs `prefix_of` bs'.
Proof.
  revert bs. induction ws as [|w ws IH]; intros bs; simpl; [by intros [= ->]|].
  case_decide; [|done]. intros H'%IH. by eapply prefix_app_l.
Qed.

(** a sequence of buffer writes refines the abstract bounded byte string: when all
    encodings fit they are appended in order in network byte order, otherwise the
    assertion of the first write that does not fit stops the program; memory outside of
    the buffer is never touched and the capacity never changes. *)
Theorem buffer_ops_refine ws b :
  buffer_wf b →
  match spec_writes (pb_length b) (contents b) ws with
  | Some bs => ∃ b', do_writes ws b = Done ((), b') ∧ buffer_wf b' ∧
                     pb_length b' = pb_length b ∧ contents b' = bs ∧
                     drop (pb_used b') (pb_base b') = drop (pb_used b') (pb_base b)
  | None => do_writes ws b = Abort
  end.
Proof.
  revert b. induction ws as [|w ws IH]; intros b Hwf; simpl.
  - eauto 10.
  - rewrite length_app, contents_length by done. run_unfold. rewrite do_write_spec by done.
    destruct (decide (room b (length (encode w)))) as [Hc|Hc];
      [rewrite decide_True by done | by rewrite decide_False].
    specialize (IH (push (encode w) b) (push_wf _ _ Hwf Hc)).
    rewrite contents_push in IH by done. simpl in IH.
    destruct (spec_writes _ _ ws) as [bs|] eqn:Hspec; [|done].
    destruct IH as (b' & Hdo & Hwf' & Hlen & Hcon & Hdrop). exists b'.
    split_and!; try done. rewrite Hdrop. apply list_eq. intros i.
    assert (pb_used (push (encode w) b) ≤ pb_used b') as Hle.
    { rewrite <- (contents_length b'), Hcon by done. simpl.
      rewrite <- (contents_length b), <- length_app by done.
      eapply prefix_length, spec_writes_prefix, Hspec. }
    rewrite !lookup_drop. simpl in Hle |- *. rewrite list_lookup_inserts_ge by lia. done.
Qed.

Lemma buffer_ops_refine_witness :
  ∃ b', do_writes [W16 0x1234; WMem [7; 8]%Z; W8 300] (test_buffer 5) = Done ((), b') ∧ buffer_wf b' ∧
        pb_length b' = 5 ∧ contents b' = [0x12; 0x34; 7; 8; 44]%Z ∧
        drop (pb_used b') (pb_base b') = drop (pb_used b') (replicate 5 0%Z).
Proof.
  exact (buffer_ops_refine [W16 0x1234; WMem [7; 8]%Z; W8 300] (test_buffer 5) (test_buffer_wf 5)).
Defined.
