(* ===== verification/LinkedList.v ===== *)
(** * The intrusive doubly linked lists of list.h

    The [_link] field of node [n] (an entry of the [queries] array of dnsperf and
    resperf) is [st !! n]; a list is its [head] and [tail] pointers.  [dll l st xs]
    says that [l] and the links in [st] represent the sequence [xs] of nodes.  The
    refinement lemmas show that append, prepend and unlink act on that sequence as
    [xs ++ [n]], [n :: xs] and the removal of [n], that the assertions of unlink hold,
    and that no link of a node outside of the list is changed: two lists that share
    the array, as the used and unused queries do, do not disturb each other. *)

From S2P Require Import Prelude.

Record link : Type := Link { lk_prev : option nat; lk_next : option nat }.

Record perf_list : Type := PerfList { pl_head : option nat; pl_tail : option nat }.

#[export] Instance link_eq_dec : EqDecision link.
Proof. solve_decision. Defined.
#[export] Instance perf_list_eq_dec : EqDecision perf_list.
Proof. solve_decision. Defined.

(** ** Operations *)

Definition deref (n : nat) (st : gmap nat link) : run link :=
  match st !! n with Some lk => Done lk | None => Undef end.

Definition set_next (n : nat) (v : option nat) (st : gmap nat link) : run (gmap nat link) :=
  lk ← deref n st; Done (<[n := Link (lk_prev lk) v]> st).

Definition set_prev (n : nat) (v : option nat) (st : gmap nat link) : run (gmap nat link) :=
  lk ← deref n st; Done (<[n := Link v (lk_next lk)]> st).

Definition perf_link_init (n : nat) (st : gmap nat link) : gmap nat link :=
  <[n := Link None None]> st.

Definition perf_list_init : perf_list := PerfList None None.

Definition perf_list_empty (l : perf_list) : bool := bool_decide (pl_head l = None).

Definition perf_list_append (l : perf_list) (n : nat) (st : gmap nat link)
    : run (perf_list * gmap nat link) :=
  '(h, st1) ← match pl_tail l with
              | Some t => st1 ← set_next t (Some n) st; Done (pl_head l, st1)
              | None => Done (Some n, st)
              end;
  st2 ← set_prev n (pl_tail l) st1;
  st3 ← set_next n None st2;
  Done (PerfList h (Some n), st3).

Definition perf_list_prepend (l : perf_list) (n : nat) (st : gmap nat link)
    : run (perf_list * gmap nat link) :=
  '(t, st1) ← match pl_head l with
              | Some h => st1 ← set_prev h (Some n) st; Done (pl_tail l, st1)
              | None => Done (Some n, st)
              end;
  st2 ← set_prev n None st1;
  st3 ← set_next n (pl_head l) st2;
  Done (PerfList (Some n) t, st3).

Definition perf_list_unlink (l : perf_list) (n : nat) (st : gmap nat link)
    : run (perf_list * gmap nat link) :=
  lk ← deref n st;
  '(l1, st1) ← match lk_next lk with
               | Some x => st1 ← set_prev x (lk_prev lk) st; Done (l, st1)
               | None => if decide (pl_tail l = Some n)
                         then Done (PerfList (pl_head l) (lk_prev lk), st) else Abort
               end;
  lk1 ← deref n st1;
  '(l2, st2) ← match lk_prev lk1 with
               | Some p => st2 ← set_next p (lk_next lk1) st1; Done (l1, st2)
               | None => if decide (pl_head l1 = Some n)
                         then Done (PerfList (lk_next lk1) (pl_tail l1), st1) else Abort
               end;
  st3 ← set_next n None st2;
  st4 ← set_prev n None st3;
  if decide (pl_head l2 ≠ Some n ∧ pl_tail l2 ≠ Some n) then Done (l2, st4) else Abort.

(** ** Representation *)

Definition hd_or (xs : list nat) (q : option nat) : option nat :=
  match xs with [] => q | x :: _ => Some x end.

Definition last_or (p : option nat) (xs : list nat) : option nat :=
  match last xs with None => p | Some x => Some x end.

(** A segment: [p] is before its first node, [q] after its last one. *)
Fixpoint seg (st : gmap nat link) (p : option nat) (xs : list nat) (q : option nat) : Prop :=
  match xs with
  | [] => True
  | x :: xs' => st !! x = Some (Link p (hd_or xs' q)) ∧ seg st (Some x) xs' q
  end.

Definition dll (l : perf_list) (st : gmap nat link) (xs : list nat) : Prop :=
  NoDup xs ∧ pl_head l = head xs ∧ pl_tail l = last xs ∧ seg st None xs None.

Lemma hd_or_app xs ys q : hd_or (xs ++ ys) q = hd_or xs (hd_or ys q).
Proof. by destruct xs. Qed.

Lemma last_or_cons p x xs : last_or p (x :: xs) = last_or (Some x) xs.
Proof. unfold last_or. rewrite last_cons. by destruct (last xs). Qed.

Lemma last_or_snoc p xs x : last_or p (xs ++ [x]) = Some x.
Proof. unfold last_or. by rewrite last_snoc. Qed.

Lemma seg_app st p xs ys q :
  seg st p (xs ++ ys) q ↔ seg st p xs (hd_or ys q) ∧ seg st (last_or p xs) ys q.
Proof.
  revert p. induction xs as [|x xs IH]; intros p; simpl; [by split; [|intros []]|].
  rewrite last_or_cons, hd_or_app, IH. tauto.
Qed.

(** Only the links of its own nodes matter to a segment. *)
Lemma seg_frame st st' p xs q :
  (∀ x, x ∈ xs → st' !! x = st !! x) → seg st p xs q → seg st' p xs q.
Proof.
  revert p. induction xs as [|x xs IH]; intros p Hf; simpl; [done|].
  intros [Hx Hs]. split; [rewrite Hf; set_solver|].
  apply IH; [|done]. intros. apply Hf. set_solver.
Qed.

Lemma dll_frame l st st' xs :
  (∀ x, x ∈ xs → st' !! x = st !! x) → dll l st xs → dll l st' xs.
Proof. intros Hf (?&?&?&?). split_and!; try done. by eapply seg_frame. Qed.

Lemma dll_nil st : dll perf_list_init st [].
Proof. repeat split; try done. constructor. Qed.

Lemma dll_empty l st xs : dll l st xs → perf_list_empty l = bool_decide (xs = []).
Proof.
  intros (_&Hh&_). unfold perf_list_empty. apply bool_decide_ext. rewrite Hh. by destruct xs.
Qed.

Lemma dll_elem_dom l st xs x : dll l st xs → x ∈ xs → is_Some (st !! x).
Proof.
  intros (_&_&_&Hs) (a&b&->)%list_elem_of_split. apply seg_app in Hs as [_ [Hx _]]. eauto.
Qed.

(** ** Refinement *)

(** What an operation may change: the links of [xs] and of [n], nothing else. *)
Definition link_frame (st st' : gmap nat link) (xs : list nat) (n : nat) : Prop :=
  (∀ x, x ∉ xs → x ≠ n → st' !! x = st !! x) ∧ dom st' = dom st.

Ltac list_op :=
  unfold set_next, set_prev, deref, mbind, run_bind; simplify_map_eq.

Lemma append_spec l st xs n :
  dll l st xs → n ∉ xs → is_Some (st !! n) →
  ∃ l' st', perf_list_append l n st = Done (l', st') ∧ dll l' st' (xs ++ [n]) ∧
            link_frame st st' xs n.
Proof.
  intros (Hnd & Hh & Ht & Hs) Hn [lk Hlk]. unfold perf_list_append.
  destruct xs as [|t ys _] using rev_ind.
  - rewrite Ht. simpl. list_op. eexists _, _. split; [done|]. split.
    + split_and!; simpl; try done; [by apply NoDup_singleton|]. by simplify_map_eq.
    + split; [intros x _ ?; by simplify_map_eq|]. rewrite !dom_insert_lookup_L; simplify_map_eq; eauto.
  - rewrite Ht, last_snoc. apply seg_app in Hs as [Hys [Hst _]]. simpl in *.
    assert (n ≠ t) by set_solver. list_op.
    eexists _, _. split; [done|]. split.
    + split_and!; simpl.
      * apply NoDup_app. split_and!; [done|set_solver|apply NoDup_singleton].
      * rewrite Hh. by destruct ys.
      * by rewrite last_snoc.
      * apply NoDup_app in Hnd as (_&Hd&_).
        rewrite !seg_app, last_or_snoc. simpl. simplify_map_eq. split_and!; try done.
        eapply seg_frame, Hys. intros x Hx.
        assert (x ≠ t) by (intros ->; apply (Hd t); set_solver).
        assert (x ≠ n) by set_solver. by simplify_map_eq.
    + split; [intros x Hx ?; assert (x ≠ t) by set_solver; by simplify_map_eq|].
      rewrite !dom_insert_lookup_L; simplify_map_eq; eauto.
Qed.

Lemma prepend_spec l st xs n :
  dll l st xs → n ∉ xs → is_Some (st !! n) →
  ∃ l' st', perf_list_prepend l n st = Done (l', st') ∧ dll l' st' (n :: xs) ∧
            link_frame st st' xs n.
Proof.
  intros (Hnd & Hh & Ht & Hs) Hn [lk Hlk]. unfold perf_list_prepend.
  destruct xs as [|h ys]; simpl in *.
  - rewrite Hh. list_op. eexists _, _. split; [done|]. split.
    + split_and!; simpl; try done; [by apply NoDup_singleton|]. by simplify_map_eq.
    + split; [intros x _ ?; by simplify_map_eq|]. rewrite !dom_insert_lookup_L; simplify_map_eq; eauto.
  - rewrite Hh. destruct Hs as [Hst Hys]. assert (n ≠ h) by set_solver. list_op.
    eexists _, _. split; [done|]. split.
    + split_and!; simpl; simplify_map_eq; split_and?; try done.
      * by apply NoDup_cons.
      * eapply seg_frame, Hys. intros x Hx. apply NoDup_cons in Hnd as [??].
        assert (x ≠ h) by (intros ->; set_solver). assert (x ≠ n) by set_solver.
        by simplify_map_eq.
    + split; [intros x Hx ?; assert (x ≠ h) by set_solver; by simplify_map_eq|].
      rewrite !dom_insert_lookup_L; simplify_map_eq; eauto.
Qed.

(** The last node of a segment is given a new successor, the first a new predecessor. *)
Lemma seg_relink_last st p xs z q q' :
  z ∉ xs → seg st p (xs ++ [z]) q → seg (<[z := Link (last_or p xs) q']> st) p (xs ++ [z]) q'.
Proof.
  intros Hz. rewrite !seg_app. simpl. intros [Hxs [Hst _]]. simplify_map_eq. split_and!; try done.
  eapply seg_frame, Hxs. intros x Hx. assert (x ≠ z) by set_solver. by simplify_map_eq.
Qed.

Lemma seg_relink_first st p p' y ys q :
  y ∉ ys → seg st p (y :: ys) q → seg (<[y := Link p' (hd_or ys q)]> st) p' (y :: ys) q.
Proof.
  simpl. intros Hy [Hst Hys]. simplify_map_eq. split; [done|].
  eapply seg_frame, Hys. intros x Hx. assert (x ≠ y) by set_solver. by simplify_map_eq.
Qed.

(** The links of the nodes other than [n] after [n] was taken out from between [xs] and
    [ys]: the neighbours of [n] point at each other. *)
Definition bypass (st : gmap nat link) (xs : list nat) (ys : list nat) : gmap nat link :=
  let st1 := match ys with
             | [] => st
             | y :: ys' => <[y := Link (last xs) (hd_or ys' None)]> st
             end in
  match last xs with
  | None => st1
  | Some p => match st1 !! p with
              | Some lk => <[p := Link (lk_prev lk) (hd_or ys None)]> st1
              | None => st1
              end
  end.

Lemma bypass_seg st xs n ys :
  NoDup (xs ++ n :: ys) → seg st None (xs ++ n :: ys) None →
  seg (bypass st xs ys) None (xs ++ ys) None.
Proof.
  intros (Hndx & Hdis & [Hny Hndy]%NoDup_cons)%NoDup_app [Hxs [Hn Hys]]%seg_app. simpl in *.
  apply seg_app. unfold bypass.
  destruct xs as [|p xs' _] using rev_ind; simpl in *.
  - split; [done|]. destruct ys as [|y ys']; [done|]. apply NoDup_cons in Hndy as [??].
    by eapply seg_relink_first.
  - rewrite last_snoc, last_or_snoc.
    assert (p ∉ ys) by (intros ?; apply (Hdis p); set_solver).
    apply NoDup_app in Hndx as (_&Hpx&_). assert (p ∉ xs') by (intros ?; apply (Hpx p); set_solver).
    assert (st !! p = Some (Link (last_or None xs') (Some n))) as Hp.
    { apply seg_app in Hxs as [_ [Hp _]]. done. }
    set (st1 := match ys with [] => st | y :: ys' => _ end).
    assert (st1 !! p = st !! p) as Hp1.
    { unfold st1. destruct ys as [|y ys']; [done|]. assert (p ≠ y) by set_solver. by simplify_map_eq. }
    rewrite Hp1, Hp. simpl. split.
    + eapply seg_relink_last, seg_frame, Hxs; [done|]. intros x Hx. unfold st1.
      destruct ys as [|y ys']; [done|]. assert (x ≠ y) by (intros ->; apply (Hdis y); set_solver).
      by simplify_map_eq.
    + eapply seg_frame with st1.
      { intros x Hx. assert (x ≠ p) by set_solver. by simplify_map_eq. }
      unfold st1. destruct ys as [|y ys']; [done|]. apply NoDup_cons in Hndy as [??].
      by eapply seg_relink_first.
Qed.

Lemma bypass_frame st xs n ys x :
  NoDup (xs ++ n :: ys) → seg st None (xs ++ n :: ys) None →
  x ∉ xs ++ ys → bypass st xs ys !! x = st !! x.
Proof.
  intros Hnd Hs Hx. unfold bypass.
  assert (∀ y ys', ys = y :: ys' → x ≠ y) as Hy by (intros; set_solver).
  assert (∀ p, last xs = Some p → x ≠ p) as Hp.
  { intros p (?&->)%last_Some. set_solver. }
  destruct ys as [|y ys']; destruct (last xs) as [p|] eqn:El;
    repeat match goal with
    | |- context [match ?o !! ?i with _ => _ end] => destruct (o !! i)
    end; rewrite ?lookup_insert_ne by (symmetry; eauto); done.
Qed.

Lemma bypass_dom st xs n ys :
  seg st None (xs ++ n :: ys) None → dom (bypass st xs ys) = dom st.
Proof.
  intros [_ [_ Hys]]%seg_app. unfold bypass.
  assert (dom (match ys with [] => st | y :: ys' => <[y:=Link (last xs) (hd_or ys' None)]> st end)
          = dom st) as Hd.
  { destruct ys as [|y ys']; [done|]. destruct Hys as [Hy _].
    apply dom_insert_lookup_L. by rewrite Hy. }
  destruct (last xs) as [p|]; [|done].
  destruct (_ !! p) eqn:E; [|done]. rewrite dom_insert_lookup_L; [done|]. by rewrite E.
Qed.

Lemma ends_notin (l : list nat) n : n ∉ l → head l ≠ Some n ∧ last l ≠ Some n.
Proof.
  intros Hn. split; [destruct l; set_solver|]. intros [? ->]%last_Some. set_solver.
Qed.

Lemma unlink_bypass l st xs n ys :
  dll l st (xs ++ n :: ys) →
  perf_list_unlink l n st =
    Done (PerfList (head (xs ++ ys)) (last (xs ++ ys)), <[n := Link None None]> (bypass st xs ys)).
Proof.
  intros (Hnd & Hh & Ht & Hs). pose proof Hnd as (Hndx & Hdis & [Hny Hndy]%NoDup_cons)%NoDup_app.
  pose proof Hs as [Hxs [Hn Hys]]%seg_app. clear Hs. simpl in *.
  assert (n ∉ xs) as Hnx by (intros ?; by apply (Hdis n); [|left]).
  assert (head (xs ++ ys) ≠ Some n ∧ last (xs ++ ys) ≠ Some n) as Hends.
  { apply ends_notin. set_solver. }
  unfold perf_list_unlink, bypass.
  destruct xs as [|p xs' _] using rev_ind; destruct ys as [|y ys'].
  - simpl in *. rewrite Hh, Ht. list_op. by rewrite insert_insert_eq.
  - simpl in *. destruct Hys as [Hy Hys]. assert (n ≠ y) by set_solver.
    rewrite Hh. list_op. rewrite Ht, decide_True by done. by rewrite insert_insert_eq.
  - apply seg_app in Hxs as [Hxs [Hp _]]. simpl in Hp. assert (n ≠ p) by set_solver.
    rewrite app_nil_r, ?last_snoc in *. simpl. rewrite ?last_or_snoc in *.
    assert (pl_head l = head (xs' ++ [p])) as Hh' by (rewrite Hh; by destruct xs').
    list_op. rewrite Hh', decide_True by done. by rewrite insert_insert_eq.
  - apply seg_app in Hxs as [Hxs [Hp _]]. simpl in Hp. assert (n ≠ p) by set_solver.
    rewrite last_or_snoc in Hn. destruct Hys as [Hy Hys]. assert (n ≠ y) by set_solver.
    assert (p ≠ y) by (intros ->; apply (Hdis y); set_solver).
    assert (pl_head l = head ((xs' ++ [p]) ++ y :: ys')) as Hh' by (rewrite Hh; by destruct xs').
    assert (pl_tail l = last ((xs' ++ [p]) ++ y :: ys')) as Ht'.
    { rewrite Ht, !last_app, last_cons_cons. done. }
    rewrite last_snoc. simpl. list_op.
    rewrite <- Hh', <- Ht' in *. rewrite decide_True by done. rewrite insert_insert_eq.
    by destruct l.
Qed.

Lemma unlink_spec l st xs n ys :
  dll l st (xs ++ n :: ys) →
  ∃ l' st', perf_list_unlink l n st = Done (l', st') ∧ dll l' st' (xs ++ ys) ∧
            st' !! n = Some (Link None None) ∧ link_frame st st' (xs ++ ys) n.
Proof.
  intros Hd. eexists _, _. split; [by apply unlink_bypass|].
  destruct Hd as (Hnd & _ & _ & Hs).
  assert (n ∉ xs ++ ys) as Hn. { apply (NoDup_app) in Hnd as (?&?&?%NoDup_cons). set_solver. }
  split; [|split]; [|by simplify_map_eq|].
  - split; [|split; [done|split; [done|]]].
    + rewrite <- Permutation_middle in Hnd. by apply NoDup_cons in Hnd as [??].
    + eapply seg_frame; [|by eapply bypass_seg]. intros x Hx.
      rewrite lookup_insert_ne; [done|set_solver].
  - split.
    + intros x Hx Hne. rewrite lookup_insert_ne by done. by eapply bypass_frame.
    + rewrite dom_insert_L, (bypass_dom _ _ n) by done.
      apply seg_app in Hs as [_ [Hst _]]. simpl in Hst.
      assert (n ∈ dom st) by (apply elem_of_dom; eauto). set_solver.
Qed.

(** ** Sequences of operations *)

Inductive list_op : Type :=
| OpAppend (n : nat)
| OpPrepend (n : nat)
| OpUnlink (n : nat).

Definition op_node (o : list_op) : nat :=
  match o with OpAppend n | OpPrepend n | OpUnlink n => n end.

Definition exec_op (o : list_op) (l : perf_list) (st : gmap nat link)
    : run (perf_list * gmap nat link) :=
  match o with
  | OpAppend n => perf_list_append l n st
  | OpPrepend n => perf_list_prepend l n st
  | OpUnlink n => perf_list_unlink l n st
  end.

Fixpoint exec_ops (os : list list_op) (l : perf_list) (st : gmap nat link)
    : run (perf_list * gmap nat link) :=
  match os with
  | [] => Done (l, st)
  | o :: os' => '(l', st') ← exec_op o l st; exec_ops os' l' st'
  end.

(** The sequence of nodes the operations stand for; [None] when a node is added twice
    or removed while it is not there. *)
Definition spec_op (o : list_op) (xs : list nat) : option (list nat) :=
  match o with
  | OpAppend n => if decide (n ∈ xs) then None else Some (xs ++ [n])
  | OpPrepend n => if decide (n ∈ xs) then None else Some (n :: xs)
  | OpUnlink n => if decide (n ∈ xs) then Some (filter (λ x, x ≠ n) xs) else None
  end.

Fixpoint spec_ops (os : list list_op) (xs : list nat) : option (list nat) :=
  match os with
  | [] => Some xs
  | o :: os' => xs' ← spec_op o xs; spec_ops os' xs'
  end.

Lemma filter_notin (xs : list nat) n : n ∉ xs → filter (λ x, x ≠ n) xs = xs.
Proof.
  induction xs as [|x xs IH]; intros Hn; [done|].
  rewrite filter_cons, decide_True by set_solver. f_equal. apply IH. set_solver.
Qed.

Lemma filter_split_NoDup (xs ys : list nat) n :
  NoDup (xs ++ n :: ys) → filter (λ x, x ≠ n) (xs ++ n :: ys) = xs ++ ys.
Proof.
  intros (_ & Hd & [Hn _]%NoDup_cons)%NoDup_app.
  rewrite filter_app, filter_cons, decide_False by auto.
  rewrite !filter_notin; [done|done|]. intros Hx. apply (Hd n); [done|by left].
Qed.

Lemma op_refine o l st xs xs' :
  dll l st xs → op_node o ∈ dom st → spec_op o xs = Some xs' →
  ∃ l' st', exec_op o l st = Done (l', st') ∧ dll l' st' xs' ∧ link_frame st st' xs (op_node o) ∧
            (∀ x, x ∈ xs' → x = op_node o ∨ x ∈ xs).
Proof.
  intros Hd Hn%elem_of_dom Hs. destruct o as [n|n|n]; simpl in *; case_decide as Hx; simplify_eq.
  - destruct (append_spec l st xs n) as (l'&st'&?&?&?); eauto.
    eexists _, _; split_and!; eauto. set_solver.
  - destruct (prepend_spec l st xs n) as (l'&st'&?&?&?); eauto.
    eexists _, _; split_and!; eauto. set_solver.
  - apply list_elem_of_split in Hx as (a & b & ->).
    rewrite filter_split_NoDup by apply Hd.
    destruct (unlink_spec l st a n b) as (l'&st'&?&?&?&[??]); eauto.
    eexists _, _; split_and!; eauto; [|set_solver]. split; [|done]. set_solver.
Qed.

(** C37: any sequence of appends, prepends and unlinks that adds no node twice and
    removes only nodes that are there acts on the list exactly as the corresponding
    operations on sequences, its assertions hold, and the links of all other nodes (the
    other lists sharing the array) are unchanged. *)
Theorem list_ops_refine os l st xs xs' :
  dll l st xs → Forall (λ o, op_node o ∈ dom st) os → spec_ops os xs = Some xs' →
  ∃ l' st', exec_ops os l st = Done (l', st') ∧ dll l' st' xs' ∧ dom st' = dom st ∧
            (∀ x, x ∉ xs → x ∉ map op_node os → st' !! x = st !! x).
Proof.
  revert l st xs. induction os as [|o os IH]; intros l st xs Hd Hin Hs; simpl in *.
  - simplify_eq. eauto 10.
  - apply bind_Some in Hs as (xs1 & Ho & Hs). apply Forall_cons in Hin as [Ho1 Hin].
    destruct (op_refine o l st xs xs1) as (l1 & st1 & He & Hd1 & [Hf Hdom] & Hsub); try done.
    rewrite <- Hdom in Hin. destruct (IH l1 st1 xs1) as (l2 & st2 & He2 & Hd2 & Hdom2 & Hf2); try done.
    exists l2, st2. rewrite He. simpl. split_and!; try done; [congruence|].
    intros x Hx Hx'. rewrite Hf2, Hf; set_solver.
Qed.

(** The hypotheses hold for the array of four nodes with two of them linked. *)
Lemma list_ops_refine_witness :
  ∃ l st, exec_ops [OpAppend 0; OpPrepend 2; OpAppend 3; OpUnlink 0] perf_list_init
            (gset_to_gmap (Link None None) {[0; 1; 2; 3]}) = Done (l, st) ∧ dll l st [2; 3].
Proof.
  destruct (list_ops_refine [OpAppend 0; OpPrepend 2; OpAppend 3; OpUnlink 0] perf_list_init
              (gset_to_gmap (Link None None) {[0; 1; 2; 3]}) [] [2; 3])
    as (l & st & He & Hd & _).
  - apply dll_nil.
  - repeat constructor; vm_compute; done.
  - reflexivity.
  - exists l, st. split; assumption.
Defined.
