(* ===== verification/Dname.v ===== *)
(** * Domain names: from presentation format to wire format (dns.c)

    [perf_dname_fromstring] scans the bytes of a name twice per label, first to
    validate and measure it, then to copy it.  The reference [name_wire] below decodes
    a name label by label in one pass; [dname_fromstring_correct] shows that the two
    agree on every input.  [decode_name] is an independent decoder of the wire format,
    used to state that what was written is a well-formed name. *)

From S2P Require Import Prelude Buffer.

(** ** The code *)

(** The first pass over a label, lines 66-89: [label_len], [at] and [is_quoted] when the
    loop is left, [None] for the early [return PERF_R_FAILURE].  The argument is the
    rest of the name from [str + at] on. *)
Fixpoint scan_label (s : list Z) (label_len at_ : nat) (is_quoted : bool)
    : option (nat * nat * bool) :=
  match s with
  | [] => Some (label_len, at_, is_quoted)
  | c :: s1 =>
      if decide (c = 92%Z) then
        match s1 with
        | [] => None
        | d :: s2 =>
            if is_digit d then
              match s2 with
              | [] => None
              | d2 :: s3 =>
                  if negb (is_digit d2) then None
                  else match s3 with
                       | [] => None
                       | d3 :: s4 =>
                           if negb (is_digit d3) then None
                           else scan_label s4 (label_len + 1) (at_ + 4) true
                       end
              end
            else scan_label s2 (label_len + 1) (at_ + 2) true
        end
      else if decide (c = 46%Z) then Some (label_len, at_, is_quoted)
      else scan_label s1 (label_len + 1) (at_ + 1) is_quoted
  end.

(** The value of a [\DDD] escape: [strtol(b, 0, 7)] on its three digits. *)
Definition escape_value (d d2 d3 : Z) : Z := fst (strto_digits 7 [d; d2; d3] 0 0).

(** The second pass over a label that has escapes, lines 111-130: the offset at which
    it ends, or [None] for [return PERF_R_FAILURE]. *)
Fixpoint copy_quoted (s : list Z) (at_ : nat) : M perf_buffer (option nat) :=
  match s with
  | [] => mret (Some at_)
  | c :: s1 =>
      if decide (c = 92%Z) then
        match s1 with
        | [] => lift Undef
        | d :: s2 =>
            if is_digit d then
              match s2 with
              | d2 :: d3 :: s3 =>
                  let v := escape_value d d2 d3 in
                  if decide (v < 0 ∨ 255 < v)%Z then mret None
                  else perf_buffer_putuint8 v;; copy_quoted s3 (at_ + 4)
              | _ => lift Undef
              end
            else perf_buffer_putmem [d];; copy_quoted s2 (at_ + 2)
        end
      else if decide (c = 46%Z) then mret (Some at_)
      else perf_buffer_putmem [c];; copy_quoted s1 (at_ + 1)
  end.

(** The loop over the labels, lines 64-146.  [s] is the rest of the name ([str], [len]),
    [first] is [str == orig_str]. *)
Fixpoint dname_loop (fuel : nat) (s : list Z) (first : bool) (max : Z)
    : M perf_buffer perf_result :=
  if decide (s = []) then mret PERF_R_SUCCESS
  else
    match fuel with
    | 0 => lift NoFuel
    | S fuel' =>
        match scan_label s 0 0 false with
        | None => mret PERF_R_FAILURE
        | Some (label_len, at_, is_quoted) =>
            if decide (label_len = 0) then
              if decide (1 < length s) then mret PERF_R_FAILURE
              else if negb first then mret PERF_R_FAILURE
              else perf_buffer_putuint8 0;; mret PERF_R_SUCCESS
            else if decide (63 < label_len) then mret PERF_R_FAILURE
            else
              let max' := (max - (Z.of_nat label_len + 1))%Z in
              if decide (max' < 0)%Z then mret PERF_R_FAILURE
              else
                perf_buffer_putuint8 (Z.of_nat label_len);;
                r ← (if is_quoted then copy_quoted s 0
                     else perf_buffer_putmem (take label_len s);; mret (Some label_len));
                match r with
                | None => mret PERF_R_FAILURE
                | Some n =>
                    let s' := drop n s in
                    if decide (length s' < 2) then perf_buffer_putuint8 0;; mret PERF_R_SUCCESS
                    else dname_loop fuel' (drop 1 s') false max'
                end
        end
    end.

(** [perf_dname_fromstring(str, len, target)] with [s] the [len] bytes at [str]. *)
Definition perf_dname_fromstring (s : list Z) : M perf_buffer perf_result :=
  b ← get;
  if decide (perf_buffer_availablelength b < length s) then mret PERF_R_NOSPACE
  else dname_loop (length s) s true 255.

(** ** The reference *)

(** The bytes a label stands for, and what follows it (from its dot on). *)
Fixpoint parse_label (s : list Z) : option (list Z * list Z) :=
  match s with
  | [] => Some ([], [])
  | c :: s1 =>
      if decide (c = 92%Z) then
        match s1 with
        | [] => None
        | d :: s2 =>
            if is_digit d then
              match s2 with
              | d2 :: d3 :: s3 =>
                  if is_digit d2 && is_digit d3 then
                    '(l, r) ← parse_label s3; Some (escape_value d d2 d3 :: l, r)
                  else None
              | _ => None
              end
            else '(l, r) ← parse_label s2; Some (d :: l, r)
        end
      else if decide (c = 46%Z) then Some ([], s)
      else '(l, r) ← parse_label s1; Some (c :: l, r)
  end.

Definition label_ok (l : list Z) : Prop :=
  0 < length l ∧ length l ≤ 63 ∧ Forall (λ b, (b ≤ 255)%Z) l.

#[export] Instance label_ok_dec l : Decision (label_ok l).
Proof. unfold label_ok. apply _. Defined.

(** The labels of a name of which at most [max] bytes may be used on the wire, the
    terminating zero not counted. *)
Fixpoint parse_labels (fuel : nat) (max : Z) (s : list Z) : option (list (list Z)) :=
  match fuel with
  | 0 => None
  | S fuel' =>
      '(l, r) ← parse_label s;
      let max' := (max - (Z.of_nat (length l) + 1))%Z in
      if decide (label_ok l ∧ (0 ≤ max')%Z) then
        if decide (length r < 2) then Some [l]
        else ls ← parse_labels fuel' max' (tail r); Some (l :: ls)
      else None
  end.

Definition wire_label (l : list Z) : list Z := Z.of_nat (length l) :: l.
Definition wire_labels (ls : list (list Z)) : list Z := concat (map wire_label ls).

(** The wire format of a name. *)
Definition name_wire (s : list Z) : option (list Z) :=
  if decide (s = []) then Some []
  else if decide (s = [46%Z]) then Some [0%Z]
  else ls ← parse_labels (length s) 255 s; Some (wire_labels ls ++ [0%Z]).

(** ** The two passes compute the reference *)

Lemma parse_label_rest s l r :
  parse_label s = Some (l, r) →
  length r ≤ length s ∧ length l ≤ length s - length r ∧ r = drop (length s - length r) s ∧
  (r = [] ∨ char0 r = 46%Z).
Proof.
  revert l r. induction s as [s IH] using (induction_ltof1 _ (@length Z)). unfold ltof in IH.
  assert (∀ k s', s = k ++ s' → k ≠ [] → ∀ l r, parse_label s' = Some (l, r) →
    length r ≤ length s ∧ S (length l) ≤ length s - length r ∧ r = drop (length s - length r) s ∧
    (r = [] ∨ char0 r = 46%Z)) as Hstep.
  { intros k s' -> Hk l r Hp. destruct k as [|x k]; [done|].
    apply IH in Hp as (?&?&Hr&?); [|rewrite length_app; simpl; lia].
    rewrite length_app in *. simpl. split_and!; [lia|lia| |done].
    replace (S (length k + length s') - length r) with (S (length k) + (length s' - length r)) by lia.
    rewrite Hr at 1. simpl. rewrite drop_app_ge by lia. f_equal. lia. }
  intros l r. destruct s as [|c s1]; [intros [= <- <-]; auto with lia|].
  cbn [parse_label]. case_decide.
  - destruct s1 as [|d s2]; [done|]. destruct (is_digit d).
    + destruct s2 as [|d2 [|d3 s3]]; try done. destruct (_ && _); [|done].
      intros ([l' r']&Hp&[= <- <-])%bind_Some. by apply (Hstep [c; d; d2; d3] s3).
    + intros ([l' r']&Hp&[= <- <-])%bind_Some. by apply (Hstep [c; d] s2).
  - case_decide.
    + intros [= <- <-]. rewrite Nat.sub_diag. subst. simpl. auto with lia.
    + intros ([l' r']&Hp&[= <- <-])%bind_Some. by apply (Hstep [c] s1).
Qed.

Ltac split_triple := apply (f_equal Some), f_equal2; [apply f_equal2|].

Lemma scan_parse s ll a q :
  scan_label s ll a q =
    '(l, r) ← parse_label s;
    Some (ll + length l, a + (length s - length r),
          q || bool_decide (92%Z ∈ take (length s - length r) s)).
Proof.
  revert ll a q. induction s as [s IH] using (induction_ltof1 _ (@length Z)). unfold ltof in IH.
  intros ll a q. destruct s as [|c s1]; [simpl; by rewrite orb_false_r, !Nat.add_0_r|].
  cbn [parse_label scan_label]. case_decide as Hc.
  - destruct s1 as [|d s2]; [done|]. destruct (is_digit d).
    + destruct s2 as [|d2 [|d3 s3]]; try done; [by destruct (negb _)|].
      destruct (is_digit d2), (is_digit d3); try done. simpl.
      rewrite IH by (simpl; lia). destruct (parse_label s3) as [[l r]|] eqn:Hp; [|done].
      apply parse_label_rest in Hp as (?&?&_). simpl.
      rewrite bool_decide_eq_true_2; [rewrite orb_true_r; split_triple; [lia|lia|done]|].
      replace (S (S (S (S (length s3)))) - length r) with (S (3 + length s3 - length r)) by lia.
      simpl. subst. left.
    + rewrite IH by (simpl; lia). destruct (parse_label s2) as [[l r]|] eqn:Hp; [|done].
      apply parse_label_rest in Hp as (?&?&_). simpl.
      rewrite bool_decide_eq_true_2; [rewrite orb_true_r; split_triple; [lia|lia|done]|].
      replace (S (S (length s2)) - length r) with (S (1 + length s2 - length r)) by lia.
      simpl. subst. left.
  - case_decide.
    + simpl. rewrite Nat.sub_diag. simpl. rewrite orb_false_r. split_triple; [lia|lia|done].
    + rewrite IH by (simpl; lia). destruct (parse_label s1) as [[l r]|] eqn:Hp; [|done].
      apply parse_label_rest in Hp as (?&?&_). simpl.
      replace (S (length s1) - length r) with (S (length s1 - length r)) by lia. simpl.
      split_triple; [lia|lia|]. f_equal. apply bool_decide_ext. set_solver.
Qed.

(** Without escapes a label is its own text. *)
Lemma parse_plain s l r :
  parse_label s = Some (l, r) → 92%Z ∉ take (length s - length r) s →
  l = take (length l) s ∧ length l = length s - length r.
Proof.
  revert l r. induction s as [|c s IH]; intros l r; cbn [parse_label]; [by intros [= <- <-]|].
  case_decide as Hc.
  { intros Hp Hn. exfalso. assert (length r < length (c :: s)) as Hlt.
    { destruct s as [|d s2]; [done|]. destruct (is_digit d).
      - destruct s2 as [|d2 [|d3 s3]]; try done. destruct (_ && _); [|done].
        apply bind_Some in Hp as ([l' r']&[? _]%parse_label_rest&[= <- <-]). simpl in *. lia.
      - apply bind_Some in Hp as ([l' r']&[? _]%parse_label_rest&[= <- <-]). simpl in *. lia. }
    apply Hn. destruct (length (c :: s) - length r) eqn:E; [lia|]. simpl. subst. left. }
  case_decide; [intros [= <- <-] _; simpl; split; [done|lia]|].
  intros ([l' r']&Hp&[= <- <-])%bind_Some Hn.
  pose proof (parse_label_rest _ _ _ Hp) as (?&?&_).
  replace (length (c :: s) - length r') with (S (length s - length r')) in * by (simpl; lia).
  simpl in Hn. apply IH in Hp as [Hl Hlen]; [|set_solver]. simpl. split; [by f_equal|lia].
Qed.

Lemma escape_value_nonneg d d2 d3 :
  (0 ≤ escape_value d d2 d3)%Z.
Proof.
  assert (∀ s acc n, (0 ≤ acc)%Z → (0 ≤ fst (strto_digits 7 s acc n))%Z) as H.
  { induction s as [|c s IH]; intros acc n Ha; simpl; [done|].
    destruct (digit_val c) as [v|] eqn:Ev; [|done]. case_decide; [|done]. apply IH.
    unfold digit_val in Ev. repeat case_decide; simplify_eq; lia. }
  by apply H.
Qed.

(** The second pass writes the bytes of the label; it stops at the first escape whose
    value is not a byte. *)
Lemma copy_quoted_parse s a l r b :
  parse_label s = Some (l, r) → Forall byte_ok s → buffer_wf b → room b (length l) →
  (Forall (λ x, (x ≤ 255)%Z) l ∧
     copy_quoted s a b = Done (Some (a + (length s - length r)), push l b)) ∨
  (¬ Forall (λ x, (x ≤ 255)%Z) l ∧
     ∃ k, k ≤ length l ∧ copy_quoted s a b = Done (None, push (take k l) b)).
Proof.
  revert a l r b. induction s as [s IH] using (induction_ltof1 _ (@length Z)). unfold ltof in IH.
  intros a l r b Hp Hb Hwf Hr.
  (* one byte [x] is written, the rest of the label follows *)
  assert (∀ n s' x l' r' (w : M perf_buffer unit),
    n ≤ length s → s' = drop n s → 0 < n → parse_label s' = Some (l', r') → l = x :: l' → r = r' →
    (x ≤ 255)%Z → w b = Done ((), push [x] b) →
    (Forall (λ x, (x ≤ 255)%Z) l ∧
       (w;; copy_quoted s' (a + n)) b = Done (Some (a + (length s - length r)), push l b)) ∨
    (¬ Forall (λ x, (x ≤ 255)%Z) l ∧
       ∃ k, k ≤ length l ∧ (w;; copy_quoted s' (a + n)) b = Done (None, push (take k l) b))) as Hstep.
  { intros n s' x l' r' w Hn -> Hn0 Hp' -> -> Hx Hw.
    erewrite bind_Done by exact Hw. pose proof (parse_label_rest _ _ _ Hp') as (Hlr&_&_).
    rewrite length_drop in Hlr. simpl in Hr.
    destruct (IH (drop n s) ltac:(rewrite length_drop; lia) (a + n) l' r' (push [x] b))
      as [[Hf He]|(Hf & k & Hk & He)]; try done.
    - by apply Forall_drop.
    - apply push_wf; [done|]. eapply room_le; [|done]. simpl; lia.
    - apply push_room. done.
    - left. split; [by constructor|]. rewrite He, push_app, length_drop. simpl.
      do 3 f_equal. lia.
    - right. split; [by intros [_ ?]%Forall_cons|]. exists (S k). split; [simpl; lia|].
      rewrite He, push_app. done. }
  assert (∀ x, perf_buffer_putmem [x] b = Done ((), push [x] b) ∨ l = []) as Hput.
  { intros x. rewrite putmem_spec by done. destruct l; [by right|left].
    rewrite decide_True; [done|]. eapply room_le; [|done]. simpl; lia. }
  destruct s as [|c s1]; [left; simpl in *; simplify_eq; rewrite push_nil, Nat.add_0_r; eauto|].
  cbn [parse_label copy_quoted] in *. apply Forall_cons in Hb as [Hc Hb].
  case_decide.
  - destruct s1 as [|d s2]; [done|]. apply Forall_cons in Hb as [Hd Hb]. destruct (is_digit d).
    + destruct s2 as [|d2 [|d3 s3]]; try done. destruct (_ && _); [|done].
      apply bind_Some in Hp as ([l' r']&Hp&[= <- <-]). pose proof (escape_value_nonneg d d2 d3).
      case_decide as Hv.
      * right. split; [intros [? _]%Forall_cons; lia|]. exists 0. split; [lia|].
        simpl. by rewrite push_nil.
      * eapply (Hstep 4); try done; [simpl; lia|lia|lia|]. rewrite put8_spec by done.
        rewrite decide_True by (eapply room_le; [|done]; simpl; lia).
        rewrite u8_small; [done|]. unfold byte_ok. lia.
    + apply bind_Some in Hp as ([l' r']&Hp&[= <- <-]). destruct (Hput d) as [Hw|]; [|done].
      unfold byte_ok in *. eapply (Hstep 2); try done; simpl; lia.
  - case_decide.
    + simplify_eq. left. split; [constructor|]. rewrite Nat.sub_diag, Nat.add_0_r, push_nil. done.
    + apply bind_Some in Hp as ([l' r']&Hp&[= <- <-]). destruct (Hput c) as [Hw|]; [|done].
      unfold byte_ok in *. eapply (Hstep 1); try done; simpl; lia.
Qed.

Lemma push_junk_app w junk b n :
  length w + length junk ≤ n →
  ∃ junk', push junk (push w b) = push junk' b ∧ length junk' ≤ n.
Proof. intros. exists (w ++ junk). rewrite push_app, length_app. done. Qed.

(** The copy of one label after its length byte: both branches of lines 110-137. *)
Lemma copy_label_parse s l r b :
  parse_label s = Some (l, r) → Forall byte_ok s → buffer_wf b → room b (length l) →
  let copy : M perf_buffer (option nat) :=
    if bool_decide (92%Z ∈ take (length s - length r) s) then copy_quoted s 0
    else perf_buffer_putmem (take (length l) s);; mret (Some (length l)) in
  (Forall (λ x, (x ≤ 255)%Z) l ∧ copy b = Done (Some (length s - length r), push l b)) ∨
  (¬ Forall (λ x, (x ≤ 255)%Z) l ∧ ∃ k, k ≤ length l ∧ copy b = Done (None, push (take k l) b)).
Proof.
  intros Hp Hb Hwf Hr copy. unfold copy. case_bool_decide as Hq.
  - by apply (copy_quoted_parse s 0 l r b).
  - destruct (parse_plain s l r) as [Hl Hlen]; try done. left. split.
    + rewrite Hl. apply Forall_take. eapply Forall_impl; [done|]. unfold byte_ok. lia.
    + rewrite <- Hl. unfold mbind, M_bind. rewrite putmem_spec, decide_True by done.
      simpl. by rewrite Hlen.
Qed.

(** [N] bytes are enough for a name: two more than its text, or one more than the limit
    on its wire form. *)
Definition enough (N : nat) (max : Z) (s : list Z) : Prop :=
  length s + 2 ≤ N ∨ (max < Z.of_nat N)%Z.

(** What the loop does with the labels [ls] the text has, or without any. *)
Definition wrote (r : run (perf_result * perf_buffer)) (ls : option (list (list Z))) (b : perf_buffer) (N : nat) : Prop :=
  match ls with
  | Some ls => r = Done (PERF_R_SUCCESS, push (wire_labels ls ++ [0%Z]) b) ∧ length (wire_labels ls) + 1 ≤ N
  | None => ∃ junk, r = Done (PERF_R_FAILURE, push junk b) ∧ length junk ≤ N
  end.

Lemma wrote_nothing b N : wrote (Done (PERF_R_FAILURE, b)) None b N.
Proof. exists []. rewrite push_nil. split; [done|simpl; lia]. Qed.

Lemma wrote_label r ls l b N :
  S (length l) ≤ N →
  wrote r ls (push ([Z.of_nat (length l)] ++ l) b) (N - S (length l)) → wrote r (ls ← ls; Some (l :: ls)) b N.
Proof.
  intros HN. destruct ls as [ls|]; simpl.
  - intros [-> Hls]. rewrite push_app. unfold wire_labels in *. simpl. rewrite length_app. split; [|lia].
    by rewrite <- app_assoc.
  - intros (junk & -> & Hj). destruct (push_junk_app (Z.of_nat (length l) :: l) junk b N) as (junk' & -> & ?); eauto.
    simpl. lia.
Qed.

(** Only the root alone begins with an empty label. *)
Lemma empty_first_label s r :
  s ≠ [] → length s ≤ 1 → parse_label s = Some ([], r) → r = drop (length s - length r) s →
  r = [] ∨ char0 r = 46%Z → s = [46%Z].
Proof.
  intros Hs Hl Hp Hdrop Hdot. destruct s as [|c [|]]; simpl in *; [done| |lia]. destruct Hdot as [->|Hdot].
  - by repeat case_decide; simplify_eq.
  - destruct r as [|? [|]]; simpl in *; [done| |].
    + unfold char0 in Hdot. simpl in Hdot. congruence.
    + injection Hdrop. done.
Qed.

Lemma dname_loop_parse fuel s first max N b :
  s ≠ [] → length s ≤ fuel → Forall byte_ok s → buffer_wf b → room b N → enough N max s →
  first = false ∨ s ≠ [46%Z] →
  wrote (dname_loop fuel s first max b) (parse_labels fuel max s) b N.
Proof.
  revert s first max N b.
  induction fuel as [|fuel IH]; intros s first max N b Hs Hf Hb Hwf Hr HN Hfirst.
  { destruct s; simpl in *; [done|lia]. }
  cbn [dname_loop parse_labels]. rewrite decide_False by done. rewrite scan_parse.
  destruct (parse_label s) as [[l r]|] eqn:Hp; cbn [option_map mbind option_bind]; [|apply wrote_nothing].
  pose proof (parse_label_rest _ _ _ Hp) as (Hlr & Hll & Hdrop & Hdot).
  set (ref := if decide (label_ok l ∧ _) then _ else None).
  assert (¬ label_ok l ∨ (max - (Z.of_nat (length l) + 1) < 0)%Z → ref = None) as Hbad.
  { intros Hbad. unfold ref. rewrite decide_False; [done|]. intros [??]. destruct Hbad; [done|lia]. }
  case_decide as Hl0.
  { rewrite Hbad by (left; unfold label_ok; lia). case_decide as Hlen; [apply wrote_nothing|].
    destruct first; [|apply wrote_nothing]. destruct Hfirst as [|Hfirst]; [done|]. destruct Hfirst.
    apply nil_length_inv in Hl0 as ->. eapply empty_first_label; [done|lia|done..]. }
  case_decide as Hl63; [rewrite Hbad by (left; unfold label_ok; lia); apply wrote_nothing|].
  case_decide as Hmax; [rewrite Hbad by (by right); apply wrote_nothing|].
  assert (length l + 2 ≤ N) as HlN by (unfold enough in HN; lia).
  assert (room b (S (length l))) as Hr1 by (eapply room_le; [|exact Hr]; lia).
  erewrite bind_Done; [|rewrite put8_spec by done; by rewrite decide_True by (eapply room_le; [|exact Hr]; lia)].
  rewrite u8_small by (unfold byte_ok; lia).
  destruct (copy_label_parse s l r (push [Z.of_nat (length l)] b)) as [[Hle Hc]|(Hle & k & Hk & Hc)];
    try done.
  { apply push_wf; [done|]. eapply room_le; [|exact Hr]. simpl. lia. }
  { by apply push_room. }
  - (* the label was copied *)
    erewrite bind_Done by exact Hc. rewrite push_app, <- Hdrop.
    unfold ref. clear Hbad ref. rewrite (decide_True (P := label_ok l ∧ _))
      by (unfold label_ok; split_and!; [lia|lia|done|lia]).
    assert (buffer_wf (push ([Z.of_nat (length l)] ++ l) b)) as Hwf1 by (by apply push_wf).
    destruct (decide (length r < 2)) as [Hr2|Hr2].
    + split; [|unfold wire_labels; simpl; rewrite app_nil_r; lia].
      erewrite bind_Done; [|rewrite put8_spec by done; rewrite decide_True; [done|]].
      * unfold wire_labels. simpl. by rewrite push_app, app_nil_r.
      * eapply room_push; [exact Hr|]. simpl. lia.
    + assert (Forall byte_ok r) as Hbr by (rewrite Hdrop; by apply Forall_drop).
      destruct r as [|dot r]; simpl in *; [lia|]. apply Forall_cons in Hbr as [_ Hbr]. rewrite drop_0.
      apply wrote_label; [lia|]. apply IH; [intros ->; simpl in *; lia|lia|done|done| | |by left].
      * eapply room_push; [exact Hr|simpl; lia].
      * unfold enough in *; lia.
  - (* an escape is not a byte *)
    erewrite bind_Done by exact Hc. rewrite Hbad by (left; unfold label_ok; tauto).
    destruct (push_junk_app [Z.of_nat (length l)] (take k l) b N) as (junk' & E & ?).
    { rewrite length_take. simpl. lia. }
    exists junk'. simpl in E. by rewrite <- E.
Qed.

(** The whole function on a buffer with room: what it pushes. *)
Lemma dname_push_enough s b N :
  Forall byte_ok s → buffer_wf b → room b N → enough N 255 s →
  length s ≤ perf_buffer_availablelength b →
  match name_wire s with
  | Some w => perf_dname_fromstring s b = Done (PERF_R_SUCCESS, push w b) ∧ length w ≤ N
  | None => ∃ junk, perf_dname_fromstring s b = Done (PERF_R_FAILURE, push junk b)
                    ∧ length junk ≤ N
  end.
Proof.
  intros Hb Hwf Hr HN Hav. unfold perf_dname_fromstring, name_wire, get. unfold mbind, M_bind at 1 2.
  rewrite (decide_False (P := perf_buffer_availablelength b < length s)) by lia.
  destruct (decide (s = [])) as [->|Hs].
  { simpl. rewrite push_nil. split; [done|lia]. }
  destruct (decide (s = [46%Z])) as [->|Hdot].
  { unfold enough in HN. simpl in *. unfold mbind, M_bind.
    rewrite put8_spec, decide_True by (done || (eapply room_le; [|exact Hr]; simpl; lia)).
    split; [done|lia]. }
  pose proof (dname_loop_parse (length s) s true 255 N b Hs (le_n _) Hb Hwf Hr HN (or_intror Hdot)) as H.
  destruct (parse_labels _ _ _) as [ls|]; simpl; [|done].
  destruct H as [-> ?]. rewrite length_app. simpl. split; [done|lia].
Qed.

Lemma dname_push s b :
  Forall byte_ok s → buffer_wf b → room b (length s + 2) →
  match name_wire s with
  | Some w => perf_dname_fromstring s b = Done (PERF_R_SUCCESS, push w b) ∧ length w ≤ length s + 2
  | None => ∃ junk, perf_dname_fromstring s b = Done (PERF_R_FAILURE, push junk b)
                    ∧ length junk ≤ length s + 2
  end.
Proof.
  intros Hb Hwf Hr. apply dname_push_enough; try done; [by left|].
  unfold perf_buffer_availablelength, room in *. lia.
Qed.

(** A name whose text does not fit is refused before anything is written. *)
Lemma dname_nospace s b :
  perf_buffer_availablelength b < length s →
  perf_dname_fromstring s b = Done (PERF_R_NOSPACE, b).
Proof. intros. unfold perf_dname_fromstring. run_unfold. by rewrite decide_True. Qed.

(** ** Well-formed names on the wire *)

(** A decoder of uncompressed names: the labels and what follows the name. *)
Fixpoint decode_name (fuel : nat) (w : list Z) : option (list (list Z) * list Z) :=
  match fuel, w with
  | S fuel', n :: w' =>
      if decide (n = 0%Z) then Some ([], w')
      else if decide ((0 < n ≤ 63)%Z ∧ Z.to_nat n ≤ length w') then
        '(ls, rest) ← decode_name fuel' (drop (Z.to_nat n) w');
        Some (take (Z.to_nat n) w' :: ls, rest)
      else None
  | _, _ => None
  end.

Definition wire_label_ok (l : list Z) : Prop := 0 < length l ≤ 63.

Lemma decode_wire ls rest :
  Forall wire_label_ok ls →
  decode_name (S (length ls)) (wire_labels ls ++ [0%Z] ++ rest) = Some (ls, rest).
Proof.
  unfold wire_labels. induction 1 as [|l ls Hl Hls IH]; [done|]. destruct Hl as [Hl1 Hl2].
  cbn [length map concat wire_label app]. unfold decode_name; fold decode_name.
  rewrite decide_False by lia. rewrite Nat2Z.id, <- !app_assoc.
  rewrite decide_True by (rewrite length_app; lia).
  rewrite drop_app_length, take_app_length. simpl in IH |- *. by rewrite IH.
Qed.

Lemma parse_labels_ok fuel max s ls :
  parse_labels fuel max s = Some ls →
  Forall label_ok ls ∧ ls ≠ [] ∧ (Z.of_nat (length (wire_labels ls)) ≤ max)%Z.
Proof.
  revert max s ls. induction fuel as [|fuel IH]; intros max s ls; [done|].
  cbn [parse_labels]. intros ([l r]&Hp&Hls)%bind_Some. destruct (decide (label_ok l ∧ _)) as [[Hl Hm]|]; [|done].
  destruct (decide (length r < 2)); [simplify_eq|].
  - unfold wire_labels. simpl. rewrite app_nil_r. split_and!; [by constructor|done|lia].
  - apply bind_Some in Hls as (ls'&(?&?&?)%IH&[= <-]). unfold wire_labels in *. simpl.
    rewrite length_app. split_and!; [by constructor|done|lia].
Qed.

(** The names the function accepts without escapes. *)
Fixpoint dotted (ls : list (list Z)) : list Z :=
  match ls with
  | [] => []
  | [l] => l
  | l :: ls' => l ++ 46%Z :: dotted ls'
  end.

Definition plain_label (l : list Z) : Prop :=
  wire_label_ok l ∧ Forall (λ c, byte_ok c ∧ c ≠ 92%Z ∧ c ≠ 46%Z) l.

Lemma parse_label_plain l rest :
  Forall (λ c, byte_ok c ∧ c ≠ 92%Z ∧ c ≠ 46%Z) l → rest = [] ∨ char0 rest = 46%Z →
  parse_label (l ++ rest) = Some (l, rest).
Proof.
  intros Hl Hr. induction Hl as [|c l (Hb & H1 & H2) Hl IH]; simpl.
  - destruct Hr as [->|Hr]; [done|]. destruct rest as [|d rest]; [done|].
    unfold char0 in Hr. simpl in *. subst. by rewrite decide_False, decide_True by done.
  - rewrite !decide_False by done. by rewrite IH.
Qed.

Lemma parse_labels_dotted fuel max ls :
  ls ≠ [] → Forall plain_label ls → length (dotted ls) ≤ fuel →
  (Z.of_nat (length (wire_labels ls)) ≤ max)%Z →
  parse_labels fuel max (dotted ls) = Some ls.
Proof.
  intros Hne Hls. revert fuel max. induction Hls as [|l ls [Hl Hc] Hls IH]; intros fuel max Hf Hmax; [done|].
  assert (label_ok l) as Hok.
  { destruct Hl. split_and!; [done|done|]. eapply Forall_impl; [done|]. unfold byte_ok. simpl. lia. }
  unfold wire_labels in *. cbn [map concat wire_label app length] in Hmax. rewrite length_app in Hmax.
  destruct fuel as [|fuel].
  { destruct ls; simpl in Hf; rewrite ?length_app in Hf; destruct Hl; lia. }
  cbn [parse_labels]. destruct ls as [|l2 ls].
  - rewrite <- (app_nil_r (dotted [l])), parse_label_plain by auto. simpl.
    rewrite decide_True by (split; [done|lia]). done.
  - change (dotted (l :: l2 :: ls)) with (l ++ 46%Z :: dotted (l2 :: ls)) in *.
    rewrite parse_label_plain by auto. cbn [mbind option_bind].
    rewrite decide_True by (split; [done|lia]). rewrite length_app in Hf. simpl in Hf.
    rewrite decide_False.
    + cbn [tail]. rewrite IH; [done|done|simpl; lia|simpl in *; lia].
    + apply Forall_cons in Hls as [[Hl2 _] _].
      assert (length l2 ≤ length (dotted (l2 :: ls))) by (destruct ls; simpl; rewrite ?length_app; lia).
      destruct Hl2. cbn [length]. lia.
Qed.

(** ** Properties *)

(** C9: on every byte string, for a target with two bytes of room more than the text, the
    two-pass conversion agrees with the one-pass reference: it succeeds exactly when the
    reference does and then appends exactly the reference's wire format; it never runs
    into an assertion, out of its buffers or out of fuel, and on failure what was in the
    target is still there. *)
Theorem dname_fromstring_correct s b :
  Forall byte_ok s → buffer_wf b → room b (length s + 2) →
  ∃ b', buffer_wf b' ∧
    match name_wire s with
    | Some w => perf_dname_fromstring s b = Done (PERF_R_SUCCESS, b') ∧ contents b' = contents b ++ w
    | None => perf_dname_fromstring s b = Done (PERF_R_FAILURE, b') ∧ contents b `prefix_of` contents b'
    end.
Proof.
  intros Hb Hwf Hr. pose proof (dname_push s b Hb Hwf Hr) as H.
  destruct (name_wire s) as [w|].
  - destruct H as [-> Hw]. assert (room b (length w)) by (eapply room_le; [|done]; done).
    exists (push w b). split; [by apply push_wf|]. by rewrite contents_push.
  - destruct H as (junk & -> & Hj). assert (room b (length junk)) by (eapply room_le; [|done]; done).
    exists (push junk b). split; [by apply push_wf|]. rewrite contents_push by done.
    split; [done|by apply prefix_app_r].
Qed.

Lemma dname_fromstring_correct_witness :
  ∃ b', perf_dname_fromstring (bytes "a\.b.example.") (test_buffer 16) = Done (PERF_R_SUCCESS, b').
Proof.
  destruct (dname_fromstring_correct (bytes "a\.b.example.") (test_buffer 16)) as (b' & _ & H).
  - repeat constructor; vm_compute; done.
  - apply test_buffer_wf.
  - vm_compute. lia.
  - vm_compute in H. destruct H as [H _]. exists b'. exact H.
Defined.

Lemma name_wire_wellformed s w rest :
  s ≠ [] → name_wire s = Some w →
  ∃ ls, decode_name (S (length ls)) (w ++ rest) = Some (ls, rest) ∧
        Forall wire_label_ok ls ∧ length w ≤ 256.
Proof.
  intros Hs. unfold name_wire. rewrite decide_False by done. case_decide.
  - intros [= <-]. exists []. split_and!; [done|constructor|simpl; lia].
  - intros (ls & (Hok & _ & Hlen)%parse_labels_ok & [= <-])%bind_Some.
    assert (Forall wire_label_ok ls).
    { eapply Forall_impl; [done|]. intros l (?&?&_). by split. }
    exists ls. rewrite <- app_assoc. split_and!; [by apply decode_wire|done|].
    rewrite length_app. simpl. lia.
Qed.

(** C35: what [perf_dname_fromstring] appends for a nonempty name it accepts is a well-formed
    uncompressed name: labels of 1 to 63 bytes and the root, which a decoder reads back whatever
    follows, in at most 256 bytes.  (The target has two bytes of room more than the text, or 256;
    what happens otherwise is [dname_space_check_too_weak].) *)
Theorem dname_wire_wellformed s b b' rest :
  Forall byte_ok s → s ≠ [] → buffer_wf b → room b (Nat.min (length s + 2) 256) →
  perf_dname_fromstring s b = Done (PERF_R_SUCCESS, b') →
  ∃ w ls, contents b' = contents b ++ w ∧ length w ≤ 256 ∧
    decode_name (S (length ls)) (w ++ rest) = Some (ls, rest) ∧ Forall wire_label_ok ls.
Proof.
  intros Hb Hs Hwf Hr E. destruct (decide (perf_buffer_availablelength b < length s)) as [Hav|Hav].
  { by rewrite dname_nospace in E. }
  pose proof (dname_push_enough s b _ Hb Hwf Hr ltac:(unfold enough; lia) ltac:(lia)) as Hp.
  destruct (name_wire s) as [w|] eqn:Ew; [|by destruct Hp as (junk & E' & _); rewrite E' in E].
  destruct Hp as [E' Hw]. rewrite E' in E. injection E as <-.
  destruct (name_wire_wellformed s w rest Hs Ew) as (ls & Hd & Hls & Hlen). exists w, ls.
  split_and!; [|done|done|done]. apply contents_push; [done|]. by eapply room_le; [|exact Hr].
Qed.

Lemma dname_wire_wellformed_witness :
  ∃ b' w ls, perf_dname_fromstring (bytes "a.bc") (test_buffer 6) = Done (PERF_R_SUCCESS, b') ∧
    contents b' = [] ++ w ∧ decode_name (S (length ls)) (w ++ [7])%Z = Some (ls, [7%Z]) ∧ Forall wire_label_ok ls.
Proof.
  destruct (dname_wire_wellformed (bytes "a.bc") (test_buffer 6) (push [1; 97; 2; 98; 99; 0]%Z (test_buffer 6)) [7%Z])
    as (w & ls & Hc & _ & Hd & Hls).
  - repeat constructor; vm_compute; done.
  - discriminate.
  - apply test_buffer_wf.
  - vm_compute. lia.
  - vm_compute. reflexivity.
  - eexists _, w, ls. split; [vm_compute; reflexivity|]. split; [exact Hc|]. split; [exact Hd|exact Hls].
Defined.

(** Labels of more than 63 bytes and names that are too long are refused. *)
Example long_names_refused :
  fst <$> (match perf_dname_fromstring (replicate 64 97%Z) (test_buffer 512) with Done r => Some r | _ => None end) =
    Some PERF_R_FAILURE ∧
  fst <$> (match perf_dname_fromstring (dotted (replicate 4 (replicate 63 97%Z))) (test_buffer 512) with
           | Done r => Some r | _ => None end) = Some PERF_R_FAILURE.
Proof. split; vm_compute; reflexivity. Qed.

(** round trip: a name written with dots between labels free of dots and backslashes
    is encoded so that decoding gives the labels back. *)
Theorem dname_roundtrip ls b :
  ls ≠ [] → Forall plain_label ls → length (wire_labels ls) ≤ 255 →
  buffer_wf b → room b (length (dotted ls) + 2) →
  ∃ b' w, perf_dname_fromstring (dotted ls) b = Done (PERF_R_SUCCESS, b') ∧
          contents b' = contents b ++ w ∧ decode_name (S (length ls)) w = Some (ls, []).
Proof.
  intros Hne Hls Hlen Hwf Hr.
  assert (Forall byte_ok (dotted ls)) as Hb.
  { clear -Hls. induction Hls as [|l ls [_ Hl] Hls IH]; [constructor|].
    assert (Forall byte_ok l) by (eapply Forall_impl; [done|]; by intros ? (?&_)).
    destruct ls; [done|]. apply Forall_app. split; [done|]. constructor; [by split|done]. }
  assert (name_wire (dotted ls) = Some (wire_labels ls ++ [0%Z])) as Hw.
  { unfold name_wire. destruct ls as [|l ls]; [done|]. apply Forall_cons in Hls as Hls'.
    destruct Hls' as [[[Hl _] Hc] _]. destruct l as [|c l]; [simpl in Hl; lia|].
    apply Forall_cons in Hc as [(_&_&Hc) _].
    rewrite !decide_False by (destruct ls; simpl; congruence).
    by rewrite parse_labels_dotted by (done || lia). }
  pose proof (dname_push (dotted ls) b Hb Hwf Hr) as H. rewrite Hw in H. destruct H as [-> Hl].
  eexists _, _. split_and!; [done|by rewrite contents_push by (done || by eapply room_le)|].
  rewrite <- (app_nil_r [0%Z]). apply decode_wire.
  eapply Forall_impl; [done|]. by intros ? [? _].
Qed.

Lemma dname_roundtrip_witness :
  ∃ b' w, perf_dname_fromstring (bytes "www.example.com") (test_buffer 17) = Done (PERF_R_SUCCESS, b') ∧
          decode_name 4 w = Some ([bytes "www"; bytes "example"; bytes "com"], []).
Proof.
  destruct (dname_roundtrip [bytes "www"; bytes "example"; bytes "com"] (test_buffer 17))
    as (b' & w & H1 & _ & H2).
  - discriminate.
  - repeat (constructor; [split; [split; vm_compute; lia|repeat constructor; vm_compute; done]|]).
    constructor.
  - vm_compute. lia.
  - apply test_buffer_wf.
  - vm_compute. lia.
  - exists b', w. split; [exact H1|exact H2].
Defined.

(** Four labels of 63, 63, 63 and 62 letters. *)
Definition long_name : list Z :=
  dotted [replicate 63 97%Z; replicate 63 97%Z; replicate 63 97%Z; replicate 62 97%Z].

(** the bound of 256 bytes is reached, one more than a domain name may have on the
    wire: the running limit does not count the terminating zero. *)
Theorem dname_accepts_256 :
  ∃ b', perf_dname_fromstring long_name (test_buffer 512) = Done (PERF_R_SUCCESS, b') ∧
        length (contents b') = 256.
Proof.
  eexists. split; [vm_compute; reflexivity|]. vm_compute. reflexivity.
Qed.

(** the three digits of an escape are read in base 7: the escape for the letter A
    (65 in decimal) writes 47, a slash, and an escape with an 8 or 9 in front writes 0. *)
Theorem dname_escape_base_7 :
  (∃ b', perf_dname_fromstring (bytes "\065") (test_buffer 16) = Done (PERF_R_SUCCESS, b') ∧
         contents b' = [1; 47; 0]%Z) ∧
  (∃ b', perf_dname_fromstring (bytes "\200") (test_buffer 16) = Done (PERF_R_SUCCESS, b') ∧
         contents b' = [1; 98; 0]%Z) ∧
  (∃ b', perf_dname_fromstring (bytes "\999") (test_buffer 16) = Done (PERF_R_SUCCESS, b') ∧
         contents b' = [1; 0; 0]%Z).
Proof. split_and!; eexists; (split; [vm_compute; reflexivity|vm_compute; reflexivity]). Qed.

(** the space check of the function admits targets that its writes then overrun: a
    target with exactly as many free bytes as the name has characters, or one more,
    fails an assertion instead of reporting that there is no space. *)
Theorem dname_space_check_too_weak :
  perf_dname_fromstring (bytes "abc") (test_buffer 3) = Abort ∧
  perf_dname_fromstring (bytes "abc") (test_buffer 4) = Abort ∧
  perf_dname_fromstring (bytes "abc") (test_buffer 2) = Done (PERF_R_NOSPACE, test_buffer 2).
Proof. split_and!; vm_compute; reflexivity. Qed.
