(* ===== verification/Qtype.v ===== *)
(** * Query types (qtype.c and [perf_qtype_fromstring] of dns.c)

    The table maps the mnemonics to their codes, in the order of the file, which
    matters: [perf_qtype_fromstring] takes the first entry that has the given text as
    a prefix, ignoring case. *)

From S2P Require Import Prelude Buffer.

(** The table, without its terminating null entry. *)
Definition qtype_table : list (string * Z) :=
  [ ("A", 1); ("NS", 2); ("MD", 3); ("MF", 4); ("CNAME", 5); ("SOA", 6); ("MB", 7);
    ("MG", 8); ("MR", 9); ("NULL", 10); ("WKS", 11); ("PTR", 12); ("HINFO", 13);
    ("MINFO", 14); ("MX", 15); ("TXT", 16); ("RP", 17); ("AFSDB", 18); ("X25", 19);
    ("ISDN", 20); ("RT", 21); ("NSAP", 22); ("NSAP-PTR", 23); ("SIG", 24); ("KEY", 25);
    ("PX", 26); ("GPOS", 27); ("AAAA", 28); ("LOC", 29); ("NXT", 30); ("EID", 31);
    ("NIMLOC", 32); ("SRV", 33); ("ATMA", 34); ("NAPTR", 35); ("KX", 36); ("CERT", 37);
    ("A6", 38); ("DNAME", 39); ("SINK", 40); ("OPT", 41); ("APL", 42); ("DS", 43);
    ("SSHFP", 44); ("IPSECKEY", 45); ("RRSIG", 46); ("NSEC", 47); ("DNSKEY", 48);
    ("DHCID", 49); ("NSEC3", 50); ("NSEC3PARAM", 51); ("TLSA", 52); ("SMIMEA", 53);
    ("HIP", 55); ("NINFO", 56); ("RKEY", 57); ("TALINK", 58); ("CDS", 59); ("CDNSKEY", 60);
    ("OPENPGPKEY", 61); ("CSYNC", 62); ("ZONEMD", 63); ("SVCB", 64); ("HTTPS", 65);
    ("SPF", 99); ("UINFO", 100); ("UID", 101); ("GID", 102); ("UNSPEC", 103); ("NID", 104);
    ("L32", 105); ("L64", 106); ("LP", 107); ("EUI48", 108); ("EUI64", 109); ("TKEY", 249);
    ("TSIG", 250); ("IXFR", 251); ("AXFR", 252); ("MAILB", 253); ("MAILA", 254);
    ("ANY", 255); ("URI", 256); ("CAA", 257); ("AVC", 258); ("DOA", 259);
    ("AMTRELAY", 260); ("TA", 32768); ("DLV", 32769) ]%Z.

(** The search loop, lines 166-172 of dns.c: the first entry whose name agrees with the
    text on the first [len] characters. *)
Fixpoint qtype_search (q : list (string * Z)) (str : list Z) (len : nat) : option Z :=
  match q with
  | [] => None
  | (type_, value) :: q' =>
      if strncasecmp_eq (bytes type_) str len then Some value else qtype_search q' str len
  end.

(** [perf_qtype_fromstring(str, len, target)]; [str] is the text from the pointer on. *)
Definition perf_qtype_fromstring (str : list Z) (len : nat) : M perf_buffer perf_result :=
  if decide (4 < len ∧ strncasecmp_eq str (bytes "TYPE") 4 = true) then
    let '(u, consumed, _) := strtoul 10 (drop 4 str) in
    if decide (4 + consumed ≠ len ∨ u = ULONG_MAX ∨ (65535 < u)%Z) then mret PERF_R_FAILURE
    else perf_buffer_putuint16 u;; mret PERF_R_SUCCESS
  else
    match qtype_search qtype_table str len with
    | Some value => perf_buffer_putuint16 value;; mret PERF_R_SUCCESS
    | None => mret PERF_R_FAILURE
    end.

(** ** Reference *)

(** The code a text stands for. *)
Definition qtype_value (str : list Z) (len : nat) : option Z :=
  if decide (4 < len ∧ strncasecmp_eq str (bytes "TYPE") 4 = true) then
    let '(u, consumed, _) := strtoul 10 (drop 4 str) in
    if decide (4 + consumed = len ∧ (u ≤ 65535)%Z) then Some u else None
  else qtype_search qtype_table str len.

Lemma qtype_value_range str len v : qtype_value str len = Some v → (0 ≤ v < 65536)%Z.
Proof.
  unfold qtype_value. case_decide.
  - destruct (strtoul 10 (drop 4 str)) as [[u consumed] e] eqn:E.
    apply strtoul_nonneg in E; [|lia]. case_decide; intros; simplify_eq; lia.
  - assert (Forall (λ q : string * Z, 0 ≤ snd q < 65536)%Z qtype_table) as Ht.
    { apply (bool_decide_unpack _). vm_compute. done. }
    induction Ht as [|[t w] q Hw Hq IH]; simpl; [done|].
    destruct (strncasecmp_eq (bytes t) str len); [by intros [= <-]|apply IH].
Qed.

Lemma qtype_push str len b :
  buffer_wf b → room b 2 →
  perf_qtype_fromstring str len b =
    Done (match qtype_value str len with
          | Some v => (PERF_R_SUCCESS, push (be16 v) b)
          | None => (PERF_R_FAILURE, b)
          end).
Proof.
  intros Hwf Hr. pose proof (qtype_value_range str len) as Hv. revert Hv.
  unfold perf_qtype_fromstring, qtype_value.
  assert (∀ u, (0 ≤ u < 65536)%Z →
    (perf_buffer_putuint16 u;; mret PERF_R_SUCCESS) b = Done (PERF_R_SUCCESS, push (be16 u) b)) as Hput.
  { intros u Hu. unfold mbind, M_bind. by rewrite put16_spec, decide_True, u16_small. }
  case_decide.
  - destruct (strtoul 10 (drop 4 str)) as [[u consumed] e]. intros Hv.
    destruct (decide (4 + consumed = len ∧ (u ≤ 65535)%Z)) as [[<- Hu]|Hn].
    + rewrite decide_False; [by apply Hput, Hv|]. unfold ULONG_MAX. lia.
    + rewrite decide_True; [done|]. lia.
  - intros Hv. destruct (qtype_search _ _ _) as [v|]; [by apply Hput, Hv|done].
Qed.

(** The search for a text of at least [len] characters only depends on them up to case. *)
Lemma qtype_search_ext q s s' len :
  len ≤ length s → len ≤ length s' → map tolower (take len s) = map tolower (take len s') →
  qtype_search q s len = qtype_search q s' len.
Proof.
  intros Hs Hs' He. induction q as [|[t v] q IH]; [done|]. simpl. unfold strncasecmp_eq.
  rewrite (strn_eq_ext _ _ _ s s') by done. by rewrite IH.
Qed.

Lemma qtype_value_ext s s' len :
  len ≤ length s → len ≤ length s' → map tolower (take len s) = map tolower (take len s') →
  strncasecmp_eq (bytes "TYPE") s' 4 = false ∨ len ≤ 4 →
  qtype_value s len = qtype_search qtype_table s' len.
Proof.
  intros Hs Hs' He Ht. unfold qtype_value. rewrite decide_False; [by apply qtype_search_ext|].
  intros [Hlen Hty]. destruct Ht as [Ht|]; [|lia].
  rewrite strncasecmp_sym in Hty. unfold strncasecmp_eq in *.
  rewrite (strn_eq_ext _ _ _ s s') in Hty; [congruence|lia|lia|].
  apply (f_equal (take 4)) in He. rewrite <- !fmap_take, !take_take in He.
  by replace (4 `min` len) with 4 in He by lia.
Qed.

(** ** Theorems *)

(** Each mnemonic other than [TA] is the first entry of the table it is a prefix of. *)
Lemma table_search :
  Forall (λ q : string * Z, q.1 = "TA" ∨
            (qtype_search qtype_table (bytes q.1) (length (bytes q.1)) = Some q.2 ∧
             strncasecmp_eq (bytes "TYPE") (bytes q.1) 4 = false)) qtype_table.
Proof. apply (bool_decide_unpack _). vm_compute. done. Qed.

(** every mnemonic of the table but [TA], written in any mix of cases and followed by
    anything, is accepted, and its type code is appended in network order. *)
Theorem qtype_mnemonic t v str b :
  (t, v) ∈ qtype_table → t ≠ "TA" →
  length (bytes t) ≤ length str →
  map tolower (take (length (bytes t)) str) = map tolower (bytes t) →
  buffer_wf b → room b 2 →
  ∃ b', perf_qtype_fromstring str (length (bytes t)) b = Done (PERF_R_SUCCESS, b') ∧
        contents b' = contents b ++ be16 v ∧ buffer_wf b'.
Proof.
  intros Hin Hta Hlen Hcase Hwf Hr.
  destruct (proj1 (Forall_forall _ _) table_search _ Hin) as [?|[Hs Ht]]; [done|]. cbn [fst snd] in *.
  exists (push (be16 v) b). rewrite qtype_push by done.
  rewrite (qtype_value_ext _ (bytes t)), Hs; [|done|done| |by left].
  - split_and!; [done|by apply contents_push|by apply push_wf].
  - by rewrite Hcase, take_ge.
Qed.

Lemma qtype_mnemonic_witness :
  ∃ b', perf_qtype_fromstring (bytes "aaaa rest") 4 (test_buffer 3)
        = Done (PERF_R_SUCCESS, b') ∧ contents b' = [] ++ be16 28 ∧ buffer_wf b'.
Proof.
  apply (qtype_mnemonic "AAAA" 28 (bytes "aaaa rest")).
  - apply (bool_decide_unpack _). vm_compute. done.
  - done.
  - vm_compute. lia.
  - vm_compute. done.
  - apply test_buffer_wf.
  - vm_compute. lia.
Defined.

(** What the generic notation stands for. *)
Lemma qtype_value_number fuel n rest :
  (0 ≤ n < 10 ^ Z.of_nat (S fuel))%Z → (n < ULONG_MAX)%Z → ends_number rest →
  qtype_value (bytes "TYPE" ++ dec (S fuel) n ++ rest) (4 + length (dec (S fuel) n)) =
    if decide (n ≤ 65535)%Z then Some n else None.
Proof.
  intros Hn Hm Hrest. pose proof (dec_nonempty fuel n). unfold qtype_value.
  rewrite decide_True; cycle 1.
  { split; [lia|]. unfold strncasecmp_eq. done. }
  rewrite drop_app_length' by done. rewrite strtoul_dec by (done || lia).
  destruct (decide (n ≤ 65535)%Z).
  - by rewrite decide_True.
  - by rewrite decide_False by lia.
Qed.

(** the generic notation [TYPEn] (RFC 3597): a number of up to 19 digits that fits in
    16 bits is written as it is, a larger one is refused and leaves the buffer as it was. *)
Theorem qtype_generic n rest b :
  (0 ≤ n < 10 ^ 19)%Z → ends_number rest → buffer_wf b → room b 2 →
  let text := bytes "TYPE" ++ dec 19 n ++ rest in
  perf_qtype_fromstring text (4 + length (dec 19 n)) b =
    if decide (n ≤ 65535)%Z then Done (PERF_R_SUCCESS, push (be16 n) b)
    else Done (PERF_R_FAILURE, b).
Proof.
  intros Hn Hrest Hwf Hr text. rewrite qtype_push by done. unfold text.
  rewrite qtype_value_number by (done || unfold ULONG_MAX; lia). by destruct (decide _).
Qed.

Lemma qtype_generic_witness :
  perf_qtype_fromstring (bytes "TYPE257") 7 (test_buffer 3) =
    Done (PERF_R_SUCCESS, PerfBuffer [1; 1; 0]%Z 3 2 0 0).
Proof.
  pose proof (qtype_generic 257 [] (test_buffer 3) ltac:(lia)) as H.
  vm_compute in H. apply H; [done|split; simpl; lia|lia].
Defined.

(** a text is compared with as many characters of each mnemonic as it has itself, so
    any abbreviation is accepted: [TA] is read as the [TALINK] (58) that precedes it in
    the table and not as its own code 32768, [C] as [CNAME], and an empty text as [A]. *)
Theorem qtype_prefix_match :
  let run text := perf_qtype_fromstring (bytes text) (length (bytes text)) (test_buffer 2) in
  ("TA", 32768%Z) ∈ qtype_table ∧
  run "TA" = Done (PERF_R_SUCCESS, PerfBuffer (be16 58) 2 2 0 0) ∧
  run "C" = Done (PERF_R_SUCCESS, PerfBuffer (be16 5) 2 2 0 0) ∧
  run "" = Done (PERF_R_SUCCESS, PerfBuffer (be16 1) 2 2 0 0).
Proof.
  split; [apply (bool_decide_unpack _); vm_compute; done|]. by vm_compute.
Qed.
