(* ===== verification/Edns.v ===== *)
(** * EDNS (edns.c): options of the command line and the OPT record

    [perf_edns_parseoption] turns [code:hex] into the wire form of an EDNS option, kept in
    a buffer of its own; the length field is written last, through a copy [save] of the
    buffer that shares its array.  [perf_add_edns] appends the OPT record to a packet. *)

From S2P Require Import Prelude Buffer.

Definition EDNSLEN : nat := 11.
Definition MAX_EDNS_PACKET : Z := 4096.

(** [struct perf_ednsoption]: the buffer, whose array is the [data] member. *)
Record perf_ednsoption : Type := PerfEdnsOption { option_buffer : perf_buffer }.

(** The loop over the hexadecimal digits, lines 85-97: two characters at a time. *)
Fixpoint hex_loop (value : list Z) : M perf_buffer unit :=
  match value with
  | [] => mret ()
  | a :: value1 =>
      if decide (a = 0%Z) then mret ()
      else match value1 with
      | [] => lift Undef
      | b :: value2 =>
          let '(u, consumed, _) := strtoul 16 [a; b] in
          if decide (char0 (drop consumed [a; b]) ≠ 0%Z ∨ u = ULONG_MAX) then perf_log_fatal
          else perf_buffer_putuint8 (Z.land u 255);; hex_loop value2
      end
  end.

(** Lines 57-99 once the separator has been found: [code] and [value] are the two halves. *)
Definition parse_code_value (code value : list Z) : run perf_ednsoption :=
  let data_len := strlen value in
  if decide (data_len = 0) then Exit 1
  else if decide (Nat.odd data_len = true) then Exit 1
  else
    let data_len := data_len / 2 + 4 in
    let buffer := perf_buffer_init (replicate data_len 0%Z) data_len in
    let '(u, consumed, _) := strtoul 10 code in
    if decide (char0 (drop consumed code) ≠ 0%Z ∨ u = ULONG_MAX) then Exit 1
    else
      '(_, buffer) ← perf_buffer_putuint16 (Z.land u 65535) buffer;
      let save := buffer in
      '(_, buffer) ← perf_buffer_add 2 buffer;
      '(_, buffer) ← hex_loop value buffer;
      '(_, save) ← perf_buffer_putuint16 (Z.of_nat (perf_buffer_usedlength buffer) - 4)
                     (set_base save (pb_base buffer));
      Done (PerfEdnsOption (set_base buffer (pb_base save))).

(** [perf_edns_parseoption(arg)]; [perf_opt_usage] followed by [exit(1)] is [Exit 1]. *)
Definition perf_edns_parseoption (arg : list Z) : run perf_ednsoption :=
  let copy := cstr arg in
  match strchr copy 58 with
  | None => Exit 1
  | Some sep => parse_code_value (take sep copy) (drop (S sep) copy)
  end.

(** [perf_add_edns(packet, dnssec, option)]. *)
Definition perf_add_edns (dnssec : bool) (option : option perf_ednsoption) : M perf_buffer perf_result :=
  let option_length :=
    match option with Some o => perf_buffer_usedlength (option_buffer o) | None => 0 end in
  let total_length := EDNSLEN + option_length in
  packet ← get;
  if decide (perf_buffer_availablelength packet < total_length) then mret PERF_R_NOSPACE
  else
    perf_buffer_putuint8 0;;
    perf_buffer_putuint16 41;;
    perf_buffer_putuint16 MAX_EDNS_PACKET;;
    perf_buffer_putuint8 0;;
    perf_buffer_putuint8 0;;
    (if dnssec then perf_buffer_putuint16 0x8000 else perf_buffer_putuint16 0);;
    perf_buffer_putuint16 (Z.of_nat option_length);;
    match option with
    | Some o => perf_buffer_putmem (take option_length (pb_base (option_buffer o)))
    | None => mret ()
    end;;
    incr_byte 11;;
    mret PERF_R_SUCCESS.

(** ** Reference *)

(** The value of two hexadecimal characters the way [strtoul] reads them. *)
Definition hex_pair (a b : Z) : option Z :=
  let '(u, consumed, _) := strtoul 16 [a; b] in
  if decide (char0 (drop consumed [a; b]) ≠ 0%Z ∨ u = ULONG_MAX) then None else Some (u8 u).

Fixpoint hex_bytes (value : list Z) : option (list Z) :=
  match value with
  | a :: b :: value' => v ← hex_pair a b; vs ← hex_bytes value'; Some (v :: vs)
  | _ => Some []
  end.

Definition hex_digit (d : Z) : Z := if decide (d < 10)%Z then (48 + d)%Z else (87 + d)%Z.
(** The text [%02x] of the bytes. *)
Definition hex_text (ds : list Z) : list Z :=
  concat (map (λ v, [hex_digit (v / 16); hex_digit (v mod 16)]) ds).

(** An EDNS option on the wire (RFC 6891, 6.1.2). *)
Definition wire_option (code : Z) (data : list Z) : list Z :=
  be16 code ++ be16 (Z.of_nat (length data)) ++ data.

(** The OPT record (RFC 6891, 6.1.2): root name, type 41, payload size, extended RCODE and
    version 0, the DO bit, and the options. *)
Definition opt_record (dnssec : bool) (rdata : list Z) : list Z :=
  [0%Z] ++ be16 41 ++ be16 MAX_EDNS_PACKET ++ [0; 0]%Z ++ be16 (if dnssec then 0x8000 else 0)
  ++ be16 (Z.of_nat (length rdata)) ++ rdata.

Definition option_data (o : option perf_ednsoption) : list Z :=
  match o with Some o => contents (option_buffer o) | None => [] end.

(** ** The option *)

Lemma hex_bytes_length value ds :
  hex_bytes value = Some ds → Nat.odd (length value) = false →
  length value = 2 * length ds ∧ Forall byte_ok ds.
Proof.
  revert ds. induction value as [value IH] using (induction_ltof1 _ (@length Z)).
  intros ds. destruct value as [|a [|c value]]; [by intros [= <-]|done|]. cbn [hex_bytes].
  destruct (hex_pair a c) as [v|] eqn:Ev; [|done]. simpl.
  destruct (hex_bytes value) as [vs|] eqn:Evs; [|done]. intros [= <-] Hodd.
  destruct (IH value ltac:(unfold ltof; simpl; lia) vs Evs Hodd) as [Hl Hb].
  split; [simpl; lia|]. constructor; [|done]. unfold hex_pair in Ev.
  destruct (strtoul 16 [a; c]) as [[??]?]. case_decide; [done|]. injection Ev as <-. apply u8_range.
Qed.

Lemma hex_loop_spec value b :
  Forall (λ c, c ≠ 0%Z) value → Nat.odd (length value) = false →
  buffer_wf b → room b (length value / 2) →
  hex_loop value b =
    match hex_bytes value with
    | Some ds => Done ((), push ds b)
    | None => Exit 1
    end.
Proof.
  revert b. induction value as [value IH] using (induction_ltof1 _ (@length Z)).
  intros b Hnz Hodd Hwf Hr. destruct value as [|a [|c value]]; [|done|].
  { simpl. by rewrite push_nil. }
  apply Forall_cons in Hnz as [Ha Hnz]. apply Forall_cons in Hnz as [Hc Hnz].
  assert (length (a :: c :: value) / 2 = S (length value / 2)) as Hlen.
  { change (length (a :: c :: value)) with (2 + length value).
    replace (2 + length value) with (1 * 2 + length value) by lia. by rewrite Nat.div_add_l. }
  rewrite Hlen in *. cbn [hex_loop hex_bytes]. rewrite decide_False by done. unfold hex_pair.
  destruct (strtoul 16 [a; c]) as [[u consumed] e]. destruct (decide _) as [He|He].
  { done. }
  assert (Z.land u 255 = u8 u) as Hu.
  { unfold u8. change 255%Z with (Z.ones 8). by rewrite Z.land_ones. }
  rewrite (bind_Done _ _ _ () (push [u8 u] b)); cycle 1.
  { rewrite put8_spec, decide_True by (done || (eapply room_le; [|exact Hr]; lia)).
    rewrite Hu. do 3 f_equal. rewrite u8_small by apply u8_range. done. }
  rewrite (IH value); [| |done|done| |].
  - simpl. destruct (hex_bytes value) as [ds|]; simpl; [by rewrite push_app|done].
  - unfold ltof. simpl. lia.
  - apply push_wf; [done|]. eapply room_le; [|exact Hr]. simpl. lia.
  - eapply room_push; [exact Hr|simpl; lia].
Qed.

(** The four bytes of the header are filled in around the data. *)
Lemma header_data (h l ds m : list Z) :
  length h = 2 → length l = 2 → length m = 4 + length ds →
  list_inserts 2 l (list_inserts 4 ds (list_inserts 0 h m)) = h ++ l ++ ds.
Proof.
  intros Hh Hl Hm. destruct h as [|h1 [|h2 [|]]]; try done. destruct l as [|l1 [|l2 [|]]]; try done.
  destruct m as [|m1 [|m2 [|m3 [|m4 m]]]]; try done. simpl in Hm.
  cbn [list_inserts list_insert insert]. simpl. rewrite !list_inserts_cons. simpl.
  do 4 f_equal. rewrite <- (app_nil_r ds) at 1. apply list_inserts_0_l. lia.
Qed.

(** What the option parser makes of the two halves of its argument. *)
Lemma parse_code_value_spec code value u consumed e :
  Forall (λ c, c ≠ 0%Z) value → strtoul 10 code = (u, consumed, e) →
  parse_code_value code value =
    match hex_bytes value with
    | Some ds =>
        if decide (length value = 0 ∨ Nat.odd (length value) = true ∨ char0 (drop consumed code) ≠ 0%Z ∨ u = ULONG_MAX)
        then Exit 1
        else let w := be16 (u16 u) ++ be16 (u16 (Z.of_nat (length ds))) ++ ds in
             Done (PerfEdnsOption (PerfBuffer w (length w) (length w) 0 0))
    | None => Exit 1
    end.
Proof.
  intros Hnz Hcode. unfold parse_code_value. rewrite strlen_nz, Hcode by done.
  destruct (decide (length value = 0)) as [H0|H0].
  { destruct (hex_bytes value); [|done]. by rewrite decide_True by tauto. }
  destruct (decide (Nat.odd (length value) = true)) as [Ho|Ho].
  { destruct (hex_bytes value); [|done]. by rewrite decide_True by tauto. }
  apply not_true_is_false in Ho.
  destruct (decide (char0 (drop consumed code) ≠ 0%Z ∨ u = ULONG_MAX)) as [He|He].
  { destruct (hex_bytes value); [|done]. by rewrite decide_True by tauto. }
  set (n := length value / 2). fold (test_buffer (n + 4)).
  assert (Z.land u 65535 = u16 u) as Hu.
  { unfold u16. change 65535%Z with (Z.ones 16). by rewrite Z.land_ones. }
  pose proof (test_buffer_wf (n + 4)) as Hwf0.
  rewrite put16_spec, decide_True, Hu, u16_small by (done || apply u16_range || (unfold room; simpl; lia)).
  cbn [mbind run_bind]. rewrite add_spec, decide_True by (unfold room; simpl; lia). cbn [mbind run_bind].
  set (b := set_used _ _).
  assert (buffer_wf b) as Hwf.
  { unfold b, buffer_wf. simpl. rewrite !length_insert, length_replicate. lia. }
  rewrite hex_loop_spec by (done || (unfold room, b, n; simpl; lia)).
  destruct (hex_bytes value) as [ds|] eqn:Eds; [|done]. cbn [mbind run_bind].
  rewrite (decide_False (P := _ ∨ _)) by (rewrite Ho; intros [?|[?|?]]; done).
  destruct (hex_bytes_length _ _ Eds Ho) as [Hlen' _].
  assert (length ds = n) as Hlen by (unfold n; rewrite Hlen', Nat.mul_comm, Nat.div_mul; done).
  assert (pb_base b = list_inserts 0 (be16 (u16 u)) (replicate (n + 4) 0%Z)) as Hbase by done.
  assert (length (pb_base b) = n + 4) as Hlb by (rewrite Hbase, length_inserts, length_replicate; done).
  rewrite put16_spec, decide_True; [| |split].
  - cbn [mbind run_bind]. unfold perf_buffer_usedlength. rewrite push_used.
    change (pb_used b) with 4. replace (Z.of_nat (4 + length ds) - 4)%Z with (Z.of_nat (length ds)) by lia.
    do 2 f_equal. unfold set_base at 1. f_equal; try (rewrite !length_app; simpl; lia).
    rewrite <- (header_data _ _ ds (replicate (n + 4) 0%Z)); [done|done|done|].
    rewrite length_replicate. lia.
  - unfold room. simpl. lia.
  - simpl. lia.
  - cbn [push pb_base set_base pb_length]. rewrite length_inserts, Hlb. simpl. lia.
Qed.

Lemma hex_pair_digits v :
  byte_ok v → hex_pair (hex_digit (v / 16)) (hex_digit (v mod 16)) = Some v.
Proof.
  intros Hv.
  assert (Forall (λ w, hex_pair (hex_digit (w / 16)) (hex_digit (w mod 16)) = Some w) (seqZ 0 256)) as Hall.
  { apply (bool_decide_unpack _). vm_compute. done. }
  rewrite Forall_forall in Hall. apply Hall, elem_of_seqZ. unfold byte_ok in Hv. lia.
Qed.

Lemma hex_bytes_text ds : Forall byte_ok ds → hex_bytes (hex_text ds) = Some ds.
Proof.
  induction 1 as [|v ds Hv Hds IH]; [done|]. unfold hex_text in *. cbn [map concat app hex_bytes].
  rewrite hex_pair_digits by done. simpl. by rewrite IH.
Qed.

Lemma hex_text_length ds : length (hex_text ds) = 2 * length ds.
Proof. unfold hex_text. induction ds as [|v ds IH]; [done|]. simpl in *. lia. Qed.

Lemma hex_text_nz ds : Forall byte_ok ds → Forall (λ c, c ≠ 0%Z) (hex_text ds).
Proof.
  unfold hex_text. induction 1 as [|v ds Hv Hds IH]; [constructor|]. cbn [map concat app].
  unfold byte_ok in Hv. pose proof (Z.mod_pos_bound v 16). pose proof (Z.div_pos v 16).
  unfold hex_digit in *. repeat constructor; try done; case_decide; lia.
Qed.

(** ** Theorems *)

(** the textual form of an EDNS option is read back: [code:hex] with a 16 bit code
    and at least one byte of data gives the wire form of that option, its length field
    filled in through the alias of the buffer. *)
Theorem edns_option_roundtrip code data :
  (0 ≤ code < 65536)%Z → (0 < Z.of_nat (length data) < 65536)%Z → Forall byte_ok data →
  ∃ o, perf_edns_parseoption (dec 5 code ++ [58%Z] ++ hex_text data) = Done o ∧
       contents (option_buffer o) = wire_option code data ∧ buffer_wf (option_buffer o).
Proof.
  intros Hc Hl Hd. pose proof (dec_digits 5 code ltac:(lia)) as Hdig.
  assert (Forall (λ x, x ≠ 0%Z ∧ x ≠ 58%Z) (dec 5 code)) as Hnz.
  { eapply Forall_impl; [exact Hdig|]. intros x Hx%bool_decide_eq_true_1. lia. }
  pose proof (hex_text_nz data Hd) as Hhz. unfold perf_edns_parseoption.
  rewrite cstr_id by (apply Forall_app; split; [by eapply Forall_impl; [exact Hnz|]; intros ? [??]|by constructor]).
  cbn [app]. rewrite strchr_app by done.
  rewrite take_app_length, <- (Nat.add_1_r (length (dec 5 code))), drop_app_add.
  change (drop 1 (58%Z :: hex_text data)) with (hex_text data).
  assert (strtoul 10 (dec 5 code) = (code, length (dec 5 code), false)) as Hs.
  { pose proof (strtoul_dec 4 code []) as H'. rewrite app_nil_r in H'. apply H'; [lia|unfold ULONG_MAX; lia|done]. }
  rewrite (parse_code_value_spec _ _ _ _ _ Hhz Hs), hex_bytes_text, hex_text_length by done.
  rewrite decide_False; cycle 1.
  { rewrite Nat.odd_mul. rewrite drop_ge by done. unfold ULONG_MAX. simpl. intros [?|[?|[?|?]]]; try done; lia. }
  eexists. split; [done|]. unfold contents, buffer_wf, wire_option.
  cbn [option_buffer pb_base pb_used pb_length]. rewrite take_ge by done.
  rewrite (u16_small code), (u16_small (Z.of_nat _)) by lia. split; [done|lia].
Qed.

Lemma edns_option_roundtrip_witness :
  ∃ o, perf_edns_parseoption (bytes "10:00ff") = Done o ∧
       contents (option_buffer o) = [0; 10; 0; 2; 0; 255]%Z ∧ buffer_wf (option_buffer o).
Proof.
  apply (edns_option_roundtrip 10 [0; 255]%Z); [lia|simpl; lia|by apply (bool_decide_unpack _)].
Defined.

(** for every argument the option parser either ends the process with status 1 or
    returns a well-formed option: a code, the length of the data modulo 2^16, and the
    data; the assertions of the buffer never fail and no byte outside the buffer is
    touched.  A code that is empty is read as 0 and a code above 65535 is truncated. *)
Theorem edns_parseoption_total arg :
  match perf_edns_parseoption arg with
  | Done o => ∃ u ds, (0 ≤ u)%Z ∧ 0 < length ds ∧ Forall byte_ok ds ∧ buffer_wf (option_buffer o) ∧
                contents (option_buffer o) = be16 (u16 u) ++ be16 (u16 (Z.of_nat (length ds))) ++ ds
  | Exit c => c = 1%Z
  | _ => False
  end.
Proof.
  unfold perf_edns_parseoption. pose proof (cstr_nz arg) as Hnz.
  destruct (strchr (cstr arg) 58) as [sep|]; [|done].
  assert (Forall (λ c, c ≠ 0%Z) (drop (S sep) (cstr arg))) as Hv by (by apply Forall_drop).
  generalize dependent (drop (S sep) (cstr arg)). intros value Hv.
  destruct (strtoul 10 (take sep (cstr arg))) as [[u consumed] e] eqn:Hs.
  pose proof (strtoul_nonneg 10 _ _ _ _ ltac:(lia) Hs).
  rewrite (parse_code_value_spec _ _ _ _ _ Hv Hs).
  destruct (hex_bytes value) as [ds|] eqn:Eds; [|done].
  destruct (decide _) as [?|Hn]; [done|]. assert (length value ≠ 0 ∧ Nat.odd (length value) ≠ true) as [H0 Hodd] by tauto.
  apply not_true_is_false in Hodd. destruct (hex_bytes_length _ _ Eds Hodd) as [Hl Hb].
  exists u, ds. split_and!; [done|lia|done|done|]. unfold contents. simpl. by rewrite take_ge.
Qed.

(** An option fit for an OPT record: its buffer is well formed and its length fits in the
    16 bits of RDLENGTH. *)
Definition option_ok (o : option perf_ednsoption) : Prop :=
  match o with
  | Some o => buffer_wf (option_buffer o) ∧ (Z.of_nat (pb_used (option_buffer o)) < 65536)%Z
  | None => True
  end.

Lemma opt_record_length d rdata : length (opt_record d rdata) = EDNSLEN + length rdata.
Proof. done. Qed.

(** The OPT record appended to a packet that has a header. *)
Lemma add_edns_spec dnssec o p v :
  buffer_wf p → contents p !! 11 = Some v → option_ok o →
  if decide (room p (EDNSLEN + length (option_data o))) then
    ∃ p', perf_add_edns dnssec o p = Done (PERF_R_SUCCESS, p') ∧ buffer_wf p' ∧
          pb_length p' = pb_length p ∧
          contents p' = <[11 := u8 (v + 1)]> (contents p) ++ opt_record dnssec (option_data o)
  else perf_add_edns dnssec o p = Done (PERF_R_NOSPACE, p).
Proof.
  intros Hwf Hv Ho. unfold perf_add_edns.
  set (len := match o with Some o0 => _ | None => 0 end).
  assert (length (option_data o) = len) as ->.
  { destruct o as [o|]; [|done]. simpl. apply contents_length, Ho. }
  assert (Z.of_nat len < 65536)%Z as Hlen by (destruct o as [o|]; [apply Ho|done]).
  rewrite (bind_Done get _ p p p) by done. unfold perf_buffer_availablelength, EDNSLEN.
  destruct (decide (room p (11 + len))) as [Hr|Hr].
  2:{ rewrite decide_True; [done|]. unfold room in Hr. lia. }
  rewrite decide_False by (unfold room in Hr; lia). rewrite <- (push_nil p).
  replace (if dnssec then perf_buffer_putuint16 0x8000 else perf_buffer_putuint16 0)
    with (perf_buffer_putuint16 (if dnssec then 0x8000 else 0)) by (by destruct dnssec).
  do 7 push_write.
  assert (u16 (if dnssec then 32768 else 0) = if dnssec then 32768 else 0)%Z as -> by (by destruct dnssec).
  rewrite (u16_small (Z.of_nat len)) by lia.
  assert (length (option_data o) = len) as Hdl.
  { destruct o as [o|]; [|done]. simpl. apply contents_length, Ho. }
  assert (room p (length (opt_record dnssec (option_data o)))) as Hroom.
  { rewrite opt_record_length. unfold EDNSLEN. by rewrite Hdl. }
  destruct (append_record _ _ _ Hwf Hv Hroom) as (p' & Hp' & Hwf' & Hlen' & Hc').
  exists p'. rewrite push_nil. split_and!; [|done|done|done]. rewrite <- Hp'.
  destruct o as [o|]; [|done].
  change (take len (pb_base (option_buffer o))) with (option_data (Some o)).
  set (d := option_data (Some o)) in *. push_write.
  do 2 f_equal. unfold opt_record. by rewrite Hdl.
Qed.

(** [perf_add_edns] appends exactly the OPT record of RFC 6891 with the given DO bit
    and option and increments the low byte of ARCOUNT, or leaves the packet untouched and
    reports [PERF_R_NOSPACE] when the record does not fit. *)
Theorem add_edns_correct dnssec o p v :
  buffer_wf p → contents p !! 11 = Some v → option_ok o →
  if decide (room p (EDNSLEN + length (option_data o))) then
    ∃ p', perf_add_edns dnssec o p = Done (PERF_R_SUCCESS, p') ∧ buffer_wf p' ∧
          contents p' = <[11 := u8 (v + 1)]> (contents p) ++ opt_record dnssec (option_data o)
  else perf_add_edns dnssec o p = Done (PERF_R_NOSPACE, p).
Proof.
  intros Hwf Hv Ho. pose proof (add_edns_spec dnssec o p v Hwf Hv Ho) as H.
  destruct (decide _); [|done]. destruct H as (p' & ? & ? & _ & ?). eauto.
Qed.

Lemma add_edns_correct_witness :
  let p := push (replicate 12 0%Z) (test_buffer 30) in
  ∃ p', perf_add_edns true None p = Done (PERF_R_SUCCESS, p') ∧ buffer_wf p' ∧
        contents p' = <[11 := 1%Z]> (replicate 12 0%Z) ++ opt_record true [].
Proof.
  intros p. pose proof (add_edns_correct true None p 0) as H.
  rewrite decide_True in H by (vm_compute; lia).
  apply H; [apply push_wf; [apply test_buffer_wf|vm_compute; lia]|done|done].
Defined.
