(* ===== verification/Tsig.v ===== *)
(** * Transaction signatures (tsig.c): the key of the command line and the TSIG record

    OpenSSL is a parameter: [EVP_DecodeUpdate] is a function, and the keyed hash is the
    interface [Hmac] with the laws [HmacLaws] that its documentation gives.  [perf_add_tsig]
    is proved against that interface; the two instances at the end of the file show that
    the laws can hold. *)

From S2P Require Import Prelude Buffer Dname.

Definition EVP_MAX_MD_SIZE : nat := 64.

(** The digests [perf_tsig_parsekey] chooses from. *)
Inductive EVP_MD : Set := EVP_md5 | EVP_sha1 | EVP_sha224 | EVP_sha256 | EVP_sha384 | EVP_sha512.

(** The incremental keyed hash: [EVP_DigestSignInit], [EVP_DigestSignUpdate] and
    [EVP_DigestSignFinal] (or [HMAC_Init_ex], [HMAC_Update], [HMAC_Final] before
    OpenSSL 3); [None] is failure. *)
Class Hmac : Type := {
  hmac_ctx : Type;
  hmac_init : EVP_MD → list Z → option hmac_ctx;
  hmac_reinit : hmac_ctx → option hmac_ctx;
  hmac_update : hmac_ctx → list Z → option hmac_ctx;
  hmac_final : hmac_ctx → option (list Z);
}.

(** What the hash promises: it never produces more than [EVP_MAX_MD_SIZE] bytes, and after
    a reinitialisation and two updates it is a function of the key and of the
    concatenated data. *)
Class HmacLaws (H : Hmac) : Type := {
  hmac_mac : hmac_ctx → list Z → list Z;
  hmac_final_mac k c0 c1 c2 d1 d2 md :
    hmac_reinit k = Some c0 → hmac_update c0 d1 = Some c1 → hmac_update c1 d2 = Some c2 →
    hmac_final c2 = Some md → md = hmac_mac k (d1 ++ d2);
  hmac_mac_length k d : length (hmac_mac k d) ≤ EVP_MAX_MD_SIZE;
}.

Definition TSIG_HMACMD5_NAME := bytes "hmac-md5.sig-alg.reg.int".
Definition TSIG_HMACSHA1_NAME := bytes "hmac-sha1".
Definition TSIG_HMACSHA224_NAME := bytes "hmac-sha224".
Definition TSIG_HMACSHA256_NAME := bytes "hmac-sha256".
Definition TSIG_HMACSHA384_NAME := bytes "hmac-sha384".
Definition TSIG_HMACSHA512_NAME := bytes "hmac-sha512".

Section tsig.
Context {H : Hmac}.
(** [EVP_DecodeUpdate] on the whole input: its return value and its output. *)
Context (EVP_DecodeUpdate : list Z → Z * list Z).

(** [struct perf_tsigkey]: [ts_name] is the [namelen] bytes in use of [name[256]]. *)
Record perf_tsigkey : Type := PerfTsigkey {
  ts_name : list Z;
  ts_alg : list Z;
  ts_hmac : hmac_ctx;
}.

(** [decode64(base64, len)]: any return value but 0 is taken for an error. *)
Definition decode64 (base64 : list Z) : option (list Z) :=
  let '(rv, out) := EVP_DecodeUpdate base64 in
  if decide (rv ≠ 0%Z) then None else Some out.

(** The choice of the algorithm, lines 119-148; [None] for an unknown one. *)
Definition tsig_algorithm (alg : option (list Z)) : option (EVP_MD * list Z) :=
  match alg with
  | None => Some (EVP_md5, TSIG_HMACMD5_NAME)
  | Some a =>
      if strncasecmp_eq a (bytes "hmac-md5:") 9 then Some (EVP_md5, TSIG_HMACMD5_NAME)
      else if strncasecmp_eq a (bytes "hmac-sha1:") 10 then Some (EVP_sha1, TSIG_HMACSHA1_NAME)
      else if strncasecmp_eq a (bytes "hmac-sha224:") 12 then Some (EVP_sha224, TSIG_HMACSHA224_NAME)
      else if strncasecmp_eq a (bytes "hmac-sha256:") 12 then Some (EVP_sha256, TSIG_HMACSHA256_NAME)
      else if strncasecmp_eq a (bytes "hmac-sha384:") 12 then Some (EVP_sha384, TSIG_HMACSHA384_NAME)
      else if strncasecmp_eq a (bytes "hmac-sha512:") 12 then Some (EVP_sha512, TSIG_HMACSHA512_NAME)
      else None
  end.

(** [perf_tsig_parsekey(arg)]: [[alg:]name:secret].  Both [perf_opt_usage] with [exit(1)]
    and [perf_log_fatal] are [Exit 1]. *)
Definition perf_tsig_parsekey (arg : list Z) : run perf_tsigkey :=
  let arg := cstr arg in
  match strchr arg 58 with
  | None => Exit 1
  | Some sep1 =>
      let '(alg, name, secret) :=
        match strchr (drop (S sep1) arg) 58 with
        | None => (None, take sep1 arg, drop (S sep1) arg)
        | Some n => (Some arg, take n (drop (S sep1) arg), drop (S n) (drop (S sep1) arg))
        end in
      match tsig_algorithm alg with
      | None => Exit 1
      | Some (md, algname) =>
          if decide (256 < length name) then Exit 1
          else if decide (strlen secret = 0) then Exit 1
          else match decode64 secret with
          | None => Exit 1
          | Some key =>
              match hmac_init md key with
              | None => Exit 1
              | Some ctx => Done (PerfTsigkey (map tolower name) algname ctx)
              end
          end
      end
  end.

(** [switch (result = perf_dname_fromstring(...))] with a return in every case but success. *)
Definition dname_or_return (name : list Z) (k : M perf_buffer perf_result) : M perf_buffer perf_result :=
  result ← perf_dname_fromstring name;
  match result with
  | PERF_R_SUCCESS => k
  | _ => mret result
  end.

(** The part of the TSIG record that is signed, lines 264-291, written to [tmp]. *)
Definition tsig_digest_record (tsigkey : perf_tsigkey) (now : Z) : M perf_buffer perf_result :=
  dname_or_return (ts_name tsigkey) (
  perf_buffer_putuint16 255;;
  perf_buffer_putuint32 0;;
  dname_or_return (ts_alg tsigkey) (
  perf_buffer_putuint16 0;;
  perf_buffer_putuint32 now;;
  perf_buffer_putuint16 300;;
  perf_buffer_putuint16 0;;
  perf_buffer_putuint16 0;;
  mret PERF_R_SUCCESS)).

(** The record itself, lines 323-356. *)
Definition tsig_write_record (tsigkey : perf_tsigkey) (now : Z) (rdlen : nat) (md : list Z)
    : M perf_buffer perf_result :=
  dname_or_return (ts_name tsigkey) (
  perf_buffer_putuint16 250;;
  perf_buffer_putuint16 255;;
  perf_buffer_putuint32 0;;
  perf_buffer_putuint16 (Z.of_nat rdlen);;
  dname_or_return (ts_alg tsigkey) (
  perf_buffer_putuint16 0;;
  perf_buffer_putuint32 now;;
  perf_buffer_putuint16 300;;
  perf_buffer_putuint16 (Z.of_nat (length md));;
  perf_buffer_putmem md;;
  packet ← get;
  perf_buffer_putmem (take 2 (pb_base packet));;
  perf_buffer_putuint16 0;;
  perf_buffer_putuint16 0;;
  incr_byte 11;;
  mret PERF_R_SUCCESS)).

Definition or_fatal {A} (o : option A) : M perf_buffer A :=
  match o with Some a => mret a | None => perf_log_fatal end.

(** [perf_add_tsig(packet, tsigkey)] with [time(NULL)] as an argument. *)
Definition perf_add_tsig (tsigkey : perf_tsigkey) (time : Z) : M perf_buffer perf_result :=
  let now := u32 time in
  packet ← get;
  c0 ← or_fatal (hmac_reinit (ts_hmac tsigkey));
  c1 ← or_fatal (hmac_update c0 (perf_buffer_usedregion packet));
  '(result, tmp) ← lift (tsig_digest_record tsigkey now (perf_buffer_init (replicate 512 0%Z) 512));
  match result with
  | PERF_R_SUCCESS =>
      c2 ← or_fatal (hmac_update c1 (perf_buffer_usedregion tmp));
      md ← or_fatal (hmac_final c2);
      let rdlen := length (ts_alg tsigkey) + 18 + length md in
      let totallen := length (ts_name tsigkey) + 12 + rdlen in
      if decide (perf_buffer_availablelength packet < totallen) then mret PERF_R_NOSPACE
      else tsig_write_record tsigkey now rdlen md
  | _ => mret result
  end.

(** ** Reference *)

Definition tsig_names : list (list Z) :=
  [TSIG_HMACMD5_NAME; TSIG_HMACSHA1_NAME; TSIG_HMACSHA224_NAME; TSIG_HMACSHA256_NAME;
   TSIG_HMACSHA384_NAME; TSIG_HMACSHA512_NAME].

(** A key that [perf_tsig_parsekey] can produce. *)
Definition key_ok (k : perf_tsigkey) : Prop :=
  Forall byte_ok (ts_name k) ∧ length (ts_name k) ≤ 256 ∧ ts_alg k ∈ tsig_names.

(** The TSIG variables that follow the message in the digest (RFC 8945, 4.3.3), for the
    wire forms of the two names. *)
Definition tsig_variables (name alg : list Z) (now : Z) : list Z :=
  name ++ be16 255 ++ be32 0 ++ alg ++ be16 0 ++ be32 now ++ be16 300 ++ be16 0 ++ be16 0.

(** The RDATA (RFC 8945, 4.2): algorithm, 48 bit time, fudge, MAC, original id, error and
    other data. *)
Definition tsig_rdata (alg : list Z) (now : Z) (mac id : list Z) : list Z :=
  alg ++ be16 0 ++ be32 now ++ be16 300 ++ be16 (Z.of_nat (length mac)) ++ mac ++ id
  ++ be16 0 ++ be16 0.

Definition tsig_record (name rdata : list Z) : list Z :=
  name ++ be16 250 ++ be16 255 ++ be32 0 ++ be16 (Z.of_nat (length rdata)) ++ rdata.

(** The hash calls of [perf_add_tsig] in sequence. *)
Definition hmac_run (k : hmac_ctx) (d1 d2 : list Z) : option (list Z) :=
  c0 ← hmac_reinit k; c1 ← hmac_update c0 d1; c2 ← hmac_update c1 d2; hmac_final c2.

Lemma hmac_run_mac `{!HmacLaws H} k d1 d2 md :
  hmac_run k d1 d2 = Some md → md = hmac_mac k (d1 ++ d2).
Proof.
  unfold hmac_run. intros (c0 & E0 & (c1 & E1 & (c2 & E2 & E3)%bind_Some)%bind_Some)%bind_Some.
  by eapply hmac_final_mac.
Qed.

Lemma alg_wire alg :
  alg ∈ tsig_names →
  ∃ w, name_wire alg = Some w ∧ length w = length alg + 2 ∧ length alg ≤ 24 ∧ Forall byte_ok alg.
Proof.
  unfold tsig_names. rewrite !elem_of_cons, elem_of_nil.
  intros [->|[->|[->|[->|[->|[->|[]]]]]]]; eexists;
    (split; [vm_compute; reflexivity|]; split_and!;
     [vm_compute; lia|vm_compute; lia|by apply (bool_decide_unpack _)]).
Qed.

(** A name written after [acc]. *)
Lemma bind_dname acc b s w (k : M perf_buffer perf_result) :
  name_wire s = Some w → Forall byte_ok s → buffer_wf b → room b (length acc + (length s + 2)) →
  dname_or_return s k (push acc b) = k (push (acc ++ w) b).
Proof.
  intros Hw Hs Hwf Hr. unfold dname_or_return.
  assert (buffer_wf (push acc b)) as Hwf' by (apply push_wf; [done|eapply room_le; [|exact Hr]; lia]).
  pose proof (dname_push s (push acc b) Hs Hwf' (proj1 (push_room _ _ _) Hr)) as Hd.
  rewrite Hw in Hd. destruct Hd as [Hd _]. rewrite (bind_Done _ _ _ _ _ Hd). by rewrite push_app.
Qed.

(** Unfold names of a record and run the writes of a whole record. *)
Ltac side_room := unfold room in *; autorewrite with perf_len; simpl in *; lia.
Ltac write_all :=
  repeat first
    [ push_write
    | erewrite bind_dname; [|eassumption|assumption|assumption|side_room] ].

Section write.
Context (key : perf_tsigkey) (now : Z) (wn wa : list Z).
Context (Hkey : key_ok key) (Hn : name_wire (ts_name key) = Some wn).
Context (Ha : name_wire (ts_alg key) = Some wa).
Context (Hnl : length wn ≤ length (ts_name key) + 2).
Context (Hal : length wa = length (ts_alg key) + 2) (Hal' : length (ts_alg key) ≤ 24).
Context (Hab : Forall byte_ok (ts_alg key)) (Hnow : (0 ≤ now < 2 ^ 32)%Z).

Lemma digest_record_spec :
  tsig_digest_record key now (test_buffer 512) =
    Done (PERF_R_SUCCESS, push (tsig_variables wn wa now) (test_buffer 512)).
Proof using Hkey Hn Ha Hnl Hal Hal' Hab Hnow.
  destruct Hkey as (Hnb & Hnl' & _). pose proof (test_buffer_wf 512) as Hwf.
  assert (room (test_buffer 512) 512) as Hr by (by unfold room). revert Hr Hwf.
  generalize (test_buffer 512). intros b Hr Hwf. unfold tsig_digest_record.
  rewrite <- (push_nil b) at 1. write_all. unfold tsig_variables.
  rewrite <- !app_assoc, (u32_small now) by done. done.
Qed.

(** The written record, up to the count of additional records. *)
Lemma write_record_spec p md :
  buffer_wf p → 2 ≤ pb_used p → (Z.of_nat (length md) < 65000)%Z →
  room p (length (ts_name key) + 12 + (length (ts_alg key) + 18 + length md)) →
  tsig_write_record key now (length (ts_alg key) + 18 + length md) md p =
    (incr_byte 11;; mret PERF_R_SUCCESS)
      (push (tsig_record wn (tsig_rdata wa now md (take 2 (contents p)))) p).
Proof using Hkey Hn Ha Hnl Hal Hal' Hab Hnow.
  destruct Hkey as (Hnb & Hnl' & _). intros Hwf H2 Hmd Hr. unfold tsig_write_record.
  rewrite <- (push_nil p) at 1. write_all.
  rewrite (bind_Done get _ _ _ _ eq_refl), base_push_take by done.
  set (id := take 2 (contents p)).
  assert (length id = 2) as Hid.
  { unfold id. rewrite length_take, contents_length by done. lia. }
  write_all. do 2 f_equal. unfold tsig_record, tsig_rdata.
  rewrite <- !app_assoc. autorewrite with perf_len. rewrite Hid, Hal.
  rewrite (u32_small now), (u16_small (Z.of_nat (length md))) by lia.
  rewrite (u16_small (Z.of_nat (_ + _))) by lia.
  match goal with |- context [be16 (Z.of_nat (length (ts_alg key) + 2 + ?n))] =>
    replace (length (ts_alg key) + 2 + n) with (length (ts_alg key) + 18 + length md) by lia end.
  done.
Qed.
End write.

(** The steps up to the record. *)
Lemma add_tsig_run key time p vars md :
  tsig_digest_record key (u32 time) (test_buffer 512) =
    Done (PERF_R_SUCCESS, push vars (test_buffer 512)) →
  length vars ≤ 512 → hmac_run (ts_hmac key) (contents p) vars = Some md →
  perf_add_tsig key time p =
    if decide (perf_buffer_availablelength p <
               length (ts_name key) + 12 + (length (ts_alg key) + 18 + length md))
    then Done (PERF_R_NOSPACE, p)
    else tsig_write_record key (u32 time) (length (ts_alg key) + 18 + length md) md p.
Proof.
  intros Hdig Hlen.
  intros (c0 & E0 & (c1 & E1 & (c2 & E2 & E3)%bind_Some)%bind_Some)%bind_Some.
  unfold perf_add_tsig. fold (test_buffer 512).
  rewrite (bind_Done get _ _ _ _ eq_refl), E0.
  rewrite (bind_Done (or_fatal (Some c0)) _ _ _ _ eq_refl).
  change (perf_buffer_usedregion p) with (contents p). rewrite E1.
  rewrite (bind_Done (or_fatal (Some c1)) _ _ _ _ eq_refl), Hdig.
  rewrite (bind_Done (lift (Done _)) _ _ _ _ eq_refl). cbv beta iota.
  assert (perf_buffer_usedregion (push vars (test_buffer 512)) = vars) as ->.
  { apply (contents_push vars (test_buffer 512)); [apply test_buffer_wf|done]. }
  rewrite E2. rewrite (bind_Done (or_fatal (Some c2)) _ _ _ _ eq_refl), E3.
  rewrite (bind_Done (or_fatal (Some md)) _ _ _ _ eq_refl). by destruct (decide _).
Qed.

Lemma wire_length key wn :
  key_ok key → name_wire (ts_name key) = Some wn → length wn ≤ length (ts_name key) + 2.
Proof.
  intros Hkey Hn. pose proof (dname_push (ts_name key) (test_buffer (length (ts_name key) + 2))
      (proj1 Hkey) (test_buffer_wf _)) as Hd. rewrite Hn in Hd. apply Hd. unfold room. simpl. lia.
Qed.

(** What [perf_add_tsig] does with a usable key. *)
Lemma add_tsig_spec `{!HmacLaws H} key time p v wn md :
  buffer_wf p → contents p !! 11 = Some v → key_ok key → name_wire (ts_name key) = Some wn →
  let wa := default [] (name_wire (ts_alg key)) in
  let vars := tsig_variables wn wa (u32 time) in
  hmac_run (ts_hmac key) (contents p) vars = Some md →
  let mac := hmac_mac (ts_hmac key) (contents p ++ vars) in
  let rdata := tsig_rdata wa (u32 time) mac (take 2 (contents p)) in
  if decide (room p (length (ts_name key) + 12 + length rdata)) then
    ∃ p', perf_add_tsig key time p = Done (PERF_R_SUCCESS, p') ∧ buffer_wf p' ∧
          pb_length p' = pb_length p ∧
          contents p' = <[11 := u8 (v + 1)]> (contents p) ++ tsig_record wn rdata
  else perf_add_tsig key time p = Done (PERF_R_NOSPACE, p).
Proof.
  intros Hwf Hv Hkey Hn wa vars Hrun mac rdata.
  destruct (alg_wire (ts_alg key)) as (wa' & Hwa & Hal & Hal' & Hab); [apply Hkey|].
  assert (wa = wa') as Heq by (unfold wa; by rewrite Hwa). subst wa'.
  pose proof (u32_range time) as Hnow.
  pose proof (wire_length _ _ Hkey Hn) as Hnl.
  pose proof (hmac_run_mac _ _ _ _ Hrun) as Hmd. fold mac in Hmd.
  pose proof (hmac_mac_length (ts_hmac key) (contents p ++ vars)) as Hml. fold mac in Hml.
  unfold EVP_MAX_MD_SIZE in Hml.
  assert (12 ≤ pb_used p) as Hu.
  { apply lookup_lt_Some in Hv. rewrite contents_length in Hv by done. lia. }
  assert (length rdata = length (ts_alg key) + 18 + length mac) as Hrd.
  { unfold rdata, tsig_rdata. autorewrite with perf_len. rewrite length_take, contents_length by done. lia. }
  assert (length vars ≤ 512) as Hvl.
  { unfold vars, tsig_variables. autorewrite with perf_len. destruct Hkey as (_ & ? & _). lia. }
  rewrite (add_tsig_run _ _ _ vars mac), Hrd; [| |done|by subst md].
  2:{ by apply digest_record_spec. }
  unfold perf_buffer_availablelength.
  destruct (decide (room p _)) as [Hr|Hr].
  - rewrite decide_False by (unfold room in Hr; lia).
    rewrite (write_record_spec _ _ wn wa) by (done || lia). fold rdata.
    apply append_record; [done|done|].
    unfold tsig_record. autorewrite with perf_len. eapply room_le; [|exact Hr]. lia.
  - rewrite decide_True by (unfold room in Hr; lia). done.
Qed.

(** A key name that is not a domain name: nothing is written to the packet. *)
Lemma digest_record_bad_name key now :
  key_ok key → name_wire (ts_name key) = None →
  ∃ tmp, tsig_digest_record key now (test_buffer 512) = Done (PERF_R_FAILURE, tmp).
Proof.
  intros (Hb & Hl & _) Hn. unfold tsig_digest_record, dname_or_return.
  pose proof (dname_push (ts_name key) (test_buffer 512) Hb (test_buffer_wf 512)) as Hd.
  rewrite Hn in Hd. destruct Hd as (junk & Hd & _); [unfold room; simpl; lia|].
  rewrite (bind_Done _ _ _ _ _ Hd). eauto.
Qed.

(** The hash calls succeed, or the process ends. *)
Lemma add_tsig_hmac_fails key time p vars :
  tsig_digest_record key (u32 time) (test_buffer 512) =
    Done (PERF_R_SUCCESS, push vars (test_buffer 512)) →
  length vars ≤ 512 → hmac_run (ts_hmac key) (contents p) vars = None →
  perf_add_tsig key time p = Exit 1.
Proof.
  intros Hdig Hlen Hrun. unfold perf_add_tsig. fold (test_buffer 512).
  rewrite (bind_Done get _ _ _ _ eq_refl). change (perf_buffer_usedregion p) with (contents p).
  unfold hmac_run in Hrun. destruct (hmac_reinit (ts_hmac key)) as [c0|]; [|done]. simpl in Hrun.
  rewrite (bind_Done (or_fatal (Some c0)) _ _ _ _ eq_refl).
  destruct (hmac_update c0 (contents p)) as [c1|]; [|done]. simpl in Hrun.
  rewrite (bind_Done (or_fatal (Some c1)) _ _ _ _ eq_refl), Hdig.
  rewrite (bind_Done (lift (Done _)) _ _ _ _ eq_refl). cbv beta iota.
  assert (perf_buffer_usedregion (push vars (test_buffer 512)) = vars) as ->.
  { apply (contents_push vars (test_buffer 512)); [apply test_buffer_wf|done]. }
  destruct (hmac_update c1 vars) as [c2|]; [|done]. simpl in Hrun.
  rewrite (bind_Done (or_fatal (Some c2)) _ _ _ _ eq_refl). by rewrite Hrun.
Qed.

Lemma add_tsig_total `{!HmacLaws H} key time p v :
  buffer_wf p → contents p !! 11 = Some v → key_ok key →
  match perf_add_tsig key time p with
  | Done (r, p') => buffer_wf p' ∧ pb_length p' = pb_length p
  | Exit c => c = 1%Z
  | _ => False
  end.
Proof.
  intros Hwf Hv Hkey. destruct (name_wire (ts_name key)) as [wn|] eqn:Hn.
  - destruct (alg_wire (ts_alg key)) as (wa & Hwa & Hal & Hal' & Hab); [apply Hkey|].
    set (vars := tsig_variables wn wa (u32 time)).
    destruct (hmac_run (ts_hmac key) (contents p) vars) as [md|] eqn:Hrun.
    + pose proof (add_tsig_spec key time p v wn md Hwf Hv Hkey Hn) as Hs. cbv zeta in Hs.
      rewrite Hwa in Hs. specialize (Hs Hrun). simpl in Hs.
      destruct (decide _); [destruct Hs as (p' & -> & ? & ? & _)|rewrite Hs]; done.
    + rewrite (add_tsig_hmac_fails _ _ _ vars); [done| | |done].
      * apply digest_record_spec; try done; [by eapply wire_length|apply u32_range].
      * unfold vars, tsig_variables. autorewrite with perf_len.
        pose proof (wire_length _ _ Hkey Hn). destruct Hkey as (_ & ? & _). lia.
  - destruct (digest_record_bad_name key (u32 time) Hkey Hn) as (tmp & Ht).
    unfold perf_add_tsig. fold (test_buffer 512). rewrite (bind_Done get _ _ _ _ eq_refl).
    destruct (hmac_reinit (ts_hmac key)) as [c0|]; [|done].
    rewrite (bind_Done (or_fatal (Some c0)) _ _ _ _ eq_refl).
    destruct (hmac_update c0 _) as [c1|]; [|done].
    rewrite (bind_Done (or_fatal (Some c1)) _ _ _ _ eq_refl), Ht. done.
Qed.

Lemma tolower_byte c : byte_ok c → byte_ok (tolower c).
Proof. unfold byte_ok, tolower. case_decide; lia. Qed.

Lemma tsig_algorithm_known alg md algname :
  tsig_algorithm alg = Some (md, algname) → algname ∈ tsig_names.
Proof.
  unfold tsig_algorithm, tsig_names. intros E.
  repeat case_match; simplify_eq; rewrite !elem_of_cons; tauto.
Qed.

(** ** Theorems *)

(** for every argument the key parser ends the process with status 1 or returns a
    usable key: its name is at most 256 bytes (the size of the array it is copied to),
    in lower case, and its algorithm is one of the six known names. *)
Theorem tsig_parsekey_total arg :
  Forall byte_ok arg →
  match perf_tsig_parsekey arg with
  | Done k => key_ok k ∧ ∃ name, ts_name k = map tolower name
  | Exit c => c = 1%Z
  | _ => False
  end.
Proof.
  intros Hb. unfold perf_tsig_parsekey.
  assert (Forall byte_ok (cstr arg)) as Hc by (by apply Forall_take).
  destruct (strchr (cstr arg) 58) as [sep1|]; [|done].
  assert (∃ alg name secret, Forall byte_ok name ∧
    match strchr (drop (S sep1) (cstr arg)) 58 with
    | Some n => (Some (cstr arg), take n (drop (S sep1) (cstr arg)), drop (S n) (drop (S sep1) (cstr arg)))
    | None => (None, take sep1 (cstr arg), drop (S sep1) (cstr arg))
    end = (alg, name, secret)) as (alg & name & secret & Hn & ->).
  { destruct (strchr _ _); do 3 eexists; (split; [|done]); by repeat (apply Forall_take || apply Forall_drop). }
  destruct (tsig_algorithm alg) as [[md algname]|] eqn:Ea; [|done].
  repeat (destruct (decide _); [done|]). destruct (decode64 secret) as [key|]; [|done].
  destruct (hmac_init md key) as [ctx|]; [|done]. unfold key_ok. simpl.
  rewrite length_map, Forall_map. split_and!; [|lia|by eapply tsig_algorithm_known|by eexists].
  eapply Forall_impl; [exact Hn|]. apply tolower_byte.
Qed.

(** C38: a TSIG record: with a usable key and a working hash the record is appended
    exactly when its space is there, with RDLENGTH the true length of the RDATA, the MAC
    over the message and the TSIG variables, the original id copied from the header and
    ARCOUNT incremented; otherwise the packet is untouched and the result is
    [PERF_R_NOSPACE].  The space check is enough: no assertion fails. *)
Theorem add_tsig_correct `{!HmacLaws H} key time p v wn md :
  buffer_wf p → contents p !! 11 = Some v → key_ok key → name_wire (ts_name key) = Some wn →
  let wa := default [] (name_wire (ts_alg key)) in
  let vars := tsig_variables wn wa (u32 time) in
  hmac_run (ts_hmac key) (contents p) vars = Some md →
  let mac := hmac_mac (ts_hmac key) (contents p ++ vars) in
  let rdata := tsig_rdata wa (u32 time) mac (take 2 (contents p)) in
  if decide (room p (length (ts_name key) + 12 + length rdata)) then
    ∃ p', perf_add_tsig key time p = Done (PERF_R_SUCCESS, p') ∧ buffer_wf p' ∧
          contents p' = <[11 := u8 (v + 1)]> (contents p) ++ tsig_record wn rdata
  else perf_add_tsig key time p = Done (PERF_R_NOSPACE, p).
Proof.
  intros Hwf Hv Hkey Hn wa vars Hrun mac rdata.
  pose proof (add_tsig_spec key time p v wn md Hwf Hv Hkey Hn Hrun) as Hs. cbv zeta in Hs.
  fold wa in Hs. fold vars in Hs. fold mac in Hs. fold rdata in Hs.
  destruct (decide _); [|done]. destruct Hs as (p' & ? & ? & _ & ?). eauto.
Qed.
End tsig.

(** ** A hash for the witnesses: 16 bytes of the data itself. *)
#[export] Instance plain_hmac : Hmac := {|
  hmac_ctx := list Z;
  hmac_init _ _ := Some [];
  hmac_reinit _ := Some [];
  hmac_update c d := Some (c ++ d);
  hmac_final c := Some (take 16 c);
|}.
#[export] Instance plain_hmac_laws : HmacLaws plain_hmac.
Proof.
  refine {| hmac_mac _ d := take 16 d |}.
  - simpl. intros. by simplify_eq.
  - intros. rewrite length_take. unfold EVP_MAX_MD_SIZE. lia.
Defined.

Definition plain_decode (s : list Z) : Z * list Z := (0%Z, s).
Definition test_key : perf_tsigkey := PerfTsigkey (bytes "key") TSIG_HMACMD5_NAME [].

Lemma tsig_parsekey_total_witness :
  key_ok (PerfTsigkey (bytes "key") TSIG_HMACSHA256_NAME []) ∧ ∃ name, bytes "key" = map tolower name.
Proof.
  pose proof (tsig_parsekey_total plain_decode (bytes "hmac-SHA256:Key:c2VjcmV0")) as H.
  vm_compute in H. apply H. by apply (bool_decide_unpack _).
Defined.

Lemma add_tsig_correct_witness :
  let p := push (replicate 12 7%Z) (test_buffer 200) in
  let wn := [3; 107; 101; 121; 0]%Z in
  let wa := default [] (name_wire TSIG_HMACMD5_NAME) in
  ∃ p', perf_add_tsig test_key 5 p = Done (PERF_R_SUCCESS, p') ∧ buffer_wf p' ∧
        contents p' = <[11 := 8%Z]> (replicate 12 7%Z) ++
          tsig_record wn (tsig_rdata wa 5 (replicate 12 7 ++ [3; 107; 101; 121])%Z [7; 7]%Z).
Proof.
  intros p wn wa.
  pose proof (add_tsig_correct test_key 5 p 7 wn (replicate 12 7 ++ [3; 107; 101; 121])%Z) as H.
  cbv zeta in H. rewrite decide_True in H by (vm_compute; lia).
  apply H; [apply push_wf; [apply test_buffer_wf|vm_compute; lia]|done| |by vm_compute|by vm_compute].
  split_and!; [by apply (bool_decide_unpack _)|vm_compute; lia|apply (bool_decide_unpack _); by vm_compute].
Defined.

(** [EVP_DecodeUpdate] documents both 0 and 1 as success, 1 when the data did not end
    in padding; [decode64] takes 1 for an error, so that a secret whose length is a
    multiple of three bytes, which has no padding, is refused whatever it decodes to. *)
Theorem tsig_unpadded_secret_refused {H : Hmac} (out : list Z → list Z) :
  perf_tsig_parsekey (λ s, (1%Z, out s)) (bytes "hmac-sha384:key:c2VjcmV0") = Exit 1.
Proof. reflexivity. Qed.

(** an empty key name ([:secret]) is accepted, and the TSIG record is then written with
    no owner name at all, not even the root: it starts with the type. *)
Theorem tsig_empty_name :
  let p := push (replicate 12 0%Z) (test_buffer 200) in
  match perf_tsig_parsekey plain_decode (bytes ":c2VjcmV0") with
  | Done key => ts_name key = [] ∧
      ∃ rest, returns (perf_add_tsig key 5 p)
        (λ '(r, p'), r = PERF_R_SUCCESS ∧
                     contents p' = <[11 := 1%Z]> (replicate 12 0%Z) ++ be16 250 ++ be16 255 ++ rest)
  | _ => False
  end.
Proof. vm_compute. split; [done|]. eexists. done. Qed.
