(* ===== verification/Dns.v ===== *)
(** * Requests (dns.c): a line of input becomes a DNS message

    [build_query] writes the question section from a line [name type], and
    [perf_dns_buildrequest] puts the header before it and the OPT and TSIG records after
    it.  Dynamic updates ([build_update], in Update.v) are compiled in only with LDNS:
    [buildrequest_with] takes the function that builds them, and [perf_dns_buildrequest] is
    the build without LDNS, in which they fail. *)

From S2P Require Import Prelude Buffer Dname Qtype Edns Tsig.

Definition MAX_UDP_PACKET : nat := 512.
(** [" \t\n"]. *)
Definition WHITESPACE : list Z := [32; 9; 10]%Z.

(** [build_query(line, msg)]; [line] is the text from [line->base] on. *)
Definition build_query (line : list Z) : M perf_buffer perf_result :=
  let domain_str := line in
  let domain_len := strcspn line WHITESPACE in
  if decide (domain_len = 0) then mret PERF_R_FAILURE
  else
    let qtype_str := skip_space (drop domain_len line) in
    let qtype_len := strcspn qtype_str WHITESPACE in
    result ← perf_dname_fromstring (take domain_len domain_str);
    if decide (result ≠ PERF_R_SUCCESS) then mret result
    else if decide (qtype_len = 0) then mret PERF_R_FAILURE
    else
      result ← perf_qtype_fromstring qtype_str qtype_len;
      if decide (result ≠ PERF_R_SUCCESS) then mret result
      else perf_buffer_putuint16 1;; mret PERF_R_SUCCESS.

(** [if (result == PERF_R_SUCCESS && ...) result = ...]. *)
Definition and_then (result : perf_result) (m : M perf_buffer perf_result) : M perf_buffer perf_result :=
  if decide (result = PERF_R_SUCCESS) then m else mret result.

Section buildrequest.
Context {H : Hmac}.

(** The body of [perf_dns_buildrequest(...)]: [build_update] is what [HAVE_LDNS] selects, [time]
    the clock [perf_add_tsig] reads. *)
Definition buildrequest_with (build_update : list Z → M perf_buffer perf_result)
    (record : list Z) (qid : Z) (edns dnssec is_update : bool)
    (tsigkey : option perf_tsigkey) (edns_option : option perf_ednsoption) (time : Z)
    : M perf_buffer perf_result :=
  let flags := if is_update then Z.shiftl 5 11 else 0x0100%Z in
  perf_buffer_putuint16 qid;;
  perf_buffer_putuint16 flags;;
  perf_buffer_putuint16 1;;
  perf_buffer_putuint16 0;;
  perf_buffer_putuint16 0;;
  perf_buffer_putuint16 0;;
  result ← (if is_update then build_update record else build_query record);
  result ← (if edns then and_then result (perf_add_edns dnssec edns_option) else mret result);
  match tsigkey with
  | Some key => and_then result (perf_add_tsig key time)
  | None => mret result
  end.

(** [perf_dns_buildrequest(...)] of a build without ldns, where updates are refused. *)
Definition perf_dns_buildrequest := buildrequest_with (λ _, mret PERF_R_FAILURE).
End buildrequest.

(** ** Reference *)

(** The question section a line stands for: name, type, class IN. *)
Definition question (line : list Z) : option (list Z) :=
  let domain_len := strcspn line WHITESPACE in
  let rest := skip_space (drop domain_len line) in
  if decide (domain_len = 0 ∨ strcspn rest WHITESPACE = 0) then None
  else
    w ← name_wire (take domain_len line);
    v ← qtype_value rest (strcspn rest WHITESPACE);
    Some (w ++ be16 v ++ be16 1).

(** The header: id, flags, one question or zone, [an], [au] and [ar] records. *)
Definition dns_header (qid flags an au ar : Z) : list Z :=
  be16 qid ++ be16 flags ++ be16 1 ++ be16 an ++ be16 au ++ be16 ar.

(** A query message: the RD flag, and only additional records. *)
Definition header (qid arcount : Z) : list Z := dns_header qid 0x0100 0 0 arcount.

(** The header of an update, before its records are counted: the opcode instead of the flag. *)
Definition update_header (qid : Z) : list Z := dns_header qid (Z.shiftl 5 11) 0 0 0.

(** The longest name and the four bytes that follow it. *)
Definition QUESTION_MAX : nat := 260.

Lemma build_query_spec line b :
  Forall byte_ok line → buffer_wf b → room b QUESTION_MAX →
  let domain_len := strcspn line WHITESPACE in
  match question line with
  | Some q =>
      if decide (domain_len ≤ perf_buffer_availablelength b)
      then build_query line b = Done (PERF_R_SUCCESS, push q b) ∧ length q ≤ QUESTION_MAX
      else build_query line b = Done (PERF_R_NOSPACE, b)
  | None => ∃ r junk, build_query line b = Done (r, push junk b) ∧ r ≠ PERF_R_SUCCESS ∧
                      length junk ≤ QUESTION_MAX
  end.
Proof.
  intros Hb Hwf Hr domain_len. unfold build_query, question, QUESTION_MAX in *. fold domain_len.
  set (rest := skip_space (drop domain_len line)).
  set (qlen := strcspn rest WHITESPACE).
  destruct (decide (domain_len = 0)) as [H0|H0].
  { rewrite decide_True by tauto. exists PERF_R_FAILURE, []. rewrite push_nil. simpl. split_and!; [done|done|lia]. }
  assert (length (take domain_len line) = domain_len) as Hdl.
  { rewrite length_take. assert (domain_len ≤ length line) by apply strcspn_le. lia. }
  destruct (decide (domain_len ≤ perf_buffer_availablelength b)) as [Hav|Hav].
  2:{ assert (perf_dname_fromstring (take domain_len line) b = Done (PERF_R_NOSPACE, b)) as Hns.
      { apply dname_nospace. lia. }
      rewrite (bind_Done _ _ _ _ _ Hns). cbv beta.
      rewrite (decide_True (P := PERF_R_NOSPACE ≠ PERF_R_SUCCESS)) by done.
      destruct (decide (domain_len = 0 ∨ _)); [|destruct (name_wire _); simpl; [destruct (qtype_value _ _)|]];
        simpl; try done; exists PERF_R_NOSPACE, []; rewrite push_nil; simpl; (split_and!; [done|done|lia]). }
  pose proof (dname_push_enough (take domain_len line) b 256 (Forall_take _ _ _ Hb) Hwf
    ltac:(eapply room_le; [|exact Hr]; lia) ltac:(right; lia) ltac:(lia)) as Hd.
  destruct (name_wire (take domain_len line)) as [w|].
  2:{ destruct Hd as (junk & Hd & Hj). rewrite (bind_Done _ _ _ _ _ Hd). simpl.
      destruct (decide (domain_len = 0 ∨ _)); simpl; eexists _, junk; (split_and!; [done|done|lia]). }
  destruct Hd as [Hd Hw]. rewrite (bind_Done _ _ _ _ _ Hd). cbv beta.
  rewrite (decide_False (P := PERF_R_SUCCESS ≠ PERF_R_SUCCESS)) by naive_solver.
  destruct (decide (qlen = 0)) as [Hq|Hq].
  { rewrite decide_True by tauto. eexists _, w. split_and!; [done|done|lia]. }
  rewrite (decide_False (P := domain_len = 0 ∨ _)) by tauto. simpl.
  assert (buffer_wf (push w b)) as Hwf' by (apply push_wf; [done|eapply room_le; [|exact Hr]; lia]).
  assert (room (push w b) 4) as Hr' by (eapply room_push; [exact Hr|lia]).
  pose proof (qtype_push rest qlen (push w b) Hwf' ltac:(eapply room_le; [|exact Hr']; lia)) as Ht.
  destruct (qtype_value rest qlen) as [v|]; rewrite (bind_Done _ _ _ _ _ Ht); simpl.
  - rewrite bind_put16 by (done || (eapply room_le; [|exact Hr']; simpl; lia)). rewrite push_app.
    split; [done|]. rewrite !length_app. simpl. lia.
  - eexists _, w. split_and!; [done|done|lia].
Qed.

Section request.
Context {H : Hmac} `{!HmacLaws H}.

(** The TSIG record of a message (its MAC covers the message and the variables). *)
Definition signature (key : perf_tsigkey) (time : Z) (msg : list Z) : list Z :=
  let wn := default [] (name_wire (ts_name key)) in
  let wa := default [] (name_wire (ts_alg key)) in
  let vars := tsig_variables wn wa (u32 time) in
  tsig_record wn (tsig_rdata wa (u32 time) (hmac_mac (ts_hmac key) (msg ++ vars)) (take 2 msg)).

(** A key with a domain name, with a hash that does not fail. *)
Definition key_works (key : perf_tsigkey) : Prop :=
  key_ok key ∧ is_Some (name_wire (ts_name key)) ∧
  ∀ d1 d2, is_Some (hmac_run (ts_hmac key) d1 d2).

(** The space [perf_add_tsig] asks for, at most. *)
Definition tsig_space (key : perf_tsigkey) : nat :=
  length (ts_name key) + length (ts_alg key) + 30 + EVP_MAX_MD_SIZE.

Lemma header_count qid flags an au n body :
  n = 0%Z ∨ n = 1%Z →
  (dns_header qid flags an au n ++ body) !! 11 = Some n ∧
  <[11 := u8 (n + 1)]> (dns_header qid flags an au n ++ body) = dns_header qid flags an au (n + 1) ++ body.
Proof. by intros [->| ->]. Qed.

(** Lines 537-543: the records that follow the question. *)
Lemma add_edns_step (edns dnssec : bool) o p qid flags an au body :
  buffer_wf p → contents p = dns_header qid flags an au 0 ++ body → option_ok o →
  let opt := if edns then opt_record dnssec (option_data o) else [] in
  room p (length opt) →
  ∃ p', (if edns then and_then PERF_R_SUCCESS (perf_add_edns dnssec o) else mret PERF_R_SUCCESS) p
          = Done (PERF_R_SUCCESS, p') ∧ buffer_wf p' ∧ pb_length p' = pb_length p ∧
        contents p' = dns_header qid flags an au (Z.b2z edns) ++ body ++ opt.
Proof.
  intros Hwf Hc Ho opt Hr. destruct edns; [|exists p; rewrite app_nil_r; done].
  destruct (header_count qid flags an au 0 body (or_introl eq_refl)) as [Hv Hi]. rewrite <- Hc in Hv, Hi.
  pose proof (add_edns_spec dnssec o p 0 Hwf Hv Ho) as Hs.
  rewrite <- (opt_record_length dnssec) in Hs. rewrite decide_True in Hs by done.
  destruct Hs as (p' & Hp' & Hwf' & Hl & Hc'). exists p'. split_and!; [done|done|done|].
  rewrite Hc', Hi. by rewrite <- app_assoc.
Qed.

Lemma add_tsig_step key time p qid flags an au n body :
  let msg := dns_header qid flags an au n ++ body in
  buffer_wf p → contents p = msg → key_works key → n = 0%Z ∨ n = 1%Z →
  room p (tsig_space key) →
  ∃ p', perf_add_tsig key time p = Done (PERF_R_SUCCESS, p') ∧ buffer_wf p' ∧
        contents p' = dns_header qid flags an au (n + 1) ++ body ++ signature key time msg.
Proof.
  intros msg Hwf Hc (Hok & [wn Hwn] & Hrun) Hn Hr.
  set (wa := default [] (name_wire (ts_alg key))). set (vars := tsig_variables wn wa (u32 time)).
  destruct (Hrun (contents p) vars) as [md Hmd].
  destruct (header_count qid flags an au n body Hn) as [Hv Hi]. fold msg in Hv, Hi. rewrite <- Hc in Hv, Hi.
  pose proof (add_tsig_spec key time p n wn md Hwf Hv Hok Hwn Hmd) as Hs. cbv zeta in Hs.
  fold wa in Hs. fold vars in Hs. rewrite decide_True in Hs; cycle 1.
  { eapply room_le; [|exact Hr].
    pose proof (hmac_mac_length (ts_hmac key) (contents p ++ vars)).
    destruct (alg_wire (ts_alg key)) as (wa' & Hwa & Hal & _ & _); [apply Hok|].
    unfold wa, tsig_rdata, tsig_space. rewrite Hwa. autorewrite with perf_len.
    rewrite length_take. change (default [] (Some wa')) with wa'. lia. }
  destruct Hs as (p' & Hp' & Hwf' & _ & Hc'). exists p'. split_and!; [done|done|].
  rewrite Hc', Hi, <- Hc. unfold signature. rewrite Hwn. by rewrite <- app_assoc.
Qed.

(** Both steps, on a message that was built. *)
Lemma request_records (edns : bool) dnssec (key : option perf_tsigkey) o time p qid flags an au body :
  buffer_wf p → contents p = dns_header qid flags an au 0 ++ body → option_ok o →
  let opt := if edns then opt_record dnssec (option_data o) else [] in
  let n := Z.b2z edns in
  let msg := dns_header qid flags an au n ++ body ++ opt in
  room p (length opt + match key with Some k => tsig_space k | None => 0 end) →
  match key with Some k => key_works k | None => True end →
  ∃ p', (r ← (if edns then and_then PERF_R_SUCCESS (perf_add_edns dnssec o) else mret PERF_R_SUCCESS);
         match key with
         | Some key => and_then r (perf_add_tsig key time)
         | None => mret r
         end) p = Done (PERF_R_SUCCESS, p') ∧ buffer_wf p' ∧
        contents p' =
          match key with
          | Some k => dns_header qid flags an au (n + 1) ++ body ++ opt ++ signature k time msg
          | None => msg
          end.
Proof.
  intros Hwf Hc Ho opt n msg Hr Hk.
  destruct (add_edns_step edns dnssec o p qid flags an au body Hwf Hc Ho) as (p2 & Hp2 & Hwf2 & Hl2 & Hc2).
  { eapply room_le; [|exact Hr]. fold opt. lia. }
  rewrite (bind_Done _ _ _ _ _ Hp2). fold opt n in Hc2. destruct key as [k|]; [|eauto].
  destruct (add_tsig_step k time p2 qid flags an au n (body ++ opt)) as (p3 & Hp3 & Hwf3 & Hc3);
    [done|done|done|by destruct edns; [right|left]| |].
  { unfold room in *. rewrite Hl2, <- (contents_length p2), Hc2 by done.
    rewrite <- (contents_length p), Hc in Hr by done. rewrite !length_app in *. simpl in *. lia. }
  exists p3. split_and!; [done|done|]. rewrite Hc3. by rewrite <- app_assoc.
Qed.

(** The header is written first; a query has room for it and for any question. *)
Lemma request_header build_update line qid edns dnssec (is_update : bool) key o time p :
  buffer_wf p → room p (12 + QUESTION_MAX) →
  buildrequest_with build_update line qid edns dnssec is_update key o time p =
    (result ← (if is_update then build_update line else build_query line);
     result ← (if edns then and_then result (perf_add_edns dnssec o) else mret result);
     match key with
     | Some key => and_then result (perf_add_tsig key time)
     | None => mret result
     end) (push (if is_update then update_header (u16 qid) else header (u16 qid) 0) p).
Proof.
  intros Hwf Hr. unfold buildrequest_with, QUESTION_MAX in *.
  rewrite <- (push_nil p) at 1. do 6 push_write. by destruct is_update.
Qed.

(** A query line that fits its buffer becomes a message. *)
Lemma buildrequest_complete bu line qid (edns : bool) dnssec (key : option perf_tsigkey) o time p q :
  Forall byte_ok line → buffer_wf p → pb_used p = 0 → option_ok o →
  question line = Some q →
  let opt := if edns then opt_record dnssec (option_data o) else [] in
  let n := Z.b2z edns in
  let msg := header (u16 qid) n ++ q ++ opt in
  strcspn line WHITESPACE + 12 ≤ pb_length p → room p (12 + QUESTION_MAX) →
  match key with
  | Some k => key_works k ∧ room p (length msg + tsig_space k)
  | None => room p (length msg)
  end →
  ∃ p', buildrequest_with bu line qid edns dnssec false key o time p = Done (PERF_R_SUCCESS, p') ∧
        buffer_wf p' ∧
        contents p' =
          match key with
          | Some k => header (u16 qid) (n + 1) ++ q ++ opt ++ signature k time msg
          | None => msg
          end.
Proof.
  intros Hb Hwf Hu Ho Hq opt n msg Hdl Hr Hkey.
  rewrite request_header by done.
  set (p0 := push (header (u16 qid) 0) p).
  assert (buffer_wf p0) as Hwf0 by (apply push_wf; [done|eapply room_le; [|exact Hr]; simpl; lia]).
  assert (contents p0 = header (u16 qid) 0) as Hc0.
  { unfold p0. rewrite contents_push by (done || (eapply room_le; [|exact Hr]; simpl; lia)).
    unfold contents. by rewrite Hu. }
  pose proof (build_query_spec line p0 Hb Hwf0 ltac:(eapply room_push; [exact Hr|simpl; lia])) as Hbq.
  rewrite Hq in Hbq. cbv zeta in Hbq.
  rewrite decide_True in Hbq by (unfold perf_buffer_availablelength, p0; simpl; lia).
  destruct Hbq as [Hbq Hql]. rewrite (bind_Done _ _ _ _ _ Hbq).
  assert (buffer_wf (push q p0)) as Hwf1.
  { apply push_wf; [done|]. eapply room_push; [exact Hr|simpl; lia]. }
  assert (contents (push q p0) = header (u16 qid) 0 ++ q) as Hc1.
  { rewrite contents_push, Hc0; [done|done|]. eapply room_push; [exact Hr|simpl; lia]. }
  apply request_records; [done|done|done| |by destruct key as [k|]; [apply Hkey|]].
  assert (length msg = 12 + (length q + length opt)) as Hml by (unfold msg; by rewrite !length_app).
  unfold room, p0 in *. simpl. fold opt. destruct key as [k|]; [destruct Hkey|]; lia.
Qed.

(** ** Theorems *)

(** C1: a query line becomes the message it stands for: the header with the id, the RD
    flag, one question and the right number of additional records, the question (name,
    type, class IN), the OPT record when EDNS is on, and the TSIG record over all of it
    when there is a key. *)
Theorem buildrequest_correct line qid (edns : bool) dnssec (key : option perf_tsigkey) o time p q :
  Forall byte_ok line → buffer_wf p → pb_used p = 0 → option_ok o →
  question line = Some q →
  let opt := if edns then opt_record dnssec (option_data o) else [] in
  let n := Z.b2z edns in
  let msg := header (u16 qid) n ++ q ++ opt in
  strcspn line WHITESPACE + 12 ≤ pb_length p → room p (12 + QUESTION_MAX) →
  match key with
  | Some k => key_works k ∧ room p (length msg + tsig_space k)
  | None => room p (length msg)
  end →
  ∃ p', perf_dns_buildrequest line qid edns dnssec false key o time p = Done (PERF_R_SUCCESS, p') ∧
        buffer_wf p' ∧
        contents p' =
          match key with
          | Some k => header (u16 qid) (n + 1) ++ q ++ opt ++ signature k time msg
          | None => msg
          end.
Proof. exact (buildrequest_complete _ line qid edns dnssec key o time p q). Qed.

(** The records added to a message never fail an assertion. *)
Lemma request_records_total (edns : bool) dnssec (key : option perf_tsigkey) o time p result v :
  buffer_wf p → contents p !! 11 = Some v → option_ok o →
  match key with Some k => key_ok k | None => True end →
  match (r ← (if edns then and_then result (perf_add_edns dnssec o) else mret result);
         match key with
         | Some key => and_then r (perf_add_tsig key time)
         | None => mret r
         end) p with
  | Done (r, p') => buffer_wf p' ∧ pb_length p' = pb_length p ∧
                    (r = PERF_R_SUCCESS → result = PERF_R_SUCCESS)
  | Exit c => c = 1%Z ∧ is_Some key
  | _ => False
  end.
Proof.
  intros Hwf Hv Ho Hk.
  assert (∃ r1 p1 v1, (if edns then and_then result (perf_add_edns dnssec o) else mret result) p
            = Done (r1, p1) ∧ buffer_wf p1 ∧ contents p1 !! 11 = Some v1 ∧ pb_length p1 = pb_length p ∧
            (r1 = PERF_R_SUCCESS → result = PERF_R_SUCCESS)) as (r1 & p1 & v1 & E & Hwf1 & Hv1 & Hl1 & Hr1).
  { unfold and_then. destruct edns; [|by eexists _, _, _].
    destruct (decide (result = PERF_R_SUCCESS)); [|by eexists _, _, _].
    pose proof (add_edns_spec dnssec o p v Hwf Hv Ho) as Hs. destruct (decide (room p _)).
    - destruct Hs as (p' & ? & ? & ? & Hc). eexists _, _, _. split_and!; [done|done| |done|done].
      rewrite Hc. apply lookup_app_l_Some, list_lookup_insert_eq. by apply lookup_lt_Some in Hv.
    - by eexists _, _, _. }
  rewrite (bind_Done _ _ _ _ _ E). destruct key as [k|]; [|done]. unfold and_then.
  destruct (decide (r1 = PERF_R_SUCCESS)) as [->|]; [|done].
  pose proof (add_tsig_total k time p1 v1 Hwf1 Hv1 Hk) as Ht.
  destruct (perf_add_tsig k time p1) as [[r p']| | | |]; try done.
  destruct Ht as [? ->]. auto.
Qed.

Lemma buildrequest_safe line qid edns dnssec is_update (key : option perf_tsigkey) o time p :
  Forall byte_ok line → buffer_wf p → pb_used p = 0 → 12 + QUESTION_MAX ≤ pb_length p →
  option_ok o → match key with Some k => key_ok k | None => True end →
  match perf_dns_buildrequest line qid edns dnssec is_update key o time p with
  | Done (r, p') => buffer_wf p' ∧ pb_length p' = pb_length p ∧
                    (r = PERF_R_SUCCESS → is_update = false ∧ is_Some (question line))
  | Exit c => c = 1%Z ∧ is_Some key
  | _ => False
  end.
Proof.
  intros Hb Hwf Hu Hl Ho Hk.
  assert (room p (12 + QUESTION_MAX)) as Hr by (unfold room; lia).
  assert (∀ b, room p (length b) → contents (push b p) = b) as Hcp.
  { intros b ?. rewrite contents_push by done. unfold contents. by rewrite Hu. }
  unfold perf_dns_buildrequest. rewrite request_header by done. destruct is_update.
  - rewrite (bind_Done (mret _) _ _ _ _ eq_refl). set (b := update_header (u16 qid)).
    assert (room p (length b)) by (eapply room_le; [|exact Hr]; simpl; lia).
    pose proof (request_records_total edns dnssec key o time (push b p) PERF_R_FAILURE 0) as Ht.
    rewrite Hcp in Ht by done. specialize (Ht (push_wf _ _ Hwf ltac:(done)) eq_refl Ho Hk).
    destruct ((_ ≫= _ : M _ _) (push b p)) as [[r p']| | | |]; try done. destruct Ht as (? & ? & Hf).
    split_and!; [done|done|]. by intros ?%Hf.
  - set (h := header (u16 qid) 0).
    assert (room p (length h)) as Hrh by (eapply room_le; [|exact Hr]; simpl; lia).
    pose proof (push_wf _ _ Hwf Hrh) as Hwf0.
    assert (room (push h p) QUESTION_MAX) as Hr0 by (eapply room_push; [exact Hr|simpl; lia]).
    assert (∃ r b, build_query line (push h p) = Done (r, push b (push h p)) ∧ length b ≤ QUESTION_MAX ∧
              (r = PERF_R_SUCCESS → is_Some (question line))) as (r0 & b & Hq & Hbl & Hr0').
    { pose proof (build_query_spec line (push h p) Hb Hwf0 Hr0) as Hq. cbv zeta in Hq.
      destruct (question line) as [q|]; [destruct (decide _)|].
      - destruct Hq. by eexists _, q.
      - eexists _, []. rewrite push_nil. split_and!; [done|simpl; lia|done].
      - destruct Hq as (r & junk & ? & ? & ?). by eexists r, junk. }
    rewrite (bind_Done _ _ _ _ _ Hq).
    assert (room (push h p) (length b)) as Hrb by (eapply room_le; [|exact Hr0]; lia).
    pose proof (request_records_total edns dnssec key o time (push b (push h p)) r0 0
      (push_wf _ _ Hwf0 Hrb)) as Ht.
    rewrite contents_push, Hcp in Ht by done. specialize (Ht eq_refl Ho Hk).
    destruct ((_ ≫= _ : M _ _) (push b (push h p))) as [[r p']| | | |]; try done. naive_solver.
Qed.

(** The message of a query line. *)
Definition query_message (line : list Z) (qid : Z) (edns dnssec : bool) (key : option perf_tsigkey)
    (o : option perf_ednsoption) (time : Z) : option (list Z) :=
  q ← question line;
  let opt := if edns then opt_record dnssec (option_data o) else [] in
  let n := Z.b2z edns in
  let msg := header qid n ++ q ++ opt in
  Some (match key with
        | Some k => header qid (n + 1) ++ q ++ opt ++ signature k time msg
        | None => msg
        end).

(** The records that follow the question are added, or there is no space for them. *)
Lemma request_records_sound (edns : bool) dnssec (key : option perf_tsigkey) o time p qid body :
  buffer_wf p → contents p = header qid 0 ++ body → option_ok o →
  match key with Some k => key_works k | None => True end →
  let opt := if edns then opt_record dnssec (option_data o) else [] in
  let n := Z.b2z edns in
  let msg := header qid n ++ body ++ opt in
  ∃ r p', (r ← (if edns then and_then PERF_R_SUCCESS (perf_add_edns dnssec o) else mret PERF_R_SUCCESS);
           match key with
           | Some key => and_then r (perf_add_tsig key time)
           | None => mret r
           end) p = Done (r, p') ∧ buffer_wf p' ∧ pb_length p' = pb_length p ∧
          (r = PERF_R_SUCCESS →
           contents p' = match key with
                         | Some k => header qid (n + 1) ++ body ++ opt ++ signature k time msg
                         | None => msg
                         end).
Proof.
  intros Hwf Hc Ho Hk opt n msg.
  assert (∃ r1 p1, (if edns then and_then PERF_R_SUCCESS (perf_add_edns dnssec o) else mret PERF_R_SUCCESS) p
      = Done (r1, p1) ∧ buffer_wf p1 ∧ pb_length p1 = pb_length p ∧ (r1 = PERF_R_SUCCESS → contents p1 = msg))
    as (r1 & p1 & E1 & Hwf1 & Hl1 & Hc1).
  { destruct edns; [|eexists _, p; split_and!; [done..|]; intros _; rewrite Hc; unfold msg, opt; by rewrite app_nil_r].
    destruct (header_count qid 0x0100 0 0 0 body (or_introl eq_refl)) as [Hv Hi].
    fold (header qid 0) in Hv, Hi. rewrite <- Hc in Hv, Hi.
    pose proof (add_edns_spec dnssec o p 0 Hwf Hv Ho) as Hs. unfold and_then. rewrite decide_True by done.
    destruct (decide (room p _)); [|by eexists _, p].
    destruct Hs as (p1 & E & ? & ? & Hc1). eexists _, p1. split_and!; [done..|]. intros _.
    rewrite Hc1, Hi. unfold msg, opt. by rewrite <- app_assoc. }
  rewrite (bind_Done _ _ _ _ _ E1). destruct key as [k|]; [|by eexists _, p1].
  unfold and_then. destruct (decide (r1 = PERF_R_SUCCESS)) as [->|Hne]; [|by eexists _, p1].
  specialize (Hc1 eq_refl). destruct Hk as (Hok & [wn Hwn] & Hrun).
  assert (n = 0%Z ∨ n = 1%Z) as Hn by (destruct edns; [by right|by left]).
  destruct (header_count qid 0x0100 0 0 n (body ++ opt) Hn) as [Hv Hi].
  fold (header qid n) in Hv, Hi. fold msg in Hv, Hi. rewrite <- Hc1 in Hv, Hi.
  set (vars := tsig_variables wn (default [] (name_wire (ts_alg k))) (u32 time)).
  destruct (Hrun (contents p1) vars) as [md Hmd].
  pose proof (add_tsig_spec k time p1 n wn md Hwf1 Hv Hok Hwn Hmd) as Hs. cbv zeta in Hs.
  destruct (decide (room p1 _)); [|eexists _, p1; split_and!; [exact Hs|done..]].
  destruct Hs as (p2 & E2 & ? & ? & Hc2). eexists _, p2. split_and!; [done|done|congruence|]. intros _.
  rewrite Hc2, Hi, Hc1. unfold signature. rewrite Hwn. by rewrite <- !app_assoc.
Qed.

(** A request that is built is the message of its line. *)
Lemma buildrequest_sound bu line qid edns dnssec (key : option perf_tsigkey) o time p :
  Forall byte_ok line → buffer_wf p → pb_used p = 0 → 12 + QUESTION_MAX ≤ pb_length p →
  option_ok o → match key with Some k => key_works k | None => True end →
  ∃ r p', buildrequest_with bu line qid edns dnssec false key o time p = Done (r, p') ∧
          buffer_wf p' ∧ pb_length p' = pb_length p ∧
          (r = PERF_R_SUCCESS → query_message line (u16 qid) edns dnssec key o time = Some (contents p')).
Proof.
  intros Hb Hwf Hu Hl Ho Hk. assert (room p (12 + QUESTION_MAX)) as Hr by (unfold room; lia).
  rewrite request_header by done. set (h := header (u16 qid) 0).
  assert (room p (length h)) as Hrh by (eapply room_le; [|exact Hr]; simpl; lia).
  pose proof (push_wf _ _ Hwf Hrh) as Hwf0.
  assert (contents (push h p) = h) as Hc0.
  { rewrite contents_push by done. unfold contents. by rewrite Hu. }
  assert (room (push h p) QUESTION_MAX) as Hr0 by (eapply room_push; [exact Hr|simpl; lia]).
  pose proof (build_query_spec line (push h p) Hb Hwf0 Hr0) as Hq. cbv zeta in Hq.
  unfold query_message. destruct (question line) as [q|] eqn:Eq.
  - destruct (decide (_ ≤ perf_buffer_availablelength _)) as [Hd|Hd].
    + destruct Hq as [E Hql]. rewrite (bind_Done _ _ _ _ _ E).
      assert (room (push h p) (length q)) as Hrq by (eapply room_le; [|exact Hr0]; lia).
      destruct (request_records_sound edns dnssec key o time (push q (push h p)) (u16 qid) q) as (r & p' & E' & ? & ? & Hc);
        [by apply push_wf|rewrite contents_push, Hc0 by done; done|done|done|].
      exists r, p'. split_and!; [done..|]. intros Hs. simpl. by rewrite (Hc Hs).
    + rewrite (bind_Done _ _ _ _ _ Hq). exists PERF_R_NOSPACE, (push h p).
      split_and!; [by destruct edns, key|done..].
  - destruct Hq as (r & junk & E & Hne & Hj). rewrite (bind_Done _ _ _ _ _ E).
    exists r, (push junk (push h p)). split_and!; [|apply push_wf; [done|eapply room_le; [|exact Hr0]; lia]|done|done].
    unfold and_then. rewrite decide_False by done. destruct edns; rewrite (bind_Done (mret r) _ _ _ _ eq_refl);
      destruct key; try rewrite decide_False by done; done.
Qed.

(** C22: for every line, of any content and length, building a request into a packet
    buffer of at least 272 bytes (dnsperf's have 512 or 4096) returns with a well-formed
    buffer: no assertion fails and nothing is written outside the buffer.  Only a failing
    hash ends the process, and only a line that is a question gives a packet. *)
Theorem buildrequest_total line qid edns dnssec is_update (key : option perf_tsigkey) o time p :
  Forall byte_ok line → buffer_wf p → pb_used p = 0 → 12 + QUESTION_MAX ≤ pb_length p →
  option_ok o → match key with Some k => key_ok k | None => True end →
  match perf_dns_buildrequest line qid edns dnssec is_update key o time p with
  | Done (r, p') => buffer_wf p' ∧ pb_length p' = pb_length p ∧
                    (r = PERF_R_SUCCESS → is_update = false ∧ is_Some (question line))
  | Exit c => c = 1%Z ∧ is_Some key
  | _ => False
  end.
Proof. exact (buildrequest_safe line qid edns dnssec is_update key o time p). Qed.
End request.

(** *** Witnesses *)

Definition example_line : list Z := bytes "example.com A".
Definition example_question : list Z :=
  [7; 101; 120; 97; 109; 112; 108; 101; 3; 99; 111; 109; 0; 0; 1; 0; 1]%Z.

Lemma test_key_ok : key_ok test_key.
Proof.
  split_and!; [by apply (bool_decide_unpack _)|vm_compute; lia|apply (bool_decide_unpack _); by vm_compute].
Qed.

Lemma test_key_works : key_works test_key.
Proof.
  split_and!; [apply test_key_ok|by eexists|]. intros d1 d2. by eexists.
Qed.

Lemma buildrequest_correct_witness :
  let msg := header 42 1 ++ example_question ++ opt_record true [] in
  ∃ p', perf_dns_buildrequest example_line 42 true true false (Some test_key) None 5 (test_buffer 512)
          = Done (PERF_R_SUCCESS, p') ∧ buffer_wf p' ∧
        contents p' = header 42 2 ++ example_question ++ opt_record true [] ++ signature test_key 5 msg.
Proof.
  apply (buildrequest_correct example_line 42 true true (Some test_key) None 5 (test_buffer 512)
           example_question);
    [by apply (bool_decide_unpack _)|apply test_buffer_wf|done|done|by vm_compute|vm_compute; lia|
     vm_compute; lia|split; [apply test_key_works|vm_compute; lia]].
Defined.

Lemma buildrequest_total_witness :
  match perf_dns_buildrequest (bytes "a..b A") 1 true false false (Some test_key) None 5 (test_buffer 512) with
  | Done (r, p') => buffer_wf p' ∧ pb_length p' = 512 ∧
                    (r = PERF_R_SUCCESS → false = false ∧ is_Some (question (bytes "a..b A")))
  | Exit c => c = 1%Z ∧ is_Some (Some test_key)
  | _ => False
  end.
Proof.
  apply (buildrequest_total (bytes "a..b A") 1 true false false (Some test_key) None 5 (test_buffer 512));
    [by apply (bool_decide_unpack _)|apply test_buffer_wf|done|vm_compute; lia|done|apply test_key_ok].
Defined.
