(* ===== verification/Update.v ===== *)
(** * Dynamic updates (dns.c with LDNS): a block of lines becomes an UPDATE message

    [build_update] reads the zone name, then a command per line up to [send], and writes the
    zone section and a record per command.  LDNS is a parameter: the class [Ldns] has the
    functions of it the code calls, [LdnsLaws] what their documentation promises, and the
    instance at the end of the file shows that the promises can hold.

    The reference is the table of the nine commands of the manual page: [update_cmd] is
    their abstract syntax, [cmd_text] how the manual writes them and [cmd_fields] the record
    RFC 2136 (sections 2.4 and 2.5) assigns to each. *)

From S2P Require Import Prelude Buffer Dname Qtype Edns Tsig Dns.

Definition LDNS_RR_TYPE_ANY : Z := 255.
Definition LDNS_RR_CLASS_IN : Z := 1.
Definition LDNS_RR_CLASS_NONE : Z := 254.
Definition LDNS_RR_CLASS_ANY : Z := 255.

(** The functions of LDNS that dns.c calls.  [None] stands for a null pointer or a status
    other than [LDNS_STATUS_OK]; functions that change an object return it.  The buffer's
    writes are asserted to fit. *)
Class Ldns : Type := {
  ldns_rdf : Type;
  ldns_rr : Type;
  ldns_buffer : Type;
  ldns_rbtree : Type;
  ldns_buffer_new : nat → option ldns_buffer;
  ldns_buffer_write : ldns_buffer → list Z → run ldns_buffer;
  ldns_buffer_write_u16 : ldns_buffer → Z → run ldns_buffer;
  (** From [ldns_buffer_begin] to [ldns_buffer_position]. *)
  ldns_buffer_data : ldns_buffer → list Z;
  ldns_rbtree_init : ldns_rbtree;
  (** With [LDNS_RDF_TYPE_DNAME]. *)
  ldns_rdf_new_frm_str : list Z → option ldns_rdf;
  ldns_dname_new_frm_str : list Z → option ldns_rdf;
  ldns_dname_str_absolute : list Z → bool;
  ldns_dname_cat : ldns_rdf → ldns_rdf → option ldns_rdf;
  ldns_get_rr_type_by_name : list Z → Z;
  ldns_rr_new : ldns_rr;
  ldns_rr_set_owner : ldns_rr → ldns_rdf → ldns_rr;
  ldns_rr_set_ttl : ldns_rr → Z → ldns_rr;
  ldns_rr_set_type : ldns_rr → Z → ldns_rr;
  ldns_rr_set_class : ldns_rr → Z → ldns_rr;
  ldns_rr_ttl : ldns_rr → Z;
  ldns_rr_rd_count : ldns_rr → nat;
  (** The text, the default TTL and the origin. *)
  ldns_rr_new_frm_str : list Z → Z → option ldns_rdf → option ldns_rr;
  ldns_dname2buffer_wire_compress : ldns_buffer → ldns_rdf → ldns_rbtree → option (ldns_buffer * ldns_rbtree);
  (** With [LDNS_SECTION_ANSWER]. *)
  ldns_rr2buffer_wire_compress : ldns_buffer → ldns_rr → ldns_rbtree → option (ldns_buffer * ldns_rbtree);
}.

(** [token_equals(token, str)]; [token] is the bytes of the region. *)
Definition token_equals (token str : list Z) : bool :=
  bool_decide (length str = length token) && strncasecmp_eq str token (length token).

Section update.
Context {L : Ldns}.

(** [sizeof(tmp) - 1]. *)
Definition TMP_MAX : nat := 255.

(** The owner name, lines 238-262: the text that follows it and the record with its owner. *)
Definition read_owner (str : list Z) (origin : option ldns_rdf) (rr : ldns_rr)
    : perf_result + (list Z * ldns_rr) :=
  let len := strcspn str WHITESPACE in
  if decide (TMP_MAX < len) then inl PERF_R_NOSPACE
  else
    let tmp := take len str in
    let rest := skip_space (drop len str) in
    match ldns_dname_new_frm_str tmp with
    | None => inl PERF_R_FAILURE
    | Some owner =>
        match origin, ldns_dname_str_absolute tmp with
        | Some o, false =>
            match ldns_dname_cat owner o with
            | None => inl PERF_R_FAILURE
            | Some owner => inr (rest, ldns_rr_set_owner rr owner)
            end
        | _, _ => inr (rest, ldns_rr_set_owner rr owner)
        end
    end.

(** The TTL, lines 267-287; [*endptr] is zero when the whole word was read, and
    [ldns_rr_set_ttl] takes a [uint32_t]. *)
Definition read_ttl (str : list Z) (rr : ldns_rr) : perf_result + (list Z * ldns_rr) :=
  let len := strcspn str WHITESPACE in
  if decide (TMP_MAX < len) then inl PERF_R_NOSPACE
  else
    let tmp := take len str in
    let '(u, endptr, _) := strtoul 10 tmp in
    if decide (endptr ≠ length tmp ∨ u = ULONG_MAX) then inl PERF_R_INVALIDUPDATE
    else inr (skip_space (drop len str), ldns_rr_set_ttl rr (u32 u)).

(** Type and rdata, lines 292-343; [str2] is the text from the owner name on. *)
Definition read_type_rdata (str str2 : list Z) (origin : option ldns_rdf)
    (need_type want_rdata need_rdata : bool) (rr : ldns_rr) : perf_result * ldns_rr :=
  let len := strcspn str WHITESPACE in
  if decide (len = 0) then
    (if need_type then PERF_R_INVALIDUPDATE else PERF_R_SUCCESS, rr)
  else if decide (TMP_MAX < len) then (PERF_R_NOSPACE, rr)
  else
    let type := ldns_get_rr_type_by_name (take len str) in
    if decide (type = 0%Z) then (PERF_R_INVALIDUPDATE, rr)
    else
      let rr := ldns_rr_set_type rr type in
      let str := skip_space (drop len str) in
      if negb want_rdata then (PERF_R_SUCCESS, rr)
      else if decide (char0 str = 0%Z) then
        (if need_rdata then PERF_R_INVALIDUPDATE else PERF_R_SUCCESS, rr)
      else
        match ldns_rr_new_frm_str (cstr str2) 0 origin with
        | None => (PERF_R_INVALIDUPDATE, rr)
        | Some rr2 => (PERF_R_SUCCESS, ldns_rr_set_ttl rr2 (ldns_rr_ttl rr))
        end.

(** [read_update_line(...)]: the result and [*rr]; [*errstr] is only logged. *)
Definition read_update_line (str : list Z) (origin : option ldns_rdf)
    (want_ttl need_type want_rdata need_rdata : bool) (rr : ldns_rr) : perf_result * ldns_rr :=
  let str := skip_space str in
  let str2 := str in
  match read_owner str origin rr with
  | inl result => (result, rr)
  | inr (str, rr) =>
      match (if want_ttl then read_ttl str rr else inr (str, rr)) with
      | inl result => (result, rr)
      | inr (str, rr) => read_type_rdata str str2 origin need_type want_rdata need_rdata rr
      end
  end.

(** The commands, lines 411-448: the result, the record and [is_update]. *)
Definition update_command (token str : list Z) (origin : ldns_rdf) : perf_result * ldns_rr * bool :=
  let rr := ldns_rr_set_ttl ldns_rr_new 0 in
  let rr := ldns_rr_set_type rr LDNS_RR_TYPE_ANY in
  let rr := ldns_rr_set_class rr LDNS_RR_CLASS_IN in
  if token_equals token (bytes "add") then
    let '(result, rr) := read_update_line str (Some origin) true true true true rr in
    (result, ldns_rr_set_class rr LDNS_RR_CLASS_IN, true)
  else if token_equals token (bytes "delete") then
    let '(result, rr) := read_update_line str (Some origin) false false true false rr in
    (result, ldns_rr_set_class rr
       (if decide (ldns_rr_rd_count rr ≠ 0) then LDNS_RR_CLASS_NONE else LDNS_RR_CLASS_ANY), true)
  else if token_equals token (bytes "require") then
    let '(result, rr) := read_update_line str (Some origin) false false true false rr in
    (result, ldns_rr_set_class rr
       (if decide (ldns_rr_rd_count rr ≠ 0) then LDNS_RR_CLASS_IN else LDNS_RR_CLASS_ANY), false)
  else if token_equals token (bytes "prohibit") then
    let '(result, rr) := read_update_line str (Some origin) false false false false rr in
    (result, ldns_rr_set_class rr LDNS_RR_CLASS_NONE, false)
  else (PERF_R_FAILURE, rr, false).

(** What [build_update] has so far. *)
Record update_state : Type := UpdateState {
  us_lmsg : ldns_buffer;
  us_compression : ldns_rbtree;
  us_prereqs : Z;
  us_updates : Z;
}.

(** One line of a command, lines 401-480: [inl] is [goto done] with that result, which is
    still the success of the line when the record cannot be written. *)
Definition update_line (input : list Z) (origin : ldns_rdf) (st : update_state)
    : perf_result + update_state :=
  let len := strcspn input WHITESPACE in
  let '(result, rr, is_update) := update_command (take len input) (drop len input) origin in
  if decide (result ≠ PERF_R_SUCCESS) then inl result
  else if decide (is_update = false ∧ 0 < us_updates st)%Z then inl PERF_R_FAILURE
  else
    match ldns_rr2buffer_wire_compress (us_lmsg st) rr (us_compression st) with
    | None => inl result
    | Some (lmsg, compression) =>
        inr (if is_update : bool
             then UpdateState lmsg compression (us_prereqs st) (us_updates st + 1)
             else UpdateState lmsg compression (us_prereqs st + 1) (us_updates st))
    end.

(** The loop over the lines, lines 391-481; [input] is the record from [input.base] on. *)
Fixpoint update_lines (fuel : nat) (input : list Z) (origin : ldns_rdf) (st : update_state)
    : run (perf_result + update_state) :=
  match fuel with
  | 0 => NoFuel
  | S fuel' =>
      let input := drop (S (strlen input)) input in
      if decide (input = []) then Done (inl PERF_R_FAILURE)
      else if token_equals (take (strcspn input WHITESPACE) input) (bytes "send") then Done (inr st)
      else
        match update_line input origin st with
        | inl result => Done (inl result)
        | inr st => update_lines fuel' input origin st
        end
  end.

(** Lines 483-496: the message is copied back and the records are counted, a byte each. *)
Definition update_finish (st : update_state) : M perf_buffer perf_result :=
  msg ← get;
  let data := drop (perf_buffer_usedlength msg) (ldns_buffer_data (us_lmsg st)) in
  if decide (perf_buffer_availablelength msg < length data) then mret PERF_R_NOSPACE
  else
    perf_buffer_putmem data;;
    store 7 [u8 (us_prereqs st)];;
    store 9 [u8 (us_updates st)];;
    mret PERF_R_SUCCESS.

(** [build_update(record, msg)]; a line has at least its terminating zero, so there are no
    more of them than bytes. *)
Definition build_update (record : list Z) : M perf_buffer perf_result :=
  msg ← get;
  match ldns_buffer_new (pb_length msg) with
  | None => perf_log_fatal
  | Some lmsg =>
      lmsg ← lift (ldns_buffer_write lmsg (contents msg));
      match ldns_rdf_new_frm_str (cstr record) with
      | None => mret PERF_R_FAILURE
      | Some origin =>
          match ldns_dname2buffer_wire_compress lmsg origin ldns_rbtree_init with
          | None => mret PERF_R_FAILURE
          | Some (lmsg, compression) =>
              lmsg ← lift (ldns_buffer_write_u16 lmsg 6);
              lmsg ← lift (ldns_buffer_write_u16 lmsg 1);
              r ← lift (update_lines (S (length record)) record origin (UpdateState lmsg compression 0 0));
              match r with
              | inl result => mret result
              | inr st => update_finish st
              end
          end
      end
  end.

(** [perf_dns_buildrequest(...)] of a build with ldns. *)
Definition buildrequest_ldns {H : Hmac} := buildrequest_with build_update.
End update.

(** ** Interface: what LDNS promises *)

(** The fields of a record that the code sets. *)
Record rr_fields {L : Ldns} : Type := RrFields {
  f_owner : option ldns_rdf;
  f_type : Z;
  f_class : Z;
  f_ttl : Z;
  f_rdata : list ldns_rdf;
}.
Arguments rr_fields L : clear implicits.

(** A name relative to the zone unless it ends in a dot. *)
Definition owner_name {L : Ldns} (origin : ldns_rdf) (text : list Z) : option ldns_rdf :=
  d ← ldns_dname_new_frm_str text;
  if ldns_dname_str_absolute text then Some d else ldns_dname_cat d origin.

(** The words of the master file format the laws are about: names of letters, digits, [-],
    [_] and [.], and the mnemonics of types: of capital letters and digits, and none of the
    classes. *)
Definition is_upper (c : Z) : bool := bool_decide (65 ≤ c ≤ 90)%Z.
Definition name_char (c : Z) : bool :=
  is_digit c || is_upper (c - 32) || is_upper c || bool_decide (c ∈ bytes "-_.").
Definition name_text (s : list Z) : Prop := 0 < length s ∧ Forall (λ c, name_char c = true) s.
Definition class_names : list (list Z) := map bytes ["IN"; "CH"; "HS"; "ANY"; "NONE"].
Definition type_text (s : list Z) : Prop :=
  is_upper (char0 s) = true ∧ Forall (λ c, is_digit c || is_upper c = true) s ∧ s ∉ class_names.
(** The text of rdata is the rest of the line. *)
Definition rdata_text (s : list Z) : Prop :=
  0 < length s ∧ isspace (char0 s) = false ∧ Forall (λ c, c ≠ 0%Z) s.

Definition sp : list Z := [32]%Z.

Class LdnsLaws (L : Ldns) : Type := {
  (** A buffer has a capacity that only grows; what fits is appended. *)
  buffer_capacity : ldns_buffer → nat;
  buffer_new_spec n b :
    ldns_buffer_new n = Some b → ldns_buffer_data b = [] ∧ buffer_capacity b = n;
  buffer_write_spec b bs :
    length (ldns_buffer_data b) + length bs ≤ buffer_capacity b →
    ∃ b', ldns_buffer_write b bs = Done b' ∧ ldns_buffer_data b' = ldns_buffer_data b ++ bs ∧
          buffer_capacity b' = buffer_capacity b;
  buffer_write_u16_spec b v :
    length (ldns_buffer_data b) + 2 ≤ buffer_capacity b →
    ∃ b', ldns_buffer_write_u16 b v = Done b' ∧
          ldns_buffer_data b' = ldns_buffer_data b ++ be16 (u16 v) ∧
          buffer_capacity b' = buffer_capacity b;
  dname_wire_spec b d t b' t' :
    ldns_dname2buffer_wire_compress b d t = Some (b', t') →
    ∃ w, ldns_buffer_data b' = ldns_buffer_data b ++ w ∧ length w ≤ 255 ∧
         buffer_capacity b ≤ buffer_capacity b';
  rr_wire_spec b rr t b' t' :
    ldns_rr2buffer_wire_compress b rr t = Some (b', t') →
    ∃ w, ldns_buffer_data b' = ldns_buffer_data b ++ w;
  (** A record is its fields; a new one has no rdata. *)
  rr_view : ldns_rr → rr_fields L;
  rr_new_rdata : f_rdata (rr_view ldns_rr_new) = [];
  rr_set_owner_view rr d :
    rr_view (ldns_rr_set_owner rr d) =
    let f := rr_view rr in RrFields _ (Some d) (f_type f) (f_class f) (f_ttl f) (f_rdata f);
  rr_set_type_view rr v :
    rr_view (ldns_rr_set_type rr v) =
    let f := rr_view rr in RrFields _ (f_owner f) v (f_class f) (f_ttl f) (f_rdata f);
  rr_set_class_view rr v :
    rr_view (ldns_rr_set_class rr v) =
    let f := rr_view rr in RrFields _ (f_owner f) (f_type f) v (f_ttl f) (f_rdata f);
  rr_set_ttl_view rr v :
    rr_view (ldns_rr_set_ttl rr v) =
    let f := rr_view rr in RrFields _ (f_owner f) (f_type f) (f_class f) v (f_rdata f);
  rr_ttl_view rr : ldns_rr_ttl rr = f_ttl (rr_view rr);
  rr_rd_count_view rr : ldns_rr_rd_count rr = length (f_rdata (rr_view rr));
  (** The rdata a text stands for, by type and origin; the record of a line of the master
      file format, with or without a TTL, has that rdata, its owner and its type. *)
  rdata_value : Z → list Z → ldns_rdf → option (list ldns_rdf);
  rr_new_frm_str_spec owner (ttl : option Z) type rdata origin d rds :
    name_text owner → type_text type → rdata_text rdata →
    match ttl with Some n => 0 ≤ n < 2 ^ 32 | None => True end%Z →
    owner_name origin owner = Some d → ldns_get_rr_type_by_name type ≠ 0%Z →
    rdata_value (ldns_get_rr_type_by_name type) rdata origin = Some rds →
    ∃ rr, ldns_rr_new_frm_str (owner ++ sp ++ match ttl with Some n => dec 10 n ++ sp | None => [] end
                               ++ type ++ sp ++ rdata) 0 (Some origin) = Some rr ∧
          f_owner (rr_view rr) = Some d ∧ f_type (rr_view rr) = ldns_get_rr_type_by_name type ∧
          f_rdata (rr_view rr) = rds;
}.

(** ** Reference: the commands of the manual page *)

Inductive update_cmd : Type :=
| RequireName (owner : list Z)
| RequireRrset (owner type : list Z)
| RequireRr (owner type rdata : list Z)
| ProhibitName (owner : list Z)
| ProhibitRrset (owner type : list Z)
| Add (owner : list Z) (ttl : Z) (type rdata : list Z)
| DeleteRr (owner type rdata : list Z)
| DeleteRrset (owner type : list Z)
| DeleteName (owner : list Z).

Definition is_prereq (c : update_cmd) : bool :=
  match c with
  | RequireName _ | RequireRrset _ _ | RequireRr _ _ _ | ProhibitName _ | ProhibitRrset _ _ => true
  | _ => false
  end.

Definition cmd_text (c : update_cmd) : list Z :=
  match c with
  | RequireName o => bytes "require" ++ sp ++ o
  | RequireRrset o t => bytes "require" ++ sp ++ o ++ sp ++ t
  | RequireRr o t r => bytes "require" ++ sp ++ o ++ sp ++ t ++ sp ++ r
  | ProhibitName o => bytes "prohibit" ++ sp ++ o
  | ProhibitRrset o t => bytes "prohibit" ++ sp ++ o ++ sp ++ t
  | Add o ttl t r => bytes "add" ++ sp ++ o ++ sp ++ dec 10 ttl ++ sp ++ t ++ sp ++ r
  | DeleteRr o t r => bytes "delete" ++ sp ++ o ++ sp ++ t ++ sp ++ r
  | DeleteRrset o t => bytes "delete" ++ sp ++ o ++ sp ++ t
  | DeleteName o => bytes "delete" ++ sp ++ o
  end.

(** A block of the input file: the zone, the commands and [send], each ended by a zero. *)
Definition block_text (zone : list Z) (cmds : list update_cmd) : list Z :=
  zone ++ [0%Z] ++ concat (map (λ c, cmd_text c ++ [0%Z]) cmds) ++ bytes "send" ++ [0%Z].

Section reference.
Context {L : Ldns} `{!LdnsLaws L}.

(** The record of a command: class IN for what is added or must have this value, NONE for
    what is deleted or must not exist, ANY for whole sets and names, type ANY for names;
    only added records have a TTL. *)
Definition cmd_fields (origin : ldns_rdf) (c : update_cmd) : option (rr_fields L) :=
  let rr owner type class ttl rds :=
    d ← owner_name origin owner; Some (RrFields _ (Some d) type class ttl rds) in
  let code := ldns_get_rr_type_by_name in
  match c with
  | RequireName o => rr o LDNS_RR_TYPE_ANY LDNS_RR_CLASS_ANY 0%Z []
  | RequireRrset o t => rr o (code t) LDNS_RR_CLASS_ANY 0%Z []
  | RequireRr o t r => rds ← rdata_value (code t) r origin; rr o (code t) LDNS_RR_CLASS_IN 0%Z rds
  | ProhibitName o => rr o LDNS_RR_TYPE_ANY LDNS_RR_CLASS_NONE 0%Z []
  | ProhibitRrset o t => rr o (code t) LDNS_RR_CLASS_NONE 0%Z []
  | Add o ttl t r => rds ← rdata_value (code t) r origin; rr o (code t) LDNS_RR_CLASS_IN ttl rds
  | DeleteRr o t r => rds ← rdata_value (code t) r origin; rr o (code t) LDNS_RR_CLASS_NONE 0%Z rds
  | DeleteRrset o t => rr o (code t) LDNS_RR_CLASS_ANY 0%Z []
  | DeleteName o => rr o LDNS_RR_TYPE_ANY LDNS_RR_CLASS_ANY 0%Z []
  end.

(** Words that fit the command, of at most 255 bytes, with a known type. *)
Definition owner_ok (o : list Z) : Prop := name_text o ∧ length o ≤ TMP_MAX.
Definition type_ok (t : list Z) : Prop :=
  type_text t ∧ length t ≤ TMP_MAX ∧ ldns_get_rr_type_by_name t ≠ 0%Z.
Definition rdata_ok (origin : ldns_rdf) (t r : list Z) : Prop :=
  rdata_text r ∧ rdata_value (ldns_get_rr_type_by_name t) r origin ≠ Some [].
Definition cmd_ok (origin : ldns_rdf) (c : update_cmd) : Prop :=
  match c with
  | RequireName o | ProhibitName o | DeleteName o => owner_ok o
  | RequireRrset o t | ProhibitRrset o t | DeleteRrset o t => owner_ok o ∧ type_ok t
  | RequireRr o t r | DeleteRr o t r => owner_ok o ∧ type_ok t ∧ rdata_ok origin t r
  | Add o ttl t r => owner_ok o ∧ (0 ≤ ttl < 2 ^ 32)%Z ∧ type_ok t ∧ rdata_ok origin t r
  end.

(** The records of a message, written one after the other. *)
Fixpoint rrs_wire (b : ldns_buffer) (t : ldns_rbtree) (rrs : list ldns_rr)
    : option (ldns_buffer * ldns_rbtree) :=
  match rrs with
  | [] => Some (b, t)
  | rr :: rrs => '(b, t) ← ldns_rr2buffer_wire_compress b rr t; rrs_wire b t rrs
  end.

(** The zone section and the records of an update, as LDNS writes them after [hdr] in a
    buffer of [n] bytes. *)
Definition update_wire (n : nat) (hdr : list Z) (origin : ldns_rdf) (rrs : list ldns_rr)
    : option (list Z) :=
  b ← ldns_buffer_new n;
  b ← match ldns_buffer_write b hdr with Done b => Some b | _ => None end;
  '(b, t) ← ldns_dname2buffer_wire_compress b origin ldns_rbtree_init;
  b ← match ldns_buffer_write_u16 b 6 with Done b => Some b | _ => None end;
  b ← match ldns_buffer_write_u16 b 1 with Done b => Some b | _ => None end;
  '(b, _) ← rrs_wire b t rrs;
  Some (drop (length hdr) (ldns_buffer_data b)).
End reference.

(** ** Words *)

Definition word (w : list Z) : Prop := 0 < length w ∧ Forall (λ c, isspace c = false ∧ c ≠ 0%Z) w.
#[export] Instance word_dec w : Decision (word w).
Proof. unfold word. apply _. Defined.
(** No word starts here. *)
Definition no_word (s : list Z) : Prop := strcspn s WHITESPACE = 0.

Lemma word_nz w : word w → Forall (λ c, c ≠ 0%Z) w.
Proof. intros [_ H]. eapply Forall_impl; [exact H|]. naive_solver. Qed.

Lemma word_strcspn w rest : word w → no_word rest → strcspn (w ++ rest) WHITESPACE = length w.
Proof.
  intros [_ Hw] Hr. rewrite strcspn_app; [rewrite Hr; lia|].
  eapply Forall_impl; [exact Hw|]. intros c [Hc Hz]. split; [done|]. intros Hin.
  apply bool_decide_eq_false_1 in Hc. apply Hc. unfold WHITESPACE in Hin.
  rewrite !elem_of_cons, elem_of_nil in Hin. lia.
Qed.

Lemma skip_space_word w rest : word w → skip_space (w ++ rest) = w ++ rest.
Proof.
  intros [Hl Hw]. destruct w as [|c w]; simpl in *; [lia|].
  apply Forall_cons in Hw as [[-> _] _]. done.
Qed.

Lemma skip_sp s : skip_space (sp ++ s) = skip_space s.
Proof. done. Qed.

Lemma name_char_word c : name_char c = true → isspace c = false ∧ c ≠ 0%Z.
Proof.
  unfold name_char, is_digit, is_upper, isspace. rewrite !orb_true_iff, !bool_decide_eq_true.
  rewrite bool_decide_eq_false. change (bytes "-_.") with [45; 95; 46]%Z.
  rewrite !elem_of_cons, elem_of_nil. lia.
Qed.
Lemma name_word s : name_text s → word s.
Proof. intros [Hl Hs]. split; [done|]. eapply Forall_impl; [exact Hs|]. apply name_char_word. Qed.

Lemma type_char_word c : is_digit c || is_upper c = true → isspace c = false ∧ c ≠ 0%Z.
Proof.
  unfold is_digit, is_upper, isspace. rewrite !orb_true_iff, !bool_decide_eq_true, bool_decide_eq_false. lia.
Qed.
Lemma type_word s : type_text s → word s.
Proof.
  intros (Hc & Hs & _). split; [destruct s; [done|simpl; lia]|].
  eapply Forall_impl; [exact Hs|]. apply type_char_word.
Qed.

Lemma dec_word k n : (0 ≤ n)%Z → word (dec (S k) n).
Proof.
  intros Hn. split; [apply dec_nonempty|]. eapply Forall_impl; [by apply dec_digits|].
  intros c Hc. apply type_char_word. by rewrite Hc.
Qed.

Lemma dec_length k n : length (dec k n) ≤ k.
Proof.
  revert n. induction k as [|k IH]; intros n; simpl; [lia|]. case_decide; simpl; [lia|].
  rewrite length_app. simpl. specialize (IH (n / 10)%Z). lia.
Qed.

Lemma no_word_sp s : no_word (sp ++ s).
Proof. done. Qed.
Lemma no_word_0 s : no_word (0%Z :: s).
Proof. done. Qed.

#[export] Hint Resolve name_word type_word dec_word no_word_sp no_word_0 word_nz : perf.

(** A word at the start of the text is the next token. *)
Lemma next_word w rest :
  word w → no_word rest →
  strcspn (w ++ rest) WHITESPACE = length w ∧ take (length w) (w ++ rest) = w ∧
  drop (length w) (w ++ rest) = rest.
Proof.
  intros Hw Hr. split_and!; [by apply word_strcspn|by rewrite take_app_length|by rewrite drop_app_length].
Qed.

Lemma token_equals_spec token str :
  Forall (λ c, c ≠ 0%Z) str → token_equals token str = true ↔ map tolower token = map tolower str.
Proof.
  intros Hs. unfold token_equals, strncasecmp_eq. rewrite andb_true_iff, bool_decide_eq_true. split.
  - intros [Hl He]. revert token Hl He. induction Hs as [|c s Hc Hs IH]; intros [|c' t] Hl He; simpl in *; try done.
    change (char0 (c :: s)) with c in He. change (char0 (c' :: t)) with c' in He.
    destruct (decide (tolower c = tolower c')) as [Heq|]; [|done].
    rewrite decide_False in He by done. f_equal; [done|]. apply IH; [lia|done].
  - intros He. assert (length str = length token) as Hl.
    { apply (f_equal length) in He. by rewrite !length_map in He. }
    split; [done|]. revert token Hl He. induction Hs as [|c s Hc Hs IH]; intros [|c' t] Hl He; simpl in *; try done.
    injection He as Hcc He.
    change (char0 (c :: s)) with c. change (char0 (c' :: t)) with c'.
    rewrite decide_True by done. rewrite decide_False by done. apply IH; [lia|done].
Qed.

Section reading.
Context {L : Ldns} `{!LdnsLaws L}.
Implicit Types (rr : ldns_rr) (origin : ldns_rdf).

Lemma read_owner_spec o rest origin rr d :
  owner_ok o → no_word rest → owner_name origin o = Some d →
  read_owner (o ++ rest) (Some origin) rr = inr (skip_space rest, ldns_rr_set_owner rr d).
Proof.
  intros [Ho Hl] Hr Hd. destruct (next_word o rest) as (Hn & Ht & Hdr); [auto with perf|done|].
  unfold read_owner. rewrite Hn. rewrite Ht. rewrite Hdr. rewrite decide_False by lia.
  unfold owner_name in Hd.
  destruct (ldns_dname_new_frm_str o) as [d0|]; [|done]. simpl in Hd.
  destruct (ldns_dname_str_absolute o); [congruence|]. by rewrite Hd.
Qed.

Lemma read_ttl_spec ttl rest rr :
  (0 ≤ ttl < 2 ^ 32)%Z → no_word rest →
  read_ttl (dec 10 ttl ++ rest) rr = inr (skip_space rest, ldns_rr_set_ttl rr ttl).
Proof.
  intros Ht Hr. destruct (next_word (dec 10 ttl) rest) as (Hn & Hta & Hdr); [apply dec_word; lia|done|].
  unfold read_ttl. rewrite Hn. rewrite Hta. rewrite Hdr.
  rewrite decide_False by (pose proof (dec_length 10 ttl); unfold TMP_MAX; lia).
  pose proof (strtoul_dec 9 ttl [] ltac:(lia) ltac:(unfold ULONG_MAX; lia) eq_refl) as Hs.
  rewrite app_nil_r in Hs. rewrite Hs.
  rewrite decide_False by (unfold ULONG_MAX; lia). by rewrite u32_small.
Qed.

(** Nothing, a type, or a type and rdata follow. *)
Lemma read_type_none rest str2 origin want rr :
  no_word rest → read_type_rdata rest str2 (Some origin) false want false rr = (PERF_R_SUCCESS, rr).
Proof. intros Hr. unfold read_type_rdata. by rewrite Hr. Qed.

Lemma read_type_only t more str2 origin want rr :
  type_ok t →
  read_type_rdata (t ++ 0%Z :: more) str2 (Some origin) false want false rr =
    (PERF_R_SUCCESS, ldns_rr_set_type rr (ldns_get_rr_type_by_name t)).
Proof.
  intros (Ht & Hl & Hty). destruct (next_word t (0%Z :: more)) as (Hn & Hta & Hdr); [auto with perf..|].
  unfold read_type_rdata. rewrite Hn. rewrite Hta. rewrite Hdr.
  assert (length t ≠ 0) by (destruct (type_word t Ht); lia).
  rewrite decide_False by done. rewrite decide_False by lia. rewrite decide_False by done.
  by destruct want.
Qed.

Lemma read_type_rr t r more str2 origin need rr rr2 :
  type_ok t → rdata_text r → ldns_rr_new_frm_str (cstr str2) 0 (Some origin) = Some rr2 →
  read_type_rdata (t ++ sp ++ r ++ 0%Z :: more) str2 (Some origin) need true need rr =
    (PERF_R_SUCCESS, ldns_rr_set_ttl rr2 (ldns_rr_ttl (ldns_rr_set_type rr (ldns_get_rr_type_by_name t)))).
Proof.
  intros (Ht & Hl & Hty) (Hrl & Hrs & Hrz) Hnew.
  destruct (next_word t (sp ++ r ++ 0%Z :: more)) as (Hn & Hta & Hdr); [auto with perf..|].
  unfold read_type_rdata. rewrite Hn. rewrite Hta. rewrite Hdr.
  assert (length t ≠ 0) by (destruct (type_word t Ht); lia).
  rewrite decide_False by done. rewrite decide_False by lia. rewrite decide_False by done.
  cbv [negb]. rewrite skip_sp. destruct r as [|c r]; simpl in Hrl; [lia|].
  change (char0 (c :: r)) with c in Hrs. apply Forall_cons in Hrz as [Hc _].
  cbn [app skip_space]. rewrite Hrs. change (char0 (c :: _)) with c.
  rewrite decide_False by done. by rewrite Hnew.
Qed.

(** *** The four shapes of a line *)

Lemma line_owner o rest origin want_ttl need_type want need rr d :
  owner_ok o → no_word rest → owner_name origin o = Some d →
  read_update_line (sp ++ o ++ rest) (Some origin) want_ttl need_type want need rr =
    match (if want_ttl then read_ttl (skip_space rest) (ldns_rr_set_owner rr d)
           else inr (skip_space rest, ldns_rr_set_owner rr d)) with
    | inl result => (result, ldns_rr_set_owner rr d)
    | inr (str, rr) => read_type_rdata str (o ++ rest) (Some origin) need_type want need rr
    end.
Proof.
  intros Ho Hr Hd. unfold read_update_line. rewrite skip_sp, skip_space_word by (apply name_word, Ho).
  by rewrite (read_owner_spec o rest origin rr d Ho Hr Hd).
Qed.

Lemma line_name o more origin want rr d :
  owner_ok o → owner_name origin o = Some d →
  read_update_line (sp ++ o ++ 0%Z :: more) (Some origin) false false want false rr =
    (PERF_R_SUCCESS, ldns_rr_set_owner rr d).
Proof. intros Ho Hd. rewrite (line_owner o _ origin _ _ _ _ rr d) by auto with perf. by apply read_type_none. Qed.

Lemma line_rrset o t more origin want rr d :
  owner_ok o → type_ok t → owner_name origin o = Some d →
  read_update_line (sp ++ o ++ sp ++ t ++ 0%Z :: more) (Some origin) false false want false rr =
    (PERF_R_SUCCESS, ldns_rr_set_type (ldns_rr_set_owner rr d) (ldns_get_rr_type_by_name t)).
Proof.
  intros Ho Ht Hd. rewrite (line_owner o _ origin _ _ _ _ rr d) by auto with perf.
  rewrite skip_sp, skip_space_word by (apply type_word, Ht). by apply read_type_only.
Qed.

(** The record of a line with rdata; its class is set afterwards. *)
Definition rr_of_line (rr : ldns_rr) (d : ldns_rdf) (t : list Z) (ttl : Z) (rds : list ldns_rdf) : Prop :=
  f_owner (rr_view rr) = Some d ∧ f_type (rr_view rr) = ldns_get_rr_type_by_name t ∧
  f_ttl (rr_view rr) = ttl ∧ f_rdata (rr_view rr) = rds.

Lemma frm_str_line o (ttl : option Z) t r more origin d rds :
  owner_ok o → type_ok t → rdata_text r → match ttl with Some n => 0 ≤ n < 2 ^ 32 | None => True end%Z →
  owner_name origin o = Some d → rdata_value (ldns_get_rr_type_by_name t) r origin = Some rds →
  let line := o ++ sp ++ match ttl with Some n => dec 10 n ++ sp | None => [] end ++ t ++ sp ++ r in
  ∃ rr2, ldns_rr_new_frm_str (cstr (line ++ 0%Z :: more)) 0 (Some origin) = Some rr2 ∧
         ∀ v, rr_of_line (ldns_rr_set_ttl rr2 v) d t v rds.
Proof.
  intros [Ho _] (Ht & _ & Hty) Hr Httl Hd Hrd line.
  destruct (rr_new_frm_str_spec o ttl t r origin d rds) as (rr2 & Hn & ? & ? & ?); [done..|].
  exists rr2. split.
  - rewrite <- Hn. f_equal. unfold cstr. rewrite strcspn_app_0. fold (cstr line).
    fold (strlen line). rewrite strlen_nz, take_app_length; [done|].
    assert (Forall (λ c, c ≠ 0%Z) sp) by (by repeat constructor).
    unfold line. rewrite !Forall_app. split_and!; auto with perf; [|apply Hr].
    destruct ttl; [|constructor]. apply Forall_app. split; [|done].
    apply word_nz, dec_word. lia.
  - intros v. unfold rr_of_line. rewrite rr_set_ttl_view. done.
Qed.

Lemma line_rr o t r more origin rr d rds :
  owner_ok o → type_ok t → rdata_text r → owner_name origin o = Some d →
  rdata_value (ldns_get_rr_type_by_name t) r origin = Some rds →
  ∃ rr', read_update_line (sp ++ o ++ sp ++ t ++ sp ++ r ++ 0%Z :: more) (Some origin) false false true false rr
           = (PERF_R_SUCCESS, rr') ∧ rr_of_line rr' d t (f_ttl (rr_view rr)) rds.
Proof.
  intros Ho Ht Hr Hd Hrd. rewrite (line_owner o _ origin _ _ _ _ rr d) by auto with perf.
  rewrite skip_sp, skip_space_word by (apply type_word, Ht).
  destruct (frm_str_line o None t r more origin d rds) as (rr2 & Hn & Hv); [done..|].
  rewrite app_nil_l, <- !app_assoc in Hn.
  eexists. split; [by apply (read_type_rr t r more _ origin false _ rr2)|].
  rewrite rr_ttl_view, rr_set_type_view, rr_set_owner_view. apply Hv.
Qed.

Lemma line_add o ttl t r more origin rr d rds :
  owner_ok o → (0 ≤ ttl < 2 ^ 32)%Z → type_ok t → rdata_text r → owner_name origin o = Some d →
  rdata_value (ldns_get_rr_type_by_name t) r origin = Some rds →
  ∃ rr', read_update_line (sp ++ o ++ sp ++ dec 10 ttl ++ sp ++ t ++ sp ++ r ++ 0%Z :: more)
           (Some origin) true true true true rr = (PERF_R_SUCCESS, rr') ∧ rr_of_line rr' d t ttl rds.
Proof.
  intros Ho Httl Ht Hr Hd Hrd. rewrite (line_owner o _ origin _ _ _ _ rr d) by auto with perf.
  rewrite skip_sp, skip_space_word by (apply dec_word; lia). rewrite read_ttl_spec by auto with perf.
  rewrite skip_sp, skip_space_word by (apply type_word, Ht).
  destruct (frm_str_line o (Some ttl) t r more origin d rds) as (rr2 & Hn & Hv); [done..|].
  rewrite <- !app_assoc in Hn.
  eexists. split; [by apply (read_type_rr t r more _ origin true _ rr2)|].
  rewrite rr_ttl_view, rr_set_type_view, rr_set_ttl_view. apply Hv.
Qed.

(** *** Commands *)

Lemma cmd_input kw rest :
  word kw → let input := kw ++ sp ++ rest in
  let len := strcspn input WHITESPACE in take len input = kw ∧ drop len input = sp ++ rest.
Proof.
  intros Hk. destruct (next_word kw (sp ++ rest)) as (Hn & Ht & Hd); [auto with perf..|].
  cbv zeta. rewrite Hn. done.
Qed.

(** The record every command starts from. *)
Definition rr_start : ldns_rr :=
  ldns_rr_set_class (ldns_rr_set_type (ldns_rr_set_ttl ldns_rr_new 0) LDNS_RR_TYPE_ANY) LDNS_RR_CLASS_IN.
Lemma rr_start_view :
  f_type (rr_view rr_start) = LDNS_RR_TYPE_ANY ∧ f_ttl (rr_view rr_start) = 0%Z ∧
  f_rdata (rr_view rr_start) = [].
Proof.
  unfold rr_start. rewrite rr_set_class_view, rr_set_type_view, rr_set_ttl_view. simpl.
  by rewrite rr_new_rdata.
Qed.

(** Decide which keyword the token is. *)
Ltac keyword :=
  match goal with
  | |- context [strcspn (?kw ++ sp ++ ?rest) WHITESPACE] =>
      destruct (cmd_input kw rest) as [-> ->]; [by apply (bool_decide_unpack _)|]
  end;
  unfold update_command; fold rr_start;
  repeat match goal with
  | |- context [token_equals ?a ?b] =>
      let v := eval vm_compute in (token_equals a b) in change (token_equals a b) with v
  end; cbv iota.

Lemma rdata_class rr d t ttl rds c0 c1 :
  rr_of_line rr d t ttl rds → rds ≠ [] →
  (if decide (ldns_rr_rd_count rr ≠ 0) then c1 else c0) = c1 :> Z.
Proof.
  intros (_ & _ & _ & Hr) Hne. rewrite rr_rd_count_view, Hr. rewrite decide_True; [done|].
  by destruct rds.
Qed.

Lemma rr_of_line_view rr d t ttl rds c :
  rr_of_line rr d t ttl rds →
  rr_view (ldns_rr_set_class rr c) = RrFields _ (Some d) (ldns_get_rr_type_by_name t) c ttl rds.
Proof. intros (? & ? & ? & ?). rewrite rr_set_class_view. cbv zeta. congruence. Qed.

(** Records without rdata. *)
Lemma bare_view rr d ty c1 c0 :
  f_ttl (rr_view rr) = 0%Z → f_rdata (rr_view rr) = [] → f_owner (rr_view rr) = Some d → f_type (rr_view rr) = ty →
  (if decide (ldns_rr_rd_count rr ≠ 0) then c1 else c0) = c0 :> Z ∧
  ∀ c, rr_view (ldns_rr_set_class rr c) = RrFields _ (Some d) ty c 0 [].
Proof.
  intros Hl Hr Ho Ht. rewrite rr_rd_count_view, Hr. split; [done|].
  intros c. rewrite rr_set_class_view. cbv zeta. congruence.
Qed.

Lemma name_view d c1 c0 :
  (if decide (ldns_rr_rd_count (ldns_rr_set_owner rr_start d) ≠ 0) then c1 else c0) = c0 :> Z ∧
  ∀ c, rr_view (ldns_rr_set_class (ldns_rr_set_owner rr_start d) c) = RrFields _ (Some d) LDNS_RR_TYPE_ANY c 0 [].
Proof.
  destruct rr_start_view as (? & ? & ?). by apply bare_view; rewrite rr_set_owner_view.
Qed.

Lemma rrset_view d ty c1 c0 :
  (if decide (ldns_rr_rd_count (ldns_rr_set_type (ldns_rr_set_owner rr_start d) ty) ≠ 0)
   then c1 else c0) = c0 :> Z ∧
  ∀ c, rr_view (ldns_rr_set_class (ldns_rr_set_type (ldns_rr_set_owner rr_start d) ty) c) = RrFields _ (Some d) ty c 0 [].
Proof.
  destruct rr_start_view as (? & ? & ?). by apply bare_view; rewrite rr_set_type_view, ?rr_set_owner_view.
Qed.

Lemma update_command_spec c more origin f :
  cmd_ok origin c → cmd_fields origin c = Some f →
  let input := cmd_text c ++ 0%Z :: more in
  let len := strcspn input WHITESPACE in
  ∃ rr, update_command (take len input) (drop len input) origin = (PERF_R_SUCCESS, rr, negb (is_prereq c)) ∧
        rr_view rr = f.
Proof.
  assert (∀ o t r, rdata_ok origin t r → ∀ c ttl f,
    (rds ← rdata_value (ldns_get_rr_type_by_name t) r origin;
     d ← owner_name origin o; Some (RrFields _ (Some d) (ldns_get_rr_type_by_name t) c ttl rds)) = Some f →
    ∃ rds d, rdata_value (ldns_get_rr_type_by_name t) r origin = Some rds ∧ rds ≠ [] ∧
      owner_name origin o = Some d ∧ f = RrFields L (Some d) (ldns_get_rr_type_by_name t) c ttl rds) as Hrd.
  { intros o t r [_ Hne] c0 ttl f0 Hf. destruct (rdata_value _ _ _) as [rds|]; [|done].
    destruct (owner_name origin o) as [d|]; [|done]. simpl in Hf. exists rds, d. naive_solver. }
  assert (f_ttl (rr_view rr_start) = 0%Z) as Hsl by apply rr_start_view.
  destruct c as [o|o t|o t r|o|o t|o ttl t r|o t r|o t|o]; intros Hok Hf;
    cbn [cmd_ok cmd_text cmd_fields is_prereq negb] in *; cbv zeta; rewrite <- !app_assoc; keyword.
  all: try (destruct (owner_name origin o) as [d|] eqn:Hd; [|done]; simpl in Hf; injection Hf as <-).
  all: try (destruct (Hrd o t r ltac:(apply Hok) _ _ _ Hf) as (rds & d & Hv & Hne & Hd & ->);
            assert (rdata_text r) as Hr by apply Hok).
  all: try (rewrite (line_name o more origin _ rr_start d) by done;
            rewrite ?(proj1 (name_view d _ _)); eexists; split; [done|]; exact (proj2 (name_view d 0 0) _)).
  all: try (rewrite (line_rrset o t more origin _ rr_start d) by (done || apply Hok);
            rewrite ?(proj1 (rrset_view d _ _ _)); eexists; split; [done|]; exact (proj2 (rrset_view d _ 0 0) _)).
  all: try (destruct (line_rr o t r more origin rr_start d rds) as (rr' & Hl & Hrr);
              [apply Hok|apply Hok|done..|]; rewrite Hsl in Hrr;
            rewrite Hl, (rdata_class _ _ _ _ _ _ _ Hrr Hne); eexists; split; [done|]; by apply rr_of_line_view).
  destruct (line_add o ttl t r more origin rr_start d rds) as (rr' & Hl & Hrr);
    [apply Hok|apply Hok|apply Hok|done..|].
  rewrite Hl. eexists; split; [done|]. by apply rr_of_line_view.
Qed.
End reading.

(** ** The loop over the lines *)

(** No prerequisite follows an update. *)
Fixpoint prereqs_first (seen : bool) (cmds : list update_cmd) : bool :=
  match cmds with
  | [] => true
  | c :: cs => if is_prereq c then negb seen && prereqs_first seen cs else prereqs_first true cs
  end.
Definition prereqs_of (cmds : list update_cmd) : Z :=
  Z.of_nat (length (filter (λ c, is_prereq c = true) cmds)).
Definition updates_of (cmds : list update_cmd) : Z :=
  Z.of_nat (length (filter (λ c, is_prereq c = false) cmds)).

Section lines.
Context {L : Ldns} `{!LdnsLaws L}.

Lemma cmd_words_nz c origin : cmd_ok origin c → Forall (λ x, x ≠ 0%Z) (cmd_text c).
Proof.
  assert (∀ s, word (bytes s) → Forall (λ x, x ≠ 0%Z) (bytes s)) as Hb by auto with perf.
  assert (∀ o, owner_ok o → Forall (λ x, x ≠ 0%Z) o) as Ho by (intros o [? _]; auto with perf).
  assert (∀ t, type_ok t → Forall (λ x, x ≠ 0%Z) t) as Ht by (intros t (? & _); auto with perf).
  assert (∀ t r, rdata_ok origin t r → Forall (λ x, x ≠ 0%Z) r) as Hr by (intros t r [(? & ? & ?) _]; done).
  assert (Forall (λ x, x ≠ 0%Z) sp) as Hs by (by repeat constructor).
  destruct c; simpl cmd_ok; intros Hok; unfold cmd_text; rewrite !Forall_app; split_and!; try done;
    try (apply Hb; by apply (bool_decide_unpack _)); try (by apply Ho, Hok); try (by apply Ht, Hok);
    try (by eapply Hr, Hok); try by apply Ho.
  apply word_nz, dec_word. apply Hok.
Qed.

(** The first word of a command is its keyword, which is not [send]. *)
Lemma cmd_not_send c more :
  let input := cmd_text c ++ 0%Z :: more in
  token_equals (take (strcspn input WHITESPACE) input) (bytes "send") = false.
Proof.
  destruct c; cbn [cmd_text]; cbv zeta; rewrite <- !app_assoc;
    match goal with
    | |- context [strcspn (?kw ++ sp ++ ?rest) WHITESPACE] =>
        destruct (cmd_input kw rest) as [-> _]; [by apply (bool_decide_unpack _)|done]
    end.
Qed.

Lemma update_line_spec c more origin f :
  cmd_ok origin c → cmd_fields origin c = Some f →
  ∃ rr, rr_view rr = f ∧ ∀ st,
    update_line (cmd_text c ++ 0%Z :: more) origin st =
      if is_prereq c && bool_decide (0 < us_updates st)%Z then inl PERF_R_FAILURE
      else match ldns_rr2buffer_wire_compress (us_lmsg st) rr (us_compression st) with
           | None => inl PERF_R_SUCCESS
           | Some (b, t) =>
               inr (if is_prereq c then UpdateState b t (us_prereqs st + 1) (us_updates st)
                    else UpdateState b t (us_prereqs st) (us_updates st + 1))
           end.
Proof.
  intros Hok Hf. destruct (update_command_spec c more origin f Hok Hf) as (rr & Hc & Hv).
  exists rr. split; [done|]. intros st. unfold update_line. rewrite Hc. rewrite ok_branch.
  destruct (is_prereq c); cbn [negb andb].
  - destruct (decide (0 < us_updates st)%Z).
    + by rewrite bool_decide_eq_true_2, decide_True by done.
    + by rewrite bool_decide_eq_false_2, decide_False by naive_solver.
  - by rewrite decide_False by naive_solver.
Qed.

Lemma next_line cur rest :
  Forall (λ x, x ≠ 0%Z) cur → drop (S (strlen (cur ++ 0%Z :: rest))) (cur ++ 0%Z :: rest) = rest.
Proof.
  intros Hcur. unfold strlen. rewrite strcspn_app_0. fold (strlen cur). rewrite strlen_nz by done.
  by rewrite <- Nat.add_1_r, drop_app_add.
Qed.

(** After the line [cur], the lines of [cmds] and [send]. *)
Lemma update_lines_spec cmds fs origin :
  Forall (cmd_ok origin) cmds → Forall2 (λ c f, cmd_fields origin c = Some f) cmds fs →
  ∃ rrs, map rr_view rrs = fs ∧
  ∀ st b' t' cur fuel,
    Forall (λ x, x ≠ 0%Z) cur → length cmds < fuel → (0 ≤ us_updates st)%Z →
    rrs_wire (us_lmsg st) (us_compression st) rrs = Some (b', t') →
    prereqs_first (bool_decide (0 < us_updates st)%Z) cmds = true →
    update_lines fuel (cur ++ 0%Z :: concat (map (λ c, cmd_text c ++ [0%Z]) cmds) ++ bytes "send" ++ [0%Z])
      origin st =
    Done (inr (UpdateState b' t' (us_prereqs st + prereqs_of cmds) (us_updates st + updates_of cmds))).
Proof.
  intros Hok Hf. revert Hok. induction Hf as [|c f cmds fs Hcf Hf IH]; intros Hok.
  - exists []. split; [done|]. intros st b' t' cur [|fuel] Hcur Hfuel Hu Hw _; simpl in Hfuel; [lia|].
    injection Hw as Hb Ht. cbn [update_lines].
    rewrite next_line by done.
    cbn -[Z.add]. rewrite !Z.add_0_r. destruct st; simpl in *; congruence.
  - apply Forall_cons in Hok as [Hc Hok]. destruct (IH Hok) as (rrs & Hv & Hrec).
    set (rest := concat (map (λ c, cmd_text c ++ [0%Z]) cmds) ++ bytes "send" ++ [0%Z]) in *.
    destruct (update_line_spec c rest origin f Hc Hcf) as (rr & Hrr & Hl).
    exists (rr :: rrs). split; [simpl; congruence|].
    intros st b' t' cur [|fuel] Hcur Hfuel Hu Hw Hp; simpl in Hfuel; [lia|].
    cbn [rrs_wire] in Hw.
    destruct (ldns_rr2buffer_wire_compress (us_lmsg st) rr (us_compression st)) as [[b t]|] eqn:Hrw; [|done].
    simpl in Hw. cbn [update_lines map concat].
    rewrite next_line, <- (app_assoc _ _ (bytes "send" ++ _)), <- (app_assoc (cmd_text c)) by done.
    fold rest. cbn [app].
    rewrite decide_False by (destruct c; done). rewrite cmd_not_send, Hl, Hrw.
    pose proof (cmd_words_nz c origin Hc) as Hnz. simpl in Hp.
    unfold prereqs_of, updates_of. rewrite !filter_cons.
    destruct (is_prereq c) eqn:Hpc; cbn [negb andb] in Hp |- *.
    + apply andb_true_iff in Hp as [Hn Hp]. apply negb_true_iff in Hn. rewrite Hn.
      unfold rest in Hrec |- *. rewrite (Hrec (UpdateState b t (us_prereqs st + 1) (us_updates st)) b' t' (cmd_text c) fuel);
        [|done|lia|done|done|by rewrite <- Hn in *].
      rewrite decide_True, decide_False by done. unfold prereqs_of, updates_of. cbn [us_prereqs us_updates length].
      do 2 f_equal. f_equal; lia.
    + unfold rest in Hrec |- *. rewrite (Hrec (UpdateState b t (us_prereqs st) (us_updates st + 1)) b' t' (cmd_text c) fuel);
        [|done|lia|simpl; lia|done|by rewrite bool_decide_eq_true_2 by (simpl; lia)].
      rewrite decide_False, decide_True by done. unfold prereqs_of, updates_of. cbn [us_prereqs us_updates length].
      do 2 f_equal. f_equal; lia.
Qed.
End lines.

(** ** The whole message *)

(** A byte of what is written is replaced. *)
Lemma store_byte i x b :
  buffer_wf b → i < pb_used b →
  ∃ b', store i [x] b = Done ((), b') ∧ contents b' = <[i := x]> (contents b) ∧
        buffer_wf b' ∧ pb_length b' = pb_length b ∧ pb_used b' = pb_used b.
Proof.
  intros [Hu Hl] Hi. rewrite store_ok by (simpl; lia). eexists; split; [done|].
  unfold buffer_wf, contents. simpl. rewrite length_insert. split_and!; try done. by rewrite take_insert_lt.
Qed.

Lemma be16_byte v : byte_ok v → be16 v = [0; v]%Z.
Proof.
  intros Hv. unfold be16. rewrite u8_small by done. rewrite Z.shiftr_div_pow2, Z.div_small by (unfold byte_ok in Hv; lia).
  done.
Qed.

Section message.
Context {L : Ldns} `{!LdnsLaws L}.

Lemma update_finish_spec st p body :
  buffer_wf p → 10 ≤ pb_used p → ldns_buffer_data (us_lmsg st) = contents p ++ body →
  if decide (room p (length body)) then
    ∃ p', update_finish st p = Done (PERF_R_SUCCESS, p') ∧ buffer_wf p' ∧ pb_length p' = pb_length p ∧
          contents p' = <[9 := u8 (us_updates st)]> (<[7 := u8 (us_prereqs st)]> (contents p)) ++ body
  else update_finish st p = Done (PERF_R_NOSPACE, p).
Proof.
  intros Hwf Hu Hd. unfold update_finish. rewrite (bind_Done get _ _ _ _ eq_refl). cbv zeta.
  unfold perf_buffer_usedlength. rewrite Hd, <- (contents_length p), drop_app_length by done.
  unfold perf_buffer_availablelength. destruct (decide (room p (length body))) as [Hr|Hr]; unfold room in Hr.
  - assert (room p (length body)) by done. rewrite decide_False by lia.
    rewrite (bind_Done (perf_buffer_putmem body) _ p () (push body p));
      [|rewrite putmem_spec by done; by rewrite decide_True].
    assert (buffer_wf (push body p)) as Hwf1 by auto with perf.
    destruct (store_byte 7 (u8 (us_prereqs st)) (push body p)) as (p2 & Hp2 & Hc2 & Hwf2 & Hl2 & Hu2);
      [done|simpl; lia|].
    destruct (store_byte 9 (u8 (us_updates st)) p2) as (p3 & Hp3 & Hc3 & Hwf3 & Hl3 & Hu3);
      [done|rewrite Hu2; simpl; lia|].
    rewrite (bind_Done _ _ _ _ _ Hp2), (bind_Done _ _ _ _ _ Hp3).
    exists p3. split_and!; [done|done|by rewrite Hl3, Hl2|].
    rewrite Hc3, Hc2, contents_push by done. pose proof (contents_length p Hwf).
    rewrite insert_app_l by lia. rewrite insert_app_l; [done|]. rewrite length_insert. lia.
  - destruct Hwf. by rewrite decide_True by lia.
Qed.

(** What was written before the lines. *)
Lemma rrs_wire_data b t rrs b' t' :
  rrs_wire b t rrs = Some (b', t') → ∃ w, ldns_buffer_data b' = ldns_buffer_data b ++ w.
Proof.
  revert b t. induction rrs as [|rr rrs IH]; intros b t Hw; simpl in Hw.
  { injection Hw as -> ->. exists []. by rewrite app_nil_r. }
  destruct (ldns_rr2buffer_wire_compress b rr t) as [[b1 t1]|] eqn:E; [|done]. simpl in Hw.
  destruct (IH _ _ Hw) as [w ->]. destruct (rr_wire_spec _ _ _ _ _ E) as [w0 ->].
  exists (w0 ++ w). by rewrite app_assoc.
Qed.

(** Lines 371-389: the buffer cannot be allocated, the zone cannot be written, or the lines are
    read with the header and the zone section in the buffer. *)
Lemma build_update_start record p :
  buffer_wf p → room p QUESTION_MAX →
  (ldns_buffer_new (pb_length p) = None ∧ build_update record p = Exit 1) ∨
  (build_update record p = Done (PERF_R_FAILURE, p) ∧
   ∀ origin rrs, ldns_rdf_new_frm_str (cstr record) = Some origin →
     update_wire (pb_length p) (contents p) origin rrs = None) ∨
  ∃ origin b t w, ldns_rdf_new_frm_str (cstr record) = Some origin ∧
    ldns_buffer_data b = contents p ++ w ∧
    build_update record p =
      (r ← lift (update_lines (S (length record)) record origin (UpdateState b t 0 0));
       match r with inl result => mret result | inr st => update_finish st end) p ∧
    ∀ rrs, update_wire (pb_length p) (contents p) origin rrs =
      '(b', _) ← rrs_wire b t rrs; Some (drop (length (contents p)) (ldns_buffer_data b')).
Proof.
  intros Hwf Hr. unfold build_update, update_wire. rewrite (bind_Done get _ _ _ _ eq_refl). cbv beta.
  pose proof (contents_length p Hwf) as Hcl. unfold room, QUESTION_MAX in Hr.
  destruct (ldns_buffer_new (pb_length p)) as [b0|] eqn:E0; cbn [mbind option_bind]; [right|by left].
  destruct (buffer_new_spec _ _ E0) as [Hd0 Hc0].
  destruct (buffer_write_spec b0 (contents p)) as (b1 & E1 & Hd1 & Hc1); [rewrite Hd0, Hc0, Hcl; simpl; lia|].
  rewrite E1, (bind_Done (lift (Done _)) _ _ _ p eq_refl). cbn [mbind option_bind].
  destruct (ldns_rdf_new_frm_str (cstr record)) as [origin|]; [|by left].
  destruct (ldns_dname2buffer_wire_compress b1 origin ldns_rbtree_init) as [[b2 t2]|] eqn:E2; cycle 1.
  { left. split; [done|]. intros ? rrs [= <-]. by rewrite E2. }
  destruct (dname_wire_spec _ _ _ _ _ E2) as (w & Hd2 & Hw2 & Hc2).
  assert (length (ldns_buffer_data b2) + 4 ≤ buffer_capacity b2) as Hcap.
  { rewrite Hd2, Hd1, Hd0. simpl. rewrite length_app, Hcl. lia. }
  destruct (buffer_write_u16_spec b2 6) as (b3 & E3 & Hd3 & Hc3); [lia|].
  destruct (buffer_write_u16_spec b3 1) as (b4 & E4 & Hd4 & Hc4).
  { rewrite Hd3, length_app. simpl. lia. }
  rewrite E3, (bind_Done (lift (Done _)) _ _ _ p eq_refl), E4, (bind_Done (lift (Done _)) _ _ _ p eq_refl).
  right. eexists origin, b4, t2, _. split_and!; [done| |done|].
  - rewrite Hd4, Hd3, Hd2, Hd1, Hd0. simpl. by rewrite <- !app_assoc.
  - intros rrs. rewrite E2. simpl. rewrite E3. simpl. by rewrite E4.
Qed.

(** When LDNS writes all of it, [build_update] comes to its last step with it. *)
Lemma build_update_wire record p origin rrs body np nu :
  buffer_wf p → room p QUESTION_MAX →
  ldns_rdf_new_frm_str (cstr record) = Some origin →
  (∀ b t b' t', rrs_wire b t rrs = Some (b', t') →
     update_lines (S (length record)) record origin (UpdateState b t 0 0) =
       Done (inr (UpdateState b' t' np nu))) →
  update_wire (pb_length p) (contents p) origin rrs = Some body →
  ∃ b t, build_update record p = update_finish (UpdateState b t np nu) p ∧
         ldns_buffer_data b = contents p ++ body.
Proof.
  intros Hwf Hr Ho Hlines Hw.
  destruct (build_update_start record p Hwf Hr) as [[E _]|[[_ E]|(o & b & t & w & Ho' & Hd & -> & Hu)]].
  - unfold update_wire in Hw. by rewrite E in Hw.
  - by rewrite E in Hw.
  - rewrite Ho in Ho'. injection Ho' as <-. rewrite Hu in Hw.
    destruct (rrs_wire b t rrs) as [[b' t']|] eqn:Er; [|done]. injection Hw as <-.
    rewrite (Hlines _ _ _ _ Er), (bind_Done (lift (Done _)) _ _ _ p eq_refl).
    exists b', t'. split; [done|]. destruct (rrs_wire_data _ _ _ _ _ Er) as [ws ->].
    rewrite Hd, <- app_assoc. by rewrite drop_app_length.
Qed.
End message.

(** ** Every input *)

Section total.
Context {L : Ldns} `{!LdnsLaws L}.

Lemma update_line_data input origin st st' :
  update_line input origin st = inr st' →
  ∃ w, ldns_buffer_data (us_lmsg st') = ldns_buffer_data (us_lmsg st) ++ w.
Proof.
  unfold update_line. destruct (update_command _ _ _) as [[r rr] is_update].
  destruct (decide (r ≠ PERF_R_SUCCESS)); [done|].
  destruct (decide (is_update = false ∧ 0 < us_updates st)%Z); [done|].
  destruct (ldns_rr2buffer_wire_compress _ _ _) as [[b t]|] eqn:E; [|done].
  destruct (rr_wire_spec _ _ _ _ _ E) as [w Hw]. intros [= <-]. exists w. by destruct is_update.
Qed.

(** The loop ends: each line takes at least its terminating zero. *)
Lemma update_lines_total fuel input origin st :
  length input < fuel →
  ∃ r, update_lines fuel input origin st = Done r ∧
       match r with
       | inl _ => True
       | inr st' => ∃ w, ldns_buffer_data (us_lmsg st') = ldns_buffer_data (us_lmsg st) ++ w
       end.
Proof.
  revert input st. induction fuel as [|fuel IH]; intros input st Hl; [lia|]. cbn [update_lines].
  set (input' := drop (S (strlen input)) input).
  destruct (decide (input' = [])) as [|Hne]; [by eexists|].
  destruct (token_equals _ _); [exists (inr st); split; [done|]; exists []; by rewrite app_nil_r|].
  destruct (update_line input' origin st) as [r|st1] eqn:E; [by eexists|].
  destruct (IH input' st1) as (r & Hr & Hd).
  { assert (length input' < length input); [|lia]. unfold input' in *. rewrite length_drop in *.
    destruct input; [done|simpl; lia]. }
  exists r. split; [done|]. destruct r as [|st2]; [done|]. destruct Hd as [w ->].
  destruct (update_line_data _ _ _ _ E) as [w0 ->]. exists (w0 ++ w). by rewrite app_assoc.
Qed.

Lemma build_update_returns record p :
  buffer_wf p → 10 ≤ pb_used p → room p QUESTION_MAX →
  match build_update record p with
  | Done (r, p') =>
      buffer_wf p' ∧ pb_length p' = pb_length p ∧
      (r = PERF_R_SUCCESS → is_Some (ldns_rdf_new_frm_str (cstr record))) ∧
      (p' = p ∨ r = PERF_R_SUCCESS ∧ ∃ prereqs updates body,
         contents p' = <[9 := u8 updates]> (<[7 := u8 prereqs]> (contents p)) ++ body)
  | Exit c => c = 1%Z ∧ ldns_buffer_new (pb_length p) = None
  | _ => False
  end.
Proof.
  intros Hwf Hu Hr.
  destruct (build_update_start record p Hwf Hr) as [[E ->]|[[-> _]|(o & b & t & w & Ho & Hd & -> & _)]].
  - done.
  - split_and!; [apply Hwf..|done|done|by left].
  - rewrite Ho.
    destruct (update_lines_total (S (length record)) record o (UpdateState b t 0 0)) as (r & El & Hdl); [lia|].
    rewrite El, (bind_Done (lift (Done _)) _ _ _ p eq_refl).
    destruct r as [r|st]; [split_and!; [apply Hwf..|done|by eexists|by left]|].
    destruct Hdl as [ws Hdl]. simpl in Hdl. rewrite Hd, <- app_assoc in Hdl.
    pose proof (update_finish_spec st p _ Hwf Hu Hdl) as Hf. destruct (decide (room p _)).
    + destruct Hf as (p' & -> & ? & ? & ?). split_and!; [apply H..|done|by eexists|]. right. eauto.
    + rewrite Hf. split_and!; [apply Hwf..|done|by eexists|by left].
Qed.
End total.

(** ** Theorems *)

Lemma block_text_first zone cmds : Forall (λ x, x ≠ 0%Z) zone → cstr (block_text zone cmds) = zone.
Proof.
  intros Hz. unfold cstr, block_text. simpl. rewrite strcspn_app_0. fold (strlen zone).
  by rewrite strlen_nz, take_app_length by done.
Qed.

Lemma block_text_length zone cmds : length cmds < length (block_text zone cmds).
Proof.
  unfold block_text. rewrite !length_app. simpl.
  assert (length cmds ≤ length (concat (map (λ c, cmd_text c ++ [0%Z]) cmds))); [|lia].
  induction cmds as [|c cmds IH]; simpl; [lia|]. rewrite !length_app. simpl. lia.
Qed.

(** The header with its counts. *)
Lemma header_counts qid a u :
  <[9 := u8 u]> (<[7 := u8 a]> (update_header qid)) = dns_header qid (Z.shiftl 5 11) (u8 a) (u8 u) 0.
Proof. unfold dns_header. rewrite !(be16_byte (u8 _)) by apply u8_range. done. Qed.

Section theorems.
Context {L : Ldns} `{!LdnsLaws L} {H : Hmac} `{!HmacLaws H}.

(** C2: an update block of the input file, with its zone, commands as the manual page writes
    them, prerequisites first, and [send], becomes the UPDATE message it stands for: the
    header with the opcode and the numbers of prerequisites and updates (modulo 256), the
    zone section, a record per command with the owner, type, class, TTL and rdata RFC 2136
    gives it, in order, and the OPT and TSIG records that were asked for. *)
Theorem update_request_correct zone cmds qid (edns : bool) dnssec (key : option perf_tsigkey) o time p origin fs :
  buffer_wf p → pb_used p = 0 → room p (12 + QUESTION_MAX) → option_ok o →
  Forall (λ c, c ≠ 0%Z) zone → ldns_rdf_new_frm_str zone = Some origin →
  Forall (cmd_ok origin) cmds → Forall2 (λ c f, cmd_fields origin c = Some f) cmds fs →
  prereqs_first false cmds = true →
  let opt := if edns then opt_record dnssec (option_data o) else [] in
  let n := Z.b2z edns in
  let hdr := dns_header (u16 qid) (Z.shiftl 5 11) (u8 (prereqs_of cmds)) (u8 (updates_of cmds)) in
  ∃ rrs, map rr_view rrs = fs ∧
  ∀ body, update_wire (pb_length p) (update_header (u16 qid)) origin rrs = Some body →
    room p (12 + length body + length opt + match key with Some k => tsig_space k | None => 0 end) →
    match key with Some k => key_works k | None => True end →
    ∃ p', buildrequest_ldns (block_text zone cmds) qid edns dnssec true key o time p
            = Done (PERF_R_SUCCESS, p') ∧ buffer_wf p' ∧
          contents p' =
            match key with
            | Some k => hdr (n + 1)%Z ++ body ++ opt ++ signature k time (hdr n ++ body ++ opt)
            | None => hdr n ++ body ++ opt
            end.
Proof.
  intros Hwf Hu Hr Ho Hz Hor Hok Hf Hp opt n hdr.
  destruct (update_lines_spec cmds fs origin Hok Hf) as (rrs & Hv & Hl). exists rrs. split; [done|].
  intros body Hw Hroom Hk. unfold buildrequest_ldns. rewrite request_header by done.
  set (h := update_header (u16 qid)) in *. set (p0 := push h p).
  assert (room p (length h)) as Hrh by (eapply room_le; [|exact Hr]; simpl; lia).
  assert (buffer_wf p0) as Hwf0 by (by apply push_wf).
  assert (contents p0 = h) as Hc0.
  { unfold p0. rewrite contents_push by done. unfold contents. by rewrite Hu. }
  destruct (build_update_wire (block_text zone cmds) p0 origin rrs body (prereqs_of cmds) (updates_of cmds))
    as (b & t & Hbu & Hd); [done|eapply room_push; [exact Hr|simpl; lia]|by rewrite block_text_first| |by rewrite Hc0|].
  { intros b t b' t' Hrw. rewrite <- (Z.add_0_l (prereqs_of _)), <- (Z.add_0_l (updates_of _)).
    apply (Hl (UpdateState b t 0 0)); [done| |done|done|done].
    pose proof (block_text_length zone cmds). lia. }
  pose proof (update_finish_spec (UpdateState b t (prereqs_of cmds) (updates_of cmds)) p0 body Hwf0
    ltac:(unfold p0; simpl; lia) Hd) as Hfin.
  rewrite decide_True in Hfin by (unfold room, p0 in *; simpl; lia).
  destruct Hfin as (p1 & Hp1 & Hwf1 & Hl1 & Hc1). rewrite <- Hbu in Hp1. rewrite (bind_Done _ _ _ _ _ Hp1).
  rewrite Hc0 in Hc1. unfold h in Hc1. rewrite header_counts in Hc1.
  apply request_records; [done|done|done| |done].
  assert (pb_used p1 = 12 + length body) as Hu1 by (rewrite <- (contents_length p1), Hc1 by done; done).
  unfold room in *. rewrite Hu1, Hl1. unfold p0. simpl. fold opt. lia.
Qed.

(** C23: for every block of lines, of any content, building an update returns: the loop over
    the lines ends and nothing outside the buffer is touched.  An error leaves the message
    as it was; otherwise a zone name was read and only the two counts of the header change
    and the message is extended.  Only a failing allocation ends the process. *)
Theorem build_update_total record p :
  buffer_wf p → 10 ≤ pb_used p → room p QUESTION_MAX →
  match build_update record p with
  | Done (r, p') =>
      buffer_wf p' ∧ pb_length p' = pb_length p ∧
      (r = PERF_R_SUCCESS → is_Some (ldns_rdf_new_frm_str (cstr record))) ∧
      (p' = p ∨ r = PERF_R_SUCCESS ∧ ∃ prereqs updates body,
         contents p' = <[9 := u8 updates]> (<[7 := u8 prereqs]> (contents p)) ++ body)
  | Exit c => c = 1%Z ∧ ldns_buffer_new (pb_length p) = None
  | _ => False
  end.
Proof. exact (build_update_returns record p). Qed.
End theorems.

(** ** An instance: LDNS without compression, with two types whose rdata is their text *)

Record plain_rr : Type := PlainRr {
  pr_owner : option (list Z); pr_type : Z; pr_class : Z; pr_ttl : Z; pr_rdata : list (list Z);
}.

Definition plain_type (s : list Z) : Z :=
  if decide (s = bytes "A") then 1%Z else if decide (s = bytes "TXT") then 16%Z else 0%Z.
Definition plain_cat (d origin : list Z) : option (list Z) :=
  let w := take (length d - 1) d ++ origin in if decide (length w ≤ 255) then Some w else None.
Definition plain_absolute (s : list Z) : bool := bool_decide (last s = Some 46%Z).
Definition plain_owner (o : option (list Z)) (s : list Z) : option (list Z) :=
  d ← name_wire s;
  match o, plain_absolute s with Some origin, false => plain_cat d origin | _, _ => Some d end.

Definition plain_write (b : list Z * nat) (bs : list Z) : run (list Z * nat) :=
  if decide (length b.1 + length bs ≤ b.2) then Done (b.1 ++ bs, b.2) else Abort.
Definition plain_append (b : list Z * nat) (bs : list Z) : list Z * nat :=
  (b.1 ++ bs, Nat.max b.2 (length b.1 + length bs)).
Definition plain_rr_wire (rr : plain_rr) : list Z :=
  default [] (pr_owner rr) ++ be16 (pr_type rr) ++ be16 (pr_class rr) ++ be32 (pr_ttl rr) ++
  be16 (u16 (Z.of_nat (length (concat (pr_rdata rr))))) ++ concat (pr_rdata rr).

(** [owner [ttl] type rdata]. *)
Definition plain_parse (s : list Z) (ttl : Z) (origin : option (list Z)) : option plain_rr :=
  let word s := take (strcspn s WHITESPACE) s in
  let next s := skip_space (drop (strcspn s WHITESPACE) s) in
  d ← plain_owner origin (word s);
  let s1 := next s in
  let s2 := if decide (plain_type (word s1) = 0%Z) then next s1 else s1 in
  if decide (plain_type (word s2) = 0%Z) then None
  else Some (PlainRr (Some d) (plain_type (word s2)) LDNS_RR_CLASS_IN ttl [next s2]).

#[export] Instance plain_ldns : Ldns := {|
  ldns_rdf := list Z;
  ldns_rr := plain_rr;
  ldns_buffer := list Z * nat;
  ldns_rbtree := unit;
  ldns_buffer_new n := Some ([], n);
  ldns_buffer_write := plain_write;
  ldns_buffer_write_u16 b v := plain_write b (be16 (u16 v));
  ldns_buffer_data := fst;
  ldns_rbtree_init := ();
  ldns_rdf_new_frm_str := name_wire;
  ldns_dname_new_frm_str := name_wire;
  ldns_dname_str_absolute := plain_absolute;
  ldns_dname_cat := plain_cat;
  ldns_get_rr_type_by_name := plain_type;
  ldns_rr_new := PlainRr None 0 0 0 [];
  ldns_rr_set_owner rr d := PlainRr (Some d) (pr_type rr) (pr_class rr) (pr_ttl rr) (pr_rdata rr);
  ldns_rr_set_ttl rr v := PlainRr (pr_owner rr) (pr_type rr) (pr_class rr) v (pr_rdata rr);
  ldns_rr_set_type rr v := PlainRr (pr_owner rr) v (pr_class rr) (pr_ttl rr) (pr_rdata rr);
  ldns_rr_set_class rr v := PlainRr (pr_owner rr) (pr_type rr) v (pr_ttl rr) (pr_rdata rr);
  ldns_rr_ttl := pr_ttl;
  ldns_rr_rd_count rr := length (pr_rdata rr);
  ldns_rr_new_frm_str := plain_parse;
  ldns_dname2buffer_wire_compress b d t :=
    if decide (length d ≤ 255) then Some (plain_append b d, t) else None;
  ldns_rr2buffer_wire_compress b rr t := Some (plain_append b (plain_rr_wire rr), t);
|}.

Lemma plain_type_dec k n : (0 ≤ n)%Z → plain_type (dec (S k) n) = 0%Z.
Proof.
  intros Hn. pose proof (dec_digits (S k) n Hn) as Hd. pose proof (dec_nonempty k n) as Hl.
  destruct (dec (S k) n) as [|c s]; [simpl in Hl; lia|]. apply Forall_cons in Hd as [Hc _].
  unfold plain_type. rewrite !decide_False; [done|..]; intros [= -> _]; done.
Qed.

(** Parsing the words of a line one by one. *)
Definition starts_word (s : list Z) : Prop := 0 < length s ∧ isspace (char0 s) = false.
Lemma word_starts w rest : word w → starts_word (w ++ rest).
Proof.
  intros [Hl Hw]. destruct w as [|c w]; simpl in *; [lia|]. apply Forall_cons in Hw as [[Hc _] _].
  split; [simpl; lia|done].
Qed.
Lemma plain_next w rest :
  word w → starts_word rest →
  take (strcspn (w ++ sp ++ rest) WHITESPACE) (w ++ sp ++ rest) = w ∧
  skip_space (drop (strcspn (w ++ sp ++ rest) WHITESPACE) (w ++ sp ++ rest)) = rest.
Proof.
  intros Hw [Hl Hs]. destruct (next_word w (sp ++ rest)) as (-> & -> & ->); [auto with perf..|].
  split; [done|]. rewrite skip_sp. destruct rest as [|c rest]; [simpl in Hl; lia|].
  change (char0 (c :: rest)) with c in Hs. simpl. by rewrite Hs.
Qed.

Lemma plain_parse_spec owner (ttl : option Z) type rdata origin d :
  name_text owner → type_text type → rdata_text rdata →
  match ttl with Some n => 0 ≤ n < 2 ^ 32 | None => True end%Z →
  plain_owner (Some origin) owner = Some d → plain_type type ≠ 0%Z →
  plain_parse (owner ++ sp ++ match ttl with Some n => dec 10 n ++ sp | None => [] end
               ++ type ++ sp ++ rdata) 0 (Some origin)
    = Some (PlainRr (Some d) (plain_type type) LDNS_RR_CLASS_IN 0 [rdata]).
Proof.
  intros Ho Ht (Hr1 & Hr2 & _) Httl Hd Hty.
  assert (word type) as Htw by auto with perf.
  destruct (plain_next type rdata Htw) as [T1 T2]; [done|].
  unfold plain_parse. destruct ttl as [n|].
  - assert (word (dec 10 n)) by (apply dec_word; lia). rewrite <- (app_assoc (dec 10 n)).
    destruct (plain_next (dec 10 n) (type ++ sp ++ rdata)) as [D1 D2]; [done|by apply word_starts|].
    destruct (plain_next owner (dec 10 n ++ sp ++ type ++ sp ++ rdata)) as [O1 O2];
      [auto with perf|by apply word_starts|].
    rewrite O1, O2, Hd. cbn [mbind option_bind]. rewrite D1, D2, plain_type_dec by lia.
    rewrite (decide_True (P := 0%Z = 0%Z)) by done. rewrite T1, T2. by rewrite decide_False.
  - rewrite app_nil_l. destruct (plain_next owner (type ++ sp ++ rdata)) as [O1 O2];
      [auto with perf|by apply word_starts|].
    rewrite O1, O2, Hd. cbn [mbind option_bind]. rewrite T1.
    rewrite (decide_False (P := plain_type type = 0%Z)) by done. rewrite T1, T2. by rewrite decide_False.
Qed.

Lemma plain_append_data b bs : (plain_append b bs).1 = b.1 ++ bs ∧ b.2 ≤ (plain_append b bs).2.
Proof. split; [done|simpl; lia]. Qed.

#[export] Program Instance plain_laws : LdnsLaws plain_ldns := {|
  buffer_capacity := snd;
  rr_view rr := RrFields plain_ldns (pr_owner rr) (pr_type rr) (pr_class rr) (pr_ttl rr) (pr_rdata rr);
  rdata_value _ text _ := Some [text];
|}.
Next Obligation. intros n b [= <-]. done. Qed.
Next Obligation. intros b bs Hl. simpl. unfold plain_write. rewrite decide_True by done. by eexists. Qed.
Next Obligation. intros b v Hl. simpl. unfold plain_write. rewrite decide_True by done. by eexists. Qed.
Next Obligation.
  intros b d t b' t' Hw. simpl in Hw. destruct (decide _) as [Hl|]; [|done]. injection Hw as <- <-.
  exists d. split_and!; [done|done|apply plain_append_data].
Qed.
Next Obligation. intros b rr t b' t' [= <- <-]. by eexists. Qed.
Solve Obligations with try done.
Next Obligation.
  intros owner ttl type rdata origin d rds Ho Ht Hr Httl Hd Hty [= <-].
  assert (plain_owner (Some origin) owner = Some d) as Hd'.
  { unfold owner_name in Hd. simpl in Hd. unfold plain_owner. destruct (name_wire owner); [|done].
    simpl in *. by destruct (plain_absolute owner). }
  eexists. split; [by apply (plain_parse_spec owner ttl type rdata origin d)|done].
Qed.

(** *** Witnesses and findings *)

Definition example_cmds : list update_cmd :=
  [RequireName (bytes "a"); ProhibitRrset (bytes "x") (bytes "A");
   Add (bytes "x") 3600 (bytes "A") (bytes "10.1.2.3"); DeleteRr (bytes "y") (bytes "A") (bytes "10.1.2.3");
   DeleteName (bytes "w.")].

Definition example_fields : list (rr_fields plain_ldns) :=
  let rr o t c ttl r := RrFields plain_ldns (Some o) t c ttl r in
  let com := [3; 99; 111; 109; 0]%Z in
  [rr ([1; 97] ++ com)%Z 255 255 0 []; rr ([1; 120] ++ com)%Z 1 254 0 [];
   rr ([1; 120] ++ com)%Z 1 1 3600 [bytes "10.1.2.3"]; rr ([1; 121] ++ com)%Z 1 254 0 [bytes "10.1.2.3"];
   rr [1; 119; 0]%Z 255 255 0 []]%Z.

Lemma example_cmds_ok : Forall (cmd_ok (L := plain_ldns) [3; 99; 111; 109; 0]%Z) example_cmds.
Proof.
  repeat constructor; try (vm_compute; lia); try (by apply (bool_decide_unpack _)).
Qed.

Definition plain_of (f : rr_fields plain_ldns) : plain_rr :=
  PlainRr (f_owner f) (f_type f) (f_class f) (f_ttl f) (f_rdata f).
Lemma plain_of_view rrs : map plain_of (map (rr_view (L := plain_ldns)) rrs) = rrs.
Proof. induction rrs as [|[] rrs IH]; [done|]. cbn [map]. by rewrite IH. Qed.

Definition example_body : list Z :=
  default [] (update_wire (L := plain_ldns) 512 (update_header 42) [3; 99; 111; 109; 0]%Z
                (map plain_of example_fields)).

Lemma update_request_correct_witness :
  let hdr := dns_header 42 (Z.shiftl 5 11) 2 3 in
  let msg := hdr 1%Z ++ example_body ++ opt_record true [] in
  ∃ p', buildrequest_ldns (L := plain_ldns) (block_text (bytes "com") example_cmds) 42 true true true
          (Some test_key) None 5 (test_buffer 512) = Done (PERF_R_SUCCESS, p') ∧ buffer_wf p' ∧
        contents p' = hdr 2%Z ++ example_body ++ opt_record true [] ++ signature test_key 5 msg.
Proof.
  destruct (update_request_correct (L := plain_ldns) (bytes "com") example_cmds 42 true true (Some test_key) None 5
    (test_buffer 512) [3; 99; 111; 109; 0]%Z example_fields) as (rrs & Hv & Hb);
    [apply test_buffer_wf|done|vm_compute; lia|done|by apply (bool_decide_unpack _)|done|apply example_cmds_ok|
     by repeat constructor|done|].
  assert (rrs = map plain_of example_fields) as -> by (by rewrite <- Hv, plain_of_view).
  apply (Hb example_body); [by vm_compute|vm_compute; lia|apply test_key_works].
Defined.

Definition header_buffer (n : nat) : perf_buffer := push (update_header 1) (test_buffer n).
Lemma header_buffer_wf n : 12 ≤ n → buffer_wf (header_buffer n).
Proof. intros. apply push_wf; [apply test_buffer_wf|]. unfold room. simpl. lia. Qed.

(** A block without [send] is refused and leaves the message alone. *)
Lemma build_update_total_witness :
  match build_update (L := plain_ldns) (bytes "com" ++ [0%Z] ++ bytes "delete a" ++ [0%Z]) (header_buffer 512) with
  | Done (r, p') =>
      buffer_wf p' ∧ pb_length p' = 512 ∧
      (r = PERF_R_SUCCESS → is_Some (name_wire (cstr (bytes "com" ++ [0%Z] ++ bytes "delete a" ++ [0%Z])))) ∧
      (p' = header_buffer 512 ∨ r = PERF_R_SUCCESS ∧ ∃ prereqs updates body,
         contents p' = <[9 := u8 updates]> (<[7 := u8 prereqs]> (contents (header_buffer 512))) ++ body)
  | Exit c => c = 1%Z ∧ Some ([] : list Z, 512) = None
  | _ => False
  end.
Proof.
  apply (build_update_total (L := plain_ldns) (bytes "com" ++ [0%Z] ++ bytes "delete a" ++ [0%Z]) (header_buffer 512));
    [apply header_buffer_wf; lia|vm_compute; lia|vm_compute; lia].
Defined.

(** The number of updates is stored in one byte: 256 of them, which fit an EDNS-sized
    packet, are announced as none. *)
Theorem update_count_wraps :
  returns (build_update (L := plain_ldns) (block_text (bytes "b") (replicate 256 (DeleteName (bytes "a"))))
             (header_buffer 4096))
    (λ '(r, p), r = PERF_R_SUCCESS ∧ pb_used p = 12 + 7 + 256 * 15 ∧
                take 12 (contents p) = dns_header 1 (Z.shiftl 5 11) 0 0 0).
Proof. vm_compute. done. Qed.

(** A TTL that does not fit 32 bits is accepted and truncated, also a negative one. *)
Theorem update_ttl_truncated (rr : ldns_rr (Ldns := plain_ldns)) :
  read_ttl (bytes "4294967297") rr = inr ([], ldns_rr_set_ttl rr 1) ∧
  read_ttl (bytes "-4294967295") rr = inr ([], ldns_rr_set_ttl rr 1).
Proof. split; vm_compute; done. Qed.

(** When LDNS cannot write a record, success is reported for a message without zone and
    records, whose header announces a zone. *)
Theorem update_unwritable_succeeds {L : Ldns} `{!LdnsLaws L} zone c f origin p :
  buffer_wf p → room p QUESTION_MAX → Forall (λ x, x ≠ 0%Z) zone →
  ldns_rdf_new_frm_str zone = Some origin → cmd_ok origin c → cmd_fields origin c = Some f →
  update_wire (pb_length p) (contents p) origin [] ≠ None →
  (∀ b rr t, ldns_rr2buffer_wire_compress b rr t = None) →
  build_update (block_text zone [c]) p = Done (PERF_R_SUCCESS, p).
Proof.
  intros Hwf Hr Hz Ho Hc Hf Hzone Hfail.
  destruct (build_update_start (block_text zone [c]) p Hwf Hr) as [[E _]|[[_ E]|(o & b & t & w & Ho' & Hd & -> & Hu)]].
  - destruct Hzone. unfold update_wire. by rewrite E.
  - destruct Hzone. apply E. by rewrite block_text_first.
  - rewrite block_text_first in Ho' by done. rewrite Ho in Ho'. injection Ho' as <-.
    replace (block_text zone [c]) with (zone ++ 0%Z :: cmd_text c ++ 0%Z :: bytes "send" ++ [0%Z])
      by (unfold block_text; cbn [map concat]; by rewrite app_nil_r, <- (app_assoc (cmd_text c))).
    cbn [update_lines]. rewrite next_line by done. rewrite decide_False by (by destruct c).
    rewrite cmd_not_send. destruct (update_line_spec c (bytes "send" ++ [0%Z]) origin f Hc Hf) as (rr & _ & Hl).
    rewrite Hl. cbn [us_updates]. rewrite andb_false_r. by rewrite Hfail.
Qed.
