(* ===== verification/Datafile.v ===== *)
(** * The input file (datafile.c)

    Queries are read from a file through a buffer of 64 KiB; a file that fits in the buffer
    is [cached] and never read again.  The operating system's side of the file is the
    interface [FileIO]; what the reader relies on is stated in [FileLaws]: a read returns
    a nonempty piece of what is left, of any size it likes, and nothing only at the end.

    The abstract view of a reader is the byte stream [stream] that it has not delivered
    yet, whatever part of it is in the buffer.  Lines and blobs are shown to depend on the
    stream only. *)

From S2P Require Import Prelude Buffer.

Inductive perf_input_format : Set :=
| input_format_text_query
| input_format_text_update
| input_format_tcp_wire_format.

#[export] Instance perf_input_format_eq_dec : EqDecision perf_input_format.
Proof. solve_decision. Defined.

(** [perf_os_waituntilreadable], [read] and [lseek(fd, 0, SEEK_SET)] on the descriptor;
    [None] is an error. *)
Class FileIO : Type := {
  fio : Type;
  fio_wait : fio → perf_result * fio;
  fio_read : nat → fio → option (list Z) * fio;
  fio_rewind : fio → option fio;
}.

(** [sizeof(databuf)]. *)
Definition DATABUF : nat := Z.to_nat 65538.

Section datafile.
Context {F : FileIO}.

(** [struct perf_datafile]; [pipe] is [pipe_fd >= 0], and [readfunc] is a function of
    [format]. *)
Record perf_datafile : Type := PerfDatafile {
  pipe : bool;
  fd : fio;
  is_file : bool;
  size : nat;
  at_ : nat;
  have : nat;
  cached : bool;
  databuf : list Z;
  maxruns : Z;
  nruns : Z;
  read_any : bool;
  format : perf_input_format;
}.

Definition set_fd (d : perf_datafile) (f : fio) : perf_datafile :=
  PerfDatafile (pipe d) f (is_file d) (size d) (at_ d) (have d) (cached d) (databuf d)
    (maxruns d) (nruns d) (read_any d) (format d).
Definition set_at (d : perf_datafile) (a : nat) : perf_datafile :=
  PerfDatafile (pipe d) (fd d) (is_file d) (size d) a (have d) (cached d) (databuf d)
    (maxruns d) (nruns d) (read_any d) (format d).
Definition set_have (d : perf_datafile) (h : nat) : perf_datafile :=
  PerfDatafile (pipe d) (fd d) (is_file d) (size d) (at_ d) h (cached d) (databuf d)
    (maxruns d) (nruns d) (read_any d) (format d).
Definition set_cached (d : perf_datafile) : perf_datafile :=
  PerfDatafile (pipe d) (fd d) (is_file d) (size d) (at_ d) (have d) true (databuf d)
    (maxruns d) (nruns d) (read_any d) (format d).
Definition set_databuf (d : perf_datafile) (m : list Z) : perf_datafile :=
  PerfDatafile (pipe d) (fd d) (is_file d) (size d) (at_ d) (have d) (cached d) m
    (maxruns d) (nruns d) (read_any d) (format d).
Definition set_nruns (d : perf_datafile) (n : Z) : perf_datafile :=
  PerfDatafile (pipe d) (fd d) (is_file d) (size d) (at_ d) (have d) (cached d) (databuf d)
    (maxruns d) n (read_any d) (format d).
Definition set_read_any (d : perf_datafile) : perf_datafile :=
  PerfDatafile (pipe d) (fd d) (is_file d) (size d) (at_ d) (have d) (cached d) (databuf d)
    (maxruns d) (nruns d) true (format d).

(** [perf_datafile_open(filename, format)]: [None] is standard input; for a name, the
    argument gives the outcome of [open] and, for a regular file, the size [fstat] says. *)
Definition perf_datafile_open (stdin : fio) (filename : option (option (fio * option nat)))
    (format : perf_input_format) : run perf_datafile :=
  let init f is_file size :=
    PerfDatafile false f is_file size 0 0 false (replicate DATABUF 0%Z) 1 0 false format in
  match filename with
  | None => Done (init stdin false 0)
  | Some None => Exit 1
  | Some (Some (f, Some size)) => Done (init f true size)
  | Some (Some (f, None)) => Done (init f false 0)
  end.

Definition perf_datafile_setpipefd (d : perf_datafile) (p : bool) : perf_datafile :=
  PerfDatafile p (fd d) (is_file d) (size d) (at_ d) (have d) (cached d) (databuf d)
    (maxruns d) (nruns d) (read_any d) (format d).
Definition perf_datafile_setmaxruns (d : perf_datafile) (m : Z) : perf_datafile :=
  PerfDatafile (pipe d) (fd d) (is_file d) (size d) (at_ d) (have d) (cached d) (databuf d)
    m (nruns d) (read_any d) (format d).
Definition perf_datafile_nruns (d : perf_datafile) : Z := nruns d.

(** A store into [databuf], undefined outside of it. *)
Definition poke (off : nat) (bs : list Z) : M perf_datafile unit := λ d,
  if decide (off + length bs ≤ length (databuf d))
  then Done ((), set_databuf d (list_inserts off bs (databuf d))) else Undef.

Definition reopen_file : M perf_datafile unit :=
  d ← get;
  if cached d then put (set_at d 0)
  else
    match fio_rewind (fd d) with
    | None => perf_log_fatal
    | Some f => put (set_have (set_at (set_fd d f) 0) 0);; poke 0 [0%Z]
    end.

(** The parts of [read_more]: wait for a pipe (lines 132-136), move what is left to the
    front of the buffer (138-145), and read (147-161). *)
Definition wait_readable : M perf_datafile perf_result :=
  d ← get;
  if decide (is_file d = false ∧ pipe d = true) then
    let '(r, f) := fio_wait (fd d) in put (set_fd d f);; mret r
  else mret PERF_R_SUCCESS.

Definition compact : M perf_datafile unit :=
  d ← get;
  if decide (at_ d ≠ 0 ∧ at_ d < have d) then
    poke 0 (take (have d - at_ d) (drop (at_ d) (databuf d)));;
    modify (λ d, set_at (set_have d (have d - at_ d)) 0)
  else if decide (at_ d = have d) then put (set_at (set_have d 0) 0)
  else mret ().

Definition fill : M perf_datafile perf_result :=
  d ← get;
  let '(n, f) := fio_read (length (databuf d) - have d - 1) (fd d) in
  put (set_fd d f);;
  match n with
  | None => mret PERF_R_FAILURE
  | Some [] => mret PERF_R_EOF
  | Some bs =>
      poke (have d) bs;;
      modify (λ d, set_have d (have d + length bs));;
      d ← get;
      (if decide (is_file d = true ∧ have d = size d) then put (set_cached d) else mret ());;
      mret PERF_R_SUCCESS
  end.

Definition read_more : M perf_datafile perf_result :=
  result ← wait_readable;
  if decide (result ≠ PERF_R_SUCCESS) then mret result else compact;; fill.

(** The number of bytes in the buffer, [have - at]. *)
Definition remaining (d : perf_datafile) : nat := have d - at_ d.

(** The first loop of [read_one_blob], lines 171-193: wait for the two bytes of the
    length. *)
Fixpoint read_preamble (fuel : nat) : M perf_datafile perf_result :=
  match fuel with
  | 0 => lift NoFuel
  | S fuel' =>
      d ← get;
      if decide (remaining d < 2) then
        if cached d then
          mret (if decide (remaining d = 0) then PERF_R_EOF else PERF_R_INVALIDFILE)
        else
          result ← read_more;
          if decide (result ≠ PERF_R_SUCCESS) then
            d ← get;
            mret (if decide (result = PERF_R_EOF ∧ remaining d ≠ 0) then PERF_R_INVALIDFILE else result)
          else read_preamble fuel'
      else mret PERF_R_SUCCESS
  end.

(** The second loop, lines 194-210: wait for the packet. *)
Fixpoint read_body (fuel packet_size : nat) : M perf_datafile perf_result :=
  match fuel with
  | 0 => lift NoFuel
  | S fuel' =>
      d ← get;
      if decide (remaining d < 2 + packet_size) then
        if cached d then mret PERF_R_INVALIDFILE
        else
          result ← read_more;
          if decide (result ≠ PERF_R_SUCCESS) then
            mret (if decide (result = PERF_R_EOF) then PERF_R_INVALIDFILE else result)
          else read_body fuel' packet_size
      else mret PERF_R_SUCCESS
  end.

(** A computation on the file or on the output buffer, as one on both. *)
Definition on_file {A} (m : M perf_datafile A) : M (perf_datafile * perf_buffer) A := λ '(d, b),
  match m d with
  | Done (a, d') => Done (a, (d', b))
  | Abort => Abort | Exit c => Exit c | Undef => Undef | NoFuel => NoFuel
  end.
Definition on_lines {A} (m : M perf_buffer A) : M (perf_datafile * perf_buffer) A := λ '(d, b),
  match m b with
  | Done (a, b') => Done (a, (d, b'))
  | Abort => Abort | Exit c => Exit c | Undef => Undef | NoFuel => NoFuel
  end.

(** [read_one_blob(dfile, wire)]. *)
Definition read_one_blob (fuel : nat) : M (perf_datafile * perf_buffer) perf_result :=
  result ← on_file (read_preamble fuel);
  if decide (result ≠ PERF_R_SUCCESS) then mret result
  else
    d ← on_file get;
    match databuf d !! at_ d, databuf d !! S (at_ d) with
    | Some hi, Some lo =>
        let packet_size := Z.to_nat (rd16 hi lo) in
        result ← on_file (read_body fuel packet_size);
        if decide (result ≠ PERF_R_SUCCESS) then mret result
        else
          d ← on_file get;
          on_lines (perf_buffer_putmem (take packet_size (drop (at_ d + 2) (databuf d))));;
          on_file (modify (λ d, set_at d (at_ d + (2 + packet_size))));;
          mret PERF_R_SUCCESS
    | _, _ => lift Undef
    end.

(** One round of the loop of [read_one_line], lines 225-258: [None] for [continue] and for
    a blank line or comment, otherwise the result and the line.  The line is read through
    the offset [cur] at the end of the round. *)
Definition line_step : M perf_datafile (option (perf_result * list Z)) :=
  d ← get;
  let cur := at_ d in
  let curlen := strcspn (drop cur (databuf d)) [10%Z] in
  if decide (length (databuf d) ≤ cur + curlen) then lift Undef
  else
    let nrem := remaining d in
    early ←
      (if decide (curlen = nrem) then
         result ← (if cached d then mret PERF_R_SUCCESS
                   else
                     result ← read_more;
                     d ← get;
                     poke (have d) [0%Z];;
                     mret result);
         if decide (result ≠ PERF_R_SUCCESS) then mret (Some (Some (result, [])))
         else
           d ← get;
           if decide (remaining d = 0) then mret (Some (Some (PERF_R_EOF, [])))
           else if decide (nrem < remaining d) then mret (Some None)
           else mret None
       else mret None);
    match early with
    | Some r => mret r
    | None =>
        modify (λ d, set_at d (at_ d + curlen));;
        modify (λ d, if decide (at_ d < have d) then set_at d (at_ d + 1) else d);;
        d ← get;
        let line := take curlen (drop cur (databuf d)) in
        mret (if decide (0 < curlen ∧ char0 (drop cur (databuf d)) ≠ 59%Z)
              then Some (PERF_R_SUCCESS, line) else None)
    end.

Fixpoint line_loop (fuel : nat) : M perf_datafile (perf_result * list Z) :=
  match fuel with
  | 0 => lift NoFuel
  | S fuel' =>
      r ← line_step;
      match r with
      | Some x => mret x
      | None => line_loop fuel'
      end
  end.

(** [read_one_line(dfile, lines)]; [length - 1] is unsigned. *)
Definition read_one_line (fuel : nat) : M (perf_datafile * perf_buffer) perf_result :=
  '(result, line) ← on_file (line_loop fuel);
  if decide (result ≠ PERF_R_SUCCESS) then mret result
  else
    len ← on_lines (gets perf_buffer_availablelength);
    let limit := u64 (Z.of_nat len - 1) in
    let curlen := if decide (limit < Z.of_nat (length line))%Z then Z.to_nat limit else length line in
    on_lines (perf_buffer_putmem (take curlen line));;
    on_lines (perf_buffer_putuint8 0);;
    mret PERF_R_SUCCESS.

(** [dfile->readfunc]. *)
Definition readfunc (fuel : nat) : M (perf_datafile * perf_buffer) perf_result :=
  f ← on_file (gets format);
  match f with
  | input_format_text_query | input_format_text_update => read_one_line fuel
  | input_format_tcp_wire_format => read_one_blob fuel
  end.

(** [dfile->nruns++] and, unless that was the last run, [reopen_file]. *)
Definition end_of_run : M perf_datafile bool :=
  modify (λ d, set_nruns d (u32 (nruns d + 1)));;
  d ← get;
  if decide (maxruns d ≠ nruns d) then reopen_file;; mret true else mret false.

(** The loop over the lines of an update, lines 298-310. *)
Fixpoint update_loop (fuel : nat) : M (perf_datafile * perf_buffer) unit :=
  match fuel with
  | 0 => lift NoFuel
  | S fuel' =>
      current ← on_lines (gets pb_used);
      result ← readfunc fuel;
      (if decide (result = PERF_R_EOF) then _ ← on_file end_of_run; mret () else mret ());;
      b ← on_lines get;
      if decide (result ≠ PERF_R_SUCCESS
                 ∨ strcasecmp_eq (drop current (pb_base b)) (bytes "send") = true)
      then mret () else update_loop fuel'
  end.

(** [perf_datafile_next(dfile, lines)]. *)
Definition perf_datafile_next (fuel : nat) : M (perf_datafile * perf_buffer) perf_result :=
  d ← on_file get;
  if decide (0 < maxruns d ∧ maxruns d = nruns d)%Z then mret PERF_R_EOF
  else
    result ← readfunc fuel;
    d ← on_file get;
    if decide (result = PERF_R_EOF ∧ read_any d = false) then mret PERF_R_INVALIDFILE
    else
      result ← (if decide (result = PERF_R_EOF) then
                  again ← on_file end_of_run;
                  if again : bool then readfunc fuel else mret result
                else mret result);
      if decide (result ≠ PERF_R_SUCCESS) then mret result
      else
        on_file (modify set_read_any);;
        d ← on_file get;
        (if decide (format d = input_format_text_update) then update_loop fuel else mret ());;
        mret PERF_R_SUCCESS.
End datafile.

(** ** The file as a stream *)

(** What the reader relies on: a file that does not change and a read that does not fail.
    A read returns a piece of what is left, nonempty unless nothing was asked for or
    nothing is left. *)
Class FileLaws (F : FileIO) : Type := {
  fio_rest : fio → list Z;
  fio_whole : fio → list Z;
  fio_wait_law f : ∃ f', fio_wait f = (PERF_R_SUCCESS, f') ∧
    fio_rest f' = fio_rest f ∧ fio_whole f' = fio_whole f;
  fio_read_law n f : ∃ bs f', fio_read n f = (Some bs, f') ∧
    fio_rest f = bs ++ fio_rest f' ∧ fio_whole f' = fio_whole f ∧
    length bs ≤ n ∧ (bs = [] → n = 0 ∨ fio_rest f = []);
  fio_rewind_law f : ∃ f', fio_rewind f = Some f' ∧
    fio_rest f' = fio_whole f ∧ fio_whole f' = fio_whole f;
}.

Section stream.
Context {F : FileIO} `{!FileLaws F}.
Implicit Types d : perf_datafile.

Definition buffered d : list Z := drop (at_ d) (take (have d) (databuf d)).
Definition stream d : list Z := buffered d ++ fio_rest (fd d).

(** The invariant: the buffer is a window on the file, ending where the next read
    starts; a cached file is in it as a whole. *)
Record dfile_wf d : Prop := {
  wf_databuf : length (databuf d) = DATABUF;
  wf_at : at_ d ≤ have d;
  wf_have : have d < DATABUF;
  wf_window : ∃ pre, fio_whole (fd d) = pre ++ take (have d) (databuf d) ++ fio_rest (fd d) ∧
                     (cached d = true → pre = [] ∧ fio_rest (fd d) = []);
  wf_size : is_file d = true → size d = length (fio_whole (fd d));
}.

(** What reading leaves alone. *)
Definition same_file d d' : Prop :=
  pipe d' = pipe d ∧ is_file d' = is_file d ∧ size d' = size d ∧ maxruns d' = maxruns d ∧
  nruns d' = nruns d ∧ read_any d' = read_any d ∧ format d' = format d ∧
  fio_whole (fd d') = fio_whole (fd d).

#[global] Instance same_file_preorder : PreOrder same_file.
Proof. split; [by intros d|]. unfold same_file. intros ???. naive_solver congruence. Qed.

Lemma buffered_length d : dfile_wf d → length (buffered d) = remaining d.
Proof.
  intros [Hl Ha Hh _ _]. unfold buffered, remaining. rewrite length_drop, length_take. lia.
Qed.

Lemma wait_readable_spec d :
  dfile_wf d →
  ∃ d', wait_readable d = Done (PERF_R_SUCCESS, d') ∧ dfile_wf d' ∧ same_file d d' ∧
        cached d' = cached d ∧ buffered d' = buffered d ∧ fio_rest (fd d') = fio_rest (fd d).
Proof.
  intros Hwf. unfold wait_readable. run_unfold. destruct (decide _); [|by exists d].
  destruct (fio_wait_law (fd d)) as (f' & -> & Hr & Hw). exists (set_fd d f').
  split_and!; try done. destruct Hwf as [Hl Ha Hh Hwin Hs].
  split; simpl; rewrite ?Hr, ?Hw; done.
Qed.

Lemma buffered_split d :
  dfile_wf d → take (have d) (databuf d) = take (at_ d) (databuf d) ++ buffered d.
Proof.
  intros [Hl Ha Hh _ _]. unfold buffered. rewrite <- (take_drop (at_ d) (take (have d) (databuf d))) at 1.
  f_equal. rewrite take_take. f_equal. lia.
Qed.

(** The state after the data has been moved to the front, however that was done. *)
Lemma compacted_wf d d' :
  dfile_wf d → cached d = false → same_file d d' → cached d' = false → fd d' = fd d →
  at_ d' = 0 → have d' = remaining d → length (databuf d') = DATABUF →
  take (have d') (databuf d') = buffered d →
  dfile_wf d' ∧ buffered d' = buffered d.
Proof.
  intros Hwf Hc Hsame Hc' Hfd Ha' Hh' Hl' Htake. pose proof (buffered_split d Hwf) as Hsplit.
  destruct Hwf as [Hl Ha Hh (pre & Hw & _) Hs].
  split; [split|].
  - done.
  - lia.
  - rewrite Hh'. unfold remaining. lia.
  - exists (pre ++ take (at_ d) (databuf d)). rewrite Hfd, Htake. split; [|by rewrite Hc'].
    rewrite Hw, Hsplit. by rewrite <- !app_assoc.
  - destruct Hsame as (_ & -> & -> & _ & _ & _ & _ & ->). done.
  - unfold buffered at 1. by rewrite Ha', Htake.
Qed.

Lemma compact_spec d :
  dfile_wf d → cached d = false →
  ∃ d', compact d = Done ((), d') ∧ dfile_wf d' ∧ same_file d d' ∧ cached d' = false ∧
        at_ d' = 0 ∧ buffered d' = buffered d ∧ fd d' = fd d.
Proof.
  intros Hwf Hc. pose proof Hwf as [Hl Ha Hh _ _]. unfold compact. run_unfold.
  pose proof (buffered_length d Hwf) as Hbl.
  assert (take (have d - at_ d) (drop (at_ d) (databuf d)) = buffered d) as Hbuf.
  { rewrite take_drop_commute. unfold buffered. do 2 f_equal. lia. }
  assert (∀ d', same_file d d' → cached d' = false → fd d' = fd d → at_ d' = 0 →
    have d' = remaining d → length (databuf d') = DATABUF →
    take (have d') (databuf d') = buffered d →
    ∃ d'', Done ((), d') = Done ((), d'') ∧ dfile_wf d'' ∧ same_file d d'' ∧ cached d'' = false ∧
           at_ d'' = 0 ∧ buffered d'' = buffered d ∧ fd d'' = fd d) as Hdone.
  { intros d' Hs Hc' Hfd Ha' Hh' Hl' Ht. exists d'.
    destruct (compacted_wf d d') as [??]; done. }
  destruct (decide (at_ d ≠ 0 ∧ at_ d < have d)) as [[H0 H1]|Hn].
  - unfold poke. rewrite Hbuf. unfold remaining in *. rewrite decide_True by lia.
    apply Hdone; try done; simpl; [by rewrite length_inserts|].
    rewrite <- Hbl. apply (take_list_inserts 0). lia.
  - destruct (decide (at_ d = have d)) as [He|He].
    + apply Hdone; try done; unfold remaining; simpl; [lia|].
      symmetry. apply nil_length_inv. rewrite Hbl. unfold remaining. lia.
    + assert (at_ d = 0) as H0 by lia. apply Hdone; try done; [unfold remaining; lia|].
      unfold buffered. by rewrite H0.
Qed.

(** A file that is in the buffer as a whole may be marked as cached. *)
Lemma cache_wf d :
  dfile_wf d → is_file d = true → have d = length (fio_whole (fd d)) → dfile_wf (set_cached d).
Proof.
  intros [Hl Ha Hh (pre & Hw & _) Hs] Hf Hsz. split; simpl; try done. exists pre. split; [done|].
  intros _. apply (f_equal length) in Hw. rewrite !length_app, length_take, Hl in Hw.
  split; apply nil_length_inv; lia.
Qed.

(** A read: a nonempty piece of the rest of the file, or the end of the file (also when
    the buffer is full). *)
Lemma fill_spec d :
  dfile_wf d → cached d = false → at_ d = 0 →
  ∃ d', dfile_wf d' ∧ same_file d d' ∧ at_ d' = 0 ∧ stream d' = stream d ∧
    ((fill d = Done (PERF_R_SUCCESS, d') ∧ remaining d < remaining d' ∧
      length (fio_rest (fd d')) < length (fio_rest (fd d))) ∨
     (fill d = Done (PERF_R_EOF, d') ∧ buffered d' = buffered d ∧ cached d' = false ∧
      (S (remaining d) = DATABUF ∨ fio_rest (fd d) = []))).
Proof.
  intros Hwf Hc H0. pose proof Hwf as [Hl Ha Hh (pre & Hw & _) Hs]. unfold fill. run_unfold.
  destruct (fio_read_law (length (databuf d) - have d - 1) (fd d))
    as (bs & f' & -> & Hrest & Hwhole & Hlen & Hnil).
  destruct bs as [|b bs].
  - exists (set_fd d f'). simpl in Hrest. unfold stream. simpl. rewrite Hrest.
    split_and!; try done.
    + split; simpl; rewrite ?Hwhole; try done. exists pre. rewrite Hw, Hrest. split; [done|congruence].
    + right. split_and!; try done. unfold remaining. destruct Hnil as [?|?]; [done|left; lia|right; congruence].
  - remember (b :: bs) as n eqn:Hn. assert (0 < length n) by (subst; simpl; lia). clear Hn.
    unfold poke. simpl. rewrite decide_True by lia. cbv beta iota.
    set (d1 := set_have _ _).
    assert (buffered d1 = buffered d ++ n) as Hb1.
    { unfold buffered. simpl. rewrite H0, !drop_0. apply take_list_inserts. lia. }
    assert (dfile_wf d1) as Hwf1.
    { split; simpl; try done; [by rewrite length_inserts|lia|lia| |by rewrite Hwhole].
      exists pre. rewrite take_list_inserts by lia. rewrite Hwhole, Hw, Hrest, <- app_assoc.
      split; [done|congruence]. }
    assert (stream d1 = stream d) as Hst.
    { unfold stream. rewrite Hb1. simpl. by rewrite Hrest, <- app_assoc. }
    assert (length (fio_rest (fd d1)) < length (fio_rest (fd d))) as Hlt.
    { simpl. rewrite Hrest, length_app. lia. }
    assert (remaining d < remaining d1) as Hrem by (unfold remaining; simpl; lia).
    destruct (decide (is_file d = true ∧ have d + length n = size d)) as [[Hf Hsz]|Hns].
    + exists (set_cached d1). split_and!; try done; [|left; by rewrite decide_True].
      apply cache_wf; [done|done|]. simpl. rewrite Hsz, Hwhole. by apply Hs.
    + exists d1. split_and!; try done. left. by rewrite decide_False.
Qed.
(** [read_more] does not change the stream; it brings more of it into the buffer unless
    the file has ended or the buffer is full. *)
Lemma read_more_spec d :
  dfile_wf d → cached d = false →
  ∃ d', dfile_wf d' ∧ same_file d d' ∧ stream d' = stream d ∧
    ((read_more d = Done (PERF_R_SUCCESS, d') ∧ remaining d < remaining d' ∧
      length (fio_rest (fd d')) < length (fio_rest (fd d))) ∨
     (read_more d = Done (PERF_R_EOF, d') ∧ buffered d' = buffered d ∧ cached d' = false ∧
      (S (remaining d) = DATABUF ∨ fio_rest (fd d) = []))).
Proof.
  intros Hwf Hc. unfold read_more.
  destruct (wait_readable_spec d Hwf) as (d1 & E1 & Hwf1 & Hs1 & Hc1 & Hb1 & Hr1).
  rewrite (bind_Done _ _ _ _ _ E1), ok_branch.
  rewrite Hc in Hc1. destruct (compact_spec d1 Hwf1 Hc1) as (d2 & E2 & Hwf2 & Hs2 & Hc2 & Ha2 & Hb2 & Hf2).
  rewrite (bind_Done _ _ _ _ _ E2).
  destruct (fill_spec d2 Hwf2 Hc2 Ha2) as (d3 & Hwf3 & Hs3 & _ & Hst & H3).
  assert (remaining d2 = remaining d) as Hrem.
  { rewrite <- !buffered_length by done. by rewrite Hb2, Hb1. }
  exists d3. split_and!; [done|by rewrite Hs1, Hs2| |].
  - rewrite Hst. unfold stream. by rewrite Hb2, Hb1, Hf2, Hr1.
  - rewrite Hrem, Hf2, Hr1, Hb2, Hb1 in H3. done.
Qed.

(** ** Blobs *)

(** The first blob of a stream: a length in network order and that many bytes. *)
Inductive blob_view : Type :=
| BlobEnd
| BlobBad
| Blob (packet rest : list Z).
Definition next_blob (r : list Z) : blob_view :=
  match r with
  | [] => BlobEnd
  | hi :: lo :: r' =>
      let n := Z.to_nat (rd16 hi lo) in
      if decide (length r' < n) then BlobBad else Blob (take n r') (drop n r')
  | _ => BlobBad
  end.

(** Wait until [k] bytes are in the buffer: both loops of [read_one_blob] get there, or to
    the end of the stream, in at most as many rounds as there are unread bytes. *)
Lemma stream_cached d : dfile_wf d → cached d = true → stream d = buffered d.
Proof.
  intros [_ _ _ (pre & _ & Hc) _] H. unfold stream. destruct (Hc H) as [_ ->]. by rewrite app_nil_r.
Qed.

Lemma read_preamble_spec fuel d :
  dfile_wf d → length (fio_rest (fd d)) < fuel →
  ∃ d' r, read_preamble fuel d = Done (r, d') ∧ dfile_wf d' ∧ same_file d d' ∧ stream d' = stream d ∧
    length (fio_rest (fd d')) ≤ length (fio_rest (fd d)) ∧
    r = (if decide (stream d = []) then PERF_R_EOF
         else if decide (length (stream d) < 2) then PERF_R_INVALIDFILE else PERF_R_SUCCESS) ∧
    (r = PERF_R_SUCCESS → 2 ≤ remaining d').
Proof.
  revert d. induction fuel as [|fuel IH]; intros d Hwf Hf; [lia|]. cbn [read_preamble].
  rewrite (bind_Done get _ _ _ _ eq_refl). pose proof (buffered_length d Hwf) as Hbl.
  assert (length (stream d) = remaining d + length (fio_rest (fd d))) as Hsl.
  { unfold stream. by rewrite length_app, Hbl. }
  destruct (decide (remaining d < 2)) as [Hlt|Hge].
  2:{ exists d. eexists. split_and!; [done|done|done|done|lia| |lia].
      rewrite decide_False by (intros He; rewrite He in Hsl; simpl in Hsl; lia).
      by rewrite decide_False by lia. }
  destruct (cached d) eqn:Hc.
  { pose proof (stream_cached d Hwf Hc) as Hsc. exists d. eexists. split_and!; [done|done|done|done|lia| |].
    - rewrite Hsc. destruct (decide (buffered d = [])) as [He|He].
      + rewrite decide_True; [done|]. by rewrite <- Hbl, He.
      + rewrite (decide_False (P := remaining d = 0)), (decide_True (P := _ < 2)); [done|lia|].
        intros H0. apply He, nil_length_inv. lia.
    - destruct (decide _); discriminate. }
  destruct (read_more_spec d Hwf Hc) as (d1 & Hwf1 & Hs1 & Hst1 & [(E & Hr & Hl)|(E & Hb & Hc1 & He)]);
    rewrite (bind_Done _ _ _ _ _ E).
  - rewrite ok_branch.
    destruct (IH d1 Hwf1 ltac:(lia)) as (d2 & r & E2 & Hwf2 & Hs2 & Hst2 & Hl2 & Hr2).
    exists d2, r. rewrite Hst1 in Hst2, Hr2. split_and!; [done|done|by rewrite Hs1|done|lia|apply Hr2|apply Hr2].
  - assert (fio_rest (fd d) = []) as Hn by (destruct He as [?|?]; [unfold DATABUF in *; lia|done]).
    rewrite Hn in Hsl. simpl in Hsl.
    assert (remaining d1 = remaining d) as Hrem by (rewrite <- !buffered_length by done; by rewrite Hb).
    rewrite decide_True by done. rewrite (bind_Done get _ _ _ _ eq_refl).
    assert (fio_rest (fd d1) = []) as Hn1.
    { unfold stream in Hst1. rewrite Hb, Hn in Hst1. by apply app_inv_head in Hst1. }
    exists d1. eexists. split_and!; [done|done|done|done|by rewrite Hn1, Hn| |].
    + destruct (decide (stream d = [])) as [H0|H0].
      * rewrite decide_False; [done|]. rewrite H0 in Hsl. simpl in Hsl. lia.
      * rewrite (decide_True (P := _ ∧ _)), (decide_True (P := _ < 2)); [done|lia|].
        split; [done|]. intros H1. apply H0, nil_length_inv. lia.
    + destruct (decide _); discriminate.
Qed.

Lemma read_body_spec fuel n d :
  dfile_wf d → length (fio_rest (fd d)) < fuel → 2 + n < DATABUF →
  ∃ d' r, read_body fuel n d = Done (r, d') ∧ dfile_wf d' ∧ same_file d d' ∧ stream d' = stream d ∧
    r = (if decide (length (stream d) < 2 + n) then PERF_R_INVALIDFILE else PERF_R_SUCCESS) ∧
    (r = PERF_R_SUCCESS → 2 + n ≤ remaining d').
Proof.
  revert d. induction fuel as [|fuel IH]; intros d Hwf Hf Hn; [lia|]. cbn [read_body].
  rewrite (bind_Done get _ _ _ _ eq_refl). pose proof (buffered_length d Hwf) as Hbl.
  assert (length (stream d) = remaining d + length (fio_rest (fd d))) as Hsl.
  { unfold stream. by rewrite length_app, Hbl. }
  destruct (decide (remaining d < 2 + n)) as [Hlt|Hge].
  2:{ exists d. eexists. split_and!; [done|done|done|done| |lia].
      by rewrite decide_False by lia. }
  destruct (cached d) eqn:Hc.
  { pose proof (stream_cached d Hwf Hc) as Hsc. exists d. eexists. split_and!; [done|done|done|done| |done].
    rewrite Hsc. by rewrite decide_True by lia. }
  destruct (read_more_spec d Hwf Hc) as (d1 & Hwf1 & Hs1 & Hst1 & [(E & Hr & Hl)|(E & Hb & Hc1 & He)]);
    rewrite (bind_Done _ _ _ _ _ E).
  - rewrite ok_branch.
    destruct (IH d1 Hwf1 ltac:(lia) Hn) as (d2 & r & E2 & Hwf2 & Hs2 & Hst2 & Hr2).
    exists d2, r. rewrite Hst1 in Hst2, Hr2. split_and!; [done|done|by rewrite Hs1|done|apply Hr2|apply Hr2].
  - assert (fio_rest (fd d) = []) as Hn0 by (destruct He as [?|?]; [lia|done]).
    rewrite Hn0 in Hsl. simpl in Hsl.
    exists d1, PERF_R_INVALIDFILE. split_and!; [done|done|done|done|by rewrite decide_True by lia|done].
Qed.

(** Reading through the offset [at_] reads the buffered part of the stream. *)
Lemma take_buffered d i n :
  dfile_wf d → i + n ≤ remaining d →
  take n (drop (at_ d + i) (databuf d)) = take n (drop i (stream d)).
Proof.
  intros Hwf Hn. pose proof (buffered_length d Hwf) as Hbl. destruct Hwf as [Hl Ha Hh _ _].
  unfold stream. rewrite drop_app_le by lia.
  rewrite take_app_le by (rewrite length_drop, Hbl; lia).
  unfold buffered, remaining in *. rewrite drop_drop, !take_drop_commute, take_take.
  f_equal. f_equal. lia.
Qed.

Lemma lookup_buffered d i :
  dfile_wf d → i < remaining d → databuf d !! (at_ d + i) = stream d !! i.
Proof.
  intros Hwf Hi. pose proof (take_buffered d i 1 Hwf ltac:(lia)) as H.
  apply (f_equal (lookup 0)) in H. rewrite !lookup_take_lt, !lookup_drop in H by lia.
  by rewrite !Nat.add_0_r in H.
Qed.

Lemma advance_wf d n :
  dfile_wf d → n ≤ remaining d →
  dfile_wf (set_at d (at_ d + n)) ∧ stream (set_at d (at_ d + n)) = drop n (stream d) ∧
  same_file d (set_at d (at_ d + n)).
Proof.
  intros Hwf Hn. pose proof (buffered_length d Hwf) as Hbl. destruct Hwf as [Hl Ha Hh Hw Hs].
  split_and!; [| |done].
  - split; simpl; try done. unfold remaining in Hn. lia.
  - unfold stream. rewrite drop_app_le by lia. f_equal. unfold buffered. simpl.
    by rewrite drop_drop.
Qed.

Lemma bind_on_file {A B} (m : M perf_datafile A) (k : A → M (perf_datafile * perf_buffer) B) d b a d' :
  m d = Done (a, d') → (on_file m ≫= k) (d, b) = k a (d', b).
Proof. intros E. apply bind_Done. unfold on_file. by rewrite E. Qed.

Lemma bind_on_lines {A B} (m : M perf_buffer A) (k : A → M (perf_datafile * perf_buffer) B) d b a b' :
  m b = Done (a, b') → (on_lines m ≫= k) (d, b) = k a (d, b').
Proof. intros E. apply bind_Done. unfold on_lines. by rewrite E. Qed.

Lemma next_blob_spec fuel d b :
  dfile_wf d → Forall byte_ok (stream d) → length (fio_rest (fd d)) < fuel →
  buffer_wf b → room b (Z.to_nat 65535) →
  ∃ d', dfile_wf d' ∧ same_file d d' ∧
    match next_blob (stream d) with
    | BlobEnd => read_one_blob fuel (d, b) = Done (PERF_R_EOF, (d', b)) ∧ stream d' = stream d
    | BlobBad => read_one_blob fuel (d, b) = Done (PERF_R_INVALIDFILE, (d', b)) ∧ stream d' = stream d
    | Blob packet rest =>
        read_one_blob fuel (d, b) = Done (PERF_R_SUCCESS, (d', push packet b)) ∧ stream d' = rest
    end.
Proof.
  intros Hwf Hby Hf Hbwf Hr. unfold read_one_blob.
  destruct (read_preamble_spec fuel d Hwf Hf) as (d1 & r1 & E1 & Hwf1 & Hs1 & Hst1 & Hl1 & Hr1 & Hrem1).
  rewrite (bind_on_file _ _ _ _ _ _ E1). subst r1. unfold next_blob.
  destruct (stream d) as [|hi [|lo s]] eqn:Hst.
  { exists d1. simpl. split_and!; [done|done|done|done]. }
  { exists d1. simpl. split_and!; [done|done|done|done]. }
  rewrite (decide_False (P := hi :: lo :: s = [])) in * by done.
  rewrite (decide_False (P := length (hi :: lo :: s) < 2)) in * by (simpl; lia).
  specialize (Hrem1 eq_refl). rewrite ok_branch.
  rewrite (bind_on_file get _ _ _ _ _ eq_refl).
  pose proof (lookup_buffered d1 0 Hwf1 ltac:(lia)) as L0.
  pose proof (lookup_buffered d1 1 Hwf1 ltac:(lia)) as L1.
  rewrite Hst1 in L0, L1. rewrite Nat.add_0_r in L0. rewrite Nat.add_1_r in L1. simpl in L0, L1.
  rewrite L0, L1.
  apply Forall_cons in Hby as [Hhi Hby]. apply Forall_cons in Hby as [Hlo _].
  assert (0 ≤ rd16 hi lo < 65536)%Z as Hn by (unfold byte_ok, rd16 in *; lia).
  set (n := Z.to_nat (rd16 hi lo)) in *.
  destruct (read_body_spec fuel n d1 Hwf1 ltac:(lia) ltac:(unfold DATABUF; lia))
    as (d2 & r2 & E2 & Hwf2 & Hs2 & Hst2 & Hr2 & Hrem2).
  rewrite (bind_on_file _ _ _ _ _ _ E2). subst r2. rewrite Hst1 in *. cbn [length] in *.
  destruct (decide (length s < n)) as [Hsh|Hsh].
  - rewrite (decide_True (P := S (S _) < _)) by lia. exists d2.
    split_and!; [done|by rewrite Hs1|done|done].
  - rewrite (decide_False (P := S (S _) < _)) in * by lia. specialize (Hrem2 eq_refl).
    rewrite ok_branch. rewrite (bind_on_file get _ _ _ _ _ eq_refl).
    rewrite take_buffered, Hst2 by (done || lia). cbn [drop].
    rewrite (bind_on_lines _ _ _ _ () (push (take n s) b)); cycle 1.
    { rewrite putmem_spec, decide_True; [done| |done].
      eapply room_le; [|exact Hr]. rewrite length_take. lia. }
    destruct (advance_wf d2 (2 + n) Hwf2 Hrem2) as (Hwf3 & Hst3 & Hs3).
    exists (set_at d2 (at_ d2 + (2 + n))). split_and!; [done|by rewrite Hs1, Hs2|done|].
    by rewrite Hst3, Hst2.
Qed.

(** ** Lines *)

(** The lines of a text: a line ends at a newline (or a zero byte). *)
Fixpoint split_lines (line : list Z) (r : list Z) : list (list Z) :=
  match r with
  | [] => []
  | c :: r' => if decide (c = 0 ∨ c ∈ [10])%Z then line :: split_lines [] r'
               else split_lines (line ++ [c]) r'
  end.

(** Blank lines and comments are skipped. *)
Definition keep_line (l : list Z) : bool := bool_decide (0 < length l ∧ char0 l ≠ 59%Z).
Definition records (r : list Z) : list (list Z) := List.filter keep_line (split_lines [] r).

(** From every position a line end follows, close enough for the buffer. *)
Definition text_ok (r : list Z) : Prop :=
  ∀ i, i < length r → let n := strcspn (drop i r) [10%Z] in i + n < length r ∧ S n < DATABUF.

Lemma text_ok_drop r n : text_ok r → text_ok (drop n r).
Proof.
  intros H i Hi. rewrite length_drop in *. rewrite drop_drop. specialize (H (n + i) ltac:(lia)).
  cbv zeta in *. lia.
Qed.

Lemma split_lines_first line r :
  strcspn r [10%Z] < length r →
  split_lines line r = (line ++ take (strcspn r [10%Z]) r) :: split_lines [] (drop (S (strcspn r [10%Z])) r).
Proof.
  revert line. induction r as [|c r IH]; intros line; cbn [split_lines strcspn length]; [lia|].
  destruct (decide _) as [Hc|Hc]; intros Hl.
  - cbn [take drop]. by rewrite app_nil_r.
  - rewrite IH by lia. cbn [take drop]. by rewrite <- app_assoc.
Qed.

Lemma records_first r :
  strcspn r [10%Z] < length r →
  records r = (if keep_line (take (strcspn r [10%Z]) r) then [take (strcspn r [10%Z]) r] else []) ++
              records (drop (S (strcspn r [10%Z])) r).
Proof.
  intros H. unfold records. rewrite split_lines_first by done. simpl. by destruct (keep_line _).
Qed.

(** The buffer of a text reader is a C string. *)
Definition text_wf d : Prop := dfile_wf d ∧ databuf d !! have d = Some 0%Z.

Lemma terminate_spec d :
  dfile_wf d →
  ∃ d', poke (have d) [0%Z] d = Done ((), d') ∧ text_wf d' ∧ same_file d d' ∧ buffered d' = buffered d ∧
        remaining d' = remaining d ∧ fd d' = fd d ∧ cached d' = cached d.
Proof.
  intros [Hl Ha Hh Hw Hs]. unfold poke. rewrite decide_True by (simpl; lia).
  eexists. split; [done|].
  assert (take (have d) (list_inserts (have d) [0%Z] (databuf d)) = take (have d) (databuf d)) as Ht.
  { simpl. by rewrite take_insert_ge. }
  split_and!; try done.
  - split; [split; simpl; try done|].
    + by rewrite length_insert.
    + simpl in Ht. by rewrite Ht.
    + simpl. apply list_lookup_insert_eq. lia.
  - unfold buffered. simpl in *. by rewrite Ht.
Qed.

Lemma scan_buffered d :
  text_wf d → strcspn (drop (at_ d) (databuf d)) [10%Z] = strcspn (buffered d) [10%Z].
Proof.
  intros [[Hl Ha Hh _ _] H0]. rewrite <- (take_drop_middle (databuf d) (have d) 0%Z) by done.
  rewrite drop_app_le by (rewrite length_take; lia). by rewrite strcspn_app_0.
Qed.

(** The two exits of a round when the line has ended in the buffer. *)
Lemma line_step_line d :
  text_wf d → let n := strcspn (buffered d) [10%Z] in n < remaining d →
  let l := take n (stream d) in
  ∃ d', line_step d = Done (if keep_line l then Some (PERF_R_SUCCESS, l) else None, d') ∧
        text_wf d' ∧ same_file d d' ∧ stream d' = drop (S n) (stream d) ∧ fd d' = fd d.
Proof.
  intros Htw n Hn l. pose proof Htw as [Hwf H0]. pose proof Hwf as [Hl Ha Hh _ _].
  unfold line_step. rewrite (bind_Done get _ _ _ _ eq_refl), scan_buffered by done. fold n.
  assert (at_ d + n < have d) as Hat by (unfold remaining in Hn; lia).
  rewrite (decide_False (P := length _ ≤ _)) by lia. cbv zeta.
  rewrite (decide_False (P := n = remaining d)) by lia.
  rewrite (bind_Done (mret None) _ _ _ _ eq_refl). run_unfold. cbn [at_ have set_at].
  rewrite (decide_True (P := at_ d + n < have d)) by done. cbn [databuf set_at].
  destruct (advance_wf d (S n) Hwf ltac:(lia)) as (Hwf' & Hst & Hs).
  exists (set_at d (at_ d + S n)). split_and!; [|done|done|done|done].
  rewrite <- (Nat.add_assoc (at_ d)), Nat.add_1_r.
  assert (take n (drop (at_ d) (databuf d)) = l) as Hline.
  { pose proof (take_buffered d 0 n Hwf ltac:(lia)) as H. by rewrite Nat.add_0_r in H. }
  rewrite Hline. unfold keep_line.
  assert (length l = n) as Hll.
  { unfold l, stream. rewrite length_take, length_app, buffered_length by done. lia. }
  assert (0 < n → char0 (drop (at_ d) (databuf d)) = char0 l) as Hc.
  { intros Hpos. rewrite <- Hline. destruct (drop (at_ d) (databuf d)); [by rewrite take_nil|].
    by destruct n; [lia|]. }
  rewrite Hll. destruct (decide (0 < n ∧ char0 (drop (at_ d) (databuf d)) ≠ 59%Z)) as [[? Hk]|Hk].
  - rewrite bool_decide_eq_true_2; [done|]. by rewrite <- Hc.
  - rewrite bool_decide_eq_false_2; [done|]. intros [? Hk']. apply Hk. by rewrite Hc.
Qed.

Lemma line_step_spec d :
  text_wf d → text_ok (stream d) →
  ∃ d', text_wf d' ∧ same_file d d' ∧
    ((stream d = [] ∧ line_step d = Done (Some (PERF_R_EOF, []), d') ∧ stream d' = []) ∨
     (line_step d = Done (None, d') ∧ stream d' = stream d ∧
      length (fio_rest (fd d')) < length (fio_rest (fd d))) ∨
     (let n := strcspn (stream d) [10%Z] in
      let l := take n (stream d) in
      n < length (stream d) ∧
      line_step d = Done (if keep_line l then Some (PERF_R_SUCCESS, l) else None, d') ∧
      stream d' = drop (S n) (stream d) ∧ fd d' = fd d)).
Proof.
  intros Htw Hok. pose proof Htw as [Hwf H0]. pose proof Hwf as [Hl Ha Hh _ _].
  pose proof (buffered_length d Hwf) as Hbl.
  set (n := strcspn (buffered d) [10%Z]).
  assert (n ≤ remaining d) as Hn by (rewrite <- Hbl; apply strcspn_le).
  assert (length (stream d) = remaining d + length (fio_rest (fd d))) as Hsl.
  { unfold stream. by rewrite length_app, Hbl. }
  destruct (decide (n < remaining d)) as [Hlt|Hge].
  { destruct (line_step_line d Htw Hlt) as (d' & E & Htw' & Hs & Hst & Hfd). exists d'.
    split_and!; [done|done|]. right; right.
    assert (strcspn (stream d) [10%Z] = n) as -> by (apply strcspn_app_lt; by rewrite Hbl).
    split_and!; [lia|done|done|done]. }
  (* the buffer holds no line end: the stream has one further on, unless it is empty *)
  assert (n = remaining d) as Heq by lia.
  assert (stream d ≠ [] → buffered d ≠ stream d ∧ S (remaining d) < DATABUF) as Hmore.
  { intros Hne. destruct (Hok 0) as [H1 H2]; [destruct (stream d); [done|simpl; lia]|].
    rewrite drop_0 in H1, H2.
    assert (n ≤ strcspn (stream d) [10%Z]) as Hle.
    { unfold n, stream. clear. generalize (fio_rest (fd d)). intros t.
      induction (buffered d) as [|c s IH]; simpl; [lia|]. case_decide; lia. }
    split; [|lia]. intros E. rewrite <- E in H1. fold n in H1. lia. }
  unfold line_step. rewrite (bind_Done get _ _ _ _ eq_refl), scan_buffered by done. fold n.
  rewrite (decide_False (P := length _ ≤ _)) by (unfold remaining in Heq; lia). cbv zeta.
  rewrite (decide_True (P := n = remaining d)) by done.
  destruct (cached d) eqn:Hc.
  - pose proof (stream_cached d Hwf Hc) as Hsc.
    assert (stream d = []) as Hnil.
    { destruct (decide (stream d = [])) as [?|Hne]; [done|]. by destruct (Hmore Hne). }
    exists d. split_and!; [done|done|]. left. split_and!; [done| |done].
    rewrite Hnil in Hsl. simpl in Hsl. run_unfold. rewrite ok_branch.
    by rewrite decide_True by lia.
  - destruct (read_more_spec d Hwf Hc) as (d1 & Hwf1 & Hs1 & Hst1 & Hmr).
    destruct (terminate_spec d1 Hwf1) as (d2 & E2 & Htw2 & Hs2 & Hb2 & Hr2 & Hf2 & Hc2).
    assert (stream d2 = stream d) as Hst2 by (unfold stream; rewrite Hb2, Hf2; done).
    exists d2. split_and!; [done|by rewrite Hs1|].
    destruct Hmr as [(E & Hr & Hlt)|(E & Hb & Hc1 & He)].
    + right; left. rewrite Hf2. split_and!; [|done|done]. run_unfold. rewrite E, E2, ok_branch.
      rewrite decide_False by lia. by rewrite decide_True by lia.
    + left. assert (stream d = []) as Hnil.
      { destruct (decide (stream d = [])) as [?|Hne]; [done|]. destruct (Hmore Hne) as [Hne' ?].
        destruct He as [?|He]; [lia|]. exfalso. apply Hne'. unfold stream. by rewrite He, app_nil_r. }
      split_and!; [done| |by rewrite Hst2]. run_unfold. by rewrite E, E2.
Qed.

(** The stream is a suffix of the file, so twice the length of the file is fuel enough. *)
Lemma stream_suffix d : dfile_wf d → ∃ k, stream d = drop k (fio_whole (fd d)).
Proof.
  intros Hwf. pose proof (buffered_split d Hwf) as Hsp. destruct Hwf as [Hl Ha Hh (pre & Hw & _) Hs].
  exists (length (pre ++ take (at_ d) (databuf d))). rewrite Hw, Hsp.
  rewrite <- app_assoc, app_assoc, drop_app_length. done.
Qed.

Definition file_fuel d : nat := 2 * length (fio_whole (fd d)).

Lemma fuel_bound d : dfile_wf d → length (fio_rest (fd d)) + length (stream d) ≤ file_fuel d.
Proof.
  intros Hwf. destruct (stream_suffix d Hwf) as [k Hk].
  assert (length (fio_rest (fd d)) ≤ length (stream d)).
  { unfold stream. rewrite length_app. lia. }
  apply (f_equal length) in Hk. rewrite length_drop in Hk. unfold file_fuel. lia.
Qed.

Lemma line_loop_spec fuel d :
  text_wf d → text_ok (stream d) → length (fio_rest (fd d)) + length (stream d) < fuel →
  ∃ d', text_wf d' ∧ same_file d d' ∧
    match records (stream d) with
    | [] => line_loop fuel d = Done ((PERF_R_EOF, []), d') ∧ stream d' = []
    | l :: ls => line_loop fuel d = Done ((PERF_R_SUCCESS, l), d') ∧ records (stream d') = ls
    end.
Proof.
  revert d. induction fuel as [|fuel IH]; intros d Htw Hok Hf; [lia|]. cbn [line_loop].
  destruct (line_step_spec d Htw Hok)
    as (d1 & Htw1 & Hs1 & [(Hnil & E & Hst)|[(E & Hst & Hlt)|(Hn & E & Hst & Hfd)]]);
    rewrite (bind_Done _ _ _ _ _ E).
  - exists d1. rewrite Hnil. split_and!; done.
  - destruct (IH d1 Htw1) as (d' & Htw' & Hs' & Hr); [by rewrite Hst|rewrite Hst; lia|].
    rewrite Hst in Hr. exists d'. split_and!; [done|by rewrite Hs1|done].
  - set (n := strcspn (stream d) [10%Z]) in *. rewrite records_first by done. fold n.
    destruct (keep_line (take n (stream d))).
    + exists d1. simpl. rewrite Hst. split_and!; done.
    + destruct (IH d1 Htw1) as (d' & Htw' & Hs' & Hr).
      { rewrite Hst. by apply text_ok_drop. }
      { rewrite Hst, Hfd, length_drop. lia. }
      rewrite Hst in Hr. exists d'. split_and!; [done|by rewrite Hs1|done].
Qed.

(** What one line becomes in the output buffer: cut to the space there is, and ended by a
    zero byte. *)
Definition line_output (b : perf_buffer) (l : list Z) : list Z :=
  take (perf_buffer_availablelength b - 1) l ++ [0%Z].

Definition lines_ready (b : perf_buffer) : Prop :=
  buffer_wf b ∧ room b 1 ∧ (Z.of_nat (pb_length b) < 2 ^ 64)%Z.

Lemma read_one_line_spec fuel d b :
  text_wf d → text_ok (fio_whole (fd d)) → file_fuel d < fuel → lines_ready b →
  ∃ d', text_wf d' ∧ same_file d d' ∧
    match records (stream d) with
    | [] => read_one_line fuel (d, b) = Done (PERF_R_EOF, (d', b)) ∧ stream d' = []
    | l :: ls => read_one_line fuel (d, b) = Done (PERF_R_SUCCESS, (d', push (line_output b l) b)) ∧
                 records (stream d') = ls
    end.
Proof.
  intros Htw Hok Hf (Hbwf & Hr & Hlen). pose proof Htw as [Hwf _]. pose proof (fuel_bound d Hwf).
  destruct (stream_suffix d Hwf) as [k Hk].
  destruct (line_loop_spec fuel d Htw) as (d' & Htw' & Hs & Hres);
    [rewrite Hk; by apply text_ok_drop|lia|].
  exists d'. split_and!; [done|done|]. unfold read_one_line.
  destruct (records (stream d)) as [|l ls]; destruct Hres as [E Hst];
    rewrite (bind_on_file _ _ _ _ _ _ E); [done|]. split; [|done]. cbv beta iota.
  rewrite ok_branch. rewrite (bind_on_lines (gets _) _ _ _ _ _ eq_refl).
  unfold room in Hr. set (len := perf_buffer_availablelength b) in *.
  assert (1 ≤ len ∧ len ≤ pb_length b) as Hlb by (unfold len, perf_buffer_availablelength; lia).
  rewrite u64_small by lia.
  assert (take (if decide (Z.of_nat len - 1 < Z.of_nat (length l))%Z then Z.to_nat (Z.of_nat len - 1)
                else length l) l = take (len - 1) l) as ->.
  { destruct (decide _); [f_equal; lia|]. by rewrite !take_ge by lia. }
  assert (length (take (len - 1) l) + 1 ≤ len) as Htl by (rewrite length_take; lia).
  assert (room b (length (take (len - 1) l) + 1)) as Hroom
    by (unfold room, len, perf_buffer_availablelength in *; lia).
  assert (room b (length (take (len - 1) l))) as Hroom' by (eapply room_le; [|exact Hroom]; lia).
  rewrite (bind_on_lines _ _ _ _ () (push (take (len - 1) l) b))
    by (by rewrite putmem_spec, decide_True).
  rewrite (bind_on_lines _ _ _ _ () (push (take (len - 1) l ++ [0%Z]) b)); [done|].
  rewrite put8_spec by (by apply push_wf). rewrite decide_True by (by apply push_room).
  by rewrite push_app.
Qed.

Lemma reopen_spec d :
  text_wf d →
  ∃ d', reopen_file d = Done ((), d') ∧ text_wf d' ∧ same_file d d' ∧ stream d' = fio_whole (fd d).
Proof.
  intros [[Hl Ha Hh (pre & Hw & Hca) Hs] H0]. unfold reopen_file. run_unfold.
  destruct (cached d) eqn:Hc.
  - exists (set_at d 0). split_and!; [done| |done|].
    + split; [|done]. split; simpl; try done; [lia|]. eauto.
    + destruct (Hca eq_refl) as [-> _]. unfold stream, buffered. simpl. by rewrite drop_0, Hw.
  - destruct (fio_rewind_law (fd d)) as (f & -> & Hr & Hwh).
    unfold poke. simpl. rewrite decide_True by (rewrite Hl; unfold DATABUF; lia).
    eexists. split; [done|]. split_and!; try done.
    split; [split; simpl|].
    + by rewrite length_insert.
    + done.
    + unfold DATABUF. lia.
    + exists []. rewrite Hr, Hwh. split; [done|congruence].
    + by rewrite Hwh.
    + simpl. apply list_lookup_insert_eq. rewrite Hl. unfold DATABUF. lia.
Qed.

(** ** The abstract reader *)

(** The lines still to be delivered in this run, the runs completed, and whether anything
    was ever delivered. *)
Record reader : Type := Reader { todo : list (list Z); runs : Z; any : bool }.

(** The next query of a file with lines [all] that is to be read [max] times (forever if
    [max] is 0). *)
Definition reader_next (all : list (list Z)) (max : Z) (s : reader)
    : perf_result * option (list Z) * reader :=
  if decide (0 < max ∧ max = runs s)%Z then (PERF_R_EOF, None, s)
  else
    match todo s with
    | l :: ls => (PERF_R_SUCCESS, Some l, Reader ls (runs s) true)
    | [] =>
        if any s then
          let runs' := u32 (runs s + 1) in
          if decide (max = runs') then (PERF_R_EOF, None, Reader [] runs' true)
          else
            match all with
            | l :: ls => (PERF_R_SUCCESS, Some l, Reader ls runs' true)
            | [] => (PERF_R_EOF, None, Reader [] runs' true)
            end
        else (PERF_R_INVALIDFILE, None, s)
    end.

Definition all_lines d : list (list Z) := records (fio_whole (fd d)).
Definition abs d : reader := Reader (records (stream d)) (nruns d) (read_any d).

(** The invariant of a file of text queries. *)
Record query_inv d : Prop := {
  inv_format : format d = input_format_text_query;
  inv_wf : text_wf d;
  inv_text : text_ok (fio_whole (fd d));
  inv_lines : ∃ read, all_lines d = read ++ records (stream d);
  inv_any : read_any d = true → all_lines d ≠ [];
}.

(** The fields that reading depends on. *)
Definition same_data d d' : Prop :=
  fd d' = fd d ∧ is_file d' = is_file d ∧ size d' = size d ∧ at_ d' = at_ d ∧ have d' = have d ∧
  cached d' = cached d ∧ databuf d' = databuf d.

Lemma same_data_wf d d' : same_data d d' → text_wf d → text_wf d' ∧ stream d' = stream d.
Proof.
  intros (H1 & H2 & H3 & H4 & H5 & H6 & H7) [[Hl Ha Hh Hw Hs] H0].
  unfold text_wf, stream, buffered. rewrite H1, H4, H5, H7. split; [|done].
  split; [|done]. split; rewrite ?H1, ?H2, ?H3, ?H4, ?H5, ?H6, ?H7; done.
Qed.

(** The end of a run: the count goes up and, unless it was the last, the file starts again. *)
Lemma end_of_run_spec d :
  text_wf d →
  let n := u32 (nruns d + 1) in
  ∃ d', end_of_run d = Done (bool_decide (maxruns d ≠ n), d') ∧ text_wf d' ∧
        same_file (set_nruns d n) d' ∧
        stream d' = (if decide (maxruns d = n) then stream d else fio_whole (fd d)).
Proof.
  intros Htw n. unfold end_of_run. run_unfold. cbn [maxruns nruns set_nruns]. fold n.
  destruct (same_data_wf d (set_nruns d n)) as [Htw1 Hst1]; [done|done|].
  destruct (decide (maxruns d = n)) as [He|He].
  - rewrite decide_False by (by intros []). rewrite bool_decide_eq_false_2 by (by intros []).
    eexists. split_and!; done.
  - rewrite decide_True by done. rewrite bool_decide_eq_true_2 by done.
    destruct (reopen_spec _ Htw1) as (d' & E & Htw' & Hs & Hst). rewrite E. eauto.
Qed.

Lemma readfunc_query fuel d b :
  format d = input_format_text_query → readfunc fuel (d, b) = read_one_line fuel (d, b).
Proof.
  intros Hf. unfold readfunc. rewrite (bind_on_file (gets format) _ _ _ (format d) d eq_refl).
  by rewrite Hf.
Qed.

Lemma next_tail fuel d b :
  format d = input_format_text_query →
  (on_file (modify set_read_any);;
   d ← on_file get;
   (if decide (format d = input_format_text_update) then update_loop fuel else mret ());;
   mret PERF_R_SUCCESS) (d, b) = Done (PERF_R_SUCCESS, (set_read_any d, b)).
Proof.
  intros Hf. rewrite (bind_on_file (modify set_read_any) _ _ _ () (set_read_any d) eq_refl).
  rewrite (bind_on_file get _ _ _ _ _ eq_refl). cbn [format set_read_any]. by rewrite Hf.
Qed.

(** A line delivered from [d1], where [d] was before: the tail of the function. *)
Lemma delivered_inv d d1 ls l read :
  format d1 = input_format_text_query → text_wf d1 → text_ok (fio_whole (fd d1)) →
  all_lines d1 = read ++ l :: ls → records (stream d1) = ls →
  query_inv (set_read_any d1) ∧ abs (set_read_any d1) = Reader ls (nruns d1) true.
Proof.
  intros Hf Htw Hok Hall Hst. destruct (same_data_wf d1 (set_read_any d1)) as [Htw' Hst']; [done|done|].
  unfold abs. rewrite Hst', Hst. split; [|done]. split; try done.
  - exists (read ++ [l]). rewrite Hst', Hst, <- app_assoc. done.
  - change (all_lines (set_read_any d1)) with (all_lines d1). rewrite Hall. by destruct read.
Qed.

Lemma next_query_spec fuel d b :
  query_inv d → file_fuel d < fuel → lines_ready b →
  ∃ d' r out, perf_datafile_next fuel (d, b) =
      Done (r, (d', match out with Some l => push (line_output b l) b | None => b end)) ∧
    query_inv d' ∧ maxruns d' = maxruns d ∧ fio_whole (fd d') = fio_whole (fd d) ∧
    reader_next (all_lines d) (maxruns d) (abs d) = (r, out, abs d').
Proof.
  intros Hinv Hfuel Hb. pose proof Hinv as [Hfmt Htw Hok (read & Hread) Hany].
  unfold perf_datafile_next, reader_next. rewrite (bind_on_file get _ _ _ _ _ eq_refl).
  cbn [runs todo any abs].
  destruct (decide (0 < maxruns d ∧ maxruns d = nruns d)%Z) as [Hmax|Hmax].
  { exists d, PERF_R_EOF, None. by split_and!. }
  destruct (read_one_line_spec fuel d b Htw Hok Hfuel Hb) as (d1 & Htw1 & Hs1 & H1).
  rewrite <- readfunc_query in H1 by done.
  pose proof Hs1 as (_ & _ & _ & Hm1 & Hn1 & Ha1 & Hf1 & Hw1).
  assert (all_lines d1 = all_lines d) as Hal1 by (unfold all_lines; by rewrite Hw1).
  destruct (records (stream d)) as [|l ls] eqn:Hrec; destruct H1 as [E Hst1];
    rewrite (bind_Done _ _ _ _ _ E), (bind_on_file get _ _ _ _ _ eq_refl); cycle 1.
  { exists (set_read_any d1), PERF_R_SUCCESS, (Some l).
    destruct (delivered_inv d d1 ls l read) as [Hi Hab]; [congruence|done|by rewrite Hw1|congruence|done|].
    split_and!; [|done|done|done|by rewrite Hab, Hn1].
    rewrite (decide_False (P := _ ∧ _)) by naive_solver. simpl. apply next_tail. congruence. }
  rewrite Ha1. destruct (read_any d) eqn:Hra; cycle 1.
  { exists d1, PERF_R_INVALIDFILE, None. split_and!; [done| |done|done|].
    - split; [congruence|done|by rewrite Hw1| |congruence].
      exists read. by rewrite Hal1, Hread, Hst1.
    - unfold abs. by rewrite Hst1, Hra, Hrec, Ha1, Hn1. }
  rewrite (decide_False (P := _ ∧ true = false)), (decide_True (P := PERF_R_EOF = _)) by naive_solver.
  destruct (end_of_run_spec d1 Htw1) as (d2 & E2 & Htw2 & Hs2 & Hst2).
  rewrite Hn1, Hm1, Hw1 in *. set (n := u32 (nruns d + 1)) in *.
  destruct Hs2 as (_ & _ & _ & Hm2 & Hn2 & Ha2 & Hf2 & Hw2). simpl in Hm2, Hn2, Ha2, Hf2, Hw2.
  assert (fio_whole (fd d2) = fio_whole (fd d)) as Hww by congruence.
  assert (all_lines d2 = all_lines d) as Hal2 by (unfold all_lines; congruence).
  destruct (decide (maxruns d = n)) as [He|He].
  { rewrite bool_decide_eq_false_2 in E2 by naive_solver.
    exists d2, PERF_R_EOF, None. split_and!; [|split|congruence|congruence|].
    - by rewrite (bind_Done _ _ _ PERF_R_EOF (d2, b)) by (by rewrite (bind_on_file _ _ _ _ _ _ E2)).
    - congruence.
    - done.
    - by rewrite Hww.
    - exists read. rewrite Hst2, Hst1, Hal2. done.
    - intros _. rewrite Hal2. by apply Hany.
    - unfold abs. by rewrite Hst2, Hst1, Hn2, Ha2, Ha1. }
  rewrite bool_decide_eq_true_2 in E2 by naive_solver.
  destruct (read_one_line_spec fuel d2 b Htw2) as (d3 & Htw3 & Hs3 & H3);
    [by rewrite Hww|unfold file_fuel in *; by rewrite Hww|done|].
  rewrite <- readfunc_query in H3 by congruence. rewrite Hst2 in H3. fold (all_lines d) in H3.
  pose proof Hs3 as (_ & _ & _ & Hm3 & Hn3 & Ha3 & Hf3 & Hw3).
  assert (all_lines d3 = all_lines d) as Hal3 by (unfold all_lines; congruence).
  destruct (all_lines d) as [|l ls] eqn:Hal; [by destruct (Hany eq_refl)|]. destruct H3 as [E3 Hst3].
  rewrite (bind_Done _ _ _ _ _ (eq_trans (bind_on_file _ _ _ _ _ _ E2) E3)), ok_branch.
  exists (set_read_any d3), PERF_R_SUCCESS, (Some l).
  destruct (delivered_inv d d3 ls l []) as [Hi Hab]; [congruence|done|by rewrite Hw3, Hww|done|done|].
  split_and!; [|done|simpl; congruence|simpl; congruence|by rewrite Hab, Hn3, Hn2].
  apply next_tail. congruence.
Qed.

(** ** Reading a file to the end *)

(** Up to [n] calls, each with an empty buffer, until one does not succeed: the data
    delivered and the last result. *)
Fixpoint drain (fuel n : nat) (d : perf_datafile) (b : perf_buffer) : run (list (list Z) * perf_result) :=
  match n with
  | 0 => Done ([], PERF_R_SUCCESS)
  | S n' =>
      '(r, (d', b')) ← perf_datafile_next fuel (d, perf_buffer_clear b);
      if decide (r = PERF_R_SUCCESS) then
        '(ls, r') ← drain fuel n' d' b'; Done (contents b' :: ls, r')
      else Done ([], r)
  end.

Fixpoint reader_drain (n : nat) (all : list (list Z)) (max : Z) (s : reader) : list (list Z) * perf_result :=
  match n with
  | 0 => ([], PERF_R_SUCCESS)
  | S n' =>
      match reader_next all max s with
      | (PERF_R_SUCCESS, Some l, s') => let '(ls, r) := reader_drain n' all max s' in (l :: ls, r)
      | (r, _, _) => ([], r)
      end
  end.

(** Reading the abstract file delivers what is left of this run and then the whole file
    once for each run that is left. *)
Lemma reader_drain_all n all (k j : nat) ls a :
  all ≠ [] → j < k → (Z.of_nat k < 2 ^ 32)%Z → (ls = [] → a = true) →
  length ls + (k - 1 - j) * length all < n →
  reader_drain n all (Z.of_nat k) (Reader ls (Z.of_nat j) a) =
    (ls ++ concat (replicate (k - 1 - j) all), PERF_R_EOF).
Proof.
  intros Hall. revert j ls a. induction n as [|n IH]; intros j ls a Hj Hk Ha Hn;
    [by apply Nat.nlt_0_r in Hn|].
  cbn [reader_drain]. unfold reader_next. cbn [runs todo any].
  rewrite (decide_False (P := (0 < _ ∧ _)%Z)) by lia. destruct ls as [|l ls].
  - rewrite (Ha eq_refl), u32_small by lia. destruct (decide (Z.of_nat k = Z.of_nat j + 1)%Z) as [He|He].
    + by replace (k - 1 - j) with 0 by lia.
    + destruct (k - 1 - j) as [|m] eqn:Em; [lia|]. destruct all as [|l ls]; [done|].
      replace (Z.of_nat j + 1)%Z with (Z.of_nat (S j)) by lia. simpl in Hn.
      rewrite IH; [|lia|done|done|]; replace (k - 1 - S j) with m by lia; [done|]. simpl. lia.
  - simpl in Hn. rewrite IH; [done|done|done|done|lia].
Qed.

Lemma split_lines_bound r : text_ok r → Forall (λ l, S (length l) < DATABUF) (split_lines [] r).
Proof.
  induction r as [r IH] using (induction_ltof1 _ (@length Z)). intros Hok.
  destruct r as [|c r]; [constructor|]. destruct (Hok 0 ltac:(simpl; lia)) as [H1 H2].
  rewrite drop_0 in H1, H2. rewrite split_lines_first by lia. constructor.
  - rewrite app_nil_l, length_take. lia.
  - apply IH; [unfold ltof; rewrite length_drop; simpl in *; lia|]. by apply text_ok_drop.
Qed.

Lemma all_lines_bound d l : query_inv d → l ∈ all_lines d → S (length l) < DATABUF.
Proof.
  intros Hinv Hin. unfold all_lines, records in Hin. apply list_elem_of_In, filter_In in Hin as [Hin _].
  apply list_elem_of_In in Hin. pose proof (split_lines_bound _ (inv_text _ Hinv)) as Hall.
  rewrite Forall_forall in Hall. by apply Hall.
Qed.

(** Either a line of the file is delivered, or nothing. *)
Lemma reader_next_cases all max s r out s' :
  reader_next all max s = (r, out, s') → (∃ read, all = read ++ todo s) →
  (∃ l, r = PERF_R_SUCCESS ∧ out = Some l ∧ l ∈ all) ∨ (r ≠ PERF_R_SUCCESS ∧ out = None).
Proof.
  unfold reader_next. intros Hr (read & Hread).
  destruct (decide _); [simplify_eq; by right|]. destruct (todo s) as [|l ls].
  - destruct (any s); [|simplify_eq; by right]. destruct (decide _); [simplify_eq; by right|].
    destruct all as [|l ls]; simplify_eq; [by right|]. left. exists l. split_and!; [done|done|by left].
  - simplify_eq. left. exists l. split_and!; [done|done|]. apply elem_of_app. right. by left.
Qed.

Lemma drain_reader fuel n d b :
  query_inv d → file_fuel d < fuel → buffer_wf b → pb_length b = DATABUF →
  drain fuel n d b =
    Done (let '(ls, r) := reader_drain n (all_lines d) (maxruns d) (abs d) in (map (.++ [0%Z]) ls, r)).
Proof.
  revert d b. induction n as [|n IH]; intros d b Hinv Hf Hb Hlen; [done|]. cbn [drain reader_drain].
  assert (buffer_wf (perf_buffer_clear b)) as Hcl by (destruct Hb; split; simpl; lia).
  destruct (next_query_spec fuel d (perf_buffer_clear b) Hinv Hf) as (d' & r & out & E & Hinv' & Hm & Hw & Hr).
  { split_and!; [done|unfold room; simpl; rewrite Hlen; unfold DATABUF; lia|simpl; rewrite Hlen; unfold DATABUF; lia]. }
  rewrite E, Hr. cbn [mbind run_bind].
  destruct (reader_next_cases _ _ _ _ _ _ Hr (inv_lines _ Hinv)) as [(l & -> & -> & Hin)|[Hne ->]]; cycle 1.
  { rewrite decide_False by done. by destruct r. }
  rewrite decide_True by done. pose proof (all_lines_bound d l Hinv Hin) as Hbound.
  assert (line_output (perf_buffer_clear b) l = l ++ [0%Z]) as Hout.
  { unfold line_output, perf_buffer_availablelength. simpl. rewrite Hlen. by rewrite take_ge by lia. }
  assert (room (perf_buffer_clear b) (length (l ++ [0%Z]))) as Hroom.
  { unfold room. rewrite length_app. simpl. lia. }
  rewrite Hout. rewrite IH; [|done|unfold file_fuel in *; by rewrite Hw|by apply push_wf|done].
  rewrite Hm. unfold all_lines. rewrite Hw. fold (all_lines d).
  destruct (reader_drain n (all_lines d) (maxruns d) (abs d')) as [ls r]. cbn [mbind run_bind].
  by rewrite contents_push by done.
Qed.

(** A freshly opened file of text queries. *)
Lemma fresh_inv f b n k :
  fio_rest f = fio_whole f → text_ok (fio_whole f) → (b = true → n = length (fio_whole f)) →
  let d := PerfDatafile false f b n 0 0 false (replicate DATABUF 0%Z) k 0 false input_format_text_query in
  query_inv d ∧ abs d = Reader (records (fio_whole f)) 0 false.
Proof.
  intros Hrest Hok Hb d. assert (stream d = fio_whole f) as Hst by done.
  split; [|unfold abs; by rewrite Hst]. split; [done| |done| |done].
  - split; [split; [apply length_replicate|done| | |done]|].
    + change (have d) with 0. unfold DATABUF. lia.
    + exists []. split; [simpl; by rewrite Hrest|done].
    + apply lookup_replicate_2. change (have d) with 0. unfold DATABUF. lia.
  - exists []. by rewrite Hst.
Qed.

Lemma open_inv f sz k :
  fio_rest f = fio_whole f → text_ok (fio_whole f) →
  match sz with Some n => n = length (fio_whole f) | None => True end →
  ∃ d, perf_datafile_open f (Some (Some (f, sz))) input_format_text_query = Done d ∧
       let d := perf_datafile_setmaxruns d k in
       query_inv d ∧ fd d = f ∧ maxruns d = k ∧ abs d = Reader (records (fio_whole f)) 0 false.
Proof.
  intros Hrest Hok Hsz. destruct sz as [n|]; (eexists; split; [reflexivity|]).
  - destruct (fresh_inv f true n k) as [??]; done.
  - destruct (fresh_inv f false 0 k) as [??]; done.
Qed.

(** ** Theorems *)

(** C3: text queries, refinement: on a file whose lines all end and fit the buffer, each
    call of [perf_datafile_next] does what the abstract reader does: it delivers the next
    line of the current run (skipping blank lines and comments), starts the file again at
    the end of a run, and reports the end of the input after the last run or an invalid
    file when there is no query at all.  How the data was cut into reads does not
    matter. *)
Theorem datafile_next_refines fuel d b :
  query_inv d → file_fuel d < fuel → lines_ready b →
  ∃ d' r out, perf_datafile_next fuel (d, b) =
      Done (r, (d', match out with Some l => push (line_output b l) b | None => b end)) ∧
    query_inv d' ∧ maxruns d' = maxruns d ∧ fio_whole (fd d') = fio_whole (fd d) ∧
    reader_next (all_lines d) (maxruns d) (abs d) = (r, out, abs d').
Proof. apply next_query_spec. Qed.

(** C24: a file of queries that is to be read [k] times is delivered [k] times, line by line
    in order, and then the end of the input is reported; this ends within the given
    number of calls and rounds. *)
Theorem datafile_delivers_all f sz (k : nat) fuel n b :
  fio_rest f = fio_whole f → text_ok (fio_whole f) →
  match sz with Some n => n = length (fio_whole f) | None => True end →
  records (fio_whole f) ≠ [] → 0 < k → (Z.of_nat k < 2 ^ 32)%Z →
  2 * length (fio_whole f) < fuel → k * length (records (fio_whole f)) < n →
  buffer_wf b → pb_length b = DATABUF →
  ∃ d, perf_datafile_open f (Some (Some (f, sz))) input_format_text_query = Done d ∧
       drain fuel n (perf_datafile_setmaxruns d (Z.of_nat k)) b =
         Done (map (.++ [0%Z]) (concat (replicate k (records (fio_whole f)))), PERF_R_EOF).
Proof.
  intros Hrest Hok Hsz Hne Hk Hk32 Hfuel Hn Hb Hlen.
  destruct (open_inv f sz (Z.of_nat k) Hrest Hok Hsz) as (d & Ho & Hinv & Hfd & Hmax & Habs).
  exists d. split; [done|]. rewrite drain_reader; [|done|unfold file_fuel; by rewrite Hfd|done|done].
  unfold all_lines. rewrite Hfd, Hmax, Habs. set (all := records (fio_whole f)) in *.
  destruct k as [|k]; [lia|].
  pose proof (reader_drain_all n all (S k) 0 all false) as Hdr. change (Z.of_nat 0) with 0%Z in Hdr.
  assert (S k - 1 - 0 = k) as Hk1 by lia. rewrite Hk1 in Hdr.
  rewrite (Hdr Hne (Nat.lt_0_succ k) Hk32).
  - by rewrite replicate_S.
  - intros Hnil. by destruct (Hne Hnil).
  - rewrite Nat.mul_succ_l in Hn. lia.
Qed.

(** C36: binary input: each call delivers the next packet of the stream without its length,
    or reports the end, or an invalid file when the stream ends inside a packet or its
    length; the buffer is large enough for the largest packet, however the data was cut
    into reads. *)
Theorem read_one_blob_correct fuel d b :
  dfile_wf d → Forall byte_ok (stream d) → length (fio_rest (fd d)) < fuel →
  buffer_wf b → room b (Z.to_nat 65535) →
  ∃ d', dfile_wf d' ∧ same_file d d' ∧
    match next_blob (stream d) with
    | BlobEnd => read_one_blob fuel (d, b) = Done (PERF_R_EOF, (d', b)) ∧ stream d' = stream d
    | BlobBad => read_one_blob fuel (d, b) = Done (PERF_R_INVALIDFILE, (d', b)) ∧ stream d' = stream d
    | Blob packet rest =>
        read_one_blob fuel (d, b) = Done (PERF_R_SUCCESS, (d', push packet b)) ∧ stream d' = rest
    end.
Proof. apply next_blob_spec. Qed.
End stream.

(** ** A file read in pieces

    The instance for the witnesses: a file of known contents whose reads return at most as
    many bytes as the script [cf_chunks] says, one at least. *)
Record cfile : Type := CFile { cf_whole : list Z; cf_pos : nat; cf_chunks : list nat }.

#[export] Instance chunked_io : FileIO := {|
  fio := cfile;
  fio_wait f := (PERF_R_SUCCESS, f);
  fio_read n f :=
    let bs := take (n `min` S (default n (head (cf_chunks f)))) (drop (cf_pos f) (cf_whole f)) in
    (Some bs, CFile (cf_whole f) (cf_pos f + length bs) (tail (cf_chunks f)));
  fio_rewind f := Some (CFile (cf_whole f) 0 (cf_chunks f));
|}.

#[export] Instance chunked_laws : FileLaws chunked_io.
Proof.
  refine {| fio_rest f := drop (cf_pos f) (cf_whole f); fio_whole f := cf_whole f |}.
  - intros f. by exists f.
  - intros n [w p ch]. simpl. eexists _, _. split; [done|]. simpl.
    set (k := n `min` S (default n (head ch))). split_and!; [|done| |].
    + rewrite <- drop_drop, length_take. rewrite <- (take_drop k (drop p w)) at 1. f_equal.
      destruct (decide (k ≤ length (drop p w))); [by rewrite Nat.min_l|].
      rewrite !drop_ge; [done|rewrite Nat.min_r; lia|lia].
    + rewrite length_take. lia.
    + intros Hn. apply (f_equal length) in Hn. rewrite length_take in Hn. simpl in Hn.
      destruct n; [by left|]. right. apply nil_length_inv. unfold k in Hn. lia.
  - intros f. eexists. split; [done|]. by rewrite drop_0.
Defined.

Definition small_text : list Z := bytes "a A" ++ [10%Z] ++ bytes "; c" ++ [10; 10]%Z ++ bytes "b NS" ++ [10%Z].

Definition big_buffer : perf_buffer := test_buffer DATABUF.

(** An exhaustive check of [text_ok]. *)
Lemma text_ok_check r :
  forallb (λ i, bool_decide (i + strcspn (drop i r) [10%Z] < length r) &&
                bool_decide (S (strcspn (drop i r) [10%Z]) < 1000)) (seq 0 (length r)) = true →
  text_ok r.
Proof.
  intros H i Hi n. rewrite forallb_forall in H. specialize (H i ltac:(apply in_seq; lia)).
  apply andb_prop in H as [H1 H2]. apply bool_decide_eq_true_1 in H1, H2. fold n in H1, H2.
  unfold DATABUF. lia.
Qed.

Lemma small_text_ok : text_ok small_text.
Proof. apply text_ok_check. by vm_compute. Qed.

Lemma big_buffer_ready : buffer_wf big_buffer ∧ pb_length big_buffer = DATABUF.
Proof. split; [apply test_buffer_wf|done]. Qed.

Lemma datafile_delivers_all_witness :
  let f : @fio chunked_io := CFile small_text 0 [1; 1; 2; 3] in
  ∃ d, perf_datafile_open f (Some (Some (f, None))) input_format_text_query = Done d ∧
       drain 60 5 (perf_datafile_setmaxruns d 2) big_buffer =
         Done ([bytes "a A" ++ [0%Z]; bytes "b NS" ++ [0%Z]; bytes "a A" ++ [0%Z]; bytes "b NS" ++ [0%Z]],
               PERF_R_EOF).
Proof.
  intros f. destruct (datafile_delivers_all f None 2 60 5 big_buffer) as (d & Ho & Hd);
    [done|apply small_text_ok|done|done|lia|lia|vm_compute; lia|vm_compute; lia|
     apply big_buffer_ready|apply big_buffer_ready|].
  exists d. split; [exact Ho|]. etrans; [exact Hd|]. by vm_compute.
Defined.

Definition small_dfile : @perf_datafile chunked_io :=
  PerfDatafile false (CFile small_text 0 [] : @fio chunked_io) false 0 0 0 false (replicate DATABUF 0%Z) 1 0 false
    input_format_text_query.

Lemma small_dfile_inv : query_inv small_dfile.
Proof.
  apply (fresh_inv (CFile small_text 0 [] : @fio chunked_io) false 0 1); [done|apply small_text_ok|done].
Qed.

Lemma datafile_next_refines_witness :
  ∃ d' r out, perf_datafile_next 60 (small_dfile, big_buffer) =
      Done (r, (d', match out with Some l => push (line_output big_buffer l) big_buffer | None => big_buffer end)) ∧
    query_inv d' ∧ maxruns d' = maxruns small_dfile ∧ fio_whole (fd d') = fio_whole (fd small_dfile) ∧
    reader_next (all_lines small_dfile) (maxruns small_dfile) (abs small_dfile) = (r, out, abs d').
Proof.
  apply (datafile_next_refines 60 small_dfile big_buffer);
    [apply small_dfile_inv|vm_compute; lia|].
  split_and!; [apply big_buffer_ready|unfold room; simpl; unfold DATABUF; lia|simpl; unfold DATABUF; lia].
Defined.

Definition blob_dfile : @perf_datafile chunked_io :=
  PerfDatafile false (CFile [0; 2; 7; 8; 0]%Z 0 [0; 0; 0] : @fio chunked_io) false 0 0 0 false (replicate DATABUF 0%Z) 1 0 false
    input_format_tcp_wire_format.

Lemma read_one_blob_correct_witness :
  ∃ d', dfile_wf d' ∧ same_file blob_dfile d' ∧
    read_one_blob 6 (blob_dfile, big_buffer) = Done (PERF_R_SUCCESS, (d', push [7; 8]%Z big_buffer)) ∧
    stream d' = [0%Z].
Proof.
  assert (next_blob (stream blob_dfile) = Blob [7; 8]%Z [0%Z]) as Hb by (by vm_compute).
  pose proof (read_one_blob_correct 6 blob_dfile big_buffer) as H. rewrite Hb in H. apply H.
  - split; [apply length_replicate|done|simpl; unfold DATABUF; lia|by exists []|done].
  - by apply (bool_decide_unpack _).
  - simpl. lia.
  - apply big_buffer_ready.
  - unfold room. simpl. unfold DATABUF. lia.
Defined.

(** ** Two limits of the reader *)

(** Read a whole file once. *)
Definition read_file (f : @fio chunked_io) (sz : option nat) : run (list (list Z) * perf_result) :=
  match perf_datafile_open f (Some (Some (f, sz))) input_format_text_query with
  | Done d => drain 100 100 d big_buffer
  | _ => Undef
  end.

(** a last line without a newline is delivered when the whole file is in the buffer,
    and silently lost when it is not, as for a pipe: the same bytes give one query or
    two. *)
Theorem datafile_unterminated_line :
  let f : @fio chunked_io := CFile (bytes "a A" ++ [10%Z] ++ bytes "b B") 0 [] in
  read_file f (Some 7) = Done ([bytes "a A" ++ [0%Z]; bytes "b B" ++ [0%Z]], PERF_R_EOF) ∧
  read_file f None = Done ([bytes "a A" ++ [0%Z]], PERF_R_EOF).
Proof. vm_compute. done. Qed.

(** when the output buffer is full, as it can be after 64 KiB of one update, [length - 1]
    wraps around to the largest [size_t]: the line is not cut and the assertion of
    [perf_buffer_putmem] ends the program. *)
Theorem datafile_full_buffer_aborts :
  read_one_line 60 (small_dfile, PerfBuffer [1; 2; 3]%Z 3 3 0 0) = Abort ∧
  returns (read_one_line 60 (small_dfile, PerfBuffer [1; 2; 3]%Z 3 2 0 0))
    (λ '(r, (_, b)), r = PERF_R_SUCCESS ∧ contents b = [1; 2; 0]%Z).
Proof. vm_compute. done. Qed.
