(* ===== verification/Opt.v ===== *)
(** * Command line options (opt.c)

    Options are registered with the place their value goes to ([perf_opt_add],
    [perf_long_opt_add]); [perf_opt_parse] fills the places in from the arguments [getopt]
    delivers.  The places are the keys of a store.  Floating-point values are abstract: [atof]
    and the conversion to microseconds are arguments. *)

From S2P Require Import Prelude.

Definition MAX_OPTS : nat := 64.
Definition DEFVAL_SIZE : nat := 512.
(** [sizeof(optstr)]. *)
Definition OPTSTR_SIZE : nat := MAX_OPTS * 2 + 2 + 1.

Inductive perf_opttype : Set :=
| perf_opt_string
| perf_opt_boolean
| perf_opt_uint
| perf_opt_zpint
| perf_opt_timeval
| perf_opt_double
| perf_opt_port.

#[export] Instance perf_opttype_eq_dec : EqDecision perf_opttype.
Proof. solve_decision. Defined.

(** ** Numbers *)

(** [parse_uint(desc, str, min, max)]. *)
Definition parse_uint (str : list Z) (min max : Z) : run Z :=
  let '(val, n, range) := strtoul 10 str in
  if decide (range = false ∧ char0 str ≠ 0 ∧ char0 (drop n str) = 0 ∧ val ≤ UINT32_MAX)%Z then
    let ret := u32 val in
    if decide (min ≤ ret ∧ ret ≤ max)%Z then Done ret else Exit 1
  else Exit 1.

(** The loop of [parse_double] over the characters. *)
Fixpoint double_text (s : list Z) (seen_dot : bool) : bool :=
  match s with
  | [] => true
  | c :: s' =>
      if decide (c = 0)%Z then true
      else if decide (c = 46)%Z then if seen_dot then false else double_text s' true
      else if decide (c < 48 ∨ 57 < c)%Z then false
      else double_text s' seen_dot
  end.

Section options.
Context {F : Type} (atof : list Z → F) (micros : F → Z).

(** [parse_double] and [parse_timeval]. *)
Definition parse_double (str : list Z) : run F := if double_text str false then Done (atof str) else Exit 1.
Definition parse_timeval (str : list Z) : run Z := d ← parse_double str; Done (u64 (micros d)).

(** ** Registered options *)

Inductive optval : Type :=
| VString (s : list Z)
| VBool (b : bool)
| VUint (n : Z)
| VUint64 (n : Z)
| VDouble (d : F)
| VPort (n : Z).

(** [opt_t] and [long_opt_t]. *)
Record opt : Type := Opt {
  c : Z; type : perf_opttype; desc : option (list Z); help : list Z; defval : option (list Z); valp : nat
}.
Record long_opt : Type := LongOpt {
  name : list Z; ltype : perf_opttype; ldesc : option (list Z); lhelp : list Z; ldefval : option (list Z); lvalp : nat
}.

Record optstate : Type := OptState {
  opts : list opt;
  longopts : list long_opt;
  optstr : list Z;
  store : gmap nat optval;
}.

Definition write (p : nat) (v : optval) (st : optstate) : optstate :=
  OptState (opts st) (longopts st) (optstr st) (<[p := v]> (store st)).

(** The copy of a default in [defvalbuf]. *)
Definition copy_defval (d : list Z) : list Z := take (strlen d) d.
(** What an option adds to the string for [getopt]. *)
Definition opt_letters (ch : Z) (ty : perf_opttype) : list Z :=
  ch :: (if decide (ty = perf_opt_boolean) then [] else bytes ":").

(** [perf_opt_add(c, type, desc, help, defval, valp)]. *)
Definition perf_opt_add (ch : Z) (ty : perf_opttype) (desc : option (list Z)) (help : list Z)
    (defval : option (list Z)) (p : nat) : M optstate unit :=
  st ← get;
  if decide (length (opts st) = MAX_OPTS) then perf_log_fatal
  else if decide (DEFVAL_SIZE - 1 < strlen (default [] defval)) then perf_log_fatal
  else
    put (OptState (opts st ++ [Opt ch ty desc help (copy_defval <$> defval) p]) (longopts st)
      (take (OPTSTR_SIZE - 1) (optstr st ++ opt_letters ch ty)) (store st)).

(** [perf_long_opt_add(name, type, desc, help, defval, valp)]: the last one added comes first. *)
Definition perf_long_opt_add (nm : list Z) (ty : perf_opttype) (desc : option (list Z)) (help : list Z)
    (defval : option (list Z)) (p : nat) : M optstate unit :=
  st ← get;
  if decide (DEFVAL_SIZE - 1 < strlen (default [] defval)) then perf_log_fatal
  else
    put (OptState (opts st) (LongOpt nm ty desc help (copy_defval <$> defval) p :: longopts st) (optstr st) (store st)).

(** The assignment of a value by the type of the option. *)
Definition assign (ty : perf_opttype) (p : nat) (arg : list Z) : M optstate unit :=
  match ty with
  | perf_opt_string => modify (write p (VString arg))
  | perf_opt_boolean => modify (write p (VBool true))
  | perf_opt_uint => v ← lift (parse_uint arg 1 0xFFFFFFFF); modify (write p (VUint v))
  | perf_opt_zpint => v ← lift (parse_uint arg 0 0xFFFFFFFF); modify (write p (VUint v))
  | perf_opt_timeval => v ← lift (parse_timeval arg); modify (write p (VUint64 v))
  | perf_opt_double => v ← lift (parse_double arg); modify (write p (VDouble v))
  | perf_opt_port => v ← lift (parse_uint arg 0 0xFFFF); modify (write p (VPort v))
  end.

(** The search for a long option: the first whose name starts with the [optlen] characters. *)
Fixpoint find_long (optarg : list Z) (optlen : nat) (los : list long_opt) : option long_opt :=
  match los with
  | [] => None
  | o :: los' => if strncmp_eq optarg (name o) optlen then Some o else find_long optarg optlen los'
  end.

(** [perf_opt_long_parse(optarg)]: [false] is -1. *)
Definition perf_opt_long_parse (optarg : list Z) : M optstate bool :=
  let eq := strchr optarg 61 in
  let optlen := match eq with Some n => n | None => strlen optarg end in
  let arg := match eq with Some n => Some (drop (S n) optarg) | None => None end in
  if decide (is_Some eq ∧ (optlen < 1 ∨ strlen (default [] arg) = 0)) then mret false
  else
    st ← get;
    match find_long optarg optlen (longopts st) with
    | None => mret false
    | Some o =>
        match arg, ltype o with
        | None, perf_opt_boolean => assign perf_opt_boolean (lvalp o) [];; mret true
        | None, _ => mret false
        | Some a, ty => assign ty (lvalp o) a;; mret true
        end
    end.

(** The search for a short option. *)
Fixpoint find_opt (ch : Z) (os : list opt) : option opt :=
  match os with
  | [] => None
  | o :: os' => if decide (c o = ch) then Some o else find_opt ch os'
  end.

(** The loop of [perf_opt_parse] over what [getopt] returns. *)
Fixpoint opt_loop (got : list (Z * list Z)) : M optstate unit :=
  match got with
  | [] => mret ()
  | (ch, optarg) :: got' =>
      st ← get;
      match find_opt ch (opts st) with
      | None => lift (Exit 1)
      | Some o =>
          if decide (ch = 104 ∨ ch = 72)%Z then lift (Exit 0)
          else if decide (ch = 79)%Z then
            ok ← perf_opt_long_parse optarg;
            if ok : bool then opt_loop got' else lift (Exit 1)
          else assign (type o) (valp o) optarg;; opt_loop got'
      end
  end.

(** What [getopt(argc, argv, optstr)] delivers call by call, and [optind != argc] in the end. *)
Definition getopt_t : Type := list Z → list (Z * list Z) * bool.

(** [perf_opt_parse(argc, argv)].  The added options have no place to write to: they are handled
    before the assignment. *)
Definition perf_opt_parse (getopt : getopt_t) : M optstate unit :=
  perf_opt_add 104 perf_opt_boolean None (bytes "print this help") None 0;;
  perf_opt_add 72 perf_opt_boolean None (bytes "print long options help") None 0;;
  perf_opt_add 79 perf_opt_string None (bytes "set long options: <name>=<value>") None 0;;
  st ← get;
  let '(got, extra) := getopt (optstr st) in
  opt_loop got;;
  if extra : bool then lift (Exit 1) else mret ().
End options.

(** ** Messages to suppress *)

Record perf_suppress : Type := Suppress {
  timeouts : bool;
  congestion : bool;
  sendfailed : bool;
  sockready : bool;
  unexpected : bool;
}.

(** One item of the list. *)
Definition suppress_item (val : list Z) (len : nat) (s : perf_suppress) : run perf_suppress :=
  if strncmp_eq val (bytes "timeouts") len then
    Done (Suppress true (congestion s) (sendfailed s) (sockready s) (unexpected s))
  else if strncmp_eq val (bytes "congestion") len then
    Done (Suppress (timeouts s) true (sendfailed s) (sockready s) (unexpected s))
  else if strncmp_eq val (bytes "sendfailed") len then
    Done (Suppress (timeouts s) (congestion s) true (sockready s) (unexpected s))
  else if strncmp_eq val (bytes "sockready") len then
    Done (Suppress (timeouts s) (congestion s) (sendfailed s) true (unexpected s))
  else if strncmp_eq val (bytes "unexpected") len then
    Done (Suppress (timeouts s) (congestion s) (sendfailed s) (sockready s) true)
  else Exit 1.

(** The loop of [perf_opt_parse_suppress]. *)
Fixpoint suppress_loop (fuel : nat) (val : list Z) (s : perf_suppress) : run perf_suppress :=
  match fuel with
  | 0 => NoFuel
  | S fuel' =>
      if decide (char0 val = 0)%Z then Done s
      else
        match strchr val 44 with
        | Some n => s ← suppress_item val n s; suppress_loop fuel' (drop (S n) val) s
        | None => suppress_item val (strlen val) s
        end
  end.

(** [perf_opt_parse_suppress(val)]; [None] is a null pointer. *)
Definition perf_opt_parse_suppress (val : option (list Z)) : run perf_suppress :=
  match val with
  | None => Done (Suppress false false false false false)
  | Some v => suppress_loop (S (length v)) v (Suppress false false false false false)
  end.

(** ** Numbers are read back *)

Lemma parse_uint_range str min max :
  match parse_uint str min max with Done v => (min ≤ v ≤ max)%Z | Exit c => c = 1%Z | _ => False end.
Proof.
  unfold parse_uint. destruct (strtoul 10 str) as [[val n] range].
  destruct (decide (range = false ∧ _)); [|done]. cbv zeta. by destruct (decide _).
Qed.

(** a numeric option accepts exactly the decimal numbers in its range: a number in the
    range is read back, every other one ends the program with status 1, and so does every
    text whose value is not in the range. *)
Theorem opt_parse_uint fuel n str min max :
  (0 ≤ n < 10 ^ Z.of_nat (S fuel))%Z → (n ≤ ULONG_MAX)%Z → (0 ≤ min)%Z → (max ≤ UINT32_MAX)%Z →
  parse_uint (dec (S fuel) n) min max = (if decide (min ≤ n ≤ max)%Z then Done n else Exit 1) ∧
  match parse_uint str min max with Done v => (min ≤ v ≤ max)%Z | Exit c => c = 1%Z | _ => False end.
Proof.
  intros Hn Hm Hmin Hmax. split; [|apply parse_uint_range].
  pose proof (strtoul_dec fuel n [] Hn Hm eq_refl) as Hs. rewrite app_nil_r in Hs.
  unfold parse_uint. rewrite Hs. rewrite drop_ge by done.
  pose proof (dec_digits (S fuel) n ltac:(lia)) as Hd. pose proof (dec_nonempty fuel n) as Hl.
  assert (char0 (dec (S fuel) n) ≠ 0%Z) as Hc.
  { destruct (dec (S fuel) n) as [|d l]; [simpl in Hl; lia|]. apply Forall_cons in Hd as [Hd _].
    unfold is_digit in Hd. apply bool_decide_eq_true_1 in Hd. change (char0 (d :: l)) with d. lia. }
  destruct (decide (n ≤ UINT32_MAX)%Z) as [Hu|Hu].
  - rewrite decide_True by done. rewrite u32_small by (unfold UINT32_MAX in Hu; lia). cbv zeta.
    by destruct (decide (min ≤ n ∧ n ≤ max)%Z).
  - rewrite decide_False by tauto. rewrite decide_False by lia. done.
Qed.

Lemma opt_parse_uint_witness :
  parse_uint (dec 5 8080) 0 65535 = Done 8080%Z ∧ parse_uint (bytes "65536") 0 65535 = Exit 1.
Proof.
  split; [|by vm_compute].
  destruct (opt_parse_uint 4 8080 [] 0 65535) as [H _]; [lia|unfold ULONG_MAX; lia|lia|unfold UINT32_MAX; lia|].
  rewrite H. reflexivity.
Defined.

(** ** What the places hold *)
Section typed.
Context {F : Type} (atof : list Z → F) (micros : F → Z).

Definition val_ok (ty : perf_opttype) (v : optval (F := F)) : Prop :=
  match ty, v with
  | perf_opt_string, VString _ => True
  | perf_opt_boolean, VBool b => b = true
  | perf_opt_uint, VUint n => (1 ≤ n ≤ UINT32_MAX)%Z
  | perf_opt_zpint, VUint n => (0 ≤ n ≤ UINT32_MAX)%Z
  | perf_opt_timeval, VUint64 n => (0 ≤ n < 2 ^ 64)%Z
  | perf_opt_double, VDouble _ => True
  | perf_opt_port, VPort n => (0 ≤ n ≤ 65535)%Z
  | _, _ => False
  end.

(** An option that writes to [p] values of type [ty]. *)
Definition registered (st : optstate (F := F)) (p : nat) (ty : perf_opttype) : Prop :=
  (∃ o, o ∈ opts st ∧ valp o = p ∧ type o = ty) ∨ (∃ o, o ∈ longopts st ∧ lvalp o = p ∧ ltype o = ty).

(** The options stay, and the store changes by values of registered options. *)
Definition well_written (st st' : optstate (F := F)) : Prop :=
  opts st' = opts st ∧ longopts st' = longopts st ∧
  ∀ p v, store st' !! p = Some v → store st !! p = Some v ∨ ∃ ty, registered st p ty ∧ val_ok ty v.

Lemma well_written_refl st : well_written st st.
Proof. split_and!; auto. Qed.

Lemma well_written_trans st1 st2 st3 : well_written st1 st2 → well_written st2 st3 → well_written st1 st3.
Proof.
  intros (H1 & H2 & H3) (G1 & G2 & G3). split_and!; [congruence|congruence|]. intros p v Hv.
  destruct (G3 p v Hv) as [Hv'|(ty & Hr & Hok)]; [by apply H3|]. right. exists ty. split; [|done].
  unfold registered in *. by rewrite H1, H2 in Hr.
Qed.

Lemma write_ok st p ty v : registered st p ty → val_ok ty v → well_written st (write p v st).
Proof.
  intros Hr Hv. split_and!; [done|done|]. intros p' v' H. simpl in H. destruct (decide (p' = p)) as [->|Hne].
  - rewrite lookup_insert_eq in H. simplify_eq. right. eauto.
  - rewrite lookup_insert_ne in H by done. by left.
Qed.

(** An outcome: the program goes on with a well written store, or exits. *)
Definition good {A} (st : optstate (F := F)) (r : run (A * optstate)) : Prop :=
  match r with Done (_, st') => well_written st st' | Exit c => c = 0%Z ∨ c = 1%Z | _ => False end.

Lemma assign_ok ty p arg st : registered st p ty → good st (assign atof micros ty p arg st).
Proof.
  intros Hr. destruct ty; unfold assign.
  - by eapply write_ok.
  - by eapply write_ok.
  - pose proof (parse_uint_range arg 1 0xFFFFFFFF) as Hp. unfold mbind, M_bind, lift.
    destruct (parse_uint arg 1 0xFFFFFFFF); try done; [|by right]. by eapply write_ok.
  - pose proof (parse_uint_range arg 0 0xFFFFFFFF) as Hp. unfold mbind, M_bind, lift.
    destruct (parse_uint arg 0 0xFFFFFFFF); try done; [|by right]. by eapply write_ok.
  - unfold parse_timeval, parse_double. destruct (double_text arg false); [|by right].
    eapply write_ok; [done|]. apply u64_range.
  - unfold parse_double. destruct (double_text arg false); [|by right]. by eapply write_ok.
  - pose proof (parse_uint_range arg 0 0xFFFF) as Hp. unfold mbind, M_bind, lift.
    destruct (parse_uint arg 0 0xFFFF); try done; [|by right]. by eapply write_ok.
Qed.

Lemma find_long_elem optarg n los o : find_long optarg n los = Some o → o ∈ los.
Proof.
  induction los as [|o' los IH]; simpl; [done|]. destruct (strncmp_eq _ _ _); [intros [= ->]; by left|].
  intros H. right. by apply IH.
Qed.

Lemma find_opt_elem ch os o : find_opt ch os = Some o → o ∈ os.
Proof.
  induction os as [|o' os IH]; simpl; [done|]. destruct (decide _); [intros [= ->]; by left|].
  intros H. right. by apply IH.
Qed.

Lemma good_bind {A C} st (r : run (A * optstate)) (k : A → M optstate C) :
  good st r → (∀ a st', well_written st st' → good st' (k a st')) →
  good st (match r with
           | Done (a, st') => k a st'
           | Abort => Abort | Exit c => Exit c | Undef => Undef | NoFuel => NoFuel end).
Proof.
  intros Hr Hk. destruct r as [[a st']| | | |]; try done. simpl in Hr. specialize (Hk a st' Hr).
  destruct (k a st') as [[d st'']| | | |]; try done. by eapply well_written_trans.
Qed.

Lemma long_parse_ok optarg st : good st (perf_opt_long_parse atof micros optarg st).
Proof.
  unfold perf_opt_long_parse. cbv zeta. destruct (decide _); [apply well_written_refl|].
  rewrite (bind_Done get _ _ _ _ eq_refl).
  destruct (find_long _ _ _) as [o|] eqn:Ef; [|apply well_written_refl]. apply find_long_elem in Ef.
  assert (registered st (lvalp o) (ltype o)) as Hr by (right; eauto).
  assert (∀ a, good st ((assign atof micros (ltype o) (lvalp o) a;; mret true) st)) as Ha.
  { intros a. apply good_bind; [by apply assign_ok|]. intros. apply well_written_refl. }
  destruct (strchr optarg 61) as [k|]; [apply Ha|].
  destruct (ltype o) eqn:Et; try apply well_written_refl. apply Ha.
Qed.

Lemma opt_loop_ok got st : good st (opt_loop atof micros got st).
Proof.
  revert st. induction got as [|[ch arg] got IH]; intros st; cbn [opt_loop]; [apply well_written_refl|].
  rewrite (bind_Done get _ _ _ _ eq_refl). destruct (find_opt ch (opts st)) as [o|] eqn:Ef; [|by right].
  apply find_opt_elem in Ef. destruct (decide _); [by left|]. destruct (decide _).
  - apply good_bind; [apply long_parse_ok|]. intros [|] st' Hst; [apply IH|by right].
  - apply good_bind; [apply assign_ok; left; eauto|]. intros [] st' Hst. apply IH.
Qed.

(** The state with the options for help and long options. *)
Definition help_opts : list opt :=
  [Opt 104 perf_opt_boolean None (bytes "print this help") None 0;
   Opt 72 perf_opt_boolean None (bytes "print long options help") None 0;
   Opt 79 perf_opt_string None (bytes "set long options: <name>=<value>") None 0].
Definition letters (os : list opt) : list Z := concat (map (λ o, opt_letters (c o) (type o)) os).
Definition with_help (st : optstate (F := F)) : optstate :=
  OptState (opts st ++ help_opts) (longopts st) (letters (opts st ++ help_opts)) (store st).

(** The string for [getopt] is not cut off. *)
Definition optstr_ok (st : optstate (F := F)) : Prop := optstr st = letters (opts st).

Lemma opt_letters_length ch ty : length (opt_letters ch ty) ≤ 2.
Proof. destruct ty; apply (bool_decide_unpack _); exact I. Qed.

Lemma letters_length os : length (letters os) ≤ 2 * length os.
Proof.
  induction os as [|o os IH]; [done|]. unfold letters in *. cbn [map concat length]. rewrite length_app.
  pose proof (opt_letters_length (c o) (type o)). lia.
Qed.

Lemma opt_add_spec ch ty desc help d p (st : optstate (F := F)) :
  length (opts st) < MAX_OPTS → strlen (default [] d) ≤ DEFVAL_SIZE - 1 → optstr_ok st →
  ∃ st', perf_opt_add ch ty desc help d p st = Done ((), st') ∧ optstr_ok st' ∧
    opts st' = opts st ++ [Opt ch ty desc help (copy_defval <$> d) p] ∧ longopts st' = longopts st ∧ store st' = store st.
Proof.
  intros Hl Hd Ho. unfold perf_opt_add. rewrite (bind_Done get _ _ _ _ eq_refl).
  rewrite decide_False by lia. rewrite decide_False by lia. eexists. split; [reflexivity|].
  split_and!; [|done..]. unfold optstr_ok in *. cbn [optstr opts]. rewrite Ho.
  set (o := Opt ch ty desc help _ p). change (opt_letters ch ty) with (opt_letters (c o) (type o)).
  assert (letters (opts st ++ [o]) = letters (opts st) ++ opt_letters (c o) (type o)) as ->.
  { unfold letters. rewrite map_app, concat_app. simpl. by rewrite app_nil_r. }
  apply take_ge. pose proof (letters_length (opts st)). pose proof (opt_letters_length (c o) (type o)).
  rewrite length_app. unfold OPTSTR_SIZE, MAX_OPTS in *. lia.
Qed.

(** Registering the three options for help does not fail. *)
Lemma opt_parse_unfold getopt (st : optstate (F := F)) :
  length (opts st) + 3 ≤ MAX_OPTS → optstr_ok st →
  perf_opt_parse atof micros getopt st =
    (let '(got, extra) := getopt (letters (opts st ++ help_opts)) in
     opt_loop atof micros got;; if extra : bool then lift (Exit 1) else mret ()) (with_help st).
Proof.
  intros Hl Ho. unfold perf_opt_parse.
  destruct (opt_add_spec 104 perf_opt_boolean None (bytes "print this help") None 0 st) as (s1 & E1 & O1 & P1 & L1 & S1);
    [lia|apply Nat.le_0_l|done|]. rewrite (bind_Done _ _ _ _ _ E1).
  destruct (opt_add_spec 72 perf_opt_boolean None (bytes "print long options help") None 0 s1) as (s2 & E2 & O2 & P2 & L2 & S2);
    [rewrite P1, length_app; simpl; lia|apply Nat.le_0_l|done|]. rewrite (bind_Done _ _ _ _ _ E2).
  destruct (opt_add_spec 79 perf_opt_string None (bytes "set long options: <name>=<value>") None 0 s2)
    as (s3 & E3 & O3 & P3 & L3 & S3); [rewrite P2, P1, !length_app; simpl; lia|apply Nat.le_0_l|done|].
  rewrite (bind_Done _ _ _ _ _ E3), (bind_Done get _ _ _ _ eq_refl).
  assert (s3 = with_help st) as ->; [|done]. unfold with_help. destruct s3 as [os3 los3 str3 sto3]. unfold optstr_ok in O3.
  cbn [opts longopts optstr store] in *. subst. by rewrite L2, L1, S2, S1, P2, P1, <- !app_assoc.
Qed.

Lemma opt_parse_good getopt st :
  length (opts st) + 3 ≤ MAX_OPTS → optstr_ok st → good (with_help st) (perf_opt_parse atof micros getopt st).
Proof.
  intros Hl Ho. rewrite opt_parse_unfold by done. destruct (getopt _) as [got extra].
  apply good_bind; [apply opt_loop_ok|]. intros [] st' Hst. destruct extra; [by right|apply well_written_refl].
Qed.

(** parsing the command line: for every sequence of options and arguments, the program
    either exits with status 0 or 1 or goes on with every place it has written holding a
    value of the type, and in the range, of an option registered for that place. *)
Theorem opt_parse_typed getopt st :
  length (opts st) + 3 ≤ MAX_OPTS → optstr_ok st → good (with_help st) (perf_opt_parse atof micros getopt st).
Proof. apply opt_parse_good. Qed.
End typed.

(** ** Suppressed messages *)

(** The messages, and the flags of a list of them. *)
Inductive message : Set := Timeouts | Congestion | Sendfailed | Sockready | Unexpected.

#[export] Instance message_eq_dec : EqDecision message.
Proof. solve_decision. Defined.

Definition message_name (m : message) : list Z :=
  match m with
  | Timeouts => bytes "timeouts"
  | Congestion => bytes "congestion"
  | Sendfailed => bytes "sendfailed"
  | Sockready => bytes "sockready"
  | Unexpected => bytes "unexpected"
  end.

Definition suppresses (s : perf_suppress) (m : message) : bool :=
  match m with
  | Timeouts => timeouts s
  | Congestion => congestion s
  | Sendfailed => sendfailed s
  | Sockready => sockready s
  | Unexpected => unexpected s
  end.

(** The names separated by commas. *)
Fixpoint comma_list (ms : list message) : list Z :=
  match ms with
  | [] => []
  | [m] => message_name m
  | m :: ms' => message_name m ++ 44%Z :: comma_list ms'
  end.

Lemma suppress_item_name m rest s :
  ∃ s', suppress_item (message_name m ++ rest) (length (message_name m)) s = Done s' ∧
        ∀ m', suppresses s' m' = (bool_decide (m' = m) || suppresses s m').
Proof. destruct m; (eexists; split; [reflexivity|]); by intros []. Qed.

Lemma message_name_ok m : Forall (λ x, x ≠ 0%Z ∧ x ≠ 44%Z) (message_name m) ∧ char0 (message_name m) ≠ 0%Z.
Proof. destruct m; (split; [by apply (bool_decide_unpack _)|done]). Qed.

Lemma suppress_loop_list fuel m ms s :
  length (m :: ms) ≤ fuel →
  ∃ s', suppress_loop fuel (comma_list (m :: ms)) s = Done s' ∧
        ∀ m', suppresses s' m' = (bool_decide (m' ∈ m :: ms) || suppresses s m').
Proof.
  revert fuel m s. induction ms as [|m2 ms IH]; intros fuel m s Hf; (destruct fuel as [|fuel]; [simpl in Hf; lia|]);
    destruct (message_name_ok m) as [Hok Hc].
  - destruct (suppress_item_name m [] s) as (s' & E & Hs). rewrite app_nil_r in E. exists s'. split.
    + cbn [suppress_loop comma_list]. rewrite decide_False by done.
      assert (strchr (message_name m) 44 = None) as -> by (by destruct m).
      rewrite strlen_nz; [done|]. eapply Forall_impl; [exact Hok|]. by intros x [? _].
    + intros m'. rewrite Hs. f_equal. apply bool_decide_ext. by rewrite list_elem_of_singleton.
  - destruct (suppress_item_name m (44%Z :: comma_list (m2 :: ms)) s) as (s1 & E & Hs1).
    change (comma_list (m :: m2 :: ms)) with (message_name m ++ 44%Z :: comma_list (m2 :: ms)).
    assert (char0 (message_name m ++ 44%Z :: comma_list (m2 :: ms)) ≠ 0%Z) as Hc' by (by destruct m).
    cbn [suppress_loop]. rewrite decide_False by done. rewrite strchr_app by done. rewrite E. cbn [mbind run_bind].
    replace (drop (S (length (message_name m))) (message_name m ++ 44%Z :: comma_list (m2 :: ms)))
      with (comma_list (m2 :: ms))
      by (rewrite drop_app_ge, Nat.sub_succ_l, Nat.sub_diag by lia; done).
    destruct (IH fuel m2 s1) as (s' & -> & Hs'); [simpl in *; lia|]. exists s'. split; [done|].
    intros m'. rewrite Hs', Hs1. rewrite orb_assoc, (orb_comm (bool_decide _)). f_equal.
    rewrite <- bool_decide_or. apply bool_decide_ext. by rewrite !elem_of_cons.
Qed.

(** a comma separated list of message types suppresses exactly those types. *)
Theorem opt_suppress_list m ms :
  ∃ s, perf_opt_parse_suppress (Some (comma_list (m :: ms))) = Done s ∧
       ∀ m', suppresses s m' = bool_decide (m' ∈ m :: ms).
Proof.
  destruct (suppress_loop_list (S (length (comma_list (m :: ms)))) m ms (Suppress false false false false false))
    as (s & E & Hs).
  { enough (length (m :: ms) ≤ length (comma_list (m :: ms))) by lia. revert m.
    induction ms as [|m2 ms IH]; intros m; [by destruct m; simpl; lia|].
    change (comma_list (m :: m2 :: ms)) with (message_name m ++ 44%Z :: comma_list (m2 :: ms)).
    rewrite length_app. cbn [length]. specialize (IH m2). cbn [length] in IH. lia. }
  exists s. split; [exact E|]. intros m'. rewrite Hs. by destruct m'; rewrite orb_false_r.
Qed.

(** An empty item is taken for the first message type, and an abbreviation for the first type
    it is a prefix of. *)
Theorem opt_suppress_prefix :
  perf_opt_parse_suppress (Some (bytes ",unexpected")) = Done (Suppress true false false false true) ∧
  perf_opt_parse_suppress (Some (bytes "s")) = Done (Suppress false false true false false).
Proof. by vm_compute. Qed.
