(* ===== verification/CommandLine.v ===== *)
(** * Command lines (opt.c and the C library's [getopt])

    [getopt] as the C library specifies it, on the string of letters that [perf_opt_add] builds;
    that a command line is read as it is meant, in whichever style it is written; and the texts
    of [perf_opt_usage] and [perf_long_opt_usage]. *)

From S2P Require Import Prelude Opt.

(** ** getopt *)

(** Whether a letter is in the string and is followed by a colon. *)
Fixpoint takes_arg (optstr : list Z) (ch : Z) : option bool :=
  match optstr with
  | [] => None
  | x :: s => if decide (x = ch) then Some (bool_decide (head s = Some 58%Z)) else takes_arg s ch
  end.

(** What successive calls of [getopt] return, with [optarg], and whether arguments are left: 63,
    a question mark, stands for an unknown letter or a missing argument. *)
Fixpoint getopt (optstr : list Z) (args : list (list Z)) : list (Z * list Z) * bool :=
  match args with
  | [] => ([], false)
  | (45%Z :: (_ :: _) as cluster) :: rest =>
      if decide (cluster = [45%Z]) then ([], negb (bool_decide (rest = [])))
      else
        (fix scan (chars : list Z) : list (Z * list Z) * bool :=
           match chars with
           | [] => getopt optstr rest
           | ch :: chars' =>
               match (if decide (ch = 58)%Z then None else takes_arg optstr ch) with
               | None => let '(got, extra) := scan chars' in ((63%Z, []) :: got, extra)
               | Some false => let '(got, extra) := scan chars' in ((ch, []) :: got, extra)
               | Some true =>
                   match chars', rest with
                   | _ :: _, _ => let '(got, extra) := getopt optstr rest in ((ch, chars') :: got, extra)
                   | [], arg :: rest' => let '(got, extra) := getopt optstr rest' in ((ch, arg) :: got, extra)
                   | [], [] => ([(63%Z, [])], false)
                   end
               end
           end) cluster
  | _ => ([], true)
  end.

(** The arguments of a program, as a parameter of [perf_opt_parse]. *)
Definition argv (args : list (list Z)) : getopt_t := λ optstr, getopt optstr args.

(** *** The ways to write options *)

(** Flags that share a dash; the last letter of a word may have an argument, attached or as
    the next word. *)
Inductive word : Type :=
| Flags (fs : list Z)
| Attached (fs : list Z) (ch : Z) (arg : list Z)
| Separate (fs : list Z) (ch : Z) (arg : list Z).

Definition word_args (w : word) : list (list Z) :=
  match w with
  | Flags fs => [45%Z :: fs]
  | Attached fs ch arg => [45%Z :: fs ++ ch :: arg]
  | Separate fs ch arg => [45%Z :: fs ++ [ch]; arg]
  end.
(** The options a word stands for. *)
Definition word_options (w : word) : list (Z * list Z) :=
  match w with
  | Flags fs => map (λ f, (f, [])) fs
  | Attached fs ch arg | Separate fs ch arg => map (λ f, (f, [])) fs ++ [(ch, arg)]
  end.

Definition is_flag (os : list opt) (f : Z) : Prop := ∃ o, find_opt f os = Some o ∧ type o = perf_opt_boolean.
Definition has_arg (os : list opt) (ch : Z) : Prop := ∃ o, find_opt ch os = Some o ∧ type o ≠ perf_opt_boolean.
Definition word_ok (os : list opt) (w : word) : Prop :=
  match w with
  | Flags fs => fs ≠ [] ∧ Forall (is_flag os) fs
  | Attached fs ch arg => Forall (is_flag os) fs ∧ has_arg os ch ∧ arg ≠ []
  | Separate fs ch arg => Forall (is_flag os) fs ∧ has_arg os ch
  end.

(** No letter is a colon or a dash. *)
Definition letters_ok (os : list opt) : Prop := Forall (λ o, c o ≠ 58 ∧ c o ≠ 45)%Z os.

Lemma takes_arg_letters os ch o :
  letters_ok os → find_opt ch os = Some o →
  (ch ≠ 58 ∧ ch ≠ 45)%Z ∧ takes_arg (letters os) ch = Some (negb (bool_decide (type o = perf_opt_boolean))).
Proof.
  induction 1 as [|o' os [H58 H45] Hos IH]; [done|]. cbn [find_opt]. intros Hf.
  assert (letters (o' :: os) = c o' :: (if decide (type o' = perf_opt_boolean) then [] else [58%Z]) ++ letters os) as -> by done.
  cbn [takes_arg]. destruct (decide (c o' = ch)) as [<-|Hne].
  - injection Hf as ->. split; [done|]. f_equal. destruct (decide (type o = perf_opt_boolean)) as [E|E].
    + rewrite (bool_decide_eq_true_2 _ E). simpl. destruct Hos as [|o2 os [H2 _] _]; [done|].
      simpl. apply bool_decide_eq_false. congruence.
    + by rewrite (bool_decide_eq_false_2 _ E).
  - destruct (IH Hf) as [Hch E]. split; [done|]. destruct (decide (type o' = perf_opt_boolean)); [done|].
    cbn [app takes_arg]. rewrite decide_False; [done|]. intros <-. by destruct Hch.
Qed.

(** The letters of a word, as a function of its own. *)
Definition scan (optstr : list Z) (rest : list (list Z)) : list Z → list (Z * list Z) * bool :=
  fix scan chars :=
    match chars with
    | [] => getopt optstr rest
    | ch :: chars' =>
        match (if decide (ch = 58)%Z then None else takes_arg optstr ch) with
        | None => let '(got, extra) := scan chars' in ((63%Z, []) :: got, extra)
        | Some false => let '(got, extra) := scan chars' in ((ch, []) :: got, extra)
        | Some true =>
            match chars', rest with
            | _ :: _, _ => let '(got, extra) := getopt optstr rest in ((ch, chars') :: got, extra)
            | [], arg :: rest' => let '(got, extra) := getopt optstr rest' in ((ch, arg) :: got, extra)
            | [], [] => ([(63%Z, [])], false)
            end
        end
    end.

Lemma getopt_scan optstr cluster rest :
  cluster ≠ [] → head cluster ≠ Some 45%Z → getopt optstr ((45%Z :: cluster) :: rest) = scan optstr rest cluster.
Proof.
  intros Hne Hh. destruct cluster as [|ch chars]; [done|]. cbn [getopt]. rewrite decide_False; [done|].
  intros [= -> _]. done.
Qed.

(** What comes before the rest of the answer. *)
Definition prepend (l : list (Z * list Z)) (r : list (Z * list Z) * bool) : list (Z * list Z) * bool := (l ++ r.1, r.2).

Lemma prepend_app l1 l2 r : prepend (l1 ++ l2) r = prepend l1 (prepend l2 r).
Proof. unfold prepend. simpl. by rewrite app_assoc. Qed.

Section read.
Context (os : list opt) (Hos : letters_ok os).

Lemma scan_flags fs chars rest :
  Forall (is_flag os) fs →
  scan (letters os) rest (fs ++ chars) = prepend (map (λ f, (f, [])) fs) (scan (letters os) rest chars).
Proof.
  induction 1 as [|f fs (o & Hf & Ho) Hfs IH]; [by destruct (scan _ _ _)|].
  destruct (takes_arg_letters os f o Hos Hf) as [[H58 _] E]. rewrite Ho in E. simpl in E.
  cbn [app map]. unfold scan at 1. fold (scan (letters os) rest). rewrite decide_False by done. rewrite E, IH. done.
Qed.

Lemma scan_arg ch arg rest :
  has_arg os ch →
  (arg ≠ [] → scan (letters os) rest (ch :: arg) = prepend [(ch, arg)] (getopt (letters os) rest)) ∧
  scan (letters os) (arg :: rest) [ch] = prepend [(ch, arg)] (getopt (letters os) rest).
Proof.
  intros (o & Hf & Ho). destruct (takes_arg_letters os ch o Hos Hf) as [[H58 _] E].
  rewrite (bool_decide_eq_false_2 _ Ho) in E. simpl in E. cbn [scan]. rewrite decide_False by done. rewrite E. split.
  - destruct arg; [done|]. intros _. by destruct (getopt _ rest).
  - by destruct (getopt _ rest).
Qed.

Lemma letter_no_dash ch o chars : find_opt ch os = Some o → head (ch :: chars) ≠ Some 45%Z.
Proof. intros Hf [= ->]. by destruct (takes_arg_letters os _ o Hos Hf) as [[_ ?] _]. Qed.

Lemma cluster_head fs chars :
  Forall (is_flag os) fs → (fs = [] → chars ≠ [] ∧ head chars ≠ Some 45%Z) →
  fs ++ chars ≠ [] ∧ head (fs ++ chars) ≠ Some 45%Z.
Proof.
  intros Hfs Hc. destruct Hfs as [|f fs (o & Hf & _) _]; [by apply Hc|]. split; [done|]. by eapply (letter_no_dash f).
Qed.

Lemma getopt_word w rest :
  word_ok os w → getopt (letters os) (word_args w ++ rest) = prepend (word_options w) (getopt (letters os) rest).
Proof.
  destruct w as [fs|fs ch arg|fs ch arg]; cbn [word_args word_options app].
  - intros [Hne Hfs]. destruct (cluster_head fs [] Hfs) as [H1 H2]; [done|]. rewrite app_nil_r in H1, H2.
    rewrite getopt_scan by done. rewrite <- (app_nil_r fs) at 1. by rewrite scan_flags.
  - intros (Hfs & Hch & Harg). destruct (cluster_head fs (ch :: arg) Hfs) as [H1 H2].
    { intros _. destruct Hch as (o & Hf & _). split; [done|]. by eapply letter_no_dash. }
    rewrite getopt_scan, scan_flags, prepend_app by done. f_equal. by apply scan_arg.
  - intros (Hfs & Hch). destruct (cluster_head fs [ch] Hfs) as [H1 H2].
    { intros _. destruct Hch as (o & Hf & _). split; [done|]. by eapply letter_no_dash. }
    rewrite getopt_scan, scan_flags, prepend_app by done. f_equal. by apply scan_arg.
Qed.

Lemma getopt_words ws :
  Forall (word_ok os) ws →
  getopt (letters os) (concat (map word_args ws)) = (concat (map word_options ws), false).
Proof.
  induction 1 as [|w ws Hw Hws IH]; [done|]. cbn [map concat]. rewrite getopt_word by done. by rewrite IH.
Qed.
End read.

(** ** Reading a command line *)

Section meaning.
Context {F : Type} (atof : list Z → F) (micros : F → Z).

(** The value of an argument of an option of a type. *)
Definition value_of (ty : perf_opttype) (arg : list Z) : run (optval (F := F)) :=
  match ty with
  | perf_opt_string => Done (VString arg)
  | perf_opt_boolean => Done (VBool true)
  | perf_opt_uint => n ← parse_uint arg 1 0xFFFFFFFF; Done (VUint n)
  | perf_opt_zpint => n ← parse_uint arg 0 0xFFFFFFFF; Done (VUint n)
  | perf_opt_timeval => t ← parse_timeval atof micros arg; Done (VUint64 t)
  | perf_opt_double => d ← parse_double atof arg; Done (VDouble d)
  | perf_opt_port => n ← parse_uint arg 0 0xFFFF; Done (VPort n)
  end.

Lemma assign_value ty p arg v st :
  value_of ty arg = Done v → assign atof micros ty p arg st = Done ((), write p v st).
Proof.
  assert (∀ A (m : run A) (f : A → optval (F := F)), (x ← m; Done (f x)) = Done v →
    (x ← lift m; modify (write p (f x))) st = Done ((), write p v st)) as Hm.
  { intros A m f E. unfold mbind, M_bind, lift. destruct m; try done. by injection E as <-. }
  unfold value_of, assign. destruct ty; try (by intros [= <-]); intros E; by apply Hm.
Qed.

(** An option, with its argument, gives the variable at a place its value. *)
Inductive sets (st : optstate (F := F)) : Z * list Z → nat * optval (F := F) → Prop :=
| sets_short ch arg o v :
    find_opt ch (opts st) = Some o → ch ∉ map c help_opts → value_of (type o) arg = Done v →
    sets st (ch, arg) (valp o, v)
| sets_long nm arg o v :
    nm ≠ [] → Forall (λ x, x ≠ 0 ∧ x ≠ 61)%Z nm → char0 arg ≠ 0%Z →
    find_long (nm ++ 61%Z :: arg) (length nm) (longopts st) = Some o → value_of (ltype o) arg = Done v →
    sets st (79%Z, nm ++ 61%Z :: arg) (lvalp o, v)
| sets_long_flag nm o :
    Forall (λ x, x ≠ 0 ∧ x ≠ 61)%Z nm → find_long nm (length nm) (longopts st) = Some o → ltype o = perf_opt_boolean →
    sets st (79%Z, nm) (lvalp o, VBool true).

(** The store after a sequence of assignments: the last one to a place counts. *)
Definition apply_sets (vs : list (nat * optval (F := F))) (m : gmap nat (optval (F := F))) : gmap nat optval :=
  foldl (λ m pv, <[pv.1 := pv.2]> m) m vs.

Lemma find_opt_app ch os os' :
  find_opt ch (os ++ os') = match find_opt ch os with Some o => Some o | None => find_opt ch os' end.
Proof. induction os as [|o os IH]; [done|]. cbn [app find_opt]. by destruct (decide _). Qed.

Lemma long_parse_value arg nm o v st :
  find_long (nm ++ 61%Z :: arg) (length nm) (longopts st) = Some o →
  nm ≠ [] → Forall (λ x, x ≠ 0 ∧ x ≠ 61)%Z nm → char0 arg ≠ 0%Z → value_of (ltype o) arg = Done v →
  perf_opt_long_parse atof micros (nm ++ 61%Z :: arg) st = Done (true, write (lvalp o) v st).
Proof.
  intros Hf Hne Hnm Ha Hv. unfold perf_opt_long_parse. rewrite strchr_app by done. cbv zeta.
  replace (drop (S (length nm)) (nm ++ 61%Z :: arg)) with arg by (by rewrite <- (Nat.add_1_r (length nm)), drop_app_add).
  assert (strlen arg ≠ 0) as Hlen.
  { destruct arg as [|x arg]; [done|]. unfold char0 in Ha. simpl in Ha. unfold strlen. simpl.
    rewrite decide_False; [done|]. intros [?|H]; [done|by apply elem_of_nil in H]. }
  rewrite decide_False by (destruct nm; [done|]; simpl in *; intros [_ [?|?]]; [lia|done]).
  rewrite (bind_Done get _ _ _ _ eq_refl), Hf. rewrite (bind_Done _ _ _ _ _ (assign_value _ (lvalp o) _ _ st Hv)).
  by destruct (ltype o).
Qed.

Lemma long_parse_flag nm o st :
  find_long nm (length nm) (longopts st) = Some o → Forall (λ x, x ≠ 0 ∧ x ≠ 61)%Z nm → ltype o = perf_opt_boolean →
  perf_opt_long_parse atof micros nm st = Done (true, write (lvalp o) (VBool true) st).
Proof.
  intros Hf Hnm Ht. unfold perf_opt_long_parse.
  assert (strchr nm 61 = None) as ->.
  { unfold strchr. rewrite decide_False; [done|]. intros E. apply list_elem_of_lookup_2 in E.
    rewrite Forall_forall in Hnm. by destruct (Hnm _ E). }
  cbv zeta. rewrite decide_False by (intros [[? [=]] _]). rewrite (bind_Done get _ _ _ _ eq_refl).
  rewrite strlen_nz by (eapply Forall_impl; [exact Hnm|]; by intros x [? _]). rewrite Hf, Ht. reflexivity.
Qed.

(** The letter O is registered: the loop goes on when the long option was read. *)
Lemma opt_loop_long st arg got st' :
  help_opts ⊆ opts st → perf_opt_long_parse atof micros arg st = Done (true, st') →
  opt_loop atof micros ((79%Z, arg) :: got) st = opt_loop atof micros got st'.
Proof.
  intros Hin E. cbn [opt_loop]. rewrite (bind_Done get _ _ _ _ eq_refl).
  destruct (find_opt 79 (opts st)) as [o|] eqn:Ef.
  - rewrite decide_False, decide_True by lia. by rewrite (bind_Done _ _ _ _ _ E).
  - assert (∀ os o, o ∈ os → c o = 79%Z → find_opt 79 os ≠ None) as Hsome.
    { clear. intros os o Ho Hc. induction Ho as [os|o o' os Ho IH]; cbn [find_opt]; [by rewrite decide_True|].
      destruct (decide _); [done|by apply IH]. }
    exfalso. refine (Hsome _ (Opt 79 perf_opt_string None (bytes "set long options: <name>=<value>") None 0) (Hin _ _) eq_refl Ef).
    unfold help_opts. set_solver.
Qed.

Lemma opt_loop_sets st got vs :
  Forall2 (sets st) got vs → ∀ str m,
  opt_loop atof micros got (OptState (opts st ++ help_opts) (longopts st) str m) =
    Done ((), OptState (opts st ++ help_opts) (longopts st) str (apply_sets vs m)).
Proof.
  induction 1 as [|[ch arg] [p v] got vs Hs Hgot IH]; intros str m; [done|].
  change (apply_sets ((p, v) :: vs) m) with (apply_sets vs (<[p := v]> m)). rewrite <- (IH str (<[p := v]> m)).
  inversion Hs as [? ? o ? Hf Hn Hv|nm a o ? Hne Hnm Ha Hf Hv|nm o Hnm Hf Ht]; subst.
  - cbn [opt_loop]. rewrite (bind_Done get _ _ _ _ eq_refl). cbn [opts]. rewrite find_opt_app, Hf.
    unfold help_opts in Hn. simpl in Hn. rewrite !not_elem_of_cons in Hn. destruct Hn as (? & ? & ? & _).
    rewrite !decide_False by tauto. by rewrite (bind_Done _ _ _ _ _ (assign_value _ _ _ _ _ Hv)).
  - refine (opt_loop_long _ _ _ _ _ (long_parse_value _ _ _ _ (OptState _ (longopts st) _ _) Hf Hne Hnm Ha Hv)).
    simpl. set_solver.
  - refine (opt_loop_long _ _ _ _ _ (long_parse_flag _ _ (OptState _ (longopts st) _ _) Hf Hnm Ht)).
    simpl. set_solver.
Qed.

(** ** Usage *)

Definition LINE_LENGTH : Z := 80.

(** An option in the synopsis, and the room [perf_opt_usage] takes it to need. *)
Definition usage_item (o : opt) : list Z :=
  bytes " [-" ++ [c o] ++ match desc o with Some d => bytes " " ++ d | None => [] end ++ bytes "]".
Definition arg_len (o : opt) : Z :=
  u32 (6 + match desc o with Some d => Z.of_nat (length d) + 1 | None => 0 end).

(** The first loop of [perf_opt_usage]. *)
Fixpoint synopsis (prefix_len position : Z) (os : list opt) : list Z :=
  match os with
  | [] => []
  | o :: os' =>
      if decide (u32 (LINE_LENGTH - position - 1) < arg_len o)%Z then
        nl ++ replicate (Z.to_nat prefix_len) 32%Z ++ usage_item o ++
        synopsis prefix_len (u32 (prefix_len + arg_len o)) os'
      else usage_item o ++ synopsis prefix_len (u32 (position + arg_len o)) os'
  end.

Definition show_default (d : option (list Z)) : list Z :=
  match d with Some d => bytes " (default: " ++ d ++ bytes ")" | None => [] end ++ nl.
Definition help_line (o : opt) : list Z :=
  bytes "  -" ++ [c o] ++ bytes " " ++ help o ++ show_default (defval o).

(** [perf_opt_usage]: what is written to stderr. *)
Definition perf_opt_usage (progname : list Z) (os : list opt) : list Z :=
  let prefix := bytes "Usage: " ++ progname in
  let prefix_len := u32 (Z.of_nat (length prefix)) in
  prefix ++ synopsis prefix_len prefix_len os ++ nl ++ concat (map help_line os).

Definition long_help_line (o : long_opt) : list Z :=
  bytes "  " ++ name o ++
  (if decide (ltype o = perf_opt_boolean) then bytes ": "
   else bytes "=<" ++ default (bytes "val") (ldesc o) ++ bytes ">: ") ++
  lhelp o ++ show_default (ldefval o).

(** [perf_long_opt_usage]. *)
Definition perf_long_opt_usage (progname : list Z) (los : list long_opt) : list Z :=
  bytes "Usage: " ++ progname ++ bytes " ... -O <name>[=<value>] ..." ++ nl ++ nl ++ bytes "Available long options:" ++ nl ++
  concat (map long_help_line los).

(** The options of one line. *)
Definition items (os : list opt) : list Z := concat (map usage_item os).

Lemma items_cons o os : items (o :: os) = usage_item o ++ items os.
Proof. done. Qed.

Lemma item_fits o : (0 ≤ arg_len o)%Z ∧
  (Z.of_nat (length (default [] (desc o))) < 2 ^ 31 → Z.of_nat (length (usage_item o)) ≤ arg_len o)%Z.
Proof.
  split; [apply u32_range|]. unfold arg_len, usage_item. destruct (desc o) as [d|]; cbn [default id]; intros Hd;
    rewrite u32_small by lia; rewrite !length_app; cbn [length];
    change (length (bytes " [-")) with 3; change (length (bytes " ")) with 1; change (length (bytes "]")) with 1; lia.
Qed.

Lemma synopsis_lines n p os :
  (0 ≤ n ≤ p)%Z → (p ≤ LINE_LENGTH - 1)%Z →
  Forall (λ o, Z.of_nat (length (default [] (desc o))) < 2 ^ 31 ∧ n + arg_len o ≤ LINE_LENGTH - 1)%Z os →
  ∃ g gs, os = g ++ concat gs ∧
    synopsis n p os = items g ++ concat (map (λ g, nl ++ replicate (Z.to_nat n) 32%Z ++ items g) gs) ∧
    (p + Z.of_nat (length (items g)) ≤ LINE_LENGTH - 1)%Z ∧
    Forall (λ g, n + Z.of_nat (length (items g)) ≤ LINE_LENGTH - 1)%Z gs.
Proof.
  unfold LINE_LENGTH. intros Hn Hp Hos. revert p Hn Hp. induction Hos as [|o os [Hd Ho] Hos IH]; intros p Hn Hp.
  { exists [], []. split_and!; [done|done|cbn; lia|constructor]. }
  destruct (item_fits o) as [H0 Hi]. specialize (Hi Hd). cbn [synopsis]. unfold LINE_LENGTH.
  rewrite (u32_small (80 - p - 1)) by lia.
  destruct (decide _) as [Hb|Hb]; rewrite u32_small by lia.
  - destruct (IH (n + arg_len o)%Z) as (g & gs & -> & E & Hg & Hgs); [lia..|]. exists [], ((o :: g) :: gs).
    split_and!; [done| |cbn; lia|].
    + rewrite E. cbn [map concat]. rewrite items_cons. change (items []) with (@nil Z). cbn [app]. by rewrite <- !app_assoc.
    + constructor; [|done]. rewrite items_cons, length_app. lia.
  - destruct (IH (p + arg_len o)%Z) as (g & gs & -> & E & Hg & Hgs); [lia..|]. exists (o :: g), gs.
    split_and!; [done| | |done].
    + rewrite E, items_cons. by rewrite <- !app_assoc.
    + rewrite items_cons, length_app. lia.
Qed.

(** ** Theorems *)

(** The usage message lists every option, in the order of registration, first in a synopsis
    broken into lines shorter than 80 characters, the following ones indented to the first
    option, then each with its help. *)
Theorem usage_wraps progname os :
  let prefix := bytes "Usage: " ++ progname in
  (Z.of_nat (length prefix) ≤ LINE_LENGTH - 1)%Z →
  Forall (λ o, Z.of_nat (length (default [] (desc o))) < 2 ^ 31 ∧
               Z.of_nat (length prefix) + arg_len o ≤ LINE_LENGTH - 1)%Z os →
  ∃ g gs, os = g ++ concat gs ∧
    perf_opt_usage progname os =
      (prefix ++ items g) ++ concat (map (λ g, nl ++ replicate (length prefix) 32%Z ++ items g) gs) ++ nl ++
      concat (map help_line os) ∧
    Forall (λ g, Z.of_nat (length prefix) + Z.of_nat (length (items g)) ≤ LINE_LENGTH - 1)%Z (g :: gs).
Proof.
  intros prefix Hp Hos. unfold LINE_LENGTH in Hp.
  destruct (synopsis_lines (Z.of_nat (length prefix)) (Z.of_nat (length prefix)) os) as (g & gs & E & Es & Hg & Hgs);
    [lia|done|done|]. exists g, gs. rewrite Nat2Z.id in Es. split_and!; [done| |by constructor].
  unfold perf_opt_usage. fold prefix. rewrite u32_small by lia. rewrite Es. by rewrite <- !app_assoc.
Qed.

(** A command line is read as it is meant: the options may be written in any style, flags
    sharing a dash, arguments attached or as words of their own, short or long; when each gives
    some variable a value, parsing ends well and the store has exactly these values, the last
    one where a variable was given several. *)
Theorem command_line_read st ws vs :
  length (opts st) + 3 ≤ MAX_OPTS → optstr_ok st → letters_ok (opts st) →
  Forall (word_ok (opts st ++ help_opts)) ws →
  Forall2 (sets st) (concat (map word_options ws)) vs →
  perf_opt_parse atof micros (argv (concat (map word_args ws))) st =
    Done ((), OptState (opts st ++ help_opts) (longopts st) (letters (opts st ++ help_opts)) (apply_sets vs (store st))).
Proof.
  intros Hl Ho Hlet Hws Hvs. rewrite opt_parse_unfold by done. unfold argv.
  assert (letters_ok (opts st ++ help_opts)) as Hall by (apply Forall_app; split; [done|by apply (bool_decide_unpack _)]).
  rewrite getopt_words by done. unfold with_help. by rewrite (bind_Done _ _ _ _ _ (opt_loop_sets st _ vs Hvs _ _)).
Qed.
End meaning.

(** [-vq 100 -T4 -O doh-uri=https://h/ -Olatency-histogram -q7]: the last value of [-q] counts. *)
Definition example_options : optstate (F := Z) :=
  let os :=
    [Opt 113 perf_opt_uint (Some (bytes "num_queries")) (bytes "the maximum number of queries outstanding") (Some (bytes "100")) 1;
     Opt 84 perf_opt_uint (Some (bytes "threads")) (bytes "the number of threads to run") None 2;
     Opt 118 perf_opt_boolean None (bytes "verbose") None 3] in
  OptState os
    [LongOpt (bytes "latency-histogram") perf_opt_boolean None (bytes "collect latency histograms") None 5;
     LongOpt (bytes "doh-uri") perf_opt_string (Some (bytes "doh_uri")) (bytes "the URI") None 4]
    (letters os) ∅.

Lemma command_line_read_witness :
  perf_opt_parse (λ _, 0%Z) id
    (argv [bytes "-vq"; bytes "100"; bytes "-T4"; bytes "-O"; bytes "doh-uri=https://h/"; bytes "-Olatency-histogram"; bytes "-q7"])
    example_options =
  Done ((), OptState (opts example_options ++ help_opts) (longopts example_options) (letters (opts example_options ++ help_opts))
    (apply_sets [(3, VBool true); (1, VUint 100); (2, VUint 4); (4, VString (bytes "https://h/")); (5, VBool true); (1, VUint 7)] ∅)).
Proof.
  set (o0 := Opt 0 perf_opt_string None [] None 0). set (l0 := LongOpt [] perf_opt_string None [] None 0).
  apply (command_line_read (λ _, 0%Z) id example_options
    [Separate [118%Z] 113 (bytes "100"); Attached [] 84 (bytes "4"); Separate [] 79 (bytes "doh-uri=https://h/");
     Attached [] 79 (bytes "latency-histogram"); Attached [] 113 (bytes "7")]).
  - apply (bool_decide_unpack _). exact I.
  - reflexivity.
  - apply (bool_decide_unpack _). exact I.
  - repeat (apply Forall_cons; split); try apply Forall_nil; repeat split; try done;
      try (eexists; split; [reflexivity|done]); repeat constructor; eexists; split; reflexivity.
  - repeat apply Forall2_cons_2; [..|apply Forall2_nil_2].
    + refine (sets_short _ _ example_options 118 [] (default o0 (opts example_options !! 2)) _ _ _ _); try done; by apply (bool_decide_unpack _).
    + refine (sets_short _ _ example_options 113 _ (default o0 (opts example_options !! 0)) _ _ _ _); try done; by apply (bool_decide_unpack _).
    + refine (sets_short _ _ example_options 84 _ (default o0 (opts example_options !! 1)) _ _ _ _); try done; by apply (bool_decide_unpack _).
    + refine (sets_long _ _ example_options (bytes "doh-uri") (bytes "https://h/") (default l0 (longopts example_options !! 1)) _ _ _ _ _ _);
        try done; by apply (bool_decide_unpack _).
    + refine (sets_long_flag _ _ example_options (bytes "latency-histogram") (default l0 (longopts example_options !! 0)) _ _ _);
        try done; by apply (bool_decide_unpack _).
    + refine (sets_short _ _ example_options 113 _ (default o0 (opts example_options !! 0)) _ _ _ _); try done; by apply (bool_decide_unpack _).
Defined.
