(* ===== verification/ParseUri.v ===== *)
(** * URIs for DNS over HTTPS (ext/parse_uri.c)

    [parse_uri] cuts an https URI into host, host with port, port and path.  The pointers of
    [struct URI] are offsets into the URI. *)

From S2P Require Import Prelude.

(** [struct URI]; [path] is [None] when it points to the constant ["/"]. *)
Record URI : Type := Uri {
  host : nat;
  path : option nat;
  pathlen : nat;
  hostport : nat;
  hostlen : nat;
  hostportlen : nat;
  port : Z;
}.

(** The first index from [i] on, among [n], at which [stop] holds of the character. *)
Fixpoint scan (uri : list Z) (stop : Z → bool) (n i : nat) : nat :=
  match n with
  | 0 => i
  | S n' => if stop (default 0%Z (uri !! i)) then i else scan uri stop n' (S i)
  end.

Definition is_one_of (delims : list Z) (c : Z) : bool := bool_decide (c ∈ delims).

(** The host, lines 44-66: its offset and length, the offset after it, and [ipv6addr]. *)
Definition uri_host (uri : list Z) (len : nat) : nat * nat * nat * nat :=
  if decide (uri !! 8 = Some 91%Z) then
    let i := scan uri (is_one_of [93]%Z) (len - 9) 9 in
    if decide (i < len) then (9, i - 9, S i, 1) else (9, 0, 9, 1)
  else
    let i := scan uri (is_one_of [58; 47; 63; 35]%Z) (len - 8) 8 in
    (8, i - 8, i, 0).

(** The loop over the digits of the port, lines 78-92. *)
Fixpoint uri_port (uri : list Z) (n i : nat) (p : Z) : option (Z * nat) :=
  match n with
  | 0 => Some (p, i)
  | S n' =>
      let ch := default 0%Z (uri !! i) in
      if is_one_of [47; 63; 35]%Z ch then Some (p, i)
      else if decide (48 ≤ ch ∧ ch ≤ 57)%Z then
        let p := (p * 10 + (ch - 48))%Z in
        if decide (65535 < p)%Z then None else uri_port uri n' (S i) p
      else None
  end.

(** [parse_uri(res, uri)]: [None] is -1. *)
Definition parse_uri (uri : list Z) : option URI :=
  let len := strlen uri in
  if decide (len < 9 ∨ take 8 uri ≠ bytes "https://") then None
  else
    let '(h, hl, offset, ipv6addr) := uri_host uri len in
    if decide (hl = 0) then None
    else
      match
        (if decide (offset < len ∧ uri !! offset = Some 58%Z) then
           match uri_port uri (len - S offset) (S offset) 0 with
           | Some (p, i) => if decide (p = 0)%Z then None else Some (p, i)
           | None => None
           end
         else Some (443%Z, offset))
      with
      | None => None
      | Some (p, offset) =>
          let i := scan uri (is_one_of [35]%Z) (len - offset) offset in
          let pl := if decide (i - offset = 0) then 1 else i - offset in
          let pt := if decide (i - offset = 0) then None else Some offset in
          Some (Uri h pt pl 8 hl (offset + ipv6addr - h) p)
      end.

(** The texts the fields stand for. *)
Definition slice (uri : list Z) (off len : nat) : list Z := take len (drop off uri).
Definition host_text (uri : list Z) (r : URI) : list Z := slice uri (host r) (hostlen r).
Definition hostport_text (uri : list Z) (r : URI) : list Z := slice uri (hostport r) (hostportlen r).
Definition path_text (uri : list Z) (r : URI) : list Z :=
  match path r with None => bytes "/" | Some p => slice uri p (pathlen r) end.

(** ** Scanning *)

Lemma scan_range uri stop n i : i ≤ scan uri stop n i ≤ i + n.
Proof.
  revert i. induction n as [|n IH]; intros i; simpl; [lia|]. destruct (stop _); [lia|]. specialize (IH (S i)). lia.
Qed.

(** Scanning over [a] up to a character that stops it, or to the end. *)
Lemma scan_app (pre a rest : list Z) stop n :
  Forall (λ ch, stop ch = false) a → n = length a + length rest →
  match rest with ch :: _ => stop ch = true | [] => True end →
  scan (pre ++ a ++ rest) stop n (length pre) = length pre + length a.
Proof.
  intros Ha. revert pre n. induction Ha as [|ch a Hch Ha IH]; intros pre n Hn Hrest.
  - simpl in *. destruct rest as [|ch rest]; simpl in *; subst n; [simpl; lia|].
    cbn [scan]. rewrite list_lookup_middle by done. simpl. rewrite Hrest. lia.
  - simpl in *. subst n. cbn [scan]. rewrite list_lookup_middle by done. simpl. rewrite Hch.
    specialize (IH (pre ++ [ch]) (length a + length rest) eq_refl Hrest).
    rewrite length_app, <- app_assoc in IH. simpl in IH.
    replace (S (length pre)) with (length pre + 1) by lia. rewrite IH. lia.
Qed.

Lemma slice_app (pre a rest : list Z) : slice (pre ++ a ++ rest) (length pre) (length a) = a.
Proof. unfold slice. rewrite drop_app_length. by rewrite take_app_length. Qed.

(** The port in decimal. *)
Lemma uri_port_digits (pre ds rest : list Z) n p :
  Forall (λ ch, is_digit ch = true) ds → n = length ds + length rest →
  match rest with ch :: _ => is_one_of [47; 63; 35]%Z ch = true | [] => True end →
  (0 ≤ p)%Z → let v := fst (strto_digits 10 ds p 0) in
  (v ≤ 65535)%Z →
  uri_port (pre ++ ds ++ rest) n (length pre) p = Some (v, length pre + length ds).
Proof.
  intros Hds. revert pre n p. induction Hds as [|ch ds Hch Hds IH]; intros pre n p Hn Hrest Hp v Hv.
  - unfold v. simpl in *. destruct rest as [|ch rest]; simpl in *; subst n; [simpl; by rewrite Nat.add_0_r|].
    cbn [uri_port]. rewrite list_lookup_middle by done. simpl. by rewrite Hrest, Nat.add_0_r.
  - simpl in *. subst n. cbn [uri_port]. rewrite list_lookup_middle by done.
    unfold is_digit in Hch. apply bool_decide_eq_true_1 in Hch. cbn [default from_option id].
    assert (is_one_of [47; 63; 35]%Z ch = false) as ->.
    { apply bool_decide_eq_false_2. rewrite !elem_of_cons, elem_of_nil. lia. }
    rewrite decide_True by lia. cbv zeta.
    assert (digit_val ch = Some (ch - 48)%Z) as Hdv by (unfold digit_val; by rewrite decide_True by lia).
    unfold v in Hv |- *. simpl in Hv |- *. rewrite Hdv, (decide_True (P := (ch - 48 < 10)%Z)) in Hv |- * by lia.
    assert (∀ ds q k, fst (strto_digits 10 ds q k) = fst (strto_digits 10 ds q 0)) as Hk.
    { clear. induction ds as [|d ds IH]; intros q k; simpl; [done|]. destruct (digit_val d); [|done].
      destruct (decide _); [|done]. by rewrite IH, (IH _ 1). }
    assert (∀ ds q k, (0 ≤ q)%Z → (q ≤ fst (strto_digits 10 ds q k))%Z) as Hmono.
    { clear. induction ds as [|d ds IH]; intros q k Hq; simpl; [lia|]. destruct (digit_val d) as [x|] eqn:E; [|simpl; lia].
      assert (0 ≤ x)%Z by (unfold digit_val in E; repeat case_decide; simplify_eq; lia).
      destruct (decide _); [|simpl; lia]. specialize (IH (q * 10 + x)%Z (S k) ltac:(lia)). lia. }
    pose proof (Hmono ds (p * 10 + (ch - 48))%Z 1 ltac:(lia)). rewrite decide_False by lia.
    specialize (IH (pre ++ [ch]) (length ds + length rest) (p * 10 + (ch - 48))%Z eq_refl Hrest ltac:(lia)).
    rewrite length_app, <- app_assoc in IH. simpl in IH. rewrite (Hk _ _ 1) in Hv |- *.
    replace (S (length pre)) with (length pre + 1) by lia. rewrite IH by done. do 2 f_equal. lia.
Qed.

(** ** URIs from their parts *)

(** The authority: a name or address, or an IPv6 address in brackets. *)
Inductive authority : Type := Plain (h : list Z) | V6 (h : list Z).

Definition auth_host (a : authority) : list Z := match a with Plain h | V6 h => h end.
Definition auth_text (a : authority) : list Z := match a with Plain h => h | V6 h => 91%Z :: h ++ [93%Z] end.

Definition auth_ok (a : authority) : Prop :=
  match a with
  | Plain h => h ≠ [] ∧ Forall (λ ch, is_one_of [58; 47; 63; 35]%Z ch = false) h ∧ char0 h ≠ 91%Z
  | V6 h => h ≠ [] ∧ Forall (λ ch, is_one_of [93]%Z ch = false) h
  end.

(** The port: none, or digits. *)
Definition port_text (ds : option (list Z)) : list Z := match ds with None => [] | Some ds => 58%Z :: ds end.
Definition port_value (ds : option (list Z)) : Z :=
  match ds with None => 443%Z | Some ds => fst (strto_digits 10 ds 0 0) end.
Definition port_ok (ds : option (list Z)) : Prop :=
  match ds with
  | None => True
  | Some ds => Forall (λ ch, is_digit ch = true) ds ∧ (1 ≤ port_value (Some ds) ≤ 65535)%Z
  end.

(** The path and the fragment. *)
Definition path_ok (p : list Z) : Prop :=
  Forall (λ ch, is_one_of [35]%Z ch = false) p ∧ (p = [] ∨ char0 p = 47%Z ∨ char0 p = 63%Z).
Definition frag_ok (f : list Z) : Prop := f = [] ∨ char0 f = 35%Z.

Definition uri_text (a : authority) (ds : option (list Z)) (p f : list Z) : list Z :=
  bytes "https://" ++ auth_text a ++ port_text ds ++ p ++ f.

(** What follows the port is the end, or a delimiter. *)
Lemma tail_delim p f delims :
  path_ok p → frag_ok f → {[47; 63; 35]}%Z ⊆ (list_to_set delims : gset Z) →
  match p ++ f with ch :: _ => is_one_of delims ch = true | [] => True end.
Proof.
  intros [_ Hp] Hf Hd. assert (∀ ch, (ch = 47 ∨ ch = 63 ∨ ch = 35)%Z → is_one_of delims ch = true) as Hin.
  { intros ch Hch. apply bool_decide_eq_true_2. rewrite <- (elem_of_list_to_set (C := gset Z)). set_solver. }
  destruct p as [|ch p]; simpl.
  - destruct Hf as [->|Hf]; [done|]. destruct f as [|ch f]; [done|]. apply Hin. change (char0 (ch :: f)) with ch in Hf. lia.
  - destruct Hp as [?|Hp]; [done|]. apply Hin. change (char0 (ch :: p)) with ch in Hp. lia.
Qed.

(** The port and the path after a prefix that ends with the host. *)
Lemma after_host pre ds p f n6 h hl :
  port_ok ds → path_ok p → frag_ok f →
  let uri := pre ++ port_text ds ++ p ++ f in
  let len := length uri in
  ∃ i, i = length pre + length (port_text ds) ∧
  match
    (if decide (length pre < len ∧ uri !! length pre = Some 58%Z) then
       match uri_port uri (len - S (length pre)) (S (length pre)) 0 with
       | Some (p, i) => if decide (p = 0)%Z then None else Some (p, i)
       | None => None
       end
     else Some (443%Z, length pre))
  with
  | None => None
  | Some (p, offset) =>
      let i := scan uri (is_one_of [35]%Z) (len - offset) offset in
      let pl := if decide (i - offset = 0) then 1 else i - offset in
      let pt := if decide (i - offset = 0) then None else Some offset in
      Some (Uri h pt pl 8 hl (offset + n6 - h) p)
  end = Some (Uri h (if decide (p = []) then None else Some i) (if decide (p = []) then 1 else length p)
                8 hl (i + n6 - h) (port_value ds)).
Proof.
  intros Hds Hp Hf uri len. exists (length pre + length (port_text ds)). split; [done|].
  assert (scan uri (is_one_of [35]%Z) (len - (length pre + length (port_text ds))) (length pre + length (port_text ds))
          = length pre + length (port_text ds) + length p) as Hscan.
  { unfold len, uri. rewrite (app_assoc pre), <- (length_app pre (port_text ds)). apply scan_app; [apply Hp| |].
    - rewrite !length_app. lia.
    - destruct Hf as [->|Hf]; [done|]. destruct f as [|ch f]; [done|].
      change (char0 (ch :: f)) with ch in Hf. subst ch. done. }
  assert (∀ A (x y : A), (if decide (length p = 0) then x else y) = if decide (p = []) then x else y) as Hpd.
  { intros A x y. destruct p; [done|]. by rewrite !decide_False. }
  destruct ds as [ds|].
  - destruct Hds as [Hdig Hval].
    assert (uri !! length pre = Some 58%Z) as Hl by (by apply (list_lookup_middle pre (ds ++ p ++ f))).
    rewrite decide_True by (split; [by eapply lookup_lt_Some|done]).
    assert (uri_port uri (len - S (length pre)) (S (length pre)) 0 = Some (port_value (Some ds), length pre + S (length ds)))
      as ->.
    { unfold len, uri. simpl port_text. replace (pre ++ (58%Z :: ds) ++ p ++ f) with ((pre ++ [58%Z]) ++ ds ++ (p ++ f))
        by (by rewrite <- !app_assoc).
      replace (S (length pre)) with (length (pre ++ [58%Z])) by (rewrite length_app; simpl; lia).
      rewrite (uri_port_digits (pre ++ [58%Z]) ds (p ++ f)); [|done| | |lia|by destruct Hval].
      - do 2 f_equal. rewrite length_app. simpl. lia.
      - rewrite !length_app. lia.
      - apply tail_delim; [done|done|set_solver]. }
    rewrite decide_False by lia. cbn [port_text length] in Hscan |- *. cbv zeta. rewrite Hscan.
    replace (length pre + S (length ds) + length p - (length pre + S (length ds))) with (length p) by lia.
    by rewrite !Hpd.
  - simpl in *. rewrite Nat.add_0_r in *. rewrite decide_False.
    + cbv zeta. rewrite Hscan. replace (length pre + length p - length pre) with (length p) by lia. by rewrite !Hpd.
    + intros [Hlt Hl]. unfold uri in Hl. rewrite lookup_app_r, Nat.sub_diag in Hl by lia.
      pose proof (tail_delim p f [47; 63; 35]%Z Hp Hf ltac:(set_solver)) as Ht.
      destruct (p ++ f) as [|ch t]; [done|]. simpl in Hl. injection Hl as ->. by vm_compute in Ht.
Qed.

(** The host and where it ends; [n6] counts the opening bracket. *)
Lemma host_of_uri a ds p f :
  auth_ok a → path_ok p → frag_ok f →
  let uri := uri_text a ds p f in
  ∃ n6, uri_host uri (length uri) =
    (8 + n6, length (auth_host a), length (bytes "https://" ++ auth_text a), n6) ∧ n6 ≤ 1 ∧
    slice uri (8 + n6) (length (auth_host a)) = auth_host a.
Proof.
  intros Ha Hp Hf uri.
  destruct a as [h|h]; cbn [auth_host auth_text auth_ok] in *.
  - destruct Ha as (Hne & Hh & H91). exists 0. split; [|split; [lia|]].
    + unfold uri_host. rewrite decide_False.
      2:{ unfold uri, uri_text. rewrite lookup_app_r by (simpl; lia). simpl. destruct h as [|ch h]; [done|].
          simpl. by intros [= ->]. }
      unfold uri, uri_text. cbn [auth_text]. rewrite scan_app; [| |rewrite !length_app; simpl; lia|].
      * rewrite !length_app. f_equal. f_equal. f_equal. simpl. lia.
      * done.
      * destruct ds as [ds|]; [done|]. apply (tail_delim p f); [done|done|set_solver].
    + apply (slice_app (bytes "https://")).
  - destruct Ha as [Hne Hh]. exists 1.
    assert (uri = (bytes "https://" ++ [91%Z]) ++ h ++ (93%Z :: port_text ds ++ p ++ f)) as Eu.
    { unfold uri, uri_text. cbn [auth_text]. by rewrite <- !app_assoc, <- app_comm_cons, <- !app_assoc. }
    split; [|split; [lia|]].
    + unfold uri_host. rewrite decide_True by (by rewrite Eu).
      assert (scan uri (is_one_of [93%Z]) (length uri - 9) 9 = 9 + length h) as ->.
      { rewrite Eu. apply (scan_app (bytes "https://" ++ [91%Z])); [done| |done].
        rewrite !length_app. simpl. lia. }
      rewrite decide_True by (rewrite Eu, !length_app; simpl; lia).
      rewrite !length_app. cbn [length]. rewrite length_app. simpl. f_equal. f_equal; [f_equal|]; lia.
    + rewrite Eu. apply (slice_app (bytes "https://" ++ [91%Z])).
Qed.

(** an https URI built from its parts is taken apart again: the host (without the brackets
    of an IPv6 address), the host with the port as written, the port or 443, and the path with
    the query but without the fragment, or [/]. *)
Theorem parse_uri_parts a ds p f :
  auth_ok a → port_ok ds → path_ok p → frag_ok f → Forall (λ ch, ch ≠ 0%Z) (uri_text a ds p f) →
  let uri := uri_text a ds p f in
  ∃ r, parse_uri uri = Some r ∧ host_text uri r = auth_host a ∧
       hostport_text uri r = auth_text a ++ port_text ds ∧ port r = port_value ds ∧
       path_text uri r = (if decide (p = []) then bytes "/" else p).
Proof.
  intros Ha Hds Hp Hf Hnz uri.
  assert (strlen uri = length uri) as Hlen by (by apply strlen_nz).
  assert (9 ≤ length uri) as H9.
  { unfold uri, uri_text. rewrite !length_app. simpl.
    destruct a as [h|h]; destruct Ha as [Hne _]; destruct h; simpl; try done; lia. }
  pose proof (after_host (bytes "https://" ++ auth_text a) ds p f) as Haft. cbv zeta in Haft.
  rewrite <- !app_assoc in Haft. fold (uri_text a ds p f) in Haft. fold uri in Haft.
  destruct (host_of_uri a ds p f Ha Hp Hf) as (n6 & Hh & Hn6 & Hslice). fold uri in Hh, Hslice.
  destruct (Haft n6 (8 + n6) (length (auth_host a)) Hds Hp Hf) as (i & Hi & Hr).
  eexists. split.
  - unfold parse_uri. cbv zeta. rewrite Hlen. rewrite (decide_False (P := length uri < 9 ∨ _)).
    2:{ intros [?|Hn]; [lia|]. apply Hn. reflexivity. }
    rewrite Hh. rewrite (decide_False (P := length (auth_host a) = 0)).
    2:{ destruct a as [h|h]; destruct Ha as [Hne _]; by destruct h. }
    exact Hr.
  - unfold host_text, hostport_text, path_text. cbn [host hostlen hostport hostportlen port path pathlen].
    refine (conj Hslice (conj _ (conj eq_refl _))).
    + rewrite Hi, length_app.
      replace (length (bytes "https://") + length (auth_text a) + length (port_text ds) + n6 - (8 + n6))
        with (length (auth_text a ++ port_text ds)) by (rewrite length_app; simpl; lia).
      unfold uri, uri_text. rewrite (app_assoc (auth_text a)). apply (slice_app (bytes "https://")).
    + destruct (decide (p = [])) as [|Hne]; [done|]. rewrite Hi, <- length_app.
      assert (uri = ((bytes "https://" ++ auth_text a) ++ port_text ds) ++ p ++ f) as ->
        by (unfold uri, uri_text; by rewrite <- !app_assoc).
      apply slice_app.
Qed.

Lemma parse_uri_parts_witness :
  ∃ r, parse_uri (bytes "https://[::1]:8443/dns-query?x#y") = Some r ∧
       host_text (bytes "https://[::1]:8443/dns-query?x#y") r = bytes "::1" ∧ port r = 8443%Z.
Proof.
  destruct (parse_uri_parts (V6 (bytes "::1")) (Some (bytes "8443")) (bytes "/dns-query?x") (bytes "#y"))
    as (r & E & Hh & _ & Hp & _).
  - split; [discriminate|]. by apply (bool_decide_unpack _).
  - split; [by apply (bool_decide_unpack _)|]. by vm_compute.
  - split; [by apply (bool_decide_unpack _)|]. right. left. reflexivity.
  - right. reflexivity.
  - by apply (bool_decide_unpack _).
  - exists r. split; [exact E|]. split; [exact Hh|]. rewrite Hp. reflexivity.
Defined.

Lemma uri_port_range uri n i p q j :
  uri_port uri n i p = Some (q, j) → (0 ≤ p ≤ 65535)%Z → (0 ≤ q ≤ 65535)%Z ∧ i ≤ j ≤ i + n.
Proof.
  revert i p. induction n as [|n IH]; intros i p H Hp; simpl in H; [simplify_eq; lia|].
  destruct (is_one_of _ _); [simplify_eq; lia|]. destruct (decide _); [|done]. cbv zeta in H.
  destruct (decide (65535 < _)%Z); [done|]. apply IH in H as [??]; lia.
Qed.

(** whatever text is given, an accepted URI has its host, its host with port and its path
    within the text, and a port from 1 to 65535. *)
Theorem parse_uri_bounds uri r :
  parse_uri uri = Some r →
  host r + hostlen r ≤ strlen uri ∧ 0 < hostlen r ∧ hostport r + hostportlen r ≤ strlen uri ∧
  match path r with Some p => p + pathlen r ≤ strlen uri | None => pathlen r = 1 end ∧
  (1 ≤ port r ≤ 65535)%Z.
Proof.
  unfold parse_uri. set (len := strlen uri). destruct (decide (len < 9 ∨ _)) as [|Hok]; [done|].
  destruct (uri_host uri len) as [[[h hl] off] n6] eqn:Eh.
  assert (hl = 0 ∨ (h + hl ≤ len ∧ off ≤ len ∧ h = 8 + n6 ∧ h + hl ≤ off)) as Hh.
  { unfold uri_host in Eh. destruct (decide (uri !! 8 = _)).
    - pose proof (scan_range uri (is_one_of [93]%Z) (len - 9) 9).
      destruct (decide (scan uri (is_one_of [93]%Z) (len - 9) 9 < len)); injection Eh as <- <- <- <-; [right|by left]. lia.
    - pose proof (scan_range uri (is_one_of [58; 47; 63; 35]%Z) (len - 8) 8). injection Eh as <- <- <- <-. right. lia. }
  destruct (decide (hl = 0)) as [|Hhl]; [done|]. destruct Hh as [?|(H1 & H2 & -> & H4)]; [done|].
  set (m := if decide (off < len ∧ _) then _ else _).
  assert (match m with Some (p, o) => (1 ≤ p ≤ 65535)%Z ∧ off ≤ o ≤ len | None => True end) as Hm.
  { unfold m. destruct (decide _) as [[Hlt _]|]; [|lia].
    destruct (uri_port uri (len - S off) (S off) 0) as [[p o]|] eqn:Ep; [|done].
    apply uri_port_range in Ep as [??]; [|lia]. destruct (decide (p = 0)%Z); [done|]. lia. }
  destruct m as [[p o]|]; [|done]. destruct Hm as [Hp Ho].
  pose proof (scan_range uri (is_one_of [35]%Z) (len - o) o) as Hs.
  intros [= <-]. cbn [host hostlen hostport hostportlen port path pathlen].
  split_and!; [lia|lia|lia| |lia|lia].
  destruct (decide _); lia.
Qed.

Lemma parse_uri_bounds_witness :
  ∃ r, parse_uri (bytes "https://localhost/dns-query") = Some r ∧ host r + hostlen r ≤ 27.
Proof.
  destruct (parse_uri (bytes "https://localhost/dns-query")) as [r|] eqn:E; [|by vm_compute in E].
  exists r. split; [reflexivity|]. exact (proj1 (parse_uri_bounds _ r E)).
Defined.
