(* ===== verification/Net.v ===== *)
(** * Addresses, modes and waiting (net.c, os.c)

    Socket addresses with the port in network order, the choice of the server and local
    address, the local port of each client, and the conversion of timeouts for [poll].  What
    [getaddrinfo], [inet_pton] and [poll] return is an argument. *)

From S2P Require Import Prelude.

Inductive perf_net_mode : Set :=
| sock_none | sock_file | sock_pipe | sock_udp | sock_tcp | sock_dot | sock_doh.

#[export] Instance perf_net_mode_eq_dec : EqDecision perf_net_mode.
Proof. solve_decision. Defined.

Inductive family : Set := AF_UNSPEC | AF_INET | AF_INET6 | AF_OTHER.

#[export] Instance family_eq_dec : EqDecision family.
Proof. solve_decision. Defined.

(** [perf_net_parsemode(mode)]. *)
Definition perf_net_parsemode (mode : list Z) : run perf_net_mode :=
  if strcmp_eq mode (bytes "udp") then Done sock_udp
  else if strcmp_eq mode (bytes "tcp") then Done sock_tcp
  else if strcmp_eq mode (bytes "tls") || strcmp_eq mode (bytes "dot") then Done sock_dot
  else if strcmp_eq mode (bytes "doh") then Done sock_doh
  else Exit 1.

(** [perf_net_parsefamily(family)]. *)
Definition perf_net_parsefamily (fam : option (list Z)) : run family :=
  match fam with
  | None => Done AF_UNSPEC
  | Some f =>
      if strcmp_eq f (bytes "any") then Done AF_UNSPEC
      else if strcmp_eq f (bytes "inet") then Done AF_INET
      else if strcmp_eq f (bytes "inet6") then Done AF_INET6
      else Exit 1
  end.

(** [perf_sockaddr_t]: the family, the address and the two bytes of the port. *)
Record perf_sockaddr : Type := Sockaddr {
  sa_family : family;
  sa_addr : list Z;
  sa_port : list Z;
}.

Definition perf_sockaddr_fromin (addr : list Z) (port : Z) : perf_sockaddr :=
  Sockaddr AF_INET addr (be16 (u16 port)).
Definition perf_sockaddr_fromin6 (addr : list Z) (port : Z) : perf_sockaddr :=
  Sockaddr AF_INET6 addr (be16 (u16 port)).

(** [ntohs] of the stored port. *)
Definition port_of_bytes (bs : list Z) : Z := rd16 (default 0%Z (bs !! 0)) (default 0%Z (bs !! 1)).

Definition perf_sockaddr_port (sa : perf_sockaddr) : Z :=
  match sa_family sa with
  | AF_INET | AF_INET6 => port_of_bytes (sa_port sa)
  | _ => 0%Z
  end.

Definition perf_sockaddr_setport (sa : perf_sockaddr) (port : Z) : perf_sockaddr :=
  match sa_family sa with
  | AF_INET | AF_INET6 => Sockaddr (sa_family sa) (sa_addr sa) (be16 (u16 port))
  | _ => sa
  end.

(** [perf_sockaddr_format(sockaddr, buf, len)]: [inet_ntop] writes the address into the buffer. *)
Definition perf_sockaddr_format (inet_ntop : family → list Z → list Z) (sockaddr : perf_sockaddr) : list Z :=
  match sa_family sockaddr with
  | AF_INET | AF_INET6 => inet_ntop (sa_family sockaddr) (sa_addr sockaddr)
  | _ => []
  end.

(** The loop of [perf_net_parseserver] over the addresses of the name. *)
Fixpoint server_loop (fam : family) (ais : list (family * list Z)) (port : Z) : option perf_sockaddr :=
  match ais with
  | [] => None
  | (f, a) :: ais' =>
      if decide (f = fam ∨ fam = AF_UNSPEC) then
        match f with
        | AF_INET => Some (perf_sockaddr_fromin a port)
        | AF_INET6 => Some (perf_sockaddr_fromin6 a port)
        | _ => server_loop fam ais' port
        end
      else server_loop fam ais' port
  end.

(** [perf_net_parseserver(family, name, port, addr)]; [ai] is what [getaddrinfo] found. *)
Definition perf_net_parseserver (fam : family) (ai : option (list (family * list Z))) (port : Z)
    : run perf_sockaddr :=
  match ai with
  | None => Exit 1
  | Some ais => match server_loop fam ais port with Some a => Done a | None => Exit 1 end
  end.

Definition INADDR_ANY : list Z := replicate 4 0%Z.
Definition in6addr_any : list Z := replicate 16 0%Z.

(** [perf_net_parselocal(family, name, port, addr)]; [pton4] and [pton6] are the results of
    [inet_pton] on the name. *)
Definition perf_net_parselocal (fam : family) (named : bool) (pton4 pton6 : option (list Z)) (port : Z)
    : run perf_sockaddr :=
  if named then
    match pton4, pton6 with
    | Some a, _ => Done (perf_sockaddr_fromin a port)
    | None, Some a => Done (perf_sockaddr_fromin6 a port)
    | None, None => Exit 1
    end
  else
    match fam with
    | AF_INET => Done (perf_sockaddr_fromin INADDR_ANY port)
    | AF_INET6 => Done (perf_sockaddr_fromin6 in6addr_any port)
    | _ => Exit 1
    end.

(** [perf_net_opensocket(mode, server, local, offset, ...)] up to the call of the transport:
    the transport and the local address it is given. *)
Definition perf_net_opensocket (mode : perf_net_mode) (server local : perf_sockaddr) (offset : Z)
    : run (perf_net_mode * perf_sockaddr) :=
  if decide (sa_family server ≠ sa_family local) then Exit 1
  else
    let port := perf_sockaddr_port local in
    tmp ← (if decide (port ≠ 0 ∧ offset ≠ 0)%Z then
             let port := s32 (port + offset) in
             if decide (0xFFFF ≤ port)%Z then Exit 1 else Done (perf_sockaddr_setport local port)
           else Done local);
    match mode with
    | sock_udp | sock_tcp | sock_dot | sock_doh => Done (mode, tmp)
    | _ => Exit 1
    end.

(** ** Waiting *)

(** The timeout for [poll], in milliseconds, from microseconds; the division truncates. *)
Definition poll_timeout (timeout : Z) : Z :=
  if decide (timeout < 0)%Z then (-1)%Z
  else
    let to := s32 (Z.quot timeout 1000) in
    if decide (timeout ≠ 0 ∧ to = 0)%Z then 1%Z else to.

(** What [poll] returned: an error that is [EINTR] or not, nothing, or descriptors with
    whether the pipe is among them. *)
Inductive poll_result : Set := PollErr (eintr : bool) | PollNone | PollReady (pipe : bool).

(** The end of [perf_os_waituntilanyreadable] and of [perf_os_waituntilanywritable]. *)
Definition poll_outcome (r : poll_result) : run perf_result :=
  match r with
  | PollErr true => Done PERF_R_CANCELED
  | PollErr false => Exit 1
  | PollNone => Done PERF_R_TIMEDOUT
  | PollReady true => Done PERF_R_CANCELED
  | PollReady false => Done PERF_R_SUCCESS
  end.

(** [perf_os_waituntilanyreadable(socks, nfds, pipe_fd, timeout)]; [more] tells for each socket
    whether it has buffered data, and [poll] is asked with the timeout. *)
Definition perf_os_waituntilanyreadable (more : list bool) (timeout : Z) (poll : Z → poll_result)
    : run perf_result :=
  if existsb id more then Done PERF_R_SUCCESS else poll_outcome (poll (poll_timeout timeout)).

Definition perf_os_waituntilanywritable (timeout : Z) (poll : Z → poll_result) : run perf_result :=
  poll_outcome (poll (poll_timeout timeout)).

(** ** Theorems *)

Lemma port_of_be16 p : (0 ≤ p)%Z → port_of_bytes (be16 p) = p.
Proof. intros. unfold port_of_bytes, be16. simpl. by apply rd16_be16. Qed.

Lemma setport_port sa p :
  sa_family sa = AF_INET ∨ sa_family sa = AF_INET6 → (0 ≤ p < 65536)%Z →
  perf_sockaddr_port (perf_sockaddr_setport sa p) = p ∧ sa_addr (perf_sockaddr_setport sa p) = sa_addr sa.
Proof.
  intros Hf Hp. unfold perf_sockaddr_port, perf_sockaddr_setport.
  destruct Hf as [E|E]; rewrite E; simpl; rewrite ?E; (split; [|done]); rewrite u16_small by done;
    apply port_of_be16; lia.
Qed.

Lemma fromin_port addr p :
  (0 ≤ p < 65536)%Z →
  perf_sockaddr_port (perf_sockaddr_fromin addr p) = p ∧ perf_sockaddr_port (perf_sockaddr_fromin6 addr p) = p.
Proof.
  intros Hp. unfold perf_sockaddr_port, perf_sockaddr_fromin, perf_sockaddr_fromin6. cbn [sa_family sa_port].
  rewrite u16_small by done. split; apply port_of_be16; lia.
Qed.

(** each client of a run with a fixed local port gets a port of its own: client number
    [offset] sends from [base + offset]; the process ends before a number of 65535 or more is
    used.  Without a fixed port the system chooses. *)
Theorem net_client_ports mode server local base offset :
  sa_family server = sa_family local → sa_family local = AF_INET ∨ sa_family local = AF_INET6 →
  mode ∈ [sock_udp; sock_tcp; sock_dot; sock_doh] →
  perf_sockaddr_port local = base → (0 ≤ base < 65536)%Z → (0 ≤ offset < 2 ^ 30)%Z →
  match perf_net_opensocket mode server local offset with
  | Done (m, a) =>
      m = mode ∧ sa_addr a = sa_addr local ∧
      perf_sockaddr_port a = (if decide (base = 0)%Z then 0 else base + offset)%Z ∧
      (base ≠ 0 → offset ≠ 0 → base + offset < 65535)%Z
  | Exit c => c = 1%Z ∧ (base ≠ 0 ∧ 65535 ≤ base + offset)%Z
  | _ => False
  end.
Proof.
  intros Hsl Hf Hm Hb Hbase Hoff. unfold perf_net_opensocket. rewrite decide_False by (by intros []).
  rewrite Hb. cbv zeta.
  assert (s32 (base + offset) = base + offset)%Z as -> by (unfold s32, swrap; rewrite Z.mod_small by lia; lia).
  assert (∀ a : perf_sockaddr, match mode with
    | sock_udp | sock_tcp | sock_dot | sock_doh => Done (mode, a) | _ => Exit 1 end = Done (mode, a)) as Hmode.
  { intros a. rewrite !elem_of_cons, elem_of_nil in Hm. by destruct Hm as [->|[->|[->|[->|[]]]]]. }
  destruct (decide (base ≠ 0 ∧ offset ≠ 0)%Z) as [[H0 Ho]|H0].
  - destruct (decide (0xFFFF ≤ base + offset)%Z); [simpl; lia|]. cbn [mbind run_bind]. rewrite Hmode.
    destruct (setport_port local (base + offset) Hf ltac:(lia)) as [-> ->]. rewrite decide_False by done.
    split_and!; [done|done|done|lia].
  - cbn [mbind run_bind]. rewrite Hmode, Hb. split_and!; [done|done| |lia]. destruct (decide (base = 0)%Z); lia.
Qed.

Lemma net_client_ports_witness :
  match perf_net_opensocket sock_udp (perf_sockaddr_fromin [127; 0; 0; 1]%Z 53) (perf_sockaddr_fromin INADDR_ANY 1024) 3 with
  | Done (m, a) => m = sock_udp ∧ sa_addr a = INADDR_ANY ∧ perf_sockaddr_port a = 1027%Z ∧
                   (1024 ≠ 0 → 3 ≠ 0 → 1027 < 65535)%Z
  | Exit c => c = 1%Z ∧ (1024 ≠ 0 ∧ 65535 ≤ 1027)%Z
  | _ => False
  end.
Proof.
  apply (net_client_ports sock_udp (perf_sockaddr_fromin [127; 0; 0; 1]%Z 53) (perf_sockaddr_fromin INADDR_ANY 1024) 1024 3);
    [reflexivity|left; reflexivity|by left|reflexivity|lia|lia].
Defined.

(** Port 65535 can be used by a single client but is refused as the port of a later one. *)
Theorem net_last_port_refused :
  perf_net_opensocket sock_udp (perf_sockaddr_fromin [127; 0; 0; 1]%Z 53) (perf_sockaddr_fromin INADDR_ANY 65534) 1 = Exit 1 ∧
  ∃ a, perf_net_opensocket sock_udp (perf_sockaddr_fromin [127; 0; 0; 1]%Z 53) (perf_sockaddr_fromin INADDR_ANY 65535) 0 =
         Done (sock_udp, a) ∧ perf_sockaddr_port a = 65535%Z.
Proof. split; [done|]. eexists. split; [reflexivity|]. done. Qed.

(** a wait never spins and never waits longer than asked by more than a millisecond: a
    negative timeout waits for ever, zero does not wait, and any other waits for at least one
    millisecond and at most the time rounded down to milliseconds, or one. *)
Theorem poll_timeout_rounds timeout :
  (timeout < 1000 * 2 ^ 31)%Z →
  (timeout < 0 ∧ poll_timeout timeout = -1 ∨
   timeout = 0 ∧ poll_timeout timeout = 0 ∨
   0 < timeout ∧ poll_timeout timeout = Z.max 1 (timeout / 1000))%Z.
Proof.
  intros Hmax. unfold poll_timeout. destruct (decide (timeout < 0)%Z); [by left|].
  rewrite Z.quot_div_nonneg by lia.
  assert (0 ≤ timeout / 1000 < 2 ^ 31)%Z by (split; [apply Z.div_pos|apply Z.div_lt_upper_bound]; lia).
  assert (s32 (timeout / 1000) = timeout / 1000)%Z as -> by (unfold s32, swrap; rewrite Z.mod_small by lia; lia).
  cbv zeta. right. destruct (decide (timeout = 0)%Z) as [->|Hne]; [by left|]. right. split; [lia|].
  destruct (decide (timeout ≠ 0 ∧ timeout / 1000 = 0)%Z) as [[_ E]|E]; [rewrite E; done|]. lia.
Qed.

Lemma poll_timeout_rounds_witness :
  (500 < 0 ∧ poll_timeout 500 = -1 ∨ 500 = 0 ∧ poll_timeout 500 = 0 ∨
   0 < 500 ∧ poll_timeout 500 = Z.max 1 (500 / 1000))%Z.
Proof. apply (poll_timeout_rounds 500). lia. Defined.

(** The server address: the first address of the name that has the wanted family, with the
    port as given. *)
Theorem parseserver_first fam ais port a :
  perf_net_parseserver fam (Some ais) port = Done a → (0 ≤ port < 65536)%Z →
  perf_sockaddr_port a = port ∧
  ∃ pre suf, ais = pre ++ (sa_family a, sa_addr a) :: suf ∧
    (fam = AF_UNSPEC ∨ sa_family a = fam) ∧
    Forall (λ x, ¬ ((x.1 = AF_INET ∨ x.1 = AF_INET6) ∧ (fam = AF_UNSPEC ∨ x.1 = fam))) pre.
Proof.
  unfold perf_net_parseserver. intros H Hp. destruct (server_loop fam ais port) as [a'|] eqn:E; [|done].
  injection H as ->. revert E. induction ais as [|[f ad] ais IH]; simpl; [done|].
  destruct (decide (f = fam ∨ fam = AF_UNSPEC)) as [Hd|Hd].
  - destruct f; intros E.
    + destruct (IH E) as (Hpt & pre & suf & -> & Hf & Hall). split; [done|].
      exists ((AF_UNSPEC, ad) :: pre), suf. split_and!; [done|done|]. constructor; [naive_solver|done].
    + injection E as <-. split; [by apply fromin_port|].
      exists [], ais. split_and!; [done|naive_solver|constructor].
    + injection E as <-. split; [by apply fromin_port|].
      exists [], ais. split_and!; [done|naive_solver|constructor].
    + destruct (IH E) as (Hpt & pre & suf & -> & Hf & Hall). split; [done|].
      exists ((AF_OTHER, ad) :: pre), suf. split_and!; [done|done|]. constructor; [naive_solver|done].
  - intros E. destruct (IH E) as (Hpt & pre & suf & -> & Hf & Hall). split; [done|].
    exists ((f, ad) :: pre), suf. split_and!; [done|done|]. constructor; [naive_solver|done].
Qed.
