(* ===== verification/Hg64.v ===== *)
(** * 64-bit histograms (ext/hg64.c)

    A histogram maps a 64-bit value to a bucket by its [sigbits] most significant bits and
    counts the values per bucket.  The counters are allocated in bins of [2 ^ sigbits] on
    first use.  The buckets partition the 64-bit values; the operations are those of a
    function from keys to counts, whatever bins are allocated. *)

From S2P Require Import Prelude.

Definition BINS : Z := 64.

(** [struct hg64]: a bin is [NULL] or an array of counters. *)
Record hg64 : Type := Hg64 { sigbits : Z; bin : list (option (list Z)) }.

Definition DENORMALS (s : Z) : Z := (s - 1)%Z.
Definition EXPONENTS (s : Z) : Z := (BINS - DENORMALS s)%Z.
Definition MANTISSAS (s : Z) : Z := Z.shiftl 1 s.
Definition KEYS (s : Z) : Z := (EXPONENTS s * MANTISSAS s)%Z.
Definition BINSIZE (s : Z) : Z := MANTISSAS s.

(** [hg64_create(sigbits)]. *)
Definition hg64_create (s : Z) : option hg64 :=
  if decide (s < 1 ∨ 15 < s)%Z then None
  else Some (Hg64 s (replicate (Z.to_nat BINS) None)).

(** [key_to_minval], [key_to_maxval] and [value_to_key] depend on [sigbits] only. *)
Definition key_to_minval (s key : Z) : Z :=
  let binsize := BINSIZE s in
  let exponent := u32 (key / binsize - 1) in
  let mantissa := u32 (key mod binsize + binsize) in
  if decide (key < binsize)%Z then key else u64 (Z.shiftl mantissa exponent).

Definition key_to_maxval (s key : Z) : Z :=
  let binsize := BINSIZE s in
  let shift := u32 (63 - key / binsize) in
  let range := Z.shiftr (UINT64_MAX / 4) shift in
  u64 (key_to_minval s key + range).

(** [__builtin_clzll(x)] for a nonzero [x]. *)
Definition clzll (x : Z) : Z := (63 - Z.log2 x)%Z.

Definition value_to_key (s value : Z) : Z :=
  let binned := Z.lor value (BINSIZE s) in
  let clz := clzll binned in
  let exponent := u32 (63 - s - clz) in
  let mantissa := u32 (Z.shiftr value exponent) in
  u32 (u32 (Z.shiftl exponent s) + mantissa).

(** [get_bin(hg, b)]: [bin[b]], out of range is undefined. *)
Definition get_bin (hg : hg64) (b : Z) : run (option (list Z)) :=
  match bin hg !! Z.to_nat b with Some bp => Done bp | None => Undef end.

(** [key_to_counter(hg, key)]: whether there is a counter, and its value. *)
Definition key_to_counter (hg : hg64) (key : Z) : run (option Z) :=
  let binsize := BINSIZE (sigbits hg) in
  bp ← get_bin hg (key / binsize)%Z;
  match bp with
  | None => Done None
  | Some cs => match cs !! Z.to_nat (key mod binsize) with Some c => Done (Some c) | None => Undef end
  end.

(** [key_to_new_counter(hg, key)]: the compare-and-exchange installs a zeroed bin where there
    is none. *)
Definition key_to_new_counter (hg : hg64) (key : Z) : run hg64 :=
  let binsize := BINSIZE (sigbits hg) in
  let b := (key / binsize)%Z in
  old ← get_bin hg b;
  match old with
  | None => Done (Hg64 (sigbits hg) (<[Z.to_nat b := Some (replicate (Z.to_nat binsize) 0%Z)]> (bin hg)))
  | Some _ => Done hg
  end.

(** [get_key_count(hg, key)]. *)
Definition get_key_count (hg : hg64) (key : Z) : run Z :=
  c ← key_to_counter hg key; Done (default 0%Z c).

(** The atomic addition to the counter of a key whose bin is allocated. *)
Definition fetch_add (hg : hg64) (key inc : Z) : run hg64 :=
  let binsize := BINSIZE (sigbits hg) in
  let b := Z.to_nat (key / binsize) in
  let c := Z.to_nat (key mod binsize) in
  match bin hg !! b with
  | Some (Some cs) =>
      match cs !! c with
      | Some v => Done (Hg64 (sigbits hg) (<[b := Some (<[c := u64 (v + inc)]> cs)]> (bin hg)))
      | None => Undef
      end
  | _ => Undef
  end.

(** [add_key_count(hg, key, inc)]. *)
Definition add_key_count (hg : hg64) (key inc : Z) : run hg64 :=
  if decide (inc = 0)%Z then Done hg
  else
    ctr ← key_to_counter hg key;
    hg ← (match ctr with Some _ => Done hg | None => key_to_new_counter hg key end);
    fetch_add hg key inc.

(** [hg64_inc(hg, value)]. *)
Definition hg64_inc (hg : hg64) (value : Z) : run hg64 :=
  add_key_count hg (value_to_key (sigbits hg) value) 1.

(** [hg64_get(hg, key, ...)]: [None] when the key is past the last bucket. *)
Definition hg64_get (hg : hg64) (key : Z) : run (option (Z * Z * Z)) :=
  if decide (key < KEYS (sigbits hg))%Z then
    c ← get_key_count hg key;
    Done (Some (key_to_minval (sigbits hg) key, key_to_maxval (sigbits hg) key, c))
  else Done None.

(** The loop of [hg64_next], which skips bins that are not allocated. *)
Fixpoint next_skip (fuel : nat) (hg : hg64) (key : Z) : run Z :=
  match fuel with
  | 0 => NoFuel
  | S fuel' =>
      if decide (key < KEYS (sigbits hg) ∧ Z.land key (BINSIZE (sigbits hg) - 1) = 0)%Z then
        c ← key_to_counter hg key;
        match c with
        | None => next_skip fuel' hg (u32 (key + BINSIZE (sigbits hg)))
        | Some _ => Done key
        end
      else Done key
  end.

(** [hg64_next(hg, key)]: a bin is passed in one round, so 65 rounds are enough. *)
Definition hg64_next (hg : hg64) (key : Z) : run Z := next_skip 65 hg (u32 (key + 1)).

(** The loop [for (key = 0; hg64_get(hg, key, ...); key = hg64_next(hg, key))] that all
    traversals share; [body] gets the key and its count, and says whether to go on. *)
Fixpoint hg64_loop {A} (fuel : nat) (hg : hg64) (key : Z) (body : Z → Z → A → run (A * bool)) (acc : A)
    : run A :=
  match fuel with
  | 0 => NoFuel
  | S fuel' =>
      g ← hg64_get hg key;
      match g with
      | None => Done acc
      | Some (_, _, count) =>
          '(acc', go) ← body key count acc;
          if go : bool then key' ← hg64_next hg key; hg64_loop fuel' hg key' body acc'
          else Done acc'
      end
  end.

Definition loop_fuel (hg : hg64) : nat := S (Z.to_nat (KEYS (sigbits hg))).

(** The inner loop of [hg64_merge], from [tkey] on for [n] keys. *)
Fixpoint merge_spread (n : nat) (tkey div rem : Z) (target : hg64) : run hg64 :=
  match n with
  | 0 => Done target
  | S n' =>
      let inc := u64 (div + (if decide (tkey < rem)%Z then 1 else 0)) in
      target ← add_key_count target tkey inc;
      merge_spread n' (tkey + 1) div rem target
  end.

(** The body of [hg64_merge] for one bucket of the source, with [sigbits] [s]. *)
Definition merge_key (s skey count : Z) (target : hg64) : run hg64 :=
  let svmin := key_to_minval s skey in
  let svmax := key_to_maxval s skey in
  let tkmin := value_to_key (sigbits target) svmin in
  let tkmax := value_to_key (sigbits target) svmax in
  let keys := u32 (tkmax - tkmin + 1) in
  merge_spread (Z.to_nat keys) tkmin (count / keys) (count mod keys) target.

(** [hg64_merge(target, source)] for two different histograms. *)
Definition hg64_merge (target source : hg64) : run hg64 :=
  hg64_loop (loop_fuel source) source 0
    (λ skey count target, t ← merge_key (sigbits source) skey count target; Done (t, true)) target.

(** The loop of [hg64_diff], which does not skip bins; [count_b] is kept between rounds. *)
Fixpoint diff_loop (fuel : nat) (a b : hg64) (key count_b : Z) (diff : hg64) : run hg64 :=
  match fuel with
  | 0 => NoFuel
  | S fuel' =>
      ga ← hg64_get a key;
      match ga with
      | None => Done diff
      | Some (_, _, count_a) =>
          gb ← hg64_get b key;
          let count_b := match gb with Some (_, _, c) => c | None => count_b end in
          diff ← add_key_count diff key (u64 (count_a - count_b));
          diff_loop fuel' a b (u32 (key + 1)) count_b diff
      end
  end.

(** [hg64_diff(a, b, diff)] for three different histograms. *)
Definition hg64_diff (a b diff : hg64) : run hg64 :=
  if decide (sigbits a = sigbits b ∧ sigbits b = sigbits diff) then diff_loop (loop_fuel a) a b 0 0 diff
  else Abort.

(** [hg64_min_key(hg)] and [hg64_max_key(hg)]. *)
Definition hg64_min_key (hg : hg64) : run Z :=
  hg64_loop (loop_fuel hg) hg 0
    (λ key pcount acc, if decide (0 < pcount)%Z then Done (key, false) else Done (acc, true)) 0%Z.
Definition hg64_max_key (hg : hg64) : run Z :=
  hg64_loop (loop_fuel hg) hg 0
    (λ key pcount last_key, if decide (0 < pcount)%Z then Done (key, true) else Done (last_key, true)) 0%Z.

(** ** Buckets *)
Section buckets.
Context (s : Z) (Hs : (1 ≤ s ≤ 15)%Z).

Lemma BINSIZE_pow : BINSIZE s = (2 ^ s)%Z.
Proof. unfold BINSIZE, MANTISSAS. rewrite Z.shiftl_mul_pow2 by lia. lia. Qed.

Lemma KEYS_eq : KEYS s = ((65 - s) * 2 ^ s)%Z.
Proof.
  unfold KEYS, EXPONENTS, DENORMALS, BINS. fold (BINSIZE s). rewrite BINSIZE_pow. lia.
Qed.

Lemma binsize_range : (2 ≤ 2 ^ s ≤ 32768)%Z.
Proof.
  split; [change 2%Z with (2 ^ 1)%Z at 1|change 32768%Z with (2 ^ 15)%Z]; apply Z.pow_le_mono_r; lia.
Qed.

Lemma KEYS_bound : (0 < KEYS s < 2 ^ 31)%Z.
Proof. rewrite KEYS_eq. pose proof binsize_range. nia. Qed.

(** The exponent and mantissa of a key. *)
Lemma key_parts key :
  (0 ≤ key < KEYS s)%Z →
  key = (2 ^ s * (key / 2 ^ s) + key mod 2 ^ s)%Z ∧ (0 ≤ key / 2 ^ s ≤ 64 - s)%Z ∧
  (0 ≤ key mod 2 ^ s < 2 ^ s)%Z.
Proof.
  rewrite KEYS_eq. pose proof binsize_range. intros Hk. split_and!.
  - apply Z.div_mod. lia.
  - apply Z.div_pos; lia.
  - assert (key / 2 ^ s < 65 - s)%Z; [|lia]. apply Z.div_lt_upper_bound; lia.
  - apply Z.mod_pos_bound; lia.
  - apply Z.mod_pos_bound; lia.
Qed.

Lemma minval_eq key :
  (0 ≤ key < KEYS s)%Z →
  key_to_minval s key =
    (if decide (key < 2 ^ s) then key else (2 ^ s + key mod 2 ^ s) * 2 ^ (key / 2 ^ s - 1))%Z ∧
  (key_to_minval s key + 2 ^ Z.max 0 (key / 2 ^ s - 1) ≤ 2 ^ 64)%Z.
Proof.
  intros Hk. destruct (key_parts key Hk) as (He & Hq & Hr). pose proof binsize_range as HB.
  unfold key_to_minval. rewrite BINSIZE_pow. destruct (decide (key < 2 ^ s)%Z) as [Hlt|Hge].
  - split; [done|]. rewrite Z.div_small by lia. change (2 ^ Z.max 0 (0 - 1))%Z with 1%Z. lia.
  - assert (1 ≤ key / 2 ^ s)%Z as Hq1 by (apply Z.div_le_lower_bound; lia).
    rewrite (u32_small (key / _ - 1)), (u32_small (_ + _)) by lia. rewrite Z.shiftl_mul_pow2 by lia.
    set (e := (key / 2 ^ s - 1)%Z) in *. rewrite (Z.max_r 0 e) by lia.
    assert (0 < 2 ^ e)%Z by (apply Z.pow_pos_nonneg; lia).
    assert (2 ^ 64 = 2 * 2 ^ s * 2 ^ (63 - s))%Z as H64.
    { rewrite <- Z.pow_succ_r, <- Z.pow_add_r by lia. f_equal. lia. }
    assert (2 ^ e ≤ 2 ^ (63 - s))%Z by (apply Z.pow_le_mono_r; lia).
    rewrite u64_small by nia. rewrite (Z.add_comm (key mod _)). split; [done|]. nia.
Qed.

Lemma maxval_eq key :
  (0 ≤ key < KEYS s)%Z →
  key_to_maxval s key = (key_to_minval s key + 2 ^ Z.max 0 (key / 2 ^ s - 1) - 1)%Z.
Proof.
  intros Hk. destruct (key_parts key Hk) as (He & Hq & Hr). pose proof binsize_range as HB.
  destruct (minval_eq key Hk) as [Hm Hb]. unfold key_to_maxval. rewrite BINSIZE_pow.
  rewrite (u32_small (63 - _)) by lia. rewrite Z.shiftr_div_pow2 by lia.
  assert (UINT64_MAX / 4 / 2 ^ (63 - key / 2 ^ s) = 2 ^ Z.max 0 (key / 2 ^ s - 1) - 1)%Z as ->.
  { change (UINT64_MAX / 4)%Z with (2 ^ 62 - 1)%Z. destruct (decide (key / 2 ^ s = 0)%Z) as [->|Hne]; [done|].
    rewrite Z.max_r by lia. set (e := (key / 2 ^ s - 1)%Z) in *.
    replace (63 - key / 2 ^ s)%Z with (62 - e)%Z by lia.
    assert (2 ^ 62 = 2 ^ (62 - e) * 2 ^ e)%Z as -> by (rewrite <- Z.pow_add_r by lia; f_equal; lia).
    assert (0 < 2 ^ (62 - e))%Z by (apply Z.pow_pos_nonneg; lia).
    symmetry. apply (Z.div_unique _ _ _ (2 ^ (62 - e) - 1)); lia. }
  assert (0 ≤ key_to_minval s key)%Z.
  { rewrite Hm. destruct (decide _); [lia|]. apply Z.mul_nonneg_nonneg; [lia|]. apply Z.pow_nonneg. lia. }
  assert (0 < 2 ^ Z.max 0 (key / 2 ^ s - 1))%Z by (apply Z.pow_pos_nonneg; lia).
  rewrite u64_small by lia. lia.
Qed.

Lemma vtk_small v : (0 ≤ v < 2 ^ s)%Z → value_to_key s v = v.
Proof.
  intros Hv. pose proof binsize_range as HB. unfold value_to_key, clzll. rewrite BINSIZE_pow, Z.log2_lor by lia.
  rewrite Z.log2_pow2 by lia.
  assert (Z.log2 v ≤ s)%Z.
  { rewrite <- (Z.log2_pow2 s) by lia. apply Z.log2_le_mono. lia. }
  rewrite Z.max_r by lia. replace (63 - s - (63 - s))%Z with 0%Z by lia. rewrite (u32_small 0) by lia.
  rewrite Z.shiftr_0_r, Z.shiftl_0_l, (u32_small 0), (u32_small v), u32_small by lia. lia.
Qed.

Lemma vtk_big v :
  (2 ^ s ≤ v < 2 ^ 64)%Z →
  let e := (Z.log2 v - s)%Z in
  (0 ≤ e ≤ 63 - s)%Z ∧ value_to_key s v = (e * 2 ^ s + v / 2 ^ e)%Z ∧ (2 ^ s ≤ v / 2 ^ e < 2 * 2 ^ s)%Z.
Proof.
  intros Hv e. pose proof binsize_range as HB.
  assert (s ≤ Z.log2 v)%Z by (rewrite <- (Z.log2_pow2 s) by lia; apply Z.log2_le_mono; lia).
  assert (Z.log2 v < 64)%Z by (apply Z.log2_lt_pow2; lia).
  destruct (Z.log2_spec v) as [Hl Hu]; [lia|]. rewrite Z.pow_succ_r in Hu by lia.
  assert (2 ^ Z.log2 v = 2 ^ s * 2 ^ e)%Z as Hp by (rewrite <- Z.pow_add_r by lia; f_equal; lia).
  assert (0 < 2 ^ e)%Z by (apply Z.pow_pos_nonneg; lia).
  assert (2 ^ s ≤ v / 2 ^ e < 2 * 2 ^ s)%Z as Hd.
  { split; [apply Z.div_le_lower_bound|apply Z.div_lt_upper_bound]; lia. }
  split; [lia|]. split; [|done]. unfold value_to_key, clzll. rewrite BINSIZE_pow, Z.log2_lor by lia.
  rewrite Z.log2_pow2, Z.max_l by lia. replace (63 - s - (63 - Z.log2 v))%Z with e by lia.
  rewrite (u32_small e) by lia. rewrite Z.shiftl_mul_pow2, Z.shiftr_div_pow2 by lia.
  rewrite (u32_small (v / _)) by lia. rewrite (u32_small (e * _)) by nia. rewrite u32_small by nia. done.
Qed.

(** A value is in the bucket it is mapped to. *)
Lemma value_in_bucket v :
  (0 ≤ v < 2 ^ 64)%Z →
  let key := value_to_key s v in
  (0 ≤ key < KEYS s ∧ key_to_minval s key ≤ v ≤ key_to_maxval s key)%Z.
Proof.
  intros Hv key. pose proof binsize_range as HB.
  destruct (decide (v < 2 ^ s)%Z) as [Hlt|Hge].
  - assert (key = v) as -> by (apply vtk_small; lia).
    assert (0 ≤ v < KEYS s)%Z as Hk by (rewrite KEYS_eq; nia). split; [done|].
    rewrite maxval_eq by done. destruct (minval_eq v Hk) as [-> _]. rewrite decide_True by done.
    rewrite Z.div_small by lia. change (2 ^ Z.max 0 (0 - 1))%Z with 1%Z. lia.
  - destruct (vtk_big v) as (He & Hkey & Hd); [lia|]. fold key in Hkey. set (e := (Z.log2 v - s)%Z) in *.
    assert (0 ≤ key < KEYS s)%Z as Hk by (rewrite KEYS_eq; nia). split; [done|].
    assert (key / 2 ^ s = e + 1)%Z as Hq.
    { symmetry. apply (Z.div_unique _ _ _ (v / 2 ^ e - 2 ^ s)); lia. }
    assert (key mod 2 ^ s = v / 2 ^ e - 2 ^ s)%Z as Hr.
    { symmetry. apply (Z.mod_unique _ _ (e + 1)); lia. }
    rewrite maxval_eq by done. destruct (minval_eq key Hk) as [-> _]. rewrite decide_False by nia.
    rewrite Hq, Hr. replace (e + 1 - 1)%Z with e by lia. rewrite Z.max_r by lia.
    assert (0 < 2 ^ e)%Z by (apply Z.pow_pos_nonneg; lia). pose proof (Z.div_mod v (2 ^ e)).
    pose proof (Z.mod_pos_bound v (2 ^ e)). nia.
Qed.

(** A value of a bucket is mapped to it. *)
Lemma bucket_value key v :
  (0 ≤ key < KEYS s)%Z → (key_to_minval s key ≤ v ≤ key_to_maxval s key)%Z → value_to_key s v = key.
Proof.
  intros Hk. destruct (key_parts key Hk) as (He & Hq & Hr). pose proof binsize_range as HB.
  rewrite maxval_eq by done. destruct (minval_eq key Hk) as [Hm Hb]. rewrite Hm in Hb |- *.
  destruct (decide (key < 2 ^ s)%Z) as [Hlt|Hge].
  - rewrite Z.div_small by lia. change (2 ^ Z.max 0 (0 - 1))%Z with 1%Z. intros Hv. replace v with key by lia. apply vtk_small. lia.
  - assert (1 ≤ key / 2 ^ s)%Z as Hq1 by (apply Z.div_le_lower_bound; lia).
    set (e := (key / 2 ^ s - 1)%Z) in *. rewrite Z.max_r in * by lia. intros Hv.
    assert (0 < 2 ^ e)%Z by (apply Z.pow_pos_nonneg; lia).
    destruct (vtk_big v) as (_ & -> & _); [nia|].
    assert (Z.log2 v = s + e)%Z as ->.
    { apply Z.log2_unique; [lia|]. rewrite Z.pow_succ_r, Z.pow_add_r by lia. nia. }
    replace (s + e - s)%Z with e by lia.
    assert (v / 2 ^ e = 2 ^ s + key mod 2 ^ s)%Z as ->; [|lia].
    symmetry. apply (Z.div_unique _ _ _ (v - (2 ^ s + key mod 2 ^ s) * 2 ^ e)); lia.
Qed.

(** Each bucket starts where the one before ends. *)
Lemma minval_next key :
  (0 ≤ key)%Z → (key + 1 < KEYS s)%Z → key_to_minval s (key + 1) = (key_to_maxval s key + 1)%Z.
Proof.
  intros H0 Hk. rewrite maxval_eq by lia. destruct (key_parts key ltac:(lia)) as (He & Hq & Hr).
  destruct (minval_eq key ltac:(lia)) as [-> _]. destruct (minval_eq (key + 1) ltac:(lia)) as [-> _].
  pose proof binsize_range as HB. set (q := (key / 2 ^ s)%Z) in *. set (r := (key mod 2 ^ s)%Z) in *.
  destruct (decide (key < 2 ^ s)%Z) as [Hlt|Hge].
  - assert (q = 0)%Z as -> by (apply Z.div_small; lia). change (2 ^ Z.max 0 (0 - 1))%Z with 1%Z.
    destruct (decide (key + 1 < 2 ^ s)%Z); [lia|]. replace (key + 1)%Z with (2 ^ s)%Z by lia.
    rewrite Z.mod_same, Z.div_same by lia. change (2 ^ (1 - 1))%Z with 1%Z. lia.
  - assert (1 ≤ q)%Z by (apply Z.div_le_lower_bound; lia). rewrite (decide_False (P := (key + 1 < _)%Z)) by lia.
    rewrite Z.max_r by lia. destruct (decide (r + 1 < 2 ^ s)%Z) as [Hc|Hc].
    + rewrite <- (Z.div_unique (key + 1) (2 ^ s) q (r + 1)), <- (Z.mod_unique (key + 1) (2 ^ s) q (r + 1)) by lia. lia.
    + rewrite <- (Z.div_unique (key + 1) (2 ^ s) (q + 1) 0), <- (Z.mod_unique (key + 1) (2 ^ s) (q + 1) 0) by lia.
      replace (q + 1 - 1)%Z with (Z.succ (q - 1)) by lia. rewrite Z.pow_succ_r by lia. nia.
Qed.

Lemma minval_le_maxval key : (0 ≤ key < KEYS s)%Z → (0 ≤ key_to_minval s key ≤ key_to_maxval s key)%Z.
Proof.
  intros Hk. rewrite maxval_eq by done. destruct (minval_eq key Hk) as [Hm _].
  assert (0 < 2 ^ Z.max 0 (key / 2 ^ s - 1))%Z by (apply Z.pow_pos_nonneg; lia). split; [|lia].
  rewrite Hm. destruct (key_parts key Hk) as (_ & ? & ?). destruct (decide _); [lia|].
  apply Z.mul_nonneg_nonneg; [lia|]. apply Z.pow_nonneg. lia.
Qed.

Lemma buckets_sorted k k' : (0 ≤ k < k')%Z → (k' < KEYS s)%Z → (key_to_maxval s k < key_to_minval s k')%Z.
Proof.
  intros [H0 Hlt]. replace k' with (k + 1 + Z.of_nat (Z.to_nat (k' - k - 1)))%Z by lia.
  generalize (Z.to_nat (k' - k - 1)) as n. induction n as [|n IH]; intros Hk.
  - rewrite Z.add_0_r in *. rewrite minval_next by lia. lia.
  - specialize (IH ltac:(lia)). pose proof (minval_le_maxval (k + 1 + Z.of_nat n) ltac:(lia)).
    replace (k + 1 + Z.of_nat (S n))%Z with (k + 1 + Z.of_nat n + 1)%Z in * by lia. rewrite minval_next by lia. lia.
Qed.
End buckets.

(** ** Counters *)

Record hg_ok (hg : hg64) : Prop := {
  ok_sigbits : (1 ≤ sigbits hg ≤ 15)%Z;
  ok_bins : length (bin hg) = Z.to_nat BINS;
  ok_bin : ∀ b cs, bin hg !! b = Some (Some cs) →
           length cs = Z.to_nat (2 ^ sigbits hg) ∧ Forall (λ c, 0 ≤ c < 2 ^ 64)%Z cs;
}.

(** The abstract view: the count of a key. *)
Definition count_of (hg : hg64) (key : Z) : Z :=
  match bin hg !! Z.to_nat (key / 2 ^ sigbits hg) with
  | Some (Some cs) => default 0%Z (cs !! Z.to_nat (key mod 2 ^ sigbits hg))
  | _ => 0%Z
  end.

Definition in_range (hg : hg64) (key : Z) : Prop := (0 ≤ key < KEYS (sigbits hg))%Z.

Lemma count_of_range hg key : hg_ok hg → (0 ≤ count_of hg key < 2 ^ 64)%Z.
Proof.
  intros [_ _ Hb]. unfold count_of. destruct (bin hg !! _) as [[cs|]|] eqn:E; [|lia|lia].
  destruct (Hb _ _ E) as [_ Hcs]. destruct (cs !! _) as [c|] eqn:Ec; [|simpl; lia].
  by eapply Forall_lookup_1 in Hcs; [|exact Ec].
Qed.

(** Every key has its bin, and an allocated bin has its counter. *)
Lemma bin_lookup hg key :
  hg_ok hg → in_range hg key →
  ∃ bp, bin hg !! Z.to_nat (key / 2 ^ sigbits hg) = Some bp ∧
        match bp with
        | None => count_of hg key = 0%Z
        | Some cs => cs !! Z.to_nat (key mod 2 ^ sigbits hg) = Some (count_of hg key)
        end.
Proof.
  intros [Hs Hl Hb] Hk. destruct (key_parts _ Hs key Hk) as (_ & Hq & Hr).
  destruct (lookup_lt_is_Some_2 (bin hg) (Z.to_nat (key / 2 ^ sigbits hg))) as [bp Hbp];
    [rewrite Hl; unfold BINS; lia|].
  exists bp. split; [done|]. unfold count_of. rewrite Hbp. destruct bp as [cs|]; [|done].
  destruct (Hb _ _ Hbp) as [Hlc _].
  destruct (lookup_lt_is_Some_2 cs (Z.to_nat (key mod 2 ^ sigbits hg))) as [c Hc]; [lia|]. by rewrite Hc.
Qed.

Lemma key_to_counter_spec hg key :
  hg_ok hg → in_range hg key →
  ∃ o, key_to_counter hg key = Done o ∧ default 0%Z o = count_of hg key ∧
       (o = None ↔ bin hg !! Z.to_nat (key / 2 ^ sigbits hg) = Some None).
Proof.
  intros Hok Hk. destruct (bin_lookup hg key Hok Hk) as (bp & Hbp & Hc). pose proof Hok as [Hs _ _].
  unfold key_to_counter, get_bin. rewrite BINSIZE_pow, Hbp by done. destruct bp as [cs|]; simpl.
  - rewrite Hc. eexists. split_and!; [done|done|]. by split; intros ?; simplify_eq.
  - exists None. by rewrite Hc.
Qed.

Lemma get_key_count_spec hg key : hg_ok hg → in_range hg key → get_key_count hg key = Done (count_of hg key).
Proof.
  intros Hok Hk. destruct (key_to_counter_spec hg key Hok Hk) as (o & E & Hd & _).
  unfold get_key_count. rewrite E. simpl. by rewrite Hd.
Qed.

(** Keys with the same bin and counter are the same. *)
Lemma key_split s k k' :
  (1 ≤ s ≤ 15)%Z → (0 ≤ k < KEYS s)%Z → (0 ≤ k' < KEYS s)%Z →
  Z.to_nat (k / 2 ^ s) = Z.to_nat (k' / 2 ^ s) → Z.to_nat (k mod 2 ^ s) = Z.to_nat (k' mod 2 ^ s) → k = k'.
Proof.
  intros Hs Hk Hk' Hq Hr. destruct (key_parts _ Hs k Hk) as (H1 & H2 & H3).
  destruct (key_parts _ Hs k' Hk') as (H4 & H5 & H6).
  assert (k / 2 ^ s = k' / 2 ^ s)%Z as E1 by lia. assert (k mod 2 ^ s = k' mod 2 ^ s)%Z as E2 by lia.
  rewrite H1, H4, E1, E2. done.
Qed.

(** A bin of zeroes does not change the counts. *)
Lemma new_counter_spec hg key :
  hg_ok hg → in_range hg key →
  bin hg !! Z.to_nat (key / 2 ^ sigbits hg) = Some None →
  ∃ hg' cs, key_to_new_counter hg key = Done hg' ∧ hg_ok hg' ∧ sigbits hg' = sigbits hg ∧
    bin hg' !! Z.to_nat (key / 2 ^ sigbits hg) = Some (Some cs) ∧
    (∀ k, in_range hg k → count_of hg' k = count_of hg k).
Proof.
  intros Hok Hk Hn. pose proof Hok as [Hs Hl Hb]. unfold key_to_new_counter, get_bin.
  rewrite BINSIZE_pow, Hn by done. simpl. eexists _, _. split; [done|].
  assert (Z.to_nat (key / 2 ^ sigbits hg) < length (bin hg)) as Hlt by (by eapply lookup_lt_Some).
  split_and!; [split; simpl|done|simpl; by rewrite list_lookup_insert_eq|].
  - done.
  - by rewrite length_insert.
  - intros b cs. destruct (decide (b = Z.to_nat (key / 2 ^ sigbits hg))) as [->|Hne].
    + rewrite list_lookup_insert_eq by done. intros [= <-]. split; [by rewrite length_replicate|].
      apply Forall_replicate. lia.
    + rewrite list_lookup_insert_ne by done. apply Hb.
  - intros k Hk'. unfold count_of. simpl.
    destruct (decide (Z.to_nat (k / 2 ^ sigbits hg) = Z.to_nat (key / 2 ^ sigbits hg))) as [->|Hne].
    + rewrite list_lookup_insert_eq, Hn by done. destruct (key_parts _ Hs k Hk') as (_ & _ & Hr).
      rewrite lookup_replicate_2 by lia. done.
    + by rewrite list_lookup_insert_ne.
Qed.

Lemma fetch_add_spec hg key inc cs :
  hg_ok hg → in_range hg key → bin hg !! Z.to_nat (key / 2 ^ sigbits hg) = Some (Some cs) →
  ∃ hg', fetch_add hg key inc = Done hg' ∧ hg_ok hg' ∧ sigbits hg' = sigbits hg ∧
    (∀ k, in_range hg k → count_of hg' k = if decide (k = key) then u64 (count_of hg k + inc) else count_of hg k).
Proof.
  intros Hok Hk Hcs. pose proof Hok as [Hs Hl Hb]. unfold fetch_add. rewrite BINSIZE_pow, Hcs by done.
  destruct (bin_lookup hg key Hok Hk) as (bp & Hbp & Hc). rewrite Hcs in Hbp. simplify_eq. rewrite Hc.
  destruct (Hb _ _ Hcs) as [Hlc Hr]. eexists. split; [done|].
  assert (Z.to_nat (key / 2 ^ sigbits hg) < length (bin hg)) as Hlt by (by eapply lookup_lt_Some).
  assert (Z.to_nat (key mod 2 ^ sigbits hg) < length cs) as Hltc by (by eapply lookup_lt_Some).
  split_and!; [split; simpl|done|].
  - done.
  - by rewrite length_insert.
  - intros b cs'. destruct (decide (b = Z.to_nat (key / 2 ^ sigbits hg))) as [->|Hne].
    + rewrite list_lookup_insert_eq by done. intros [= <-]. split; [by rewrite length_insert|].
      apply Forall_insert; [done|]. pose proof (u64_range (count_of hg key + inc)). lia.
    + rewrite list_lookup_insert_ne by done. apply Hb.
  - intros k Hk'. unfold count_of at 1. cbn [sigbits bin].
    destruct (decide (Z.to_nat (k / 2 ^ sigbits hg) = Z.to_nat (key / 2 ^ sigbits hg))) as [Hq|Hne].
    + rewrite Hq, list_lookup_insert_eq by done.
      destruct (decide (Z.to_nat (k mod 2 ^ sigbits hg) = Z.to_nat (key mod 2 ^ sigbits hg))) as [Hm|Hne'].
      * assert (k = key) as -> by (by eapply key_split). rewrite decide_True by done.
        by rewrite list_lookup_insert_eq.
      * rewrite decide_False by (by intros ->). rewrite list_lookup_insert_ne by done.
        unfold count_of. by rewrite Hq, Hcs.
    + rewrite decide_False by (by intros ->). rewrite list_lookup_insert_ne by done. done.
Qed.

Lemma add_key_count_spec hg key inc :
  hg_ok hg → in_range hg key →
  ∃ hg', add_key_count hg key inc = Done hg' ∧ hg_ok hg' ∧ sigbits hg' = sigbits hg ∧
    (∀ k, in_range hg k → count_of hg' k = if decide (k = key) then u64 (count_of hg k + inc) else count_of hg k).
Proof.
  intros Hok Hk. unfold add_key_count. destruct (decide (inc = 0)%Z) as [->|Hne].
  { exists hg. split_and!; [done|done|done|]. intros k _. destruct (decide (k = key)); [|done].
    pose proof (count_of_range hg k Hok). by rewrite Z.add_0_r, u64_small. }
  destruct (key_to_counter_spec hg key Hok Hk) as (o & E & _ & Ho). rewrite E. simpl.
  destruct (bin_lookup hg key Hok Hk) as (bp & Hbp & _). destruct o as [c|]; simpl.
  - destruct bp as [cs|]; [|by apply Ho in Hbp]. by eapply fetch_add_spec.
  - destruct (new_counter_spec hg key Hok Hk (proj1 Ho eq_refl)) as (hg1 & cs & -> & Hok1 & Hs1 & Hb1 & Hc1). simpl.
    destruct (fetch_add_spec hg1 key inc cs Hok1) as (hg' & -> & Hok' & Hs' & Hc');
      [unfold in_range; by rewrite Hs1|by rewrite Hs1|].
    exists hg'. split_and!; [done|done|congruence|]. intros k Hk'.
    rewrite Hc', !Hc1 by (unfold in_range; by rewrite ?Hs1). done.
Qed.

(** ** Traversals *)

(** A key at the start of a bin that is not allocated: the whole bin counts nothing. *)
Lemma empty_bin hg key k :
  hg_ok hg → in_range hg key → Z.land key (BINSIZE (sigbits hg) - 1) = 0%Z → key_to_counter hg key = Done None →
  (key ≤ k < key + 2 ^ sigbits hg)%Z → count_of hg k = 0%Z.
Proof.
  intros Hok Hk Hal Hn Hr. pose proof Hok as [Hs _ _].
  destruct (key_to_counter_spec hg key Hok Hk) as (o & E & _ & Ho). rewrite Hn in E. simplify_eq.
  destruct Ho as [Ho _]. specialize (Ho eq_refl). pose proof (binsize_range _ Hs) as HB.
  assert (key mod 2 ^ sigbits hg = 0)%Z as Hm.
  { rewrite <- Z.land_ones by lia. rewrite <- Hal, BINSIZE_pow by done. f_equal. rewrite Z.ones_equiv. lia. }
  assert (k / 2 ^ sigbits hg = key / 2 ^ sigbits hg)%Z as Hq.
  { pose proof (Z.div_mod key (2 ^ sigbits hg) ltac:(lia)).
    symmetry. apply (Z.div_unique _ _ _ (k - key)); lia. }
  unfold count_of. by rewrite Hq, Ho.
Qed.

Lemma next_skip_eq fuel hg key :
  next_skip (S fuel) hg key =
    (if decide (key < KEYS (sigbits hg) ∧ Z.land key (BINSIZE (sigbits hg) - 1) = 0)%Z then
       c ← key_to_counter hg key;
       match c with None => next_skip fuel hg (u32 (key + BINSIZE (sigbits hg))) | Some _ => Done key end
     else Done key).
Proof. done. Qed.

Lemma next_skip_spec fuel hg key :
  hg_ok hg → (0 ≤ key)%Z → (key < 2 ^ 31)%Z →
  (KEYS (sigbits hg) ≤ key + Z.of_nat fuel * 2 ^ sigbits hg)%Z →
  ∃ key', next_skip (S fuel) hg key = Done key' ∧ (key ≤ key' < 2 ^ 31)%Z ∧
          ∀ k, (key ≤ k < key')%Z → count_of hg k = 0%Z.
Proof.
  intros Hok. pose proof Hok as [Hs _ _]. pose proof (binsize_range _ Hs) as HB.
  pose proof (KEYS_eq _ Hs) as HK.
  revert key. induction fuel as [|fuel IH]; intros key H0 H31 Hf; rewrite next_skip_eq.
  { rewrite decide_False by lia. exists key. split_and!; [done|lia|lia|lia]. }
  destruct (decide _) as [[Hlt Hal]|Hd]; [|exists key; split_and!; [done|lia|lia|lia]].
  destruct (key_to_counter_spec hg key Hok ltac:(done)) as (o & E & _ & _). rewrite E.
  cbn [mbind run_bind]. destruct o as [c|]; [exists key; split_and!; [done|lia|lia|lia]|].
  rewrite BINSIZE_pow by done. assert (key + 2 ^ sigbits hg < 2 ^ 31)%Z by nia.
  rewrite u32_small by lia.
  destruct (IH (key + 2 ^ sigbits hg)%Z) as (key' & E' & Hr & Hz); [lia|lia|lia|].
  exists key'. split_and!; [exact E'|lia|lia|]. intros k Hk.
  destruct (decide (k < key + 2 ^ sigbits hg)%Z); [|apply Hz; lia].
  by apply (empty_bin hg key); [|split; lia| | |lia].
Qed.

Lemma hg64_next_spec hg key :
  hg_ok hg → in_range hg key →
  ∃ key', hg64_next hg key = Done key' ∧ (key < key' < 2 ^ 31)%Z ∧
          ∀ k, (key < k < key')%Z → count_of hg k = 0%Z.
Proof.
  intros Hok Hk. pose proof Hok as [Hs _ _]. pose proof (KEYS_bound _ Hs). pose proof (binsize_range _ Hs).
  pose proof (KEYS_eq _ Hs) as HK. unfold in_range in Hk.
  unfold hg64_next. rewrite u32_small by lia.
  destruct (next_skip_spec 64 hg (key + 1)) as (key' & E & Hr & Hz); [done|lia|lia|nia|].
  exists key'. split_and!; [done|lia|lia|]. intros k ?. apply Hz. lia.
Qed.

(** The same traversal over all keys of a list. *)
Fixpoint visit {A} (hg : hg64) (body : Z → Z → A → run (A * bool)) (ks : list Z) (acc : A) : run A :=
  match ks with
  | [] => Done acc
  | k :: ks' =>
      '(acc', go) ← body k (count_of hg k) acc;
      if go : bool then visit hg body ks' acc' else Done acc'
  end.

Lemma seqZ_step k n : (0 < n)%Z → seqZ k n = k :: seqZ (k + 1) (n - 1).
Proof. intros. rewrite seqZ_cons by lia. by rewrite Z.add_1_r, Z.sub_1_r. Qed.

Section traversal.
Context {A : Type} (hg : hg64) (body : Z → Z → A → run (A * bool)).
Context (Hok : hg_ok hg).
Context (Hzero : ∀ k acc, body k 0%Z acc = Done (acc, true)).

Lemma visit_skip n k acc :
  (∀ j, (k ≤ j < k + Z.of_nat n)%Z → count_of hg j = 0%Z) →
  visit hg body (seqZ k (KEYS (sigbits hg) - k)) acc =
  visit hg body (seqZ (k + Z.of_nat n) (KEYS (sigbits hg) - (k + Z.of_nat n))) acc.
Proof.
  revert k. induction n as [|n IH]; intros k Hz; [by rewrite Z.add_0_r|].
  destruct (decide (k < KEYS (sigbits hg))%Z) as [Hk|Hk].
  - rewrite seqZ_step by lia. cbn [visit]. rewrite (Hz k) by lia. rewrite Hzero. cbn [mbind run_bind].
    replace (KEYS (sigbits hg) - k - 1)%Z with (KEYS (sigbits hg) - (k + 1))%Z by lia.
    rewrite IH by (intros; apply Hz; lia). do 2 f_equal; lia.
  - by rewrite !seqZ_nil by lia.
Qed.

(** Skipping is not observable: the loop visits all keys. *)
Lemma hg64_loop_visit fuel key acc :
  (0 ≤ key)%Z → (KEYS (sigbits hg) - key < Z.of_nat fuel)%Z → 0 < fuel →
  hg64_loop fuel hg key body acc = visit hg body (seqZ key (KEYS (sigbits hg) - key)) acc.
Proof.
  revert key acc. induction fuel as [|fuel IH]; intros key acc H0 Hf Hpos; [lia|].
  cbn [hg64_loop]. unfold hg64_get. destruct (decide (key < KEYS (sigbits hg))%Z) as [Hlt|Hge].
  - rewrite get_key_count_spec by (try done; split; lia). cbn [mbind run_bind].
    rewrite seqZ_step by lia. cbn [visit].
    destruct (body key (count_of hg key) acc) as [[acc' go]| | | |]; try done. cbn [mbind run_bind].
    destruct go; [|done].
    destruct (hg64_next_spec hg key Hok) as (key' & -> & Hk' & Hz); [split; lia|]. cbn [mbind run_bind].
    replace (KEYS (sigbits hg) - key - 1)%Z with (KEYS (sigbits hg) - (key + 1))%Z by lia.
    rewrite (visit_skip (Z.to_nat (key' - (key + 1))) (key + 1)) by (intros; apply Hz; lia).
    replace (key + 1 + Z.of_nat (Z.to_nat (key' - (key + 1))))%Z with key' by lia.
    destruct (decide (0 < fuel)) as [Hp|Hp]; [|lia]. apply IH; lia.
  - simpl. by rewrite seqZ_nil by lia.
Qed.

Lemma hg64_loop_all acc :
  hg64_loop (loop_fuel hg) hg 0 body acc = visit hg body (seqZ 0 (KEYS (sigbits hg))) acc.
Proof.
  pose proof (KEYS_bound _ (ok_sigbits _ Hok)). unfold loop_fuel.
  rewrite hg64_loop_visit by lia. by rewrite Z.sub_0_r.
Qed.
End traversal.

(** *** Merging *)

(** Between histograms of the same precision, a bucket is added to the same bucket. *)
Lemma merge_key_same s key count t :
  sigbits t = s → (1 ≤ s ≤ 15)%Z → (0 ≤ key < KEYS s)%Z → (0 ≤ count < 2 ^ 64)%Z →
  merge_key s key count t = add_key_count t key count.
Proof.
  intros Ht Hs Hk Hc. unfold merge_key. rewrite Ht.
  destruct (minval_eq s Hs key Hk) as [_ Hb]. pose proof (maxval_eq s Hs key Hk) as Hmax.
  assert (0 < 2 ^ Z.max 0 (key / 2 ^ s - 1))%Z by (apply Z.pow_pos_nonneg; lia).
  rewrite !(bucket_value s Hs key) by lia. replace (key - key + 1)%Z with 1%Z by lia.
  rewrite (u32_small 1) by lia. change (Z.to_nat 1) with 1. cbn [merge_spread].
  rewrite Z.mod_1_r, Z.div_1_r, decide_False by lia. rewrite Z.add_0_r, u64_small by lia.
  by destruct (add_key_count t key count).
Qed.

Lemma visit_merge source ks target :
  hg_ok source → hg_ok target → sigbits target = sigbits source → NoDup ks → Forall (in_range source) ks →
  ∃ t, visit source (λ k c t, t ← merge_key (sigbits source) k c t; Done (t, true)) ks target = Done t ∧
       hg_ok t ∧ sigbits t = sigbits source ∧
       ∀ k, in_range source k →
            count_of t k = if decide (k ∈ ks) then u64 (count_of target k + count_of source k) else count_of target k.
Proof.
  intros Hos Hot Hsig Hnd Hks. pose proof (ok_sigbits _ Hos) as Hs.
  revert target Hot Hsig Hnd. induction Hks as [|key ks Hk Hks IH]; intros target Hot Hsig Hnd.
  { exists target. split_and!; [done|done|done|]. intros k _. by rewrite decide_False by apply not_elem_of_nil. }
  apply NoDup_cons in Hnd as [Hnin Hnd]. cbn [visit].
  rewrite (merge_key_same _ _ _ _ Hsig Hs Hk (count_of_range _ _ Hos)).
  destruct (add_key_count_spec target key (count_of source key) Hot) as (t1 & -> & Hok1 & Hs1 & Hc1);
    [unfold in_range; by rewrite Hsig|]. cbn [mbind run_bind].
  destruct (IH t1 Hok1 ltac:(congruence) Hnd) as (t & -> & Hokt & Hst & Hct).
  exists t. split_and!; [done|done|done|]. intros k Hk'.
  rewrite (Hct k Hk'), (Hc1 k) by (unfold in_range; by rewrite Hsig).
  destruct (decide (k = key)) as [->|Hne].
  - by rewrite (decide_False (P := key ∈ ks)), decide_True by (try done; by left).
  - destruct (decide (k ∈ ks)) as [Hin|Hin].
    + by rewrite decide_True by (by right).
    + by rewrite decide_False by (rewrite elem_of_cons; tauto).
Qed.

Lemma in_all hg k : in_range hg k ↔ k ∈ seqZ 0 (KEYS (sigbits hg)).
Proof. rewrite elem_of_seqZ. unfold in_range. lia. Qed.

Lemma hg64_merge_spec target source :
  hg_ok target → hg_ok source → sigbits target = sigbits source →
  ∃ t, hg64_merge target source = Done t ∧ hg_ok t ∧ sigbits t = sigbits source ∧
       ∀ k, in_range source k → count_of t k = u64 (count_of target k + count_of source k).
Proof.
  intros Hot Hos Hsig. unfold hg64_merge. rewrite hg64_loop_all; [|done|].
  - destruct (visit_merge source (seqZ 0 (KEYS (sigbits source))) target) as (t & -> & ? & ? & Hc);
      [done|done|done|apply NoDup_seqZ|apply Forall_forall; intros k; by rewrite <- in_all|].
    exists t. split_and!; [done|done|done|]. intros k Hk. rewrite Hc by done.
    by rewrite decide_True by (by apply in_all).
  - intros k acc. unfold merge_key. destruct (decide (u32 (value_to_key (sigbits acc) (key_to_maxval (sigbits source) k) -
        value_to_key (sigbits acc) (key_to_minval (sigbits source) k) + 1) = 0)%Z) as [E|E].
    + by rewrite E.
    + rewrite Z.div_0_l, Z.mod_0_l by done.
      match goal with |- context [merge_spread ?n ?t _ _ _] => generalize n; assert (0 ≤ t)%Z as Ht end.
      { unfold value_to_key. apply u32_range. }
      intros n. enough (merge_spread n (value_to_key (sigbits acc) (key_to_minval (sigbits source) k)) 0 0 acc = Done acc)
        as -> by done.
      revert Ht. generalize (value_to_key (sigbits acc) (key_to_minval (sigbits source) k)).
      induction n as [|n IHn]; intros z Hz; [done|]. cbn [merge_spread]. rewrite decide_False by lia.
      change (u64 (0 + 0)) with 0%Z. simpl. apply IHn. lia.
Qed.

(** *** Differences *)
Lemma diff_loop_spec fuel a b key cb d :
  hg_ok a → hg_ok b → hg_ok d → sigbits b = sigbits a → sigbits d = sigbits a →
  (0 ≤ key)%Z → (KEYS (sigbits a) - key < Z.of_nat fuel)%Z → 0 < fuel → (key ≤ KEYS (sigbits a))%Z →
  ∃ d', diff_loop fuel a b key cb d = Done d' ∧ hg_ok d' ∧ sigbits d' = sigbits a ∧
        ∀ k, in_range a k →
             count_of d' k = if decide (key ≤ k)%Z then u64 (count_of d k + (count_of a k - count_of b k))
                             else count_of d k.
Proof.
  intros Ha Hb. revert key cb d. induction fuel as [|fuel IH]; intros key cb d Hd Hsb Hsd H0 Hf Hp Hle; [lia|].
  pose proof (KEYS_bound _ (ok_sigbits _ Ha)).
  cbn [diff_loop]. unfold hg64_get. destruct (decide (key < KEYS (sigbits a))%Z) as [Hlt|Hge].
  - rewrite (get_key_count_spec a) by (try done; split; lia). cbn [mbind run_bind].
    rewrite Hsb, decide_True by done.
    rewrite (get_key_count_spec b) by (try done; unfold in_range; rewrite Hsb; lia). cbn [mbind run_bind].
    destruct (add_key_count_spec d key (u64 (count_of a key - count_of b key)) Hd) as (d1 & -> & Hok1 & Hs1 & Hc1);
      [unfold in_range; rewrite Hsd; lia|]. cbn [mbind run_bind]. rewrite u32_small by lia.
    destruct (IH (key + 1)%Z (count_of b key) d1) as (d' & E & Hok' & Hs' & Hc'); [done|done|congruence|lia|lia|lia|lia|].
    exists d'. split_and!; [done|done|done|]. intros k Hk. rewrite Hc' by done.
    rewrite Hc1 by (unfold in_range; rewrite Hsd; exact Hk).
    destruct (decide (k = key)) as [->|Hne].
    + rewrite (decide_False (P := (key + 1 ≤ key)%Z)), (decide_True (P := (key ≤ key)%Z)) by lia.
      unfold u64. by rewrite Zplus_mod_idemp_r.
    + destruct (decide (key + 1 ≤ k)%Z); [by rewrite decide_True by lia|by rewrite decide_False by lia].
  - exists d. split_and!; [done|done|done|]. intros k Hk. unfold in_range in Hk. by rewrite decide_False by lia.
Qed.

Lemma hg64_diff_spec a b d :
  hg_ok a → hg_ok b → hg_ok d → sigbits b = sigbits a → sigbits d = sigbits a →
  ∃ t, hg64_diff a b d = Done t ∧ hg_ok t ∧ sigbits t = sigbits a ∧
       ∀ k, in_range a k → count_of t k = u64 (count_of d k + (count_of a k - count_of b k)).
Proof.
  intros Ha Hb Hd Hsb Hsd. pose proof (KEYS_bound _ (ok_sigbits _ Ha)).
  unfold hg64_diff. rewrite decide_True by (split; congruence). unfold loop_fuel.
  destruct (diff_loop_spec (S (Z.to_nat (KEYS (sigbits a)))) a b 0 0 d) as (t & -> & ? & ? & Hc); try done; try lia.
  exists t. split_and!; [done|done|done|]. intros k Hk. rewrite Hc by done. rewrite decide_True; [done|apply Hk].
Qed.

(** *** The lowest and the highest key *)
Lemma visit_min hg k0 n :
  ∃ k, visit hg (λ key pcount acc, if decide (0 < pcount)%Z then Done (key, false) else Done (acc, true))
         (seqZ k0 (Z.of_nat n)) 0%Z = Done k ∧
       ((∃ j, k = j ∧ (k0 ≤ j < k0 + Z.of_nat n)%Z ∧ (0 < count_of hg j)%Z ∧
              ∀ i, (k0 ≤ i < j)%Z → (count_of hg i ≤ 0)%Z) ∨
        (k = 0%Z ∧ ∀ i, (k0 ≤ i < k0 + Z.of_nat n)%Z → (count_of hg i ≤ 0)%Z)).
Proof.
  revert k0. induction n as [|n IH]; intros k0.
  { exists 0%Z. split; [done|]. right. split; [done|lia]. }
  rewrite seqZ_step by lia. cbn [visit]. destruct (decide (0 < count_of hg k0)%Z) as [Hp|Hp].
  { exists k0. split; [done|]. left. exists k0. split_and!; [done|lia|lia|done|lia]. }
  cbn [mbind run_bind]. replace (Z.of_nat (S n) - 1)%Z with (Z.of_nat n) by lia.
  destruct (IH (k0 + 1)%Z) as (k & -> & Hk). exists k. split; [done|].
  destruct Hk as [(j & -> & Hj & Hc & Hlow)|[-> Hall]].
  - left. exists j. split_and!; [done|lia|lia|done|]. intros i Hi.
    destruct (decide (i = k0)) as [->|]; [lia|]. apply Hlow. lia.
  - right. split; [done|]. intros i Hi. destruct (decide (i = k0)) as [->|]; [lia|]. apply Hall. lia.
Qed.

Lemma visit_max hg k0 n m :
  ∃ k, visit hg (λ key pcount acc, if decide (0 < pcount)%Z then Done (key, true) else Done (acc, true))
         (seqZ k0 (Z.of_nat n)) m = Done k ∧
       (((k0 ≤ k < k0 + Z.of_nat n)%Z ∧ (0 < count_of hg k)%Z ∧
         ∀ i, (k < i < k0 + Z.of_nat n)%Z → (count_of hg i ≤ 0)%Z) ∨
        (k = m ∧ ∀ i, (k0 ≤ i < k0 + Z.of_nat n)%Z → (count_of hg i ≤ 0)%Z)).
Proof.
  revert k0 m. induction n as [|n IH]; intros k0 m.
  { exists m. split; [done|]. right. split; [done|lia]. }
  rewrite seqZ_step by lia. cbn [visit]. replace (Z.of_nat (S n) - 1)%Z with (Z.of_nat n) by lia.
  destruct (decide (0 < count_of hg k0)%Z) as [Hp|Hp]; cbn [mbind run_bind].
  - destruct (IH (k0 + 1)%Z k0) as (k & -> & Hk). exists k. split; [done|]. left.
    destruct Hk as [(Hk & Hc & Hh)|[-> Hall]]; [split_and!; [lia|lia|done|intros; apply Hh; lia]|].
    split_and!; [lia|lia|done|]. intros i Hi. apply Hall. lia.
  - destruct (IH (k0 + 1)%Z m) as (k & -> & Hk). exists k. split; [done|].
    destruct Hk as [(Hk & Hc & Hh)|[-> Hall]].
    + left. split_and!; [lia|lia|done|intros; apply Hh; lia].
    + right. split; [done|]. intros i Hi. destruct (decide (i = k0)) as [->|]; [lia|]. apply Hall. lia.
Qed.

(** *** Recording a sequence of values *)
Fixpoint hg64_incs (hg : hg64) (vs : list Z) : run hg64 :=
  match vs with [] => Done hg | v :: vs' => hg ← hg64_inc hg v; hg64_incs hg vs' end.

(** The number of values in a bucket. *)
Definition bucket_size (s key : Z) (vs : list Z) : Z :=
  Z.of_nat (length (filter (λ v, key_to_minval s key ≤ v ≤ key_to_maxval s key)%Z vs)).

Lemma create_ok s hg : hg64_create s = Some hg → hg_ok hg ∧ sigbits hg = s ∧ ∀ k, count_of hg k = 0%Z.
Proof.
  unfold hg64_create. destruct (decide _) as [|Hs]; [done|]. intros E.
  assert (Hg64 s (replicate (Z.to_nat BINS) None) = hg) as <- by congruence. clear E.
  assert (∀ b, replicate (Z.to_nat BINS) (@None (list Z)) !! b = Some None ∨
               replicate (Z.to_nat BINS) (@None (list Z)) !! b = None) as Hb.
  { intros b. destruct (replicate _ _ !! b) as [o|] eqn:E; [|by right]. left.
    apply lookup_replicate in E as [-> _]. done. }
  split_and!; [split|done|].
  - simpl. lia.
  - cbn [bin]. by rewrite length_replicate.
  - intros b cs E. cbn [bin] in E. destruct (Hb b); congruence.
  - intros k. unfold count_of. cbn [bin sigbits]. by destruct (Hb (Z.to_nat (k / 2 ^ s))) as [->| ->].
Qed.

Lemma incs_spec vs hg :
  hg_ok hg → Forall (λ v, 0 ≤ v < 2 ^ 64)%Z vs →
  ∃ hg', hg64_incs hg vs = Done hg' ∧ hg_ok hg' ∧ sigbits hg' = sigbits hg ∧
         ∀ k, in_range hg k → count_of hg' k = u64 (count_of hg k + bucket_size (sigbits hg) k vs).
Proof.
  intros Hok Hvs. revert hg Hok. induction Hvs as [|v vs Hv Hvs IH]; intros hg Hok.
  { exists hg. split_and!; [done|done|done|]. intros k _. unfold bucket_size. simpl.
    pose proof (count_of_range hg k Hok). by rewrite Z.add_0_r, u64_small. }
  pose proof (ok_sigbits _ Hok) as Hs. destruct (value_in_bucket _ Hs v Hv) as [Hk Hin].
  cbn [hg64_incs]. unfold hg64_inc.
  destruct (add_key_count_spec hg (value_to_key (sigbits hg) v) 1 Hok Hk) as (hg1 & -> & Hok1 & Hs1 & Hc1).
  cbn [mbind run_bind]. destruct (IH hg1 Hok1) as (hg' & E & Hok' & Hs' & Hc').
  exists hg'. split_and!; [done|done|congruence|]. intros k Hk'. rewrite Hc', Hc1, Hs1 by (unfold in_range; by rewrite ?Hs1).
  unfold bucket_size. rewrite filter_cons. destruct (decide (k = value_to_key (sigbits hg) v)) as [->|Hne].
  - rewrite decide_True by done. cbn [length]. unfold u64. rewrite Zplus_mod_idemp_l. f_equal. lia.
  - rewrite decide_False; [done|]. intros Hb. apply Hne. symmetry. by apply bucket_value.
Qed.

(** ** Theorems *)

(** the buckets of a histogram partition the 64-bit values: every value has a bucket that
    contains it, a bucket contains exactly the values that are mapped to it, and the width of
    a bucket is less than its smallest value divided by [2 ^ sigbits], or one. *)
Theorem hg64_buckets s v key :
  (1 ≤ s ≤ 15)%Z → (0 ≤ v < 2 ^ 64)%Z → (0 ≤ key < KEYS s)%Z →
  (0 ≤ value_to_key s v < KEYS s)%Z ∧
  (value_to_key s v = key ↔ key_to_minval s key ≤ v ≤ key_to_maxval s key)%Z ∧
  ((key_to_maxval s key - key_to_minval s key) * 2 ^ s ≤ key_to_minval s key)%Z.
Proof.
  intros Hs Hv Hk. destruct (value_in_bucket s Hs v Hv) as [Hr Hin]. split; [done|]. split.
  - split; [by intros <-|by apply bucket_value].
  - rewrite maxval_eq by done. destruct (minval_eq s Hs key Hk) as [-> _].
    destruct (key_parts s Hs key Hk) as (_ & Hq & Hm). destruct (decide _) as [Hlt|Hge].
    + rewrite Z.div_small by lia. change (2 ^ Z.max 0 (0 - 1))%Z with 1%Z. lia.
    + pose proof (binsize_range s Hs).
      assert (1 ≤ key / 2 ^ s)%Z by (apply Z.div_le_lower_bound; lia). rewrite Z.max_r by lia.
      assert (0 < 2 ^ (key / 2 ^ s - 1))%Z by (apply Z.pow_pos_nonneg; lia). nia.
Qed.

Lemma hg64_buckets_witness :
  (0 ≤ value_to_key 7 1000000 < KEYS 7)%Z ∧
  (value_to_key 7 1000000 = 1780 ↔ key_to_minval 7 1780 ≤ 1000000 ≤ key_to_maxval 7 1780)%Z ∧
  ((key_to_maxval 7 1780 - key_to_minval 7 1780) * 2 ^ 7 ≤ key_to_minval 7 1780)%Z.
Proof.
  apply (hg64_buckets 7 1000000 1780); [lia|lia|]. split; [lia|]. reflexivity.
Defined.

(** a histogram that has recorded a sequence of values counts in each bucket the values of
    the sequence that lie in the bucket (modulo 2^64). *)
Theorem hg64_records s hg vs key :
  hg64_create s = Some hg → Forall (λ v, 0 ≤ v < 2 ^ 64)%Z vs → (0 ≤ key < KEYS s)%Z →
  ∃ hg', hg64_incs hg vs = Done hg' ∧
         hg64_get hg' key = Done (Some (key_to_minval s key, key_to_maxval s key, u64 (bucket_size s key vs))).
Proof.
  intros Hc Hvs Hk. destruct (create_ok s hg Hc) as (Hok & Hs & Hz).
  destruct (incs_spec vs hg Hok Hvs) as (hg' & E & Hok' & Hs' & Hc'). exists hg'. split; [done|].
  rewrite Hs in Hs'. unfold hg64_get. rewrite Hs', decide_True by lia.
  rewrite get_key_count_spec by (try done; unfold in_range; by rewrite Hs').
  rewrite Hc', Hz, Hs by (unfold in_range; by rewrite Hs). done.
Qed.

Lemma hg64_records_witness :
  ∃ hg hg', hg64_create 2 = Some hg ∧ hg64_incs hg [5; 9; 8; 100]%Z = Done hg' ∧
            hg64_get hg' 8 = Done (Some (8, 9, 2)%Z).
Proof.
  destruct (hg64_records 2 (Hg64 2 (replicate 64 None)) [5; 9; 8; 100]%Z 8) as (hg' & E & G).
  - reflexivity.
  - repeat constructor; lia.
  - split; [lia|reflexivity].
  - eexists _, hg'. split; [reflexivity|]. split; [exact E|exact G].
Defined.

(** merging and subtracting histograms of the same precision is addition and subtraction
    bucket by bucket, whichever bins are allocated; the traversals end. *)
Theorem hg64_merge_diff a b d :
  hg_ok a → hg_ok b → hg_ok d → sigbits b = sigbits a → sigbits d = sigbits a →
  (∃ t, hg64_merge a b = Done t ∧ hg_ok t ∧
        ∀ k, in_range a k → count_of t k = u64 (count_of a k + count_of b k)) ∧
  (∃ t, hg64_diff a b d = Done t ∧ hg_ok t ∧
        ∀ k, in_range a k → count_of t k = u64 (count_of d k + (count_of a k - count_of b k))).
Proof.
  intros Ha Hb Hd Hsb Hsd. pose proof (KEYS_bound _ (ok_sigbits _ Ha)). split.
  - destruct (hg64_merge_spec a b Ha Hb) as (t & ? & ? & ? & Hc); [done|]. exists t. split_and!; [done|done|].
    intros k Hk. apply Hc. unfold in_range. by rewrite Hsb.
  - destruct (hg64_diff_spec a b d Ha Hb Hd Hsb Hsd) as (t & ? & ? & _ & Hc). by exists t.
Qed.

(** The histogram of precision 2 that has recorded two values. *)
Lemma two_values : ∃ hg, hg64_incs (Hg64 2 (replicate 64 None)) [5; 100]%Z = Done hg ∧ hg_ok hg ∧ sigbits hg = 2%Z.
Proof.
  destruct (create_ok 2 (Hg64 2 (replicate 64 None)) eq_refl) as (Hok & _).
  destruct (incs_spec [5; 100]%Z _ Hok) as (hg & E & Hok' & Hs & _); [repeat constructor; lia|]. eauto.
Qed.

Lemma hg64_merge_diff_witness :
  ∃ a t, hg64_incs (Hg64 2 (replicate 64 None)) [5; 100]%Z = Done a ∧
         hg64_merge a (Hg64 2 (replicate 64 None)) = Done t ∧ hg_ok t.
Proof.
  destruct two_values as (a & E & Hok & Hs). destruct (create_ok 2 (Hg64 2 (replicate 64 None)) eq_refl) as (Hok0 & _).
  destruct (hg64_merge_diff a (Hg64 2 (replicate 64 None)) (Hg64 2 (replicate 64 None)) Hok Hok0 Hok0)
    as [(t & Et & Ht & _) _]; [symmetry; exact Hs|symmetry; exact Hs|].
  exists a, t. split; [exact E|]. split; [exact Et|exact Ht].
Defined.

(** [hg64_min_key] and [hg64_max_key] give the lowest and the highest bucket that has a
    count, and 0 when there is none. *)
Theorem hg64_extremes hg :
  hg_ok hg →
  ∃ lo hi, hg64_min_key hg = Done lo ∧ hg64_max_key hg = Done hi ∧
    (if decide (Forall (λ k, count_of hg k = 0%Z) (seqZ 0 (KEYS (sigbits hg)))) then lo = 0%Z ∧ hi = 0%Z
     else (0 ≤ lo ≤ hi ∧ hi < KEYS (sigbits hg) ∧ 0 < count_of hg lo ∧ 0 < count_of hg hi)%Z ∧
          ∀ k, (0 ≤ k < lo ∨ hi < k < KEYS (sigbits hg))%Z → count_of hg k = 0%Z).
Proof.
  intros Hok. pose proof (KEYS_bound _ (ok_sigbits _ Hok)) as HK.
  assert (∀ k, (count_of hg k ≤ 0)%Z → count_of hg k = 0%Z) as Hnn.
  { intros k. pose proof (count_of_range hg k Hok). lia. }
  unfold hg64_min_key, hg64_max_key. rewrite !hg64_loop_all by done.
  destruct (visit_min hg 0 (Z.to_nat (KEYS (sigbits hg)))) as (lo & E1 & H1).
  destruct (visit_max hg 0 (Z.to_nat (KEYS (sigbits hg))) 0) as (hi & E2 & H2).
  rewrite Z2Nat.id in E1, E2 by lia. rewrite E1, E2. exists lo, hi. split_and!; [done|done|].
  destruct (decide _) as [Hz|Hz].
  - rewrite Forall_forall in Hz. setoid_rewrite elem_of_seqZ in Hz. split.
    + destruct H1 as [(j & _ & Hj & Hc & _)|[-> _]]; [|done]. rewrite Hz in Hc; lia.
    + destruct H2 as [(Hj & Hc & _)|[-> _]]; [|done]. rewrite Hz in Hc; lia.
  - assert (¬ ∀ i, (0 ≤ i < 0 + Z.of_nat (Z.to_nat (KEYS (sigbits hg))))%Z → (count_of hg i ≤ 0)%Z) as Hne.
    { intros Hall. apply Hz. apply Forall_forall. intros k Hk%elem_of_seqZ. apply Hnn, Hall. lia. }
    destruct H1 as [(j & -> & Hj & Hc & Hlow)|[_ ?]]; [|done]. destruct H2 as [(Hi & Hc' & Hh)|[_ ?]]; [|done].
    assert (j ≤ hi)%Z.
    { destruct (decide (j ≤ hi)%Z); [done|]. specialize (Hlow hi). lia. }
    split_and!; [lia|lia|lia|done|done|]. intros k [Hk|Hk]; apply Hnn; [apply Hlow|apply Hh]; lia.
Qed.

Lemma hg64_extremes_witness :
  ∃ hg lo hi, hg64_incs (Hg64 2 (replicate 64 None)) [5; 100]%Z = Done hg ∧
              hg64_min_key hg = Done lo ∧ hg64_max_key hg = Done hi.
Proof.
  destruct two_values as (hg & E & Hok & _). destruct (hg64_extremes hg Hok) as (lo & hi & H1 & H2 & _).
  exists hg, lo, hi. split; [exact E|]. split; [exact H1|exact H2].
Defined.

(** Merging into a histogram of higher precision loses counts: the remainder is spread over
    the keys below it, [tkey < rem], not over the first [rem] keys of the range. *)
Theorem hg64_merge_loses :
  ∃ source target t, hg64_create 1 = Some source ∧ hg64_create 2 = Some target ∧
    (hg ← hg64_incs source [5; 5; 5]%Z; hg64_merge target hg) = Done t ∧
    count_of t 4 = 1%Z ∧ count_of t 5 = 1%Z ∧ hg64_min_key t = Done 4%Z ∧ hg64_max_key t = Done 5%Z.
Proof.
  eexists _, _, _. split; [reflexivity|]. split; [reflexivity|]. split; [vm_compute; reflexivity|].
  by vm_compute.
Qed.
