(* ===== verification/Hg64Stats.v ===== *)
(** * Mean and variance of a histogram (ext/hg64.c, [hg64_mean_variance])

    The loop over the buckets in floating point.  It returns for every histogram; what it computes
    as the variance is not the variance. *)

From S2P Require Import Prelude Doubles Hg64.

(** The state of the loop: [pop], [mean] and [sigma]. *)
Definition moments : Type := (double * double * double)%type.

(** The body of the loop for the bucket [min] to [max] with [count] values. *)
Definition add_bucket (min max count : Z) (m : moments) : moments :=
  let '(pop, mean, sigma) := m in
  let two := d_of_int 2 in
  let delta := d_sub (d_add (d_div (d_of_int min) two) (d_div (d_of_int max) two)) mean in
  if decide (count = 0)%Z then m
  else
    let pop := d_add pop (d_of_int count) in
    let mean := d_add mean (d_div (d_mul (d_of_int count) delta) pop) in
    let sigma := d_add sigma (d_mul (d_mul (d_of_int count) delta) (d_sub (d_of_int (u64 (min + max))) mean)) in
    (pop, mean, sigma).

(** [hg64_mean_variance(hg, pmean, pvar)]. *)
Definition hg64_mean_variance (hg : hg64) : run (double * double) :=
  '(pop, mean, sigma) ← hg64_loop (loop_fuel hg) hg 0
    (λ key count m, Done (add_bucket (key_to_minval (sigbits hg) key) (key_to_maxval (sigbits hg) key) count m, true))
    (d_zero, d_zero, d_zero);
  Done (mean, d_div sigma pop).

(** The loop visits every bucket: it is a fold over all keys. *)
Theorem mean_variance_fold hg :
  hg_ok hg →
  hg64_mean_variance hg =
    let '(pop, mean, sigma) :=
      foldl (λ m key, add_bucket (key_to_minval (sigbits hg) key) (key_to_maxval (sigbits hg) key) (count_of hg key) m)
        (d_zero, d_zero, d_zero) (seqZ 0 (KEYS (sigbits hg))) in
    Done (mean, d_div sigma pop).
Proof.
  intros Hok. unfold hg64_mean_variance. rewrite hg64_loop_all; [|done|].
  - generalize (seqZ 0 (KEYS (sigbits hg))) as ks, (d_zero, d_zero, d_zero) as m. intros ks.
    induction ks as [|k ks IH]; intros m; cbn [visit foldl]; [by destruct m as [[??]?]|]. cbn [mbind run_bind]. apply IH.
  - intros k [[pop mean] sigma]. unfold add_bucket. by rewrite decide_True.
Qed.

(** A histogram with the value 6 recorded three times: the mean is 6, and the variance 36 where it
    should be 0, because [sigma] is increased with [min + max - mean] instead of the middle of the
    bucket less the mean. *)
Theorem variance_of_constant :
  ∃ hg hg', hg64_create 3 = Some hg ∧ hg64_incs hg [6; 6; 6]%Z = Done hg' ∧
    hg64_mean_variance hg' = Done (d_of_int 6, d_of_int 36).
Proof. eexists _, _. split; [reflexivity|]. split; [vm_compute; reflexivity|]. vm_compute. reflexivity. Qed.
