(* ===== verification/Stats.v ===== *)
(** * Statistics and small helpers of dnsperf.c

    The counters of a thread ([stats_t]), their sum over the threads and their difference
    between two samples; [num_outstanding]; the division of a limit over the threads; and
    the bit sets over sockets.  Counters are 64 bit and wrap around.  The model is the build
    without histograms; IntervalStats.v adds them. *)

From S2P Require Import Prelude.

Definition DNSPERF_STATS_RCODECOUNTS : nat := 16.

Record stats_t : Type := Stats {
  rcodecounts : list Z;
  num_sent : Z;
  num_interrupted : Z;
  num_timedout : Z;
  num_completed : Z;
  total_request_size : Z;
  total_response_size : Z;
  latency_sum : Z;
  latency_sum_squares : Z;
  latency_min : Z;
  latency_max : Z;
  num_conn_attempts : Z;
  num_conn_completed : Z;
  conn_latency_sum : Z;
  conn_latency_sum_squares : Z;
  conn_latency_min : Z;
  conn_latency_max : Z;
}.

(** [memset] of the whole structure to 0. *)
Definition zero_stats : stats_t :=
  Stats (replicate DNSPERF_STATS_RCODECOUNTS 0%Z) 0 0 0 0 0 0 0 0 0 0 0 0 0 0 0 0.

Definition zip_counts (f : Z → Z → Z) (a b : list Z) : list Z := zip_with (λ x y, u64 (f x y)) a b.

(** [diff_stats(config, last, now, diff)]. *)
Definition diff_stats (last now : stats_t) : stats_t := {|
  rcodecounts := zip_counts Z.sub (rcodecounts now) (rcodecounts last);
  num_sent := u64 (num_sent now - num_sent last);
  num_interrupted := u64 (num_interrupted now - num_interrupted last);
  num_timedout := u64 (num_timedout now - num_timedout last);
  num_completed := u64 (num_completed now - num_completed last);
  total_request_size := u64 (total_request_size now - total_request_size last);
  total_response_size := u64 (total_response_size now - total_response_size last);
  latency_sum := u64 (latency_sum now - latency_sum last);
  latency_sum_squares := u64 (latency_sum_squares now - latency_sum_squares last);
  latency_min := 0;
  latency_max := 0;
  num_conn_attempts := u64 (num_conn_attempts now - num_conn_attempts last);
  num_conn_completed := u64 (num_conn_completed now - num_conn_completed last);
  conn_latency_sum := u64 (conn_latency_sum now - conn_latency_sum last);
  conn_latency_sum_squares := u64 (conn_latency_sum_squares now - conn_latency_sum_squares last);
  conn_latency_min := 0;
  conn_latency_max := 0;
|}.

(** The body of the loop of [sum_stats]; [first] is [i == 0]. *)
Definition add_stats (total : stats_t) (first : bool) (stats : stats_t) : stats_t := {|
  rcodecounts := zip_counts Z.add (rcodecounts total) (rcodecounts stats);
  num_sent := u64 (num_sent total + num_sent stats);
  num_interrupted := u64 (num_interrupted total + num_interrupted stats);
  num_timedout := u64 (num_timedout total + num_timedout stats);
  num_completed := u64 (num_completed total + num_completed stats);
  total_request_size := u64 (total_request_size total + total_request_size stats);
  total_response_size := u64 (total_response_size total + total_response_size stats);
  latency_sum := u64 (latency_sum total + latency_sum stats);
  latency_sum_squares := u64 (latency_sum_squares total + latency_sum_squares stats);
  latency_min := if decide (latency_min stats < latency_min total ∨ first = true)%Z
                 then latency_min stats else latency_min total;
  latency_max := if decide (latency_max total < latency_max stats)%Z
                 then latency_max stats else latency_max total;
  num_conn_attempts := u64 (num_conn_attempts total + num_conn_attempts stats);
  num_conn_completed := u64 (num_conn_completed total + num_conn_completed stats);
  conn_latency_sum := u64 (conn_latency_sum total + conn_latency_sum stats);
  conn_latency_sum_squares := u64 (conn_latency_sum_squares total + conn_latency_sum_squares stats);
  conn_latency_min := if decide (conn_latency_min stats < conn_latency_min total ∨ first = true)%Z
                      then conn_latency_min stats else conn_latency_min total;
  conn_latency_max := if decide (conn_latency_max total < conn_latency_max stats)%Z
                      then conn_latency_max stats else conn_latency_max total;
|}.

Fixpoint sum_loop (total : stats_t) (first : bool) (threads : list stats_t) : stats_t :=
  match threads with
  | [] => total
  | s :: threads' => sum_loop (add_stats total first s) false threads'
  end.

(** [sum_stats(config, total)] over the statistics of the threads. *)
Definition sum_stats (threads : list stats_t) : stats_t := sum_loop zero_stats true threads.

(** [num_outstanding(stats)]; the sums are unsigned. *)
Definition num_outstanding (stats : stats_t) : Z :=
  if decide (num_sent stats < u64 (num_completed stats + num_timedout stats))%Z then 0%Z
  else u64 (u64 (num_sent stats - num_completed stats) - num_timedout stats).

(** [per_thread(total, nthreads, offset)]. *)
Definition per_thread (total nthreads offset : Z) : Z :=
  let value := (total / nthreads)%Z in
  let temp_total := u32 (value * nthreads) in
  if decide (temp_total < total ∧ offset < u32 (total - temp_total))%Z then u32 (value + 1) else value.

(** [bits[i]]: reading or writing outside the array is undefined. *)
Definition with_byte (bits : list Z) (bit : nat) (f : Z → Z) : run (list Z) :=
  match bits !! (bit / 8) with
  | Some b => Done (<[bit / 8 := f b]> bits)
  | None => Undef
  end.

Definition bit_mask (bit : nat) : Z := Z.shiftl 1 (7 - Z.of_nat (bit mod 8)).

Definition bit_set (bits : list Z) (bit : nat) : run (list Z) :=
  with_byte bits bit (λ b, u8 (Z.lor b (bit_mask bit))).

Definition bit_clear (bits : list Z) (bit : nat) : run (list Z) :=
  with_byte bits bit (λ b, u8 (Z.land b (Z.lnot (bit_mask bit)))).

Definition bit_check (bits : list Z) (bit : nat) : run bool :=
  match bits !! (bit / 8) with
  | Some b => Done (negb (bool_decide (Z.land (Z.shiftr b (7 - Z.of_nat (bit mod 8))) 1 = 0%Z)))
  | None => Undef
  end.

(** ** Division over the threads *)

Lemma zip_sum a b : length a = length b → u64 (sumZ (zip_counts Z.add a b)) = u64 (sumZ a + sumZ b).
Proof.
  revert b. induction a as [|x a IH]; intros [|y b] Hl; try done. specialize (IH b ltac:(simpl in Hl; lia)).
  change (u64 (u64 (x + y) + sumZ (zip_counts Z.add a b)) = u64 (x + sumZ a + (y + sumZ b))).
  unfold u64 in *. rewrite Zplus_mod_idemp_l, <- Zplus_mod_idemp_r, IH, Zplus_mod_idemp_r. f_equal. lia.
Qed.

Lemma per_thread_value total n k :
  (0 < n < 2 ^ 32)%Z → (0 ≤ total < 2 ^ 32)%Z → (0 ≤ k)%Z →
  per_thread total n k = (total / n + (if decide (k < total mod n) then 1 else 0))%Z.
Proof.
  intros Hn Ht Hk0. unfold per_thread. pose proof (Z.mod_pos_bound total n ltac:(lia)) as Hm.
  pose proof (Z.div_mod total n ltac:(lia)) as Hd. pose proof (Z.div_pos total n ltac:(lia) ltac:(lia)).
  rewrite (u32_small (total / n * n)) by nia. rewrite u32_small by nia.
  replace (total - total / n * n)%Z with (total mod n)%Z by lia.
  destruct (decide (k < total mod n)%Z) as [Hk|Hk].
  - destruct (decide (total / n * n < total)%Z) as [Hlt|Hlt].
    + rewrite decide_True by done. rewrite u32_small; [done|]. nia.
    + lia.
  - rewrite decide_False by lia. lia.
Qed.

Lemma sum_steps v r m :
  (0 ≤ r)%Z →
  sumZ (map (λ k : nat, v + (if decide (Z.of_nat k < r) then 1 else 0))%Z (seq 0 m)) =
    (Z.of_nat m * v + Z.min (Z.of_nat m) r)%Z.
Proof.
  intros Hr. induction m as [|m IH]; [simpl; lia|].
  rewrite seq_S, map_app, sumZ_app, IH. simpl. destruct (decide _); lia.
Qed.

(** a limit divided over the threads: the shares add up to the limit, and differ by at
    most one. *)
Theorem per_thread_shares (total : Z) (n : nat) :
  (0 < Z.of_nat n < 2 ^ 32)%Z → (0 ≤ total < 2 ^ 32)%Z →
  sumZ (map (λ k : nat, per_thread total (Z.of_nat n) (Z.of_nat k)) (seq 0 n)) = total ∧
  ∀ k : nat, (total / Z.of_nat n ≤ per_thread total (Z.of_nat n) (Z.of_nat k) ≤ total / Z.of_nat n + 1)%Z.
Proof.
  intros Hn Ht. split.
  - rewrite (map_ext _ (λ k : nat, total / Z.of_nat n +
      (if decide (Z.of_nat k < total mod Z.of_nat n) then 1 else 0))%Z)
      by (intros k; by rewrite per_thread_value by lia).
    pose proof (Z.mod_pos_bound total (Z.of_nat n) ltac:(lia)).
    rewrite sum_steps by lia. pose proof (Z.div_mod total (Z.of_nat n) ltac:(lia)). lia.
  - intros k. rewrite per_thread_value by lia. destruct (decide _); lia.
Qed.

Lemma per_thread_shares_witness :
  sumZ (map (λ k : nat, per_thread 100 3 (Z.of_nat k)) (seq 0 3)) = 100%Z ∧
  ∀ k : nat, (100 / 3 ≤ per_thread 100 3 (Z.of_nat k) ≤ 100 / 3 + 1)%Z.
Proof. apply (per_thread_shares 100 3); lia. Defined.

(** ** Bit sets *)

Definition get_bit (bits : list Z) (i : nat) : option bool :=
  b ← bits !! (i / 8); Some (Z.testbit b (7 - Z.of_nat (i mod 8))).

Lemma land_1_testbit z : negb (bool_decide (Z.land z 1 = 0%Z)) = Z.testbit z 0.
Proof.
  change 1%Z with (Z.ones 1). rewrite Z.land_ones by lia. change (2 ^ 1)%Z with 2%Z.
  rewrite <- Z.bit0_mod. by destruct (Z.testbit z 0).
Qed.

Lemma bit_check_spec bits i :
  bit_check bits i = match get_bit bits i with Some b => Done b | None => Undef end.
Proof.
  unfold bit_check, get_bit. destruct (bits !! (i / 8)) as [b|]; simpl; [|done].
  by rewrite land_1_testbit, Z.shiftr_spec by lia.
Qed.

(** A bit and its byte. *)
Lemma div_mod_8 i j : i / 8 = j / 8 → i mod 8 = j mod 8 → i = j.
Proof. intros H1 H2. rewrite (Nat.div_mod i 8), (Nat.div_mod j 8) by lia. lia. Qed.

(** Updating one byte such that one bit gets a value and the others keep theirs. *)
Lemma with_byte_spec bits i f v :
  i < 8 * length bits →
  (∀ b k, (0 ≤ k < 8)%Z →
     Z.testbit (f b) k = if decide (k = 7 - Z.of_nat (i mod 8))%Z then v else Z.testbit b k) →
  ∃ bits', with_byte bits i f = Done bits' ∧ length bits' = length bits ∧
    ∀ j, get_bit bits' j = if decide (j = i) then Some v else get_bit bits j.
Proof.
  intros Hi Hf. unfold with_byte.
  assert (i / 8 < length bits) as Hlt by (apply Nat.div_lt_upper_bound; lia).
  destruct (lookup_lt_is_Some_2 bits (i / 8) Hlt) as [b Hb]. rewrite Hb.
  eexists. split; [done|]. split; [by rewrite length_insert|]. intros j. unfold get_bit.
  pose proof (Nat.mod_upper_bound i 8). pose proof (Nat.mod_upper_bound j 8).
  destruct (decide (j / 8 = i / 8)) as [E|E].
  - rewrite E, Hb, list_lookup_insert_eq by done. cbn [mbind option_bind]. rewrite Hf by lia.
    destruct (decide (j = i)) as [->|Hne].
    + by rewrite decide_True.
    + rewrite decide_False; [done|]. intros E'. apply Hne, div_mod_8; [done|lia].
  - rewrite list_lookup_insert_ne by done. rewrite decide_False; [done|]. by intros ->.
Qed.

Lemma bit_mask_testbit i k :
  (0 ≤ k)%Z → Z.testbit (bit_mask i) k = bool_decide (k = 7 - Z.of_nat (i mod 8))%Z.
Proof.
  intros Hk. pose proof (Nat.mod_upper_bound i 8). unfold bit_mask.
  rewrite Z.shiftl_1_l, Z.pow2_bits_eqb by lia. rewrite Z.eqb_sym.
  by destruct (Z.eqb_spec k (7 - Z.of_nat (i mod 8))); [rewrite bool_decide_eq_true_2|rewrite bool_decide_eq_false_2].
Qed.

Lemma bit_ops_spec bits i :
  i < 8 * length bits →
  (∃ bits', bit_set bits i = Done bits' ∧ length bits' = length bits ∧
     ∀ j, bit_check bits' j = if decide (j = i) then Done true else bit_check bits j) ∧
  (∃ bits', bit_clear bits i = Done bits' ∧ length bits' = length bits ∧
     ∀ j, bit_check bits' j = if decide (j = i) then Done false else bit_check bits j).
Proof.
  intros Hi. split.
  - destruct (with_byte_spec bits i (λ b, u8 (Z.lor b (bit_mask i))) true Hi) as (bits' & E & Hl & Hg).
    { intros b k Hk. unfold u8. rewrite Z.mod_pow2_bits_low, Z.lor_spec, bit_mask_testbit by lia.
      case_bool_decide; [rewrite decide_True by done; by rewrite orb_true_r|].
      by rewrite decide_False, orb_false_r. }
    exists bits'. split_and!; [done|done|]. intros j. rewrite !bit_check_spec, Hg. by destruct (decide (j = i)).
  - destruct (with_byte_spec bits i (λ b, u8 (Z.land b (Z.lnot (bit_mask i)))) false Hi) as (bits' & E & Hl & Hg).
    { intros b k Hk. unfold u8.
      rewrite Z.mod_pow2_bits_low, Z.land_spec, Z.lnot_spec, bit_mask_testbit by lia.
      case_bool_decide; [rewrite decide_True by done; by rewrite andb_false_r|].
      by rewrite decide_False, andb_true_r. }
    exists bits'. split_and!; [done|done|]. intros j. rewrite !bit_check_spec, Hg. by destruct (decide (j = i)).
Qed.

(** the bit sets over sockets behave as sets: after [bit_set] or [bit_clear] on a bit of
    the array, [bit_check] sees that bit set or clear and every other bit unchanged. *)
Theorem bit_ops_refine bits i :
  i < 8 * length bits →
  (∃ bits', bit_set bits i = Done bits' ∧ length bits' = length bits ∧
     ∀ j, bit_check bits' j = if decide (j = i) then Done true else bit_check bits j) ∧
  (∃ bits', bit_clear bits i = Done bits' ∧ length bits' = length bits ∧
     ∀ j, bit_check bits' j = if decide (j = i) then Done false else bit_check bits j).
Proof. exact (bit_ops_spec bits i). Qed.

Lemma bit_ops_refine_witness :
  (∃ bits', bit_set [0; 0]%Z 9 = Done bits' ∧ length bits' = 2 ∧
     ∀ j, bit_check bits' j = if decide (j = 9) then Done true else bit_check [0; 0]%Z j) ∧
  (∃ bits', bit_clear [0; 0]%Z 9 = Done bits' ∧ length bits' = 2 ∧
     ∀ j, bit_check bits' j = if decide (j = 9) then Done false else bit_check [0; 0]%Z j).
Proof. apply (bit_ops_refine [0; 0]%Z 9). simpl. lia. Defined.

(** ** Sums and differences of statistics *)

(** The counters: everything but the minima and maxima. *)
Definition counters (s : stats_t) : list Z :=
  rcodecounts s ++
  [ num_sent s; num_interrupted s; num_timedout s; num_completed s; total_request_size s;
    total_response_size s; latency_sum s; latency_sum_squares s; num_conn_attempts s;
    num_conn_completed s; conn_latency_sum s; conn_latency_sum_squares s ].

Definition stats_ok (s : stats_t) : Prop :=
  length (rcodecounts s) = DNSPERF_STATS_RCODECOUNTS ∧ Forall (λ z, 0 ≤ z < 2 ^ 64)%Z (counters s).

Lemma u64_idemp z : u64 (u64 z) = u64 z.
Proof. apply u64_small, u64_range. Qed.
Lemma u64_add_l a b : u64 (u64 a + b) = u64 (a + b).
Proof. apply Zplus_mod_idemp_l. Qed.
Lemma u64_add_r a b : u64 (a + u64 b) = u64 (a + b).
Proof. apply Zplus_mod_idemp_r. Qed.

Lemma add_diff last now : (0 ≤ now < 2 ^ 64)%Z → u64 (last + u64 (now - last)) = now.
Proof. intros H. rewrite u64_add_r. replace (last + (now - last))%Z with now by lia. by apply u64_small. Qed.

Lemma zip_add_diff last now :
  length last = length now → Forall (λ z, 0 ≤ z < 2 ^ 64)%Z now →
  zip_counts Z.add last (zip_counts Z.sub now last) = now.
Proof.
  intros Hl Hn. revert last Hl. unfold zip_counts.
  induction Hn as [|z now Hz Hn IH]; intros [|w last] Hl; simpl in *; try done.
  rewrite add_diff by done. by rewrite IH by lia.
Qed.

Lemma counters_diff last now :
  length (rcodecounts last) = length (rcodecounts now) →
  counters (diff_stats last now) = zip_counts Z.sub (counters now) (counters last).
Proof. intros Hl. unfold counters, zip_counts. by rewrite zip_with_app by done. Qed.

Lemma counters_add total first s :
  length (rcodecounts total) = length (rcodecounts s) →
  counters (add_stats total first s) = zip_counts Z.add (counters total) (counters s).
Proof. intros Hl. unfold counters, zip_counts. by rewrite zip_with_app by done. Qed.

(** interval statistics: the difference of two samples, added to the older one, gives the
    newer one, counter by counter, also when a counter has wrapped around in between. *)
Theorem diff_stats_adds_up last now :
  stats_ok last → stats_ok now →
  zip_counts Z.add (counters last) (counters (diff_stats last now)) = counters now.
Proof.
  intros [Hl1 _] [Hl2 Hn]. rewrite counters_diff by congruence. apply zip_add_diff; [|done].
  unfold counters. by rewrite !length_app, Hl1, Hl2.
Qed.

(** Statistics with a few counters set, for the witnesses. *)
Definition sample_stats (sent completed lmin lmax : Z) : stats_t :=
  Stats (replicate DNSPERF_STATS_RCODECOUNTS 0%Z) sent 0 0 completed 0 0 0 0 lmin lmax 0 0 0 0 0 0.

Lemma diff_stats_adds_up_witness :
  let last := sample_stats (2 ^ 64 - 1) 5 1 2 in
  let now := sample_stats 3 7 1 2 in
  zip_counts Z.add (counters last) (counters (diff_stats last now)) = counters now.
Proof.
  intros last now.
  apply (diff_stats_adds_up last now); (split; [done|by apply (bool_decide_unpack _); vm_compute]).
Defined.

Definition nth_counter (i : nat) (s : stats_t) : Z := default 0%Z (counters s !! i).

Lemma add_nth total first s i :
  length (rcodecounts total) = DNSPERF_STATS_RCODECOUNTS →
  length (rcodecounts s) = DNSPERF_STATS_RCODECOUNTS →
  length (rcodecounts (add_stats total first s)) = DNSPERF_STATS_RCODECOUNTS ∧
  (i < length (counters s) → nth_counter i (add_stats total first s) =
    u64 (nth_counter i total + nth_counter i s)).
Proof.
  intros H1 H2. split.
  - simpl. unfold zip_counts. rewrite length_zip_with, H1, H2. done.
  - intros Hi. unfold nth_counter. rewrite counters_add by congruence. unfold zip_counts.
    destruct (lookup_lt_is_Some_2 _ _ Hi) as [y Hy].
    destruct (lookup_lt_is_Some_2 (counters total) i) as [x Hx].
    { unfold counters in *. rewrite length_app in *. by rewrite H1, <- H2. }
    by rewrite lookup_zip_with, Hx, Hy.
Qed.

Lemma sum_loop_spec threads total first i :
  length (rcodecounts total) = DNSPERF_STATS_RCODECOUNTS →
  Forall (λ s, length (rcodecounts s) = DNSPERF_STATS_RCODECOUNTS) threads → i < 28 →
  (0 ≤ nth_counter i total < 2 ^ 64)%Z →
  nth_counter i (sum_loop total first threads) =
    u64 (nth_counter i total + sumZ (map (nth_counter i) threads)).
Proof.
  revert total first. induction threads as [|s threads IH]; intros total first Ht Hs Hi Hr; simpl.
  - rewrite Z.add_0_r. by rewrite u64_small.
  - apply Forall_cons in Hs as [Hs Hs']. destruct (add_nth total first s i Ht Hs) as [Hl Hn].
    rewrite IH; [|done|done|done|].
    + rewrite Hn by (unfold counters; rewrite length_app, Hs; done). rewrite u64_add_l. f_equal. lia.
    + rewrite Hn by (unfold counters; rewrite length_app, Hs; done). apply u64_range.
Qed.

Lemma sum_loop_minmax threads total first s :
  (0 ≤ latency_max total)%Z →
  latency_min (sum_loop total first (s :: threads)) =
    foldl Z.min (if first then latency_min s else Z.min (latency_min total) (latency_min s))
      (map latency_min threads) ∧
  latency_max (sum_loop total first (s :: threads)) =
    foldl Z.max (Z.max (latency_max total) (latency_max s)) (map latency_max threads).
Proof.
  revert total first s. induction threads as [|t threads IH]; intros total first s Hm.
  - simpl. split.
    + destruct first; [by rewrite decide_True by tauto|]. destruct (decide _) as [[?|?]|?]; [lia|done|lia].
    + destruct (decide _); lia.
  - cbn [sum_loop]. destruct (IH (add_stats total first s) false t) as [H1 H2].
    { simpl. destruct (decide _); lia. }
    cbn [sum_loop] in H1, H2. rewrite H1, H2. cbn [map foldl]. split; f_equal; simpl.
    + destruct first; [by rewrite decide_True by tauto|]. destruct (decide _) as [[?|?]|?]; [lia|done|lia].
    + destruct (decide _); lia.
Qed.

(** the totals over the threads: every counter is the sum of the threads' counters (modulo
    2^64), the minimum latency is the least and the maximum the greatest of theirs. *)
Theorem sum_stats_totals s threads :
  Forall (λ s, length (rcodecounts s) = DNSPERF_STATS_RCODECOUNTS) (s :: threads) →
  Forall (λ s, 0 ≤ latency_max s)%Z (s :: threads) →
  (∀ i, i < 28 → nth_counter i (sum_stats (s :: threads)) =
                 u64 (sumZ (map (nth_counter i) (s :: threads)))) ∧
  latency_min (sum_stats (s :: threads)) = foldl Z.min (latency_min s) (map latency_min threads) ∧
  latency_max (sum_stats (s :: threads)) = foldl Z.max (latency_max s) (map latency_max threads).
Proof.
  intros Hl Hm. unfold sum_stats. split.
  - intros i Hi. assert (nth_counter i zero_stats = 0%Z) as H0.
    { unfold nth_counter. do 28 (destruct i as [|i]; [done|]). lia. }
    rewrite sum_loop_spec by (done || lia). by rewrite H0.
  - destruct (sum_loop_minmax threads zero_stats true s) as [H1 H2]; [done|]. rewrite H1, H2.
    apply Forall_cons in Hm as [Hm _]. split; [done|]. f_equal. simpl. lia.
Qed.

Lemma sum_stats_totals_witness :
  let a := sample_stats 10 8 30 90 in
  let b := sample_stats 12 12 20 70 in
  (∀ i, i < 28 → nth_counter i (sum_stats [a; b]) = u64 (sumZ (map (nth_counter i) [a; b]))) ∧
  latency_min (sum_stats [a; b]) = 20%Z ∧ latency_max (sum_stats [a; b]) = 90%Z.
Proof.
  intros a b. apply (sum_stats_totals a [b]); (repeat constructor; simpl; lia).
Defined.

(** a thread that got no response keeps its minimum latency at 0, and the total takes it
    for a latency: the reported minimum is 0 although no response was that fast. *)
Theorem idle_thread_zeroes_minimum :
  let busy := sample_stats 10 10 30 90 in
  latency_min (sum_stats [busy; zero_stats]) = 0%Z ∧ latency_min (sum_stats [zero_stats; busy]) = 0%Z ∧
  latency_min (sum_stats [busy]) = 30%Z.
Proof. by vm_compute. Qed.
