(* ===== verification/Queries.v ===== *)
(** * The query table of a dnsperf thread (dnsperf.c)

    Each thread has one entry per message id.  An entry is on one of two lists, the unused
    ids and the outstanding queries, and records on which ([q->list]); [query_move] takes it
    off that list and puts it on another.  The abstract view is a pair of sequences of ids;
    [query_move_refines] shows that every move keeps them a partition of the ids and that
    the assertions of the list macros hold. *)

From S2P Require Import Prelude LinkedList.

Definition NQIDS : nat := Z.to_nat 65536.

Lemma NQIDS_val : Z.of_nat NQIDS = 65536%Z.
Proof. unfold NQIDS. lia. Qed.
#[global] Opaque NQIDS.

(** Which list an entry is on: the value of [q->list]. *)
Inductive query_list : Set := unused_list | outstanding_list.

#[export] Instance query_list_eq_dec : EqDecision query_list.
Proof. solve_decision. Defined.

(** [query_info] without its link; [sock] is an index into the thread's sockets. *)
Record query_info : Type := QueryInfo {
  timestamp : Z;
  qlist : query_list;
  desc : option (list Z);
  sock : option nat;
}.

(** The part of [threadinfo_t] that holds the queries. *)
Record query_table : Type := QueryTable {
  queries : gmap nat query_info;
  links : gmap nat link;
  outstanding_queries : perf_list;
  unused_queries : perf_list;
}.

Inductive query_move_op : Set := prepend_unused | append_unused | prepend_outstanding.

Definition get_query (t : query_table) (q : nat) : run query_info :=
  match queries t !! q with Some qi => Done qi | None => Undef end.

Definition set_query (t : query_table) (q : nat) (qi : query_info) : query_table :=
  QueryTable (<[q := qi]> (queries t)) (links t) (outstanding_queries t) (unused_queries t).

Definition set_qlist (qi : query_info) (l : query_list) : query_info :=
  QueryInfo (timestamp qi) l (desc qi) (sock qi).
Definition set_timestamp (qi : query_info) (ts : Z) : query_info :=
  QueryInfo ts (qlist qi) (desc qi) (sock qi).
Definition set_desc (qi : query_info) (d : option (list Z)) : query_info :=
  QueryInfo (timestamp qi) (qlist qi) d (sock qi).
Definition set_sock (qi : query_info) (s : option nat) : query_info :=
  QueryInfo (timestamp qi) (qlist qi) (desc qi) s.

(** [perf_list_unlink( *q->list, q)]. *)
Definition unlink_query (t : query_table) (q : nat) : run query_table :=
  qi ← get_query t q;
  match qlist qi with
  | unused_list =>
      '(l, st) ← perf_list_unlink (unused_queries t) q (links t);
      Done (QueryTable (queries t) st (outstanding_queries t) l)
  | outstanding_list =>
      '(l, st) ← perf_list_unlink (outstanding_queries t) q (links t);
      Done (QueryTable (queries t) st l (unused_queries t))
  end.

(** [query_move(tinfo, q, op)]. *)
Definition query_move (t : query_table) (q : nat) (op : query_move_op) : run query_table :=
  t ← unlink_query t q;
  qi ← get_query t q;
  match op with
  | prepend_unused =>
      let t := set_query t q (set_qlist qi unused_list) in
      '(l, st) ← perf_list_prepend (unused_queries t) q (links t);
      Done (QueryTable (queries t) st (outstanding_queries t) l)
  | append_unused =>
      let t := set_query t q (set_qlist qi unused_list) in
      '(l, st) ← perf_list_append (unused_queries t) q (links t);
      Done (QueryTable (queries t) st (outstanding_queries t) l)
  | prepend_outstanding =>
      let t := set_query t q (set_qlist qi outstanding_list) in
      '(l, st) ← perf_list_prepend (outstanding_queries t) q (links t);
      Done (QueryTable (queries t) st l (unused_queries t))
  end.

(** The loop of [threadinfo_init] over the ids, lines 1539-1543, on the structure [memset]
    to zero. *)
Fixpoint init_queries (n i : nat) (t : query_table) : run query_table :=
  match n with
  | 0 => Done t
  | S n' =>
      let st := perf_link_init i (links t) in
      '(l, st) ← perf_list_append (unused_queries t) i st;
      init_queries n' (S i)
        (QueryTable (<[i := QueryInfo 0 unused_list None None]> (queries t)) st (outstanding_queries t) l)
  end.

Definition query_table_init (n : nat) : run query_table :=
  init_queries n 0 (QueryTable ∅ ∅ perf_list_init perf_list_init).

(** ** The abstract table *)

(** The ids on the two lists, in order. *)
Definition qpair : Type := list nat * list nat.

Definition spec_move (q : nat) (op : query_move_op) (p : qpair) : qpair :=
  let os := filter (λ x, x ≠ q) p.1 in
  let us := filter (λ x, x ≠ q) p.2 in
  match op with
  | prepend_unused => (os, q :: us)
  | append_unused => (os, us ++ [q])
  | prepend_outstanding => (q :: os, us)
  end.

Definition entry_on (t : query_table) (l : query_list) (q : nat) : Prop :=
  ∃ qi, queries t !! q = Some qi ∧ qlist qi = l.

(** The two lists partition the ids below [n], and every entry knows its list. *)
Record table_rep (n : nat) (t : query_table) (p : qpair) : Prop := {
  rep_outstanding : dll (outstanding_queries t) (links t) p.1;
  rep_unused : dll (unused_queries t) (links t) p.2;
  rep_ids : p.1 ++ p.2 ≡ₚ seq 0 n;
  rep_entry_o : Forall (entry_on t outstanding_list) p.1;
  rep_entry_u : Forall (entry_on t unused_list) p.2;
}.

(** *** Facts on partitions *)
Lemma spec_move_perm q op p n :
  p.1 ++ p.2 ≡ₚ seq 0 n → q < n → (spec_move q op p).1 ++ (spec_move q op p).2 ≡ₚ seq 0 n.
Proof.
  intros Hp Hq.
  assert (NoDup (p.1 ++ p.2)) as Hnd by (rewrite Hp; apply NoDup_seq).
  assert (q ∈ p.1 ++ p.2) as Hin by (rewrite Hp; apply elem_of_seq; lia).
  assert (p.1 ++ p.2 ≡ₚ q :: filter (λ x, x ≠ q) (p.1 ++ p.2)) as Hsp.
  { apply list_elem_of_split in Hin as (a & b & E). rewrite E in Hnd |- *.
    rewrite filter_split_NoDup by done. by rewrite Permutation_middle. }
  rewrite filter_app in Hsp. rewrite <- Hp, Hsp. destruct op; simpl.
  - by rewrite Permutation_middle.
  - rewrite app_assoc. by rewrite <- Permutation_cons_append.
  - done.
Qed.

Lemma rep_disjoint n t p x : table_rep n t p → x ∈ p.1 → x ∉ p.2.
Proof.
  intros H Hx Hx'. assert (NoDup (p.1 ++ p.2)) as Hnd by (rewrite (rep_ids _ _ _ H); apply NoDup_seq).
  apply NoDup_app in Hnd as (_ & Hd & _). by apply (Hd x).
Qed.

Lemma rep_in n t p q : table_rep n t p → q < n ↔ q ∈ p.1 ∨ q ∈ p.2.
Proof.
  intros H. rewrite <- elem_of_app, (rep_ids _ _ _ H), elem_of_seq. lia.
Qed.

Lemma unlink_query_spec n t p q :
  table_rep n t p → q < n →
  ∃ t', unlink_query t q = Done t' ∧ queries t' = queries t ∧ is_Some (links t' !! q) ∧
        dll (outstanding_queries t') (links t') (filter (λ x, x ≠ q) p.1) ∧
        dll (unused_queries t') (links t') (filter (λ x, x ≠ q) p.2).
Proof.
  intros Hrep Hq. pose proof Hrep as [Ho Hu _ Heo Heu].
  apply (rep_in _ _ _ _ Hrep) in Hq as [Hin|Hin].
  - assert (q ∉ p.2) as Hnin by (by eapply rep_disjoint).
    rewrite Forall_forall in Heo. destruct (Heo q Hin) as (qi & Hqi & Hl).
    pose proof Hin as (a & b & E)%list_elem_of_split. rewrite E in Ho.
    destruct (unlink_spec _ _ _ _ _ Ho) as (l & st & El & Hd & Hn & Hf & _).
    unfold unlink_query, get_query. rewrite Hqi. simpl. rewrite Hl, El. simpl.
    eexists. split; [done|]. simpl. split_and!; [done|by rewrite Hn| |].
    + rewrite E, filter_split_NoDup by apply Ho. done.
    + rewrite filter_notin by done. eapply dll_frame, Hu. intros x Hx. apply Hf.
      * intros Hx'. eapply rep_disjoint; [done| |done]. rewrite E. set_solver.
      * by intros ->.
  - assert (q ∉ p.1) as Hnin by (intros ?; by eapply rep_disjoint).
    rewrite Forall_forall in Heu. destruct (Heu q Hin) as (qi & Hqi & Hl).
    pose proof Hin as (a & b & E)%list_elem_of_split. rewrite E in Hu.
    destruct (unlink_spec _ _ _ _ _ Hu) as (l & st & El & Hd & Hn & Hf & _).
    unfold unlink_query, get_query. rewrite Hqi. simpl. rewrite Hl, El. simpl.
    eexists. split; [done|]. simpl. split_and!; [done|by rewrite Hn| |].
    + rewrite filter_notin by done. eapply dll_frame, Ho. intros x Hx. apply Hf.
      * intros Hx'. eapply rep_disjoint; [done|done|]. rewrite E. set_solver.
      * by intros ->.
    + rewrite E, filter_split_NoDup by apply Hu. done.
Qed.

(** Entries other than [q] stay where they are. *)
Lemma entries_frame t t' q l xs :
  (∀ x, x ≠ q → queries t' !! x = queries t !! x) →
  Forall (entry_on t l) xs → Forall (entry_on t' l) (filter (λ x, x ≠ q) xs).
Proof.
  intros Hf Hxs. rewrite Forall_forall in *. intros x [Hne Hx]%list_elem_of_filter.
  destruct (Hxs x Hx) as (qi & ? & ?). exists qi. by rewrite Hf.
Qed.

Definition op_list (op : query_move_op) : query_list :=
  match op with prepend_outstanding => outstanding_list | _ => unused_list end.

Lemma query_move_spec n t p q op :
  table_rep n t p → q < n →
  ∃ t' qi, query_move t q op = Done t' ∧ table_rep n t' (spec_move q op p) ∧
           queries t !! q = Some qi ∧ queries t' = <[q := set_qlist qi (op_list op)]> (queries t).
Proof.
  intros Hrep Hq. destruct (unlink_query_spec n t p q Hrep Hq) as (t1 & E1 & Hqs & Hlk & Ho & Hu).
  assert (is_Some (queries t !! q)) as [qi Hqi].
  { apply (rep_in _ _ _ _ Hrep) in Hq as [Hin|Hin];
      [pose proof (rep_entry_o _ _ _ Hrep) as He|pose proof (rep_entry_u _ _ _ Hrep) as He];
      rewrite Forall_forall in He; destruct (He q Hin) as (qi & ? & _); eauto. }
  pose proof (spec_move_perm q op p n (rep_ids _ _ _ Hrep) Hq) as Hperm.
  assert (q ∉ filter (λ x, x ≠ q) p.1 ∧ q ∉ filter (λ x, x ≠ q) p.2) as [Hno Hnu].
  { split; intros [? _]%list_elem_of_filter; done. }
  assert (∀ x, x ∈ filter (λ x, x ≠ q) p.1 → x ∉ filter (λ x, x ≠ q) p.2) as Hdis.
  { intros x [_ ?]%list_elem_of_filter [_ ?]%list_elem_of_filter. by eapply rep_disjoint. }
  assert (∀ t' l, queries t' = <[q := set_qlist qi l]> (queries t) →
    entry_on t' l q ∧ Forall (entry_on t' outstanding_list) (filter (λ x, x ≠ q) p.1) ∧
    Forall (entry_on t' unused_list) (filter (λ x, x ≠ q) p.2)) as Hent.
  { intros t' l Ht'. split_and!.
    - exists (set_qlist qi l). by rewrite Ht', lookup_insert_eq.
    - eapply entries_frame, rep_entry_o, Hrep. intros. by rewrite Ht', lookup_insert_ne.
    - eapply entries_frame, rep_entry_u, Hrep. intros. by rewrite Ht', lookup_insert_ne. }
  unfold query_move. rewrite E1. simpl. unfold get_query. rewrite Hqs, Hqi. simpl.
  destruct op; simpl in *.
  - destruct (prepend_spec _ _ _ _ Hu Hnu Hlk) as (l & st & El & Hd & Hf & _). rewrite El. simpl.
    eexists _, qi. split; [done|]. split_and!; [|done|done].
    match goal with |- table_rep _ ?t' _ => destruct (Hent t' unused_list) as (? & ? & ?); [done|] end.
    split; simpl; [|done|done|done|by constructor].
    eapply dll_frame, Ho. intros x Hx. apply Hf; [by apply Hdis|by intros ->].
  - destruct (append_spec _ _ _ _ Hu Hnu Hlk) as (l & st & El & Hd & Hf & _). rewrite El. simpl.
    eexists _, qi. split; [done|]. split_and!; [|done|done].
    match goal with |- table_rep _ ?t' _ => destruct (Hent t' unused_list) as (? & ? & ?); [done|] end.
    split; simpl; [|done|done|done|apply Forall_app; split; [done|by repeat constructor]].
    eapply dll_frame, Ho. intros x Hx. apply Hf; [by apply Hdis|by intros ->].
  - destruct (prepend_spec _ _ _ _ Ho Hno Hlk) as (l & st & El & Hd & Hf & _). rewrite El. simpl.
    eexists _, qi. split; [done|]. split_and!; [|done|done].
    match goal with |- table_rep _ ?t' _ => destruct (Hent t' outstanding_list) as (? & ? & ?); [done|] end.
    split; simpl; [done| |done|by constructor|done].
    eapply dll_frame, Hu. intros x Hx. apply Hf; [intros ?; by eapply Hdis|by intros ->].
Qed.

(** *** The initial table *)
Lemma dll_link_init l st xs i : i ∉ xs → dll l st xs → dll l (perf_link_init i st) xs.
Proof.
  intros Hi. apply dll_frame. intros x Hx. unfold perf_link_init.
  rewrite lookup_insert_ne; [done|]. by intros ->.
Qed.

Lemma init_queries_spec k i t :
  table_rep i t ([], seq 0 i) → outstanding_queries t = perf_list_init →
  ∃ t', init_queries k i t = Done t' ∧ table_rep (i + k) t' ([], seq 0 (i + k)).
Proof.
  revert i t. induction k as [|k IH]; intros i t [Ho Hu _ _ Heu] Hi; simpl in *.
  { rewrite Nat.add_0_r. exists t. split; [done|]. by split. }
  assert (i ∉ seq 0 i) as Hn by (rewrite elem_of_seq; lia).
  destruct (append_spec (unused_queries t) (perf_link_init i (links t)) (seq 0 i) i)
    as (l & st & El & Hd & _); [by apply dll_link_init|done|unfold perf_link_init; by rewrite lookup_insert_eq|].
  rewrite El. simpl. replace (i + S k) with (S i + k) by lia. apply IH; [|done].
  assert (seq 0 (S i) = seq 0 i ++ [i]) as Hseq by (by rewrite seq_S).
  split; cbn [fst snd queries links outstanding_queries unused_queries].
  - rewrite Hi. apply dll_nil.
  - by rewrite Hseq.
  - done.
  - constructor.
  - rewrite Hseq. apply Forall_app; split; [|constructor; [|constructor]].
    + rewrite Forall_forall in *. intros x Hx. destruct (Heu x Hx) as (qi & ? & ?). exists qi. simpl.
      rewrite lookup_insert_ne; [done|]. intros ->. by apply Hn.
    + eexists. simpl. rewrite lookup_insert_eq. done.
Qed.

Lemma table_init_spec n : ∃ t, query_table_init n = Done t ∧ table_rep n t ([], seq 0 n).
Proof.
  apply (init_queries_spec n 0); [|done]. split; simpl; [apply dll_nil|apply dll_nil|done|constructor|constructor].
Qed.

Fixpoint query_moves (ms : list (nat * query_move_op)) (t : query_table) : run query_table :=
  match ms with
  | [] => Done t
  | (q, op) :: ms' => t' ← query_move t q op; query_moves ms' t'
  end.

Definition spec_moves (ms : list (nat * query_move_op)) (p : qpair) : qpair :=
  foldl (λ p m, spec_move m.1 m.2 p) p ms.

(** C27: the query table of a thread: from the initial table, where all ids are unused in
    order, any sequence of moves keeps the two lists a partition of the ids in the order the
    operations say, with every entry recording the list it is on; no assertion of the list
    macros fails and no link outside of the table is followed. *)
Theorem query_moves_refine n ms :
  Forall (λ m, m.1 < n) ms →
  ∃ t0 t, query_table_init n = Done t0 ∧ query_moves ms t0 = Done t ∧
          table_rep n t (spec_moves ms ([], seq 0 n)).
Proof.
  intros Hms. destruct (table_init_spec n) as (t0 & E0 & Hrep).
  cut (∀ p t, table_rep n t p → ∃ t', query_moves ms t = Done t' ∧ table_rep n t' (spec_moves ms p)).
  { intros H. destruct (H _ _ Hrep) as (t & ? & ?). eauto. }
  clear t0 E0 Hrep. induction Hms as [|[q op] ms Hq Hms IH]; intros p t Hrep; simpl; [eauto|].
  destruct (query_move_spec n t p q op Hrep Hq) as (t1 & qi & E & Hrep1 & _). rewrite E. simpl.
  by apply IH.
Qed.

Lemma query_moves_refine_witness :
  ∃ t0 t, query_table_init 4 = Done t0 ∧
          query_moves [(0, prepend_outstanding); (1, prepend_outstanding); (0, append_unused)] t0 = Done t ∧
          table_rep 4 t ([1], [2; 3; 0]).
Proof.
  apply (query_moves_refine 4 [(0, prepend_outstanding); (1, prepend_outstanding); (0, append_unused)]).
  repeat constructor; simpl; lia.
Defined.
