(* ===== verification/DoSend.v ===== *)
(** * The loop of the sending thread (dnsperf.c, [do_send])

    Pacing and bookkeeping around the steps of [Dnsperf]: the limit on queries per second, the
    time to sleep, the sockets that are still sending, and the id of a query in binary
    input. *)

From S2P Require Import Prelude Buffer Stats.

(** ** Rate limiting *)

(** The variables [q_sent], [q_slice] and [req_time]. *)
Record limiter : Type := Limiter { q_sent : Z; q_slice : Z; req_time : Z }.

(** Lines 925-931. *)
Definition q_step (max_qps : Z) : Z := if decide (0 < max_qps)%Z then (MILLION / max_qps)%Z else 0%Z.
Definition limiter_init (now : Z) : limiter := Limiter 0 (u64 (now + MILLION)) now.

(** Go on to send, or start over after a wait of the given number of microseconds. *)
Inductive verdict : Set := Proceed | Wait (us : Z).

(** Lines 957-1006. *)
Definition rate_limit (max_qps now : Z) (l : limiter) : verdict * limiter :=
  if decide (0 < max_qps)%Z then
    let l := if decide (q_slice l ≤ now)%Z then Limiter 0 (u64 (q_slice l + MILLION)) now else l in
    if decide (max_qps ≤ q_sent l)%Z then (Wait (u64 (q_slice l - now)), l)
    else if decide (now < req_time l)%Z then (Wait (u64 (req_time l - now)), l)
    else (Proceed, Limiter (q_sent l) (q_slice l) (u64 (req_time l + q_step max_qps)))
  else (Proceed, l).

(** The sleep of a wait, lines 967-981 and 987-1001: seconds and nanoseconds, or none. *)
Definition sleep_for (any_inprogress : bool) (threshold wait_us : Z) : option (Z * Z) :=
  if any_inprogress then None
  else if decide (threshold ≠ 0 ∧ threshold < wait_us)%Z then
    let w := (wait_us - threshold)%Z in
    if decide (MILLION ≤ w)%Z then Some (w / MILLION, w mod MILLION * 1000)%Z
    else Some (0, w * 1000)%Z
  else None.

(** Lines 1146-1147: a query was sent. *)
Definition count_query (l : limiter) : limiter := Limiter (u64 (q_sent l + 1)) (q_slice l) (req_time l).

(** Rounds of the loop as the limiter sees them: the time, and whether the query that may be
    tried was sent.  The result lists the queries sent, each with the time and the slice, named
    by its end, that [q_sent] counts it in. *)
Fixpoint limit_rounds (max_qps : Z) (rounds : list (Z * bool)) (l : limiter) : list (Z * Z) * limiter :=
  match rounds with
  | [] => ([], l)
  | (now, sent) :: rounds' =>
      match rate_limit max_qps now l with
      | (Wait _, l) => limit_rounds max_qps rounds' l
      | (Proceed, l) =>
          let '(sends, l') := limit_rounds max_qps rounds' (if sent then count_query l else l) in
          ((if sent then (now, q_slice l) :: sends else sends), l')
      end
  end.

(** ** Sockets that are still sending *)

(** The loop of lines 945-954 from socket [i] on: [ready i] is what [perf_net_sockready]
    returns for socket [i].  The result is [any_inprogress] and the marks. *)
Fixpoint flush_sockets (n i : nat) (ready : nat → Z) (bits : list Z) (any : bool) : run (bool * list Z) :=
  match n with
  | 0 => Done (any, bits)
  | S n' =>
      marked ← bit_check bits i;
      if marked : bool then
        if decide (ready i = 0)%Z then flush_sockets n' (S i) ready bits true
        else bits ← bit_clear bits i; flush_sockets n' (S i) ready bits any
      else flush_sockets n' (S i) ready bits any
  end.

(** ** Binary input *)

(** Lines 1079-1086: the id of a query in wire format is overwritten. *)
Definition set_wire_id (qid : Z) (packet : list Z) : list Z :=
  if decide (1 < length packet) then <[1 := u8 qid]> (<[0 := u8 (Z.shiftr qid 8)]> packet) else packet.

(** ** The rate *)

(** [k] slices after the start. *)
Record limiter_ok (max_qps start now : Z) (k sent : nat) (l : limiter) : Prop := {
  lim_slice : q_slice l = (start + MILLION * (Z.of_nat k + 1))%Z;
  lim_started : (start + MILLION * Z.of_nat k ≤ now)%Z;
  lim_sent : (0 ≤ q_sent l ≤ max_qps)%Z;
  lim_total : (Z.of_nat sent ≤ max_qps * Z.of_nat k + q_sent l)%Z;
  lim_req : (0 ≤ req_time l ≤ now + MILLION)%Z;
}.

(** The times of the rounds do not decrease and stay below the range of 64 bits. *)
Fixpoint clock_ok (now : Z) (rounds : list (Z * bool)) : Prop :=
  match rounds with
  | [] => True
  | (t, _) :: rounds' => (now ≤ t < 2 ^ 63)%Z ∧ clock_ok t rounds'
  end.

Definition last_time (now : Z) (rounds : list (Z * bool)) : Z := default now (fst <$> last rounds).

Lemma q_step_range max_qps : (0 < max_qps)%Z → (0 ≤ q_step max_qps ≤ MILLION)%Z.
Proof.
  intros Hq. unfold q_step. rewrite decide_True by done. unfold MILLION.
  split; [apply Z.div_pos|apply Z.div_le_upper_bound]; lia.
Qed.

Lemma rate_limit_ok max_qps start prev now k sent l :
  (0 < max_qps < 2 ^ 32)%Z → (0 ≤ start)%Z → (prev ≤ now < 2 ^ 63)%Z → limiter_ok max_qps start prev k sent l →
  ∃ k', limiter_ok max_qps start now k' sent (rate_limit max_qps now l).2 ∧
        match (rate_limit max_qps now l).1 with
        | Proceed => (q_sent (rate_limit max_qps now l).2 < max_qps)%Z
        | Wait us => (0 < us ≤ MILLION)%Z
        end.
Proof.
  intros Hq Hs Hn [H1 H2 H3 H4 H5]. pose proof (q_step_range max_qps ltac:(lia)) as Hst.
  unfold rate_limit. rewrite decide_True by lia. cbv zeta.
  unfold MILLION in *. set (l1 := if decide (q_slice l ≤ now)%Z then _ else _).
  assert (∃ k', limiter_ok max_qps start now k' sent l1 ∧ (max_qps ≤ q_sent l1 → now < q_slice l1)%Z) as (k' & Hok & Hw).
  { unfold l1. destruct (decide _) as [Hd|Hd].
    - exists (S k). rewrite u64_small by lia. split; [|simpl; lia].
      split; unfold MILLION; cbn [q_slice q_sent req_time]; lia.
    - exists k. split; [|lia]. split; unfold MILLION; lia. }
  clearbody l1. exists k'. destruct Hok as [G1 G2 G3 G4 G5]. unfold MILLION in *.
  destruct (decide (max_qps ≤ q_sent l1)%Z) as [Hm|Hm]; [|destruct (decide (now < req_time l1)%Z) as [Hr|Hr]];
    cbn [fst snd]; (split; [split; unfold MILLION; cbn [q_slice q_sent req_time]; rewrite ?u64_small by lia; lia|]).
  - specialize (Hw Hm). rewrite u64_small by lia. lia.
  - rewrite u64_small by lia. lia.
  - cbn [q_sent]. lia.
Qed.

(** Another round is made at most a second after the one before. *)
Fixpoint steady (now : Z) (rounds : list (Z * bool)) : Prop :=
  match rounds with
  | [] => True
  | (t, _) :: rounds' => (t - now ≤ MILLION)%Z ∧ steady t rounds'
  end.

(** The queries sent in the slice that ends at [v]. *)
Definition in_slice (v : Z) (sends : list (Z * Z)) : nat := length (filter (λ s : Z * Z, s.2 = v) sends).

Lemma in_slice_cons v t w sends : in_slice v ((t, w) :: sends) = (if decide (w = v) then 1 else 0) + in_slice v sends.
Proof. unfold in_slice. rewrite filter_cons. simpl. by destruct (decide (w = v)). Qed.

(** What was sent from the state [l] on: with what [l] has counted already, no slice has more than
    the limit; slices do not come back; and a query is not sent before its slice begins. *)
Record sends_ok (max_qps start : Z) (l : limiter) (sends : list (Z * Z)) : Prop := {
  so_limit v : (Z.of_nat (in_slice v sends) + (if decide (v = q_slice l) then q_sent l else 0) ≤ max_qps)%Z;
  so_later : Forall (λ s, q_slice l ≤ s.2)%Z sends;
  so_began : Forall (λ s : Z * Z, ∃ k : nat, s.2 = start + MILLION * (Z.of_nat k + 1) ∧ start + MILLION * Z.of_nat k ≤ s.1)%Z sends;
}.

(** The slice goes on, or the next one begins with no query counted. *)
Lemma rate_limit_slice max_qps now l :
  (0 < max_qps)%Z → (0 ≤ q_slice l < 2 ^ 63 + MILLION)%Z →
  let l' := (rate_limit max_qps now l).2 in
  (q_slice l' = q_slice l ∧ q_sent l' = q_sent l ∧ now < q_slice l ∨
   q_slice l' = q_slice l + MILLION ∧ q_sent l' = 0 ∧ q_slice l ≤ now)%Z.
Proof.
  intros Hq Hl. unfold rate_limit. rewrite decide_True by lia. unfold MILLION in *. cbv zeta.
  pose proof (u64_small (q_slice l + 1000000) ltac:(lia)) as Hu.
  set (l1 := if decide (q_slice l ≤ now)%Z then _ else _).
  assert (q_slice l1 = q_slice l ∧ q_sent l1 = q_sent l ∧ now < q_slice l ∨
          q_slice l1 = q_slice l + 1000000 ∧ q_sent l1 = 0 ∧ q_slice l ≤ now)%Z as H
    by (unfold l1; destruct (decide _); cbn [q_slice q_sent]; lia).
  clearbody l1. repeat case_match; exact H.
Qed.

Lemma sends_ok_before max_qps start l l' sends :
  (0 ≤ q_sent l ≤ max_qps)%Z →
  (q_slice l' = q_slice l ∧ q_sent l' = q_sent l ∨ q_slice l < q_slice l' ∧ q_sent l' = 0)%Z →
  sends_ok max_qps start l' sends → sends_ok max_qps start l sends.
Proof.
  intros Hs [[E1 E2]|[E1 E2]] [H1 H2 H3].
  { split; [|by rewrite <- E1|done]. intros v. specialize (H1 v). by rewrite E1, E2 in H1. }
  split; [|eapply Forall_impl; [exact H2|]; simpl; intros; lia|done].
  intros v. specialize (H1 v). destruct (decide (v = q_slice l)) as [->|]; [|destruct (decide (v = q_slice l')); lia].
  assert (in_slice (q_slice l) sends = 0) as ->; [|lia]. clear -H2 E1. unfold in_slice.
  induction H2 as [|[t w] sends Hw _ IH]; [done|]. rewrite filter_cons. simpl in *. by rewrite decide_False by lia.
Qed.

Lemma limit_rounds_ok max_qps start now rounds k sent l :
  (0 < max_qps < 2 ^ 32)%Z → (0 ≤ start)%Z → limiter_ok max_qps start now k sent l → clock_ok now rounds →
  let '(sends, l') := limit_rounds max_qps rounds l in
  (∃ k', limiter_ok max_qps start (last_time now rounds) k' (sent + length sends) l') ∧
  sends_ok max_qps start l sends ∧
  ((now < q_slice l)%Z → steady now rounds → Forall (λ s, s.1 < s.2)%Z sends).
Proof.
  intros Hq Hs. revert now k sent l. induction rounds as [|[t b] rounds IH]; intros now k sent l Hok Hc.
  { cbn [limit_rounds length]. rewrite Nat.add_0_r. split_and!; [by exists k| |by constructor].
    split; [|by constructor|by constructor]. intros v. pose proof (lim_sent _ _ _ _ _ _ Hok).
    unfold in_slice. simpl. destruct (decide _); lia. }
  destruct Hc as [Ht Hc]. destruct (rate_limit_ok max_qps start now t k sent l Hq Hs Ht Hok) as (k1 & Hok1 & Hv).
  assert (last_time now ((t, b) :: rounds) = last_time t rounds) as ->.
  { unfold last_time. destruct rounds as [|x rounds]; [done|]. rewrite last_cons_cons.
    destruct (last (x :: rounds)) eqn:E; [done|]. by apply last_None in E. }
  pose proof (rate_limit_slice max_qps t l ltac:(lia)) as Hsl. cbv zeta in Hsl.
  specialize (Hsl ltac:(destruct Hok as [G1 G2 _ _ _]; unfold MILLION in *; lia)).
  assert (∀ l2 sends, q_slice l2 = q_slice (rate_limit max_qps t l).2 → q_sent l2 = q_sent (rate_limit max_qps t l).2 →
    sends_ok max_qps start l2 sends → sends_ok max_qps start l sends) as Hbefore.
  { intros l2 sends E1 E2. apply sends_ok_before; [exact (lim_sent _ _ _ _ _ _ Hok)|]. rewrite E1, E2. unfold MILLION in *. lia. }
  assert ((now < q_slice l)%Z → steady now ((t, b) :: rounds) → (t < q_slice (rate_limit max_qps t l).2)%Z ∧ steady t rounds)
    as Hsteady by (intros Hlt [Hgap Hst]; split; [unfold MILLION in *; lia|done]).
  cbn [limit_rounds]. destruct (rate_limit max_qps t l) as [[|us] l1]; cbn [fst snd] in *; cycle 1.
  { specialize (IH t k1 sent l1 Hok1 Hc). destruct (limit_rounds max_qps rounds l1) as [sends l'].
    destruct IH as (IH1 & IH2 & IH3). split_and!; [done|by apply (Hbefore l1)|].
    intros Hlt Hst. destruct (Hsteady Hlt Hst). auto. }
  destruct b.
  - assert (limiter_ok max_qps start t k1 (S sent) (count_query l1)) as Hok2.
    { destruct Hok1 as [G1 G2 G3 G4 G5]. split; cbn [count_query q_slice q_sent req_time]; rewrite ?u64_small by lia; lia. }
    specialize (IH t k1 (S sent) (count_query l1) Hok2 Hc).
    destruct (limit_rounds max_qps rounds (count_query l1)) as [sends l']. destruct IH as ((k' & Hk') & [I1 I2 I3] & IH3).
    split_and!.
    + exists k'. cbn [length]. by replace (sent + S (length sends)) with (S sent + length sends) by lia.
    + apply (Hbefore l1); [done|done|]. destruct Hok1 as [G1 G2 G3 G4 G5]. split.
      * intros v. specialize (I1 v). cbn [count_query q_slice q_sent] in I1. rewrite u64_small in I1 by lia. rewrite in_slice_cons.
        destruct (decide (v = q_slice l1)) as [->|Hne]; [rewrite decide_True by done; lia|rewrite decide_False by done; lia].
      * constructor; [simpl; lia|exact I2].
      * constructor; [exists k1; simpl; lia|exact I3].
    + intros Hlt Hst. destruct (Hsteady Hlt Hst) as [H1 H2]. constructor; [exact H1|by apply IH3].
  - specialize (IH t k1 sent l1 Hok1 Hc). destruct (limit_rounds max_qps rounds l1) as [sends l'].
    destruct IH as (IH1 & IH2 & IH3). split_and!; [done|by apply (Hbefore l1)|].
    intros Hlt Hst. destruct (Hsteady Hlt Hst). auto.
Qed.

(** The queries sent in the [k]-th second. *)
Definition in_second (start : Z) (k : nat) (sends : list (Z * Z)) : nat :=
  length (filter (λ s : Z * Z, start + MILLION * Z.of_nat k ≤ s.1 < start + MILLION * (Z.of_nat k + 1))%Z sends).

Lemma in_second_slice start k sends :
  Forall (λ s : Z * Z, ∃ k : nat, s.2 = start + MILLION * (Z.of_nat k + 1) ∧ start + MILLION * Z.of_nat k ≤ s.1)%Z sends →
  Forall (λ s, s.1 < s.2)%Z sends →
  in_second start k sends = in_slice (start + MILLION * (Z.of_nat k + 1)) sends.
Proof.
  unfold in_second, in_slice. intros Hb Hlt. induction Hb as [|[t v] sends (j & Hv & Hj) _ IH]; [done|].
  apply Forall_cons in Hlt as [Ht Hlt]. specialize (IH Hlt). rewrite !filter_cons. cbn [fst snd] in *. unfold MILLION in *.
  destruct (decide (v = _)) as [E|E]; [rewrite decide_True by lia|rewrite decide_False by nia]; simpl; by rewrite IH.
Qed.

(** C21: the limit on queries per second: whatever the rounds of the loop and however late the clock
    is read, no more than [max_qps] queries are sent in any of the one-second slices the
    limiter counts in, none of them before its slice begins, and no more than [max_qps] for each
    second begun since the start; a wait is between one microsecond and a second.  When no two
    rounds are more than a second apart the slices are the seconds since the start: in each
    of these no more than [max_qps] queries are sent. *)
Theorem rate_limit_holds max_qps start rounds :
  (0 < max_qps < 2 ^ 32)%Z → (0 ≤ start < 2 ^ 63)%Z → clock_ok start rounds →
  let '(sends, l) := limit_rounds max_qps rounds (limiter_init start) in
  (∀ v, Z.of_nat (in_slice v sends) ≤ max_qps)%Z ∧
  (∀ t v, (t, v) ∈ sends → ∃ k : nat, v = start + MILLION * (Z.of_nat k + 1) ∧ start + MILLION * Z.of_nat k ≤ t)%Z ∧
  (Z.of_nat (length sends) ≤ max_qps * ((last_time start rounds - start) / MILLION + 1))%Z ∧
  (steady start rounds → ∀ k, Z.of_nat (in_second start k sends) ≤ max_qps)%Z ∧
  (∀ now us, last_time start rounds ≤ now < 2 ^ 63 → (rate_limit max_qps now l).1 = Wait us → 0 < us ≤ MILLION)%Z.
Proof.
  intros Hq Hs Hc. assert (q_slice (limiter_init start) = start + MILLION)%Z as Hsl
    by (cbn [limiter_init q_slice]; unfold MILLION; rewrite u64_small by lia; lia).
  assert (limiter_ok max_qps start start 0 0 (limiter_init start)) as Hok.
  { split; rewrite ?Hsl; unfold MILLION; cbn [limiter_init q_sent req_time]; lia. }
  pose proof (limit_rounds_ok max_qps start start rounds 0 0 _ Hq ltac:(lia) Hok Hc) as H.
  destruct (limit_rounds max_qps rounds (limiter_init start)) as [sends l]. destruct H as ((k & Hk) & [I1 _ I3] & I4).
  assert (∀ v, Z.of_nat (in_slice v sends) ≤ max_qps)%Z as Hlim.
  { intros v. specialize (I1 v). cbn [limiter_init q_sent] in I1. destruct (decide _); lia. }
  pose proof Hk as [G1 G2 G3 G4 G5]. split_and!.
  - exact Hlim.
  - intros t v Hin. rewrite Forall_forall in I3. exact (I3 _ Hin).
  - assert (Z.of_nat k ≤ (last_time start rounds - start) / MILLION)%Z.
    { apply Z.div_le_lower_bound; unfold MILLION in *; lia. }
    simpl in G4. nia.
  - intros Hst j. rewrite in_second_slice; [apply Hlim|exact I3|]. apply I4; [|exact Hst]. rewrite Hsl. unfold MILLION. lia.
  - intros now us Hnow Hv.
    destruct (rate_limit_ok max_qps start (last_time start rounds) now k (0 + length sends) l Hq ltac:(lia) Hnow Hk) as (_ & _ & H).
    by rewrite Hv in H.
Qed.

Lemma rate_limit_holds_witness :
  let '(sends, l) := limit_rounds 2 [(5, true); (6, true); (500005, true); (900000, true); (1000005, true)]%Z (limiter_init 5) in
  sends = [(5, 1000005); (500005, 1000005); (1000005, 2000005)]%Z ∧
  (∀ k, Z.of_nat (in_second 5 k sends) ≤ 2)%Z ∧
  (∀ now us, 1000005 ≤ now < 2 ^ 63 → (rate_limit 2 now l).1 = Wait us → 0 < us ≤ MILLION)%Z.
Proof.
  pose proof (rate_limit_holds 2 5 [(5, true); (6, true); (500005, true); (900000, true); (1000005, true)]%Z ltac:(lia) ltac:(lia)
    ltac:(repeat (split; [lia|]); exact I)) as H.
  destruct (limit_rounds 2 _ (limiter_init 5)) as [sends l] eqn:E. destruct H as (_ & _ & _ & H1 & H2).
  split; [vm_compute in E; by injection E as <- _|]. split; [|exact H2]. apply H1. cbn [steady]. unfold MILLION. repeat (split; [lia|]). exact I.
Defined.

(** The time slept is normalised and stops the threshold short of the wait. *)
Lemma sleep_for_exact threshold wait_us s n :
  (0 ≤ threshold)%Z → sleep_for false threshold wait_us = Some (s, n) →
  (0 ≤ s ∧ 0 ≤ n < 1000000000 ∧ s * 1000000 + n / 1000 = wait_us - threshold ∧ n mod 1000 = 0)%Z.
Proof.
  intros Ht. unfold sleep_for. destruct (decide _) as [[H0 Hlt]|]; [|done]. unfold MILLION. cbv zeta.
  destruct (decide _) as [Hge|Hlt']; intros [= <- <-].
  - pose proof (Z.div_mod (wait_us - threshold) 1000000 ltac:(lia)).
    pose proof (Z.mod_pos_bound (wait_us - threshold) 1000000 ltac:(lia)).
    rewrite Z.div_mul, Z.mod_mul by lia. split_and!; [apply Z.div_pos; lia|lia|lia|lia|lia].
  - rewrite Z.div_mul, Z.mod_mul by lia. lia.
Qed.

(** ** Flushing *)

Lemma bit_check_in bits i : i < 8 * length bits → ∃ b, bit_check bits i = Done b.
Proof.
  intros Hi. rewrite bit_check_spec. unfold get_bit.
  destruct (lookup_lt_is_Some_2 bits (i / 8)) as [b ->]; [apply Nat.Div0.div_lt_upper_bound; lia|]. simpl. eauto.
Qed.

(** flushing the sockets visits each marked one once: exactly those that are still sending
    stay marked, [any_inprogress] tells whether there is one, and no other mark changes. *)
Theorem flush_sockets_correct n i ready bits any :
  i + n ≤ 8 * length bits →
  ∃ any' bits', flush_sockets n i ready bits any = Done (any', bits') ∧ length bits' = length bits ∧
    (∀ j, bit_check bits' j =
            if decide (i ≤ j < i + n ∧ ready j ≠ 0%Z ∧ bit_check bits j = Done true) then Done false
            else bit_check bits j) ∧
    (any' = true ↔ any = true ∨ ∃ j, i ≤ j < i + n ∧ bit_check bits j = Done true ∧ ready j = 0%Z).
Proof.
  revert i bits any. induction n as [|n IH]; intros i bits any Hn.
  { exists any, bits. split_and!; [done|done| |].
    - intros j. by rewrite decide_False by lia.
    - split; [by left|]. intros [?|(j & ? & _)]; [done|lia]. }
  cbn [flush_sockets]. destruct (bit_check_in bits i ltac:(lia)) as [b Eb]. rewrite Eb. cbn [mbind run_bind].
  destruct b; [destruct (decide (ready i = 0)%Z) as [Hr|Hr]|].
  - destruct (IH (S i) bits true ltac:(lia)) as (any' & bits' & -> & Hl & Hb & Ha). exists any', bits'.
    split_and!; [done|done| |].
    + intros j. rewrite Hb. destruct (decide (j = i)) as [->|Hne].
      * rewrite decide_False by lia. by rewrite decide_False by tauto.
      * apply decide_ext. split; intros (? & ? & ?); split_and!; done || lia.
    + split; [intros _; right; exists i; split_and!; [lia|lia|done|done]|]. intros _. apply Ha. by left.
  - destruct (bit_ops_spec bits i ltac:(lia)) as (_ & bits1 & E1 & Hl1 & Hb1). rewrite E1. cbn [mbind run_bind].
    destruct (IH (S i) bits1 any ltac:(lia)) as (any' & bits' & -> & Hl & Hb & Ha). exists any', bits'.
    split_and!; [done|congruence| |].
    + intros j. rewrite Hb, Hb1. destruct (decide (j = i)) as [->|Hne].
      * rewrite decide_False by lia. by rewrite decide_True by (split_and!; [lia|lia|done|done]).
      * apply decide_ext. split; intros (? & ? & ?); split_and!; done || lia.
    + rewrite Ha. split; (intros [?|(j & Hj & Hbj & Hrj)]; [by left|]); right; exists j.
      * rewrite Hb1 in Hbj. rewrite decide_False in Hbj by lia. split_and!; [lia|lia|done|done].
      * rewrite Hb1. destruct (decide (j = i)) as [->|]; [congruence|]. split_and!; [lia|lia|done|done].
  - destruct (IH (S i) bits any ltac:(lia)) as (any' & bits' & -> & Hl & Hb & Ha). exists any', bits'.
    split_and!; [done|done| |].
    + intros j. rewrite Hb. destruct (decide (j = i)) as [->|Hne].
      * rewrite decide_False by lia. rewrite decide_False; [done|]. intros (_ & _ & ?). congruence.
      * apply decide_ext. split; intros (? & ? & ?); split_and!; done || lia.
    + rewrite Ha. split; (intros [?|(j & Hj & Hbj & Hrj)]; [by left|]); right; exists j.
      * split_and!; [lia|lia|done|done].
      * destruct (decide (j = i)) as [->|]; [congruence|]. split_and!; [lia|lia|done|done].
Qed.

Lemma flush_sockets_correct_witness :
  ∃ any' bits', flush_sockets 4 0 (λ i, if decide (i = 2) then 0%Z else 1%Z) [224]%Z false = Done (any', bits') ∧
    length bits' = 1 ∧ (any' = true ↔ false = true ∨
      ∃ j, 0 ≤ j < 0 + 4 ∧ bit_check [224]%Z j = Done true ∧ (if decide (j = 2) then 0%Z else 1%Z) = 0%Z).
Proof.
  destruct (flush_sockets_correct 4 0 (λ i, if decide (i = 2) then 0%Z else 1%Z) [224]%Z false)
    as (any' & bits' & E & Hl & _ & Ha); [simpl; lia|].
  exists any', bits'. split; [exact E|]. split; [exact Hl|exact Ha].
Defined.

(** A query in wire format gets its id in the first two bytes and is otherwise unchanged. *)
Lemma set_wire_id_spec qid packet :
  (0 ≤ qid < 65536)%Z → 1 < length packet →
  set_wire_id qid packet = be16 qid ++ drop 2 packet.
Proof.
  intros Hq Hl. unfold set_wire_id. rewrite decide_True by done.
  destruct packet as [|a [|b rest]]; simpl in Hl; try lia. unfold be16. simpl. f_equal.
  apply u8_small. unfold byte_ok. rewrite Z.shiftr_div_pow2 by lia. change (2 ^ 8)%Z with 256%Z.
  split; [apply Z.div_pos; lia|apply Z.div_lt_upper_bound; lia].
Qed.
