(* ===== verification/Dnsperf.v ===== *)
(** * A dnsperf thread: the sender and the receiver (dnsperf.c)

    A [threadinfo_t] is shared by two threads of execution: [do_send] takes unused ids,
    sends queries and counts them; [do_recv] times queries out, matches responses to
    outstanding queries and counts them.  The operations are executable; everything the
    network and the clock decide is an argument.  The locked regions are atomic steps of
    [step], and so are the unlocked accesses to shared data between them. *)

From S2P Require Import Prelude LinkedList Stats Queries.

Definition MAX_SOCKETS : nat := 256.
Definition RECV_BATCH_SIZE : nat := 16.
Definition EAGAIN : Z := 11.

(** [threadinfo_t]: the queries are in [table]; the sockets are the indices below [nsocks]. *)
Record threadinfo : Type := ThreadInfo {
  table : query_table;
  nsocks : nat;
  current_sock : Z;
  done_sending : bool;
  done_send_time : Z;
  stats : stats_t;
  max_outstanding : Z;
  max_qps : Z;
  last_recv : Z;
}.

Definition set_table (ti : threadinfo) (t : query_table) : threadinfo :=
  ThreadInfo t (nsocks ti) (current_sock ti) (done_sending ti) (done_send_time ti) (stats ti)
    (max_outstanding ti) (max_qps ti) (last_recv ti).
Definition set_stats (ti : threadinfo) (s : stats_t) : threadinfo :=
  ThreadInfo (table ti) (nsocks ti) (current_sock ti) (done_sending ti) (done_send_time ti) s
    (max_outstanding ti) (max_qps ti) (last_recv ti).
Definition set_current_sock (ti : threadinfo) (c : Z) : threadinfo :=
  ThreadInfo (table ti) (nsocks ti) c (done_sending ti) (done_send_time ti) (stats ti)
    (max_outstanding ti) (max_qps ti) (last_recv ti).
Definition set_done (ti : threadinfo) (now : Z) : threadinfo :=
  ThreadInfo (table ti) (nsocks ti) (current_sock ti) true now (stats ti)
    (max_outstanding ti) (max_qps ti) (last_recv ti).
Definition set_last_recv (ti : threadinfo) (now : Z) : threadinfo :=
  ThreadInfo (table ti) (nsocks ti) (current_sock ti) (done_sending ti) (done_send_time ti) (stats ti)
    (max_outstanding ti) (max_qps ti) now.

(** Updates of single counters. *)
Definition count_sent (s : stats_t) (len : Z) : stats_t :=
  Stats (rcodecounts s) (u64 (num_sent s + 1)) (num_interrupted s) (num_timedout s) (num_completed s)
    (u64 (total_request_size s + len)) (total_response_size s) (latency_sum s) (latency_sum_squares s)
    (latency_min s) (latency_max s) (num_conn_attempts s) (num_conn_completed s) (conn_latency_sum s)
    (conn_latency_sum_squares s) (conn_latency_min s) (conn_latency_max s).
Definition count_timedout (s : stats_t) : stats_t :=
  Stats (rcodecounts s) (num_sent s) (num_interrupted s) (u64 (num_timedout s + 1)) (num_completed s)
    (total_request_size s) (total_response_size s) (latency_sum s) (latency_sum_squares s)
    (latency_min s) (latency_max s) (num_conn_attempts s) (num_conn_completed s) (conn_latency_sum s)
    (conn_latency_sum_squares s) (conn_latency_min s) (conn_latency_max s).
Definition count_interrupted (s : stats_t) : stats_t :=
  Stats (rcodecounts s) (num_sent s) (u64 (num_interrupted s + 1)) (num_timedout s) (num_completed s)
    (total_request_size s) (total_response_size s) (latency_sum s) (latency_sum_squares s)
    (latency_min s) (latency_max s) (num_conn_attempts s) (num_conn_completed s) (conn_latency_sum s)
    (conn_latency_sum_squares s) (conn_latency_min s) (conn_latency_max s).

(** ** Initialisation *)

(** [threadinfo_init(tinfo, config, times, idx)] up to the opening of the sockets; [offset] is
    [tinfo - threads]. *)
Definition threadinfo_init (cfg_max_outstanding cfg_max_qps cfg_clients cfg_threads offset : Z)
    : run threadinfo :=
  t ← query_table_init NQIDS;
  let mo := per_thread cfg_max_outstanding cfg_threads offset in
  let mq := per_thread cfg_max_qps cfg_threads offset in
  let ns := per_thread cfg_clients cfg_threads offset in
  let mo := if decide (Z.of_nat NQIDS < mo)%Z then Z.of_nat NQIDS else mo in
  let ns := if decide (Z.of_nat MAX_SOCKETS < ns)%Z then Z.of_nat MAX_SOCKETS else ns in
  Done (ThreadInfo t (Z.to_nat ns) 0 false 0 zero_stats mo mq 0).

(** ** The sender *)

(** [query_move] on the thread's table. *)
Definition move (q : nat) (op : query_move_op) : M threadinfo unit := λ ti,
  match query_move (table ti) q op with
  | Done t => Done ((), set_table ti t)
  | Abort => Abort | Exit c => Exit c | Undef => Undef | NoFuel => NoFuel
  end.

(** An assignment to a field of [queries[q]]. *)
Definition update_query (q : nat) (f : query_info → query_info) : M threadinfo unit := λ ti,
  match queries (table ti) !! q with
  | Some qi => Done ((), set_table ti (set_query (table ti) q (f qi)))
  | None => Undef
  end.

(** The search for a socket, lines 1020-1046: [ready k] is the answer of the [k]-th call of
    [perf_net_sockready].  The result is the socket and [all_fail]. *)
Fixpoint pick_sock (i : nat) (k : nat) (all_fail : bool) (ready : nat → Z) (cur : Z) (ns : nat)
    : option nat * bool * Z :=
  match i with
  | 0 => (None, all_fail, cur)
  | S i' =>
      let s := Z.to_nat (u32 cur mod Z.of_nat ns) in
      let cur' := s32 (cur + 1) in
      let r := ready k in
      if decide (r = 0)%Z then pick_sock i' (S k) false ready cur' ns
      else if decide (r = -1)%Z then pick_sock i' (S k) all_fail ready cur' ns
      else (Some s, false, cur')
  end.

Inductive take_result : Type := TakeBusy | TakeNoSock | TakeGot (q s : nat).

(** The locked region of [do_send], lines 1005-1059: wait if too much is in flight, otherwise
    move the first unused id to the outstanding queries and find it a socket. *)
Definition take_query (ready : nat → Z) : M threadinfo take_result :=
  ti ← get;
  if decide (max_outstanding ti ≤ num_outstanding (stats ti))%Z then mret TakeBusy
  else
    match pl_head (unused_queries (table ti)) with
    | None => lift Undef
    | Some q =>
        move q prepend_outstanding;;
        update_query q (λ qi, set_timestamp qi UINT64_MAX);;
        let '(s, all_fail, cur) := pick_sock (nsocks ti * 2) 0 true ready (current_sock ti) (nsocks ti) in
        modify (λ ti, set_current_sock ti cur);;
        update_query q (λ qi, set_sock qi s);;
        if all_fail : bool then perf_log_fatal
        else
          match s with
          | None => move q prepend_unused;; mret TakeNoSock
          | Some s => mret (TakeGot q s)
          end
    end.

(** Lines 1096-1110: the description, kept in verbose mode only, and the time of sending. *)
Definition stamp_query (q : nat) (now : Z) (verbose : option (list Z)) : M threadinfo unit :=
  update_query q (λ qi,
    set_timestamp (match verbose with Some d => set_desc qi (Some d) | None => qi end) now).

(** What [perf_net_sendto] returned: a count, or an error that is [EINPROGRESS] or not. *)
Inductive send_outcome : Type := SendN (n : Z) | SendErr (inprogress : bool).

(** Lines 1112-1147: whether the query counts as sent; if not its id is unused again. *)
Definition finish_send (q : nat) (len : Z) (r : send_outcome) : M threadinfo bool :=
  let sent := match r with SendErr b => b | SendN n => bool_decide (u32 n = len) end in
  if sent then modify (λ ti, set_stats ti (count_sent (stats ti) len));; mret true
  else move q prepend_unused;; mret false.

(** ** Callbacks of the sockets *)

(** [perf__net_sent(sock, qid)]. *)
Definition net_sent (q : nat) (now : Z) : M threadinfo unit :=
  update_query q (λ qi, if decide (timestamp qi ≠ UINT64_MAX) then set_timestamp qi now else qi).

Inductive perf_socket_event : Set :=
| perf_socket_event_connecting
| perf_socket_event_connected
| perf_socket_event_reconnecting
| perf_socket_event_reconnected.

(** [perf__net_event(sock, event, elapsed_time)]. *)
Definition net_event (ev : perf_socket_event) (elapsed : Z) (s : stats_t) : stats_t :=
  match ev with
  | perf_socket_event_reconnected | perf_socket_event_connected =>
      let completed := u64 (num_conn_completed s + 1) in
      Stats (rcodecounts s) (num_sent s) (num_interrupted s) (num_timedout s) (num_completed s)
        (total_request_size s) (total_response_size s) (latency_sum s) (latency_sum_squares s)
        (latency_min s) (latency_max s) (num_conn_attempts s) completed
        (u64 (conn_latency_sum s + elapsed))
        (u64 (conn_latency_sum_squares s + u64 (elapsed * elapsed)))
        (if decide (elapsed < conn_latency_min s ∨ completed = 1)%Z then elapsed else conn_latency_min s)
        (if decide (conn_latency_max s < elapsed)%Z then elapsed else conn_latency_max s)
  | perf_socket_event_reconnecting | perf_socket_event_connecting =>
      Stats (rcodecounts s) (num_sent s) (num_interrupted s) (num_timedout s) (num_completed s)
        (total_request_size s) (total_response_size s) (latency_sum s) (latency_sum_squares s)
        (latency_min s) (latency_max s) (u64 (num_conn_attempts s + 1)) (num_conn_completed s)
        (conn_latency_sum s) (conn_latency_sum_squares s) (conn_latency_min s) (conn_latency_max s)
  end.

(** ** The receiver *)

(** The entry at the tail of the outstanding queries. *)
Definition oldest (ti : threadinfo) : run (option (nat * query_info)) :=
  match pl_tail (outstanding_queries (table ti)) with
  | None => Done None
  | Some q => qi ← get_query (table ti) q; Done (Some (q, qi))
  end.

(** The unlocked check of [process_timeouts], lines 1178-1181: the query to start with. *)
Definition timeouts_check (timeout now : Z) (ti : threadinfo) : run (option nat) :=
  o ← oldest ti;
  match o with
  | None => Done None
  | Some (q, qi) =>
      if decide (now < timestamp qi ∨ u64 (now - timestamp qi) < timeout)%Z then Done None
      else Done (Some q)
  end.

(** The locked loop of [process_timeouts], lines 1183-1202; it returns the number of rounds. *)
Fixpoint timeouts_run (fuel : nat) (timeout now : Z) (q : nat) : M threadinfo nat :=
  match fuel with
  | 0 => lift NoFuel
  | S fuel' =>
      move q append_unused;;
      modify (λ ti, set_stats ti (count_timedout (stats ti)));;
      ti ← get;
      o ← lift (oldest ti);
      match o with
      | Some (q', qi) =>
          if decide (timestamp qi < now ∧ timeout ≤ u64 (now - timestamp qi))%Z
          then k ← timeouts_run fuel' timeout now q'; mret (S k)
          else mret 1
      | None => mret 1
      end
  end.

(** [received_query_t]. *)
Record received_query : Type := Received {
  r_sock : nat;
  r_qid : nat;
  r_rcode : nat;
  r_size : Z;
  r_when : Z;
  r_sent : Z;
  r_unexpected : bool;
  r_short : bool;
  r_desc : option (list Z);
}.

(** What [perf_net_recv] returned. *)
Inductive recv_out : Type :=
| RecvErr (errno : Z)
| RecvClosed
| RecvData (packet : list Z).

(** The filled-in structure of [recv_one], lines 1242-1250.  The bytes a short packet does not
    have are whatever the buffer held, here 0: the id and code of a short response are not
    used. *)
Definition recv_parse (s : nat) (packet : list Z) (now : Z) : received_query :=
  let b i := default 0%Z (packet !! i) in
  Received s (Z.to_nat (rd16 (b 0) (b 1))) (Z.to_nat (Z.land (rd16 (b 2) (b 3)) 15))
    (Z.of_nat (length packet)) now 0 false (bool_decide (length packet < 4)) None.

(** [recv_one(tinfo, which_sock, ...)]: the response, and [saved_errno]. *)
Definition recv_one (s : nat) (r : recv_out) (now saved_errno : Z)
    : option received_query * Z :=
  match r with
  | RecvErr e => (None, e)
  | RecvClosed => (None, if decide (saved_errno = 0)%Z then EAGAIN else saved_errno)
  | RecvData packet =>
      if decide (packet = []) then (None, if decide (saved_errno = 0)%Z then EAGAIN else saved_errno)
      else (Some (recv_parse s packet now), saved_errno)
  end.

(** The loop over the sockets, lines 1296-1306, from socket number [j] on; [recv k s] is the
    answer of the [k]-th call, on socket [s], and [clock k] the time after it.  The result
    is the response with the next [last_socket], the bits, the error and the call count. *)
Fixpoint recv_sockets (n j ns : nat) (recv : nat → nat → recv_out) (clock : nat → Z)
    (last : nat) (bits : list Z) (err : Z) (k : nat)
    : run (option (received_query * nat) * list Z * Z * nat) :=
  match n with
  | 0 => Done (None, bits, err, k)
  | S n' =>
      let cur := (j + last) mod ns in
      skip ← bit_check bits cur;
      if skip : bool then recv_sockets n' (S j) ns recv clock last bits err k
      else
        match recv_one cur (recv k cur) (clock k) err with
        | (Some r, err') => Done (Some (r, S cur), bits, err', S k)
        | (None, err') =>
            bits' ← bit_set bits cur;
            recv_sockets n' (S j) ns recv clock last bits' err' (S k)
        end
  end.

(** The loop over the batch, lines 1289-1310: at most [n] responses. *)
Fixpoint recv_batch (n ns : nat) (recv : nat → nat → recv_out) (clock : nat → Z)
    (last : nat) (bits : list Z) (err : Z) (k : nat)
    : run (list received_query * nat * list Z * Z) :=
  match n with
  | 0 => Done ([], last, bits, err)
  | S n' =>
      '(r, bits, err, k) ← recv_sockets ns 0 ns recv clock last bits err k;
      match r with
      | None => Done ([], last, bits, err)
      | Some (r, last') =>
          '(rs, last', bits, err) ← recv_batch n' ns recv clock last' bits err k;
          Done (r :: rs, last', bits, err)
      end
  end.

(** One response in the locked loop of [do_recv], lines 1315-1327; [perf_net_sockeq] asserts
    that there are two sockets. *)
Definition match_response (r : received_query) : M threadinfo received_query :=
  if r_short r then mret r
  else
    ti ← get;
    qi ← lift (get_query (table ti) (r_qid r));
    let unexpected :=
      mret (Received (r_sock r) (r_qid r) (r_rcode r) (r_size r) (r_when r) (r_sent r) true
              (r_short r) (r_desc r)) in
    if decide (qlist qi ≠ outstanding_list ∨ timestamp qi = UINT64_MAX) then unexpected
    else
      match sock qi with
      | None => lift Abort
      | Some s =>
          if decide (s ≠ r_sock r) then unexpected
          else
            move (r_qid r) append_unused;;
            update_query (r_qid r) (λ qi, set_desc qi None);;
            mret (Received (r_sock r) (r_qid r) (r_rcode r) (r_size r) (r_when r) (timestamp qi)
                    (r_unexpected r) (r_short r) (desc qi))
      end.

Fixpoint match_batch (rs : list received_query) : M threadinfo (list received_query) :=
  match rs with
  | [] => mret []
  | r :: rs' => r ← match_response r; rs' ← match_batch rs'; mret (r :: rs')
  end.

(** Whether a response is counted. *)
Definition accepted (r : received_query) : bool := negb (r_short r) && negb (r_unexpected r).

(** The unlocked statistics of a response, lines 1335-1370. *)
Definition count_response (s : stats_t) (r : received_query) : stats_t :=
  if accepted r then
    let latency := u64 (r_when r - r_sent r) in
    let completed := u64 (num_completed s + 1) in
    Stats (alter (λ c, u64 (c + 1)) (r_rcode r) (rcodecounts s)) (num_sent s) (num_interrupted s)
      (num_timedout s) completed (total_request_size s) (u64 (total_response_size s + r_size r))
      (u64 (latency_sum s + latency)) (u64 (latency_sum_squares s + u64 (latency * latency)))
      (if decide (latency < latency_min s ∨ completed = 1)%Z then latency else latency_min s)
      (if decide (latency_max s < latency)%Z then latency else latency_max s)
      (num_conn_attempts s) (num_conn_completed s) (conn_latency_sum s) (conn_latency_sum_squares s)
      (conn_latency_min s) (conn_latency_max s)
  else s.

(** Lines 1333-1373: all of the batch, and the time of the last response. *)
Definition count_batch (rs : list received_query) (ti : threadinfo) : threadinfo :=
  let ti := set_stats ti (foldl count_response (stats ti) rs) in
  match last rs with Some r => set_last_recv ti (r_when r) | None => ti end.

(** ** After the threads have ended *)

(** [cancel_queries(tinfo)]. *)
Fixpoint cancel_queries (fuel : nat) : M threadinfo unit :=
  match fuel with
  | 0 => lift NoFuel
  | S fuel' =>
      ti ← get;
      match pl_tail (outstanding_queries (table ti)) with
      | None => mret ()
      | Some q =>
          move q append_unused;;
          ti ← get;
          qi ← lift (get_query (table ti) q);
          (if decide (timestamp qi = UINT64_MAX) then mret ()
           else modify (λ ti, set_stats ti (count_interrupted (stats ti)));;
                update_query q (λ qi, set_desc qi None));;
          cancel_queries fuel'
      end
  end.

(** ** The two threads together *)

(** A structure that [recv_one] has filled in. *)
Definition as_received (r : received_query) : Prop :=
  r_qid r < NQIDS ∧ r_unexpected r = false ∧ r_rcode r < DNSPERF_STATS_RCODECOUNTS.

(** Where the sender is: between queries, holding an id whose timestamp is not set, holding
    one that is being sent, or past its loop, which it may leave holding an id. *)
Inductive sender : Type :=
| SIdle
| SHolding (q s : nat)
| SStamped (q s : nat)
| SStopped (held : option nat).

(** Where the receiver is: at the top of its loop, between the check and the lock of
    [process_timeouts], between matching and counting a batch, or past its loop. *)
Inductive receiver : Type :=
| RIdle
| RTimeouts (q : nat) (now : Z)
| RMatched (rs : list received_query)
| RStopped.

(** The history, for the specification only: the queries counted as sent, timed out and
    completed without wrap-around, and the ids that were taken from the sender, counted as
    answered or timed out, but never counted as sent. *)
Record history : Type := History { h_sent : nat; h_timedout : nat; h_completed : nat; h_lost : nat }.

Record sys : Type := Sys { ti : threadinfo; snd_at : sender; rcv_at : receiver; hist : history }.

(** 1 if the entry is not among the outstanding queries. *)
Definition not_outstanding (t : query_table) (q : nat) : nat :=
  match queries t !! q with
  | Some qi => if decide (qlist qi = outstanding_list) then 0 else 1
  | None => 0
  end.

(** The steps of [do_send] and of the callbacks that its sockets make. *)
Inductive sender_step : sys → sys → Prop :=
| step_take ready r x x' rc h :
    take_query ready x = Done (r, x') →
    sender_step (Sys x SIdle rc h)
         (Sys x' (match r with TakeGot q s => SHolding q s | _ => SIdle end) rc h)
| step_eof q s x rc h :
    sender_step (Sys x (SHolding q s) rc h) (Sys x (SStopped (Some q)) rc h)
| step_bad_request q s x x' rc h :
    move q prepend_unused x = Done ((), x') →
    sender_step (Sys x (SHolding q s) rc h)
         (Sys x' SIdle rc (History (h_sent h) (h_timedout h) (h_completed h)
                             (h_lost h + not_outstanding (table x) q)))
| step_stamp q s now verbose x x' rc h :
    now ≠ UINT64_MAX → stamp_query q now verbose x = Done ((), x') →
    sender_step (Sys x (SHolding q s) rc h) (Sys x' (SStamped q s) rc h)
| step_sent q s len r x x' rc h :
    finish_send q len r x = Done (true, x') →
    sender_step (Sys x (SStamped q s) rc h)
         (Sys x' SIdle rc (History (S (h_sent h)) (h_timedout h) (h_completed h) (h_lost h)))
| step_send_failed q s len r x x' rc h :
    finish_send q len r x = Done (false, x') →
    sender_step (Sys x (SStamped q s) rc h)
         (Sys x' SIdle rc (History (h_sent h) (h_timedout h) (h_completed h)
                             (h_lost h + not_outstanding (table x) q)))
| step_stop x rc h : sender_step (Sys x SIdle rc h) (Sys x (SStopped None) rc h)
| step_done now x held rc h :
    sender_step (Sys x (SStopped held) rc h) (Sys (set_done x now) (SStopped held) rc h)
| step_net_sent q now x x' sd rc h :
    q < NQIDS → now ≠ UINT64_MAX → net_sent q now x = Done ((), x') → sender_step (Sys x sd rc h) (Sys x' sd rc h)
| step_net_event ev elapsed x sd rc h :
    sender_step (Sys x sd rc h) (Sys (set_stats x (net_event ev elapsed (stats x))) sd rc h).

(** The steps of [do_recv]. *)
Inductive receiver_step (timeout : Z) : sys → sys → Prop :=
| step_timeouts_check q now x sd h :
    timeouts_check timeout now x = Done (Some q) →
    receiver_step timeout (Sys x sd RIdle h) (Sys x sd (RTimeouts q now) h)
| step_timeouts_run fuel q now k x x' sd h :
    timeouts_run fuel timeout now q x = Done (k, x') →
    receiver_step timeout (Sys x sd (RTimeouts q now) h)
         (Sys x' sd RIdle (History (h_sent h) (h_timedout h + k) (h_completed h)
                             (h_lost h + not_outstanding (table x) q)))
| step_match rs rs' x x' sd h :
    Forall as_received rs →
    match_batch rs x = Done (rs', x') →
    receiver_step timeout (Sys x sd RIdle h) (Sys x' sd (RMatched rs') h)
| step_count rs x sd h :
    receiver_step timeout (Sys x sd (RMatched rs) h)
         (Sys (count_batch rs x) sd RIdle
            (History (h_sent h) (h_timedout h)
               (h_completed h + length (List.filter accepted rs)) (h_lost h)))
| step_rcv_stop x sd h :
    done_sending x = true → num_outstanding (stats x) = 0%Z →
    receiver_step timeout (Sys x sd RIdle h) (Sys x sd RStopped h).

Definition step (timeout : Z) (s s' : sys) : Prop := sender_step s s' ∨ receiver_step timeout s s'.

(** The states a thread can reach from its initial one. *)
Inductive reachable (timeout : Z) : sys → Prop :=
| reach_init mo mq c n off x :
    threadinfo_init mo mq c n off = Done x → reachable timeout (Sys x SIdle RIdle (History 0 0 0 0))
| reach_step s s' : reachable timeout s → step timeout s s' → reachable timeout s'.

(** A thread's run from its initial state on. *)
Definition runs (timeout : Z) (x : threadinfo) : sys → Prop :=
  rtc (step timeout) (Sys x SIdle RIdle (History 0 0 0 0)).

Lemma runs_start timeout x : runs timeout x (Sys x SIdle RIdle (History 0 0 0 0)).
Proof. apply rtc_refl. Qed.

Lemma runs_reachable timeout mo mq c n off x :
  threadinfo_init mo mq c n off = Done x → ∀ s, runs timeout x s → reachable timeout s.
Proof.
  intros E. apply rtc_ind_r.
  - by eapply reach_init.
  - intros s s' _ Hs IH. by eapply reach_step.
Qed.

(** ** Invariants *)

(** An outstanding query whose time of sending is set has a socket. *)
Definition entries_ok (t : query_table) : Prop :=
  ∀ q qi, queries t !! q = Some qi → qlist qi = outstanding_list →
          timestamp qi = UINT64_MAX ∨ is_Some (sock qi).

(** The table represents the pair [p] of sequences. *)
Record tinv (x : threadinfo) (p : qpair) : Prop := {
  tinv_rep : table_rep NQIDS (table x) p;
  tinv_entries : entries_ok (table x);
}.

(** Only the lists of the entries and their descriptions have changed. *)
Definition same_entries (t t' : query_table) : Prop :=
  ∀ q qi, queries t !! q = Some qi →
    ∃ qi', queries t' !! q = Some qi' ∧ timestamp qi' = timestamp qi ∧ sock qi' = sock qi.

#[global] Instance same_entries_preorder : PreOrder same_entries.
Proof.
  split; [intros t q qi H; eauto|]. intros t1 t2 t3 H1 H2 q qi H.
  destruct (H1 q qi H) as (qi2 & Hq2 & Ht2 & Hs2). destruct (H2 q qi2 Hq2) as (qi3 & ? & ? & ?).
  exists qi3. split_and!; congruence.
Qed.

(** What the list operations leave alone in a thread. *)
Definition same_thread (x x' : threadinfo) : Prop :=
  nsocks x' = nsocks x ∧ current_sock x' = current_sock x ∧ done_sending x' = done_sending x ∧
  max_outstanding x' = max_outstanding x ∧ max_qps x' = max_qps x ∧ last_recv x' = last_recv x.

#[global] Instance same_thread_preorder : PreOrder same_thread.
Proof. split; [by intros x|]. unfold same_thread. intros ???. naive_solver congruence. Qed.

Lemma not_outstanding_spec t p q n :
  table_rep n t p → q < n → not_outstanding t q = if decide (q ∈ p.1) then 0 else 1.
Proof.
  intros Hrep Hq. unfold not_outstanding. destruct (decide (q ∈ p.1)) as [Hin|Hin].
  - pose proof (rep_entry_o _ _ _ Hrep) as He. rewrite Forall_forall in He.
    destruct (He q Hin) as (qi & -> & Hl). by rewrite decide_True.
  - apply (rep_in _ _ _ _ Hrep) in Hq as [?|Hin']; [done|].
    pose proof (rep_entry_u _ _ _ Hrep) as He. rewrite Forall_forall in He.
    destruct (He q Hin') as (qi & -> & Hl). by rewrite decide_False by congruence.
Qed.

Lemma filter_ne_length (xs : list nat) q :
  NoDup xs → length (filter (λ x, x ≠ q) xs) + (if decide (q ∈ xs) then 1 else 0) = length xs.
Proof.
  intros Hnd. destruct (decide (q ∈ xs)) as [Hin|Hin].
  - apply list_elem_of_split in Hin as (a & b & ->). rewrite filter_split_NoDup by done.
    rewrite !length_app. simpl. lia.
  - rewrite filter_notin by done. lia.
Qed.

(** A move to the unused ids, from either list. *)
Lemma move_unused_spec x p q op :
  tinv x p → q < NQIDS → op ≠ prepend_outstanding →
  ∃ x', move q op x = Done ((), x') ∧ tinv x' (spec_move q op p) ∧ same_thread x x' ∧ stats x' = stats x ∧
        same_entries (table x) (table x') ∧
        length (spec_move q op p).1 + 1 = length p.1 + not_outstanding (table x) q.
Proof.
  intros [Hrep Hent] Hq Hop.
  destruct (query_move_spec NQIDS _ _ q op Hrep Hq) as (t' & qi & E & Hrep' & Hqi & Hqs).
  unfold move. rewrite E. eexists. split; [done|]. simpl.
  assert (op_list op = unused_list) as Hl by (by destruct op). rewrite Hl in Hqs.
  split_and!; try done.
  - split; [done|]. intros q' qi' Hq' Hl'. simpl in Hq'. rewrite Hqs in Hq'.
    destruct (decide (q' = q)) as [->|Hne].
    + rewrite lookup_insert_eq in Hq'. by simplify_eq.
    + rewrite lookup_insert_ne in Hq' by done. by eapply Hent.
  - intros q' qi' Hq'. rewrite Hqs. destruct (decide (q' = q)) as [->|Hne].
    + rewrite lookup_insert_eq. eexists. split; [done|]. by simplify_eq.
    + rewrite lookup_insert_ne by done. eauto.
  - rewrite (not_outstanding_spec _ _ _ _ Hrep Hq).
    pose proof (filter_ne_length p.1 q (proj1 (rep_outstanding _ _ _ Hrep))).
    assert ((spec_move q op p).1 = filter (λ x, x ≠ q) p.1) as -> by (by destruct op).
    destruct (decide (q ∈ p.1)); lia.
Qed.

(** Assignments that do not change the list of an entry. *)
Lemma table_rep_set n t p q qi qi' :
  table_rep n t p → queries t !! q = Some qi → qlist qi' = qlist qi → table_rep n (set_query t q qi') p.
Proof.
  intros [Ho Hu Hp Heo Heu] Hq Hl.
  assert (∀ l xs, Forall (entry_on t l) xs → Forall (entry_on (set_query t q qi') l) xs) as Hent.
  { intros l xs Hxs. eapply Forall_impl; [exact Hxs|]. intros x (qx & Hx & Hlx). unfold entry_on. simpl.
    destruct (decide (x = q)) as [->|Hne].
    - exists qi'. rewrite lookup_insert_eq. split; [done|]. congruence.
    - exists qx. by rewrite lookup_insert_ne. }
  split; simpl; auto.
Qed.

Lemma rep_lookup n t p q : table_rep n t p → q < n → is_Some (queries t !! q).
Proof.
  intros Hrep Hq. apply (rep_in _ _ _ _ Hrep) in Hq as [Hin|Hin];
    [pose proof (rep_entry_o _ _ _ Hrep) as He|pose proof (rep_entry_u _ _ _ Hrep) as He];
    rewrite Forall_forall in He; destruct (He q Hin) as (qi & ? & _); eauto.
Qed.

Lemma update_query_spec x p q f :
  table_rep NQIDS (table x) p → q < NQIDS → (∀ qi, qlist (f qi) = qlist qi) →
  ∃ qi, queries (table x) !! q = Some qi ∧
        update_query q f x = Done ((), set_table x (set_query (table x) q (f qi))) ∧
        table_rep NQIDS (set_query (table x) q (f qi)) p.
Proof.
  intros Hrep Hq Hf. destruct (rep_lookup _ _ _ _ Hrep Hq) as [qi Hqi]. exists qi.
  unfold update_query. rewrite Hqi. split_and!; [done|done|]. by eapply table_rep_set.
Qed.

(** The tail of the list of outstanding queries. *)
Lemma oldest_spec x p :
  tinv x p →
  match last p.1 with
  | None => oldest x = Done None
  | Some q => q < NQIDS ∧ ∃ qi, queries (table x) !! q = Some qi ∧ qlist qi = outstanding_list ∧
                                 oldest x = Done (Some (q, qi))
  end.
Proof.
  intros [Hrep _]. pose proof (rep_outstanding _ _ _ Hrep) as (_ & _ & Ht & _). unfold oldest. rewrite Ht.
  destruct (last p.1) as [q|] eqn:El; [|done]. apply last_Some_elem_of in El.
  split; [apply (rep_in _ _ _ _ Hrep); by left|].
  pose proof (rep_entry_o _ _ _ Hrep) as He. rewrite Forall_forall in He.
  destruct (He q El) as (qi & Hqi & Hl). exists qi. split_and!; [done|done|].
  unfold get_query. by rewrite Hqi.
Qed.

(** An entry is due at [now]: the condition of the loop of [process_timeouts]. *)
Definition due (timeout now : Z) (qi : query_info) : Prop :=
  (timestamp qi < now ∧ timeout ≤ u64 (now - timestamp qi))%Z.

(** The loop of [process_timeouts] started with any id: it ends, takes one query off the
    outstanding ones for each round (the first may already be off), counts each round, and
    leaves no query at the tail that is due. *)
Lemma timeouts_run_spec fuel timeout now q x p :
  tinv x p → q < NQIDS →
  match timeouts_run fuel timeout now q x with
  | Done (k, x') =>
      ∃ p', tinv x' p' ∧ same_thread x x' ∧ same_entries (table x) (table x') ∧
            length p'.1 + k = length p.1 + not_outstanding (table x) q ∧
            stats x' = Nat.iter k count_timedout (stats x) ∧
            (∀ q' qi, last p'.1 = Some q' → queries (table x') !! q' = Some qi → ¬ due timeout now qi)
  | NoFuel => fuel ≤ length p.1 + not_outstanding (table x) q
  | _ => False
  end.
Proof.
  revert q x p. induction fuel as [|fuel IH]; intros q x p Hinv Hq; [simpl; lia|]. cbn [timeouts_run].
  destruct (move_unused_spec x p q append_unused Hinv Hq) as (x1 & E1 & Hinv1 & Hs1 & Hst1 & Hen1 & Hl1); [done|].
  rewrite (bind_Done _ _ _ _ _ E1).
  set (p1 := spec_move q append_unused p) in *.
  set (x2 := set_stats x1 (count_timedout (stats x1))).
  rewrite (bind_Done (modify _) _ _ () x2 eq_refl), (bind_Done get _ _ _ _ eq_refl).
  assert (tinv x2 p1) as Hinv2 by (destruct Hinv1; by split).
  pose proof (oldest_spec x2 p1 Hinv2) as Ho.
  assert (not_outstanding (table x) q ≤ 1) as Hno.
  { unfold not_outstanding. destruct (queries (table x) !! q); [destruct (decide _); lia|lia]. }
  destruct (last p1.1) as [q'|] eqn:El.
  - destruct Ho as (Hq' & qi & Hqi & Hl & ->). rewrite (bind_Done (lift (Done _)) _ _ _ _ eq_refl). cbv beta iota.
    destruct (decide _) as [Hdue|Hdue].
    + specialize (IH q' x2 p1 Hinv2 Hq').
      assert (not_outstanding (table x2) q' = 0) as Hz.
      { unfold not_outstanding. rewrite Hqi. by rewrite decide_True. }
      unfold mbind at 1, M_bind at 1.
      destruct (timeouts_run fuel timeout now q' x2) as [[k x']| | | |]; try done.
      * destruct IH as (p' & Hinv' & Hs' & Hen' & Hlen & Hst & Hlast). exists p'.
        split_and!; [done|by rewrite Hs1|by rewrite Hen1|lia| |done].
        simpl. rewrite Hst. cbn [stats x2 set_stats]. rewrite Hst1. by rewrite <- Nat.iter_succ_r.
      * lia.
    + exists p1. split_and!; [done|done|done|lia|simpl; by rewrite Hst1|].
      intros q0 qi0 He Hq0. rewrite El in He. simplify_eq. done.
  - rewrite Ho. simpl. exists p1. split_and!; [done|done|done|lia|by rewrite Hst1|]. intros ?? He. congruence.
Qed.

(** *** Matching responses *)

(** A response is accepted when it answers an outstanding query on the socket the query was
    sent on. *)
Definition answers (t : query_table) (r : received_query) : Prop :=
  r_short r = false ∧
  ∃ qi, queries t !! r_qid r = Some qi ∧ qlist qi = outstanding_list ∧ timestamp qi ≠ UINT64_MAX ∧
        sock qi = Some (r_sock r).

Lemma query_move_queries t q op t' :
  query_move t q op = Done t' →
  ∃ qi, queries t !! q = Some qi ∧ queries t' = <[q := set_qlist qi (op_list op)]> (queries t).
Proof.
  unfold query_move, unlink_query. destruct (get_query t q) as [qi| | | |] eqn:Eq; try done. cbn [mbind run_bind].
  assert (queries t !! q = Some qi) as Hqi by (revert Eq; unfold get_query; destruct (queries t !! q); by intros [= ->]).
  intros E. exists qi. split; [done|]. revert E.
  destruct (qlist qi); (destruct (perf_list_unlink _ _ _) as [[l st]| | | |]; try done); cbn [mbind run_bind];
    unfold get_query; cbn [queries]; rewrite Hqi; cbn [mbind run_bind]; destruct op; simpl;
    (match goal with |- context [?f ?a q ?b] => destruct (f a q b) as [[? ?]| | | |] end; try done); by intros [= <-].
Qed.

Lemma match_response_spec x p r :
  tinv x p → r_qid r < NQIDS → r_unexpected r = false →
  ∃ r' x' p', match_response r x = Done (r', x') ∧ tinv x' p' ∧ same_thread x x' ∧ stats x' = stats x ∧
    same_entries (table x) (table x') ∧
    (accepted r' = true ↔ answers (table x) r) ∧
    (if accepted r' then p' = spec_move (r_qid r) append_unused p ∧ length p'.1 + 1 = length p.1
     else p' = p) ∧
    (accepted r' = true → ∃ qi, queries (table x) !! r_qid r = Some qi ∧ r_sent r' = timestamp qi).
Proof.
  intros Hinv Hq Hun. pose proof Hinv as [Hrep Hent]. unfold match_response.
  destruct (r_short r) eqn:Hsh.
  { exists r, x, p. unfold accepted. rewrite Hsh. split_and!; try done. split; [done|].
    intros [? _]. congruence. }
  destruct (rep_lookup _ _ _ _ Hrep Hq) as [qi Hqi].
  rewrite (bind_Done get _ _ _ _ eq_refl).
  rewrite (bind_Done _ _ _ qi x) by (unfold lift, get_query; by rewrite Hqi).
  set (r_un := Received _ _ _ _ _ _ true _ _).
  assert (accepted r_un = false) as Hacc by done.
  assert (∀ Hno : ¬ answers (table x) r,
    ∃ r' x' p', (mret r_un : M threadinfo received_query) x = Done (r', x') ∧ tinv x' p' ∧
      same_thread x x' ∧ stats x' = stats x ∧ same_entries (table x) (table x') ∧
      (accepted r' = true ↔ answers (table x) r) ∧
      (if accepted r' then p' = spec_move (r_qid r) append_unused p ∧ length p'.1 + 1 = length p.1
       else p' = p) ∧
      (accepted r' = true → ∃ qi, queries (table x) !! r_qid r = Some qi ∧ r_sent r' = timestamp qi)) as Hunexp.
  { intros Hno. exists r_un, x, p. rewrite Hacc. split_and!; done. }
  destruct (decide _) as [Hd|Hd].
  { apply Hunexp. intros (_ & qi' & Hqi' & ? & ? & _). simplify_eq. destruct Hd; done. }
  assert (qlist qi = outstanding_list ∧ timestamp qi ≠ UINT64_MAX) as [Hl Hts].
  { destruct (decide (qlist qi = outstanding_list)); [|tauto]. split; [done|]. tauto. }
  destruct (Hent _ _ Hqi Hl) as [?|[s Hs]]; [done|]. rewrite Hs.
  destruct (decide (s ≠ r_sock r)) as [Hne|He].
  { apply Hunexp. intros (_ & qi' & Hqi' & _ & _ & ?). congruence. }
  assert (s = r_sock r) as -> by (destruct (decide (s = r_sock r)); tauto).
  destruct (move_unused_spec x p (r_qid r) append_unused Hinv Hq) as (x1 & E1 & Hinv1 & Hs1 & Hst1 & Hen1 & Hlen);
    [done|].
  rewrite (bind_Done _ _ _ _ _ E1).
  destruct (update_query_spec x1 _ (r_qid r) (λ qi, set_desc qi None) (tinv_rep _ _ Hinv1) Hq)
    as (qi1 & Hqi1 & E2 & Hrep2); [done|]. rewrite (bind_Done _ _ _ _ _ E2).
  assert (not_outstanding (table x) (r_qid r) = 0) as Hno.
  { unfold not_outstanding. rewrite Hqi. by rewrite decide_True. }
  eexists _, _, (spec_move (r_qid r) append_unused p). split; [done|].
  unfold accepted. cbn [r_short r_unexpected]. rewrite ?Hsh, ?Hun. simpl.
  refine (conj _ (conj _ (conj _ (conj _ (conj _ (conj _ _))))));
    [|done|done| | |split; [done|by rewrite Hno, Nat.add_0_r in Hlen]|by eauto].
  - split; [done|]. intros q' qi' Hq' Hl'. simpl in Hq'.
    destruct (decide (q' = r_qid r)) as [->|Hne].
    + rewrite lookup_insert_eq in Hq'. simplify_eq. simpl in *. by eapply (tinv_entries _ _ Hinv1).
    + rewrite lookup_insert_ne in Hq' by done. by eapply (tinv_entries _ _ Hinv1).
  - rewrite Hen1. intros q' qi' Hq'. simpl. destruct (decide (q' = r_qid r)) as [->|Hne].
    + rewrite lookup_insert_eq. eexists. split; [done|]. by simplify_eq.
    + rewrite lookup_insert_ne by done. eauto.
  - split; [|done]. intros _. split; [done|]. eauto 10.
Qed.

Lemma match_batch_spec rs x p :
  tinv x p → Forall as_received rs →
  ∃ rs' x' p', match_batch rs x = Done (rs', x') ∧ tinv x' p' ∧ same_thread x x' ∧ stats x' = stats x ∧
    same_entries (table x) (table x') ∧ length rs' = length rs ∧
    length p'.1 + length (List.filter accepted rs') = length p.1.
Proof.
  intros Hinv Hrs. revert x p Hinv. induction Hrs as [|r rs (Hq & Hu & _) Hrs IH]; intros x p Hinv.
  { exists [], x, p. split_and!; [done|done|done|done|done|done|simpl; lia]. }
  destruct (match_response_spec x p r Hinv Hq Hu) as (r' & x1 & p1 & E1 & Hinv1 & Hs1 & Hst1 & Hen1 & _ & Hp1 & _).
  destruct (IH x1 p1 Hinv1) as (rs' & x2 & p2 & E2 & Hinv2 & Hs2 & Hst2 & Hen2 & Hl2 & Hp2).
  exists (r' :: rs'), x2, p2. cbn [match_batch]. rewrite (bind_Done _ _ _ _ _ E1), (bind_Done _ _ _ _ _ E2).
  split_and!; [done|done|by rewrite Hs1|congruence|by rewrite Hen1|simpl; lia|].
  simpl. destruct (accepted r'); simpl; [destruct Hp1|subst p1]; lia.
Qed.

(** *** Taking a query *)

Lemma pick_sock_range i k af ready cur ns s af' cur' :
  pick_sock i k af ready cur ns = (Some s, af', cur') → 0 < ns → s < ns ∧ af' = false.
Proof.
  revert k af cur. induction i as [|i IH]; intros k af cur; simpl; [done|]. intros H Hns.
  destruct (decide _); [by eapply IH|]. destruct (decide _); [by eapply IH|]. simplify_eq.
  pose proof (Z.mod_pos_bound (u32 cur) (Z.of_nat ns) ltac:(lia)). split; [lia|done].
Qed.

(** The state after an id has been taken and given a socket, or none: its entry is new, the
    others are as they were. *)
Lemma take_steps x p q us s cur :
  tinv x p → p.2 = q :: us →
  ∃ x', (move q prepend_outstanding;;
         update_query q (λ qi, set_timestamp qi UINT64_MAX);;
         modify (λ ti, set_current_sock ti cur);;
         update_query q (λ qi, set_sock qi s)) x = Done ((), x') ∧
        tinv x' (q :: p.1, us) ∧ stats x' = stats x ∧ max_outstanding x' = max_outstanding x ∧
        nsocks x' = nsocks x ∧ done_sending x' = done_sending x ∧
        (∃ qi, queries (table x') !! q = Some qi ∧ timestamp qi = UINT64_MAX ∧ sock qi = s) ∧
        (∀ q', q' ≠ q → queries (table x') !! q' = queries (table x) !! q').
Proof.
  intros [Hrep Hent] Hus.
  assert (q < NQIDS) as Hq by (apply (rep_in _ _ _ _ Hrep); right; rewrite Hus; by left).
  assert (q ∉ p.1) as Hn1 by (intros ?; eapply rep_disjoint; [done|done|rewrite Hus; by left]).
  assert (q ∉ us) as Hn2.
  { pose proof (rep_unused _ _ _ Hrep) as (Hnd & _). rewrite Hus in Hnd. by apply NoDup_cons in Hnd as [? _]. }
  destruct (query_move_spec NQIDS _ _ q prepend_outstanding Hrep Hq) as (t1 & qi & E1 & Hrep1 & Hqi & Hqs1).
  assert (spec_move q prepend_outstanding p = (q :: p.1, us)) as Hsp.
  { unfold spec_move. rewrite Hus, filter_cons, decide_False by tauto. by rewrite !filter_notin. }
  rewrite Hsp in Hrep1. simpl in Hqs1.
  set (x1 := set_table x t1).
  assert (move q prepend_outstanding x = Done ((), x1)) as F1 by (unfold move; by rewrite E1).
  rewrite (bind_Done _ _ _ _ _ F1).
  destruct (update_query_spec x1 _ q (λ qi, set_timestamp qi UINT64_MAX) Hrep1 Hq) as (qi2 & Hqi2 & E2 & Hrep2);
    [done|]. rewrite (bind_Done _ _ _ _ _ E2).
  set (x2 := set_table x1 _) in *. set (x3 := set_current_sock x2 cur).
  rewrite (bind_Done (modify _) _ _ () x3 eq_refl).
  destruct (update_query_spec x3 _ q (λ qi, set_sock qi s) Hrep2 Hq) as (qi4 & Hqi4 & E4 & Hrep4); [done|].
  assert (qi4 = set_timestamp qi2 UINT64_MAX) as ->.
  { simpl in Hqi4. rewrite lookup_insert_eq in Hqi4. by simplify_eq. }
  eexists. split; [exact E4|]. simpl.
  assert (∀ q', q' ≠ q → queries (table (set_table x3 (set_query (table x3) q
            (set_sock (set_timestamp qi2 UINT64_MAX) s)))) !! q' = queries (table x) !! q') as Hoth.
  { intros q' Hne. simpl. rewrite !lookup_insert_ne, Hqs1, lookup_insert_ne by done. done. }
  split_and!; try done.
  - split; [done|]. intros q' qi' Hq' Hl'. destruct (decide (q' = q)) as [->|Hne].
    + simpl in Hq'. rewrite lookup_insert_eq in Hq'. simplify_eq. by left.
    + rewrite Hoth in Hq' by done. by eapply Hent.
  - eexists. rewrite lookup_insert_eq. done.
Qed.

Lemma take_query_spec ready x p :
  tinv x p →
  match take_query ready x with
  | Done (TakeBusy, x') => x' = x
  | Done (TakeNoSock, x') =>
      ∃ p', tinv x' p' ∧ length p'.1 = length p.1 ∧ stats x' = stats x ∧
            max_outstanding x' = max_outstanding x
  | Done (TakeGot q s, x') =>
      q < NQIDS ∧ (num_outstanding (stats x) < max_outstanding x)%Z ∧ (0 < nsocks x → s < nsocks x) ∧
      ∃ us, p.2 = q :: us ∧ tinv x' (q :: p.1, us) ∧ stats x' = stats x ∧
            max_outstanding x' = max_outstanding x ∧
            ∃ qi, queries (table x') !! q = Some qi ∧ sock qi = Some s
  | Exit c => c = 1%Z
  | Undef => p.2 = [] ∧ (num_outstanding (stats x) < max_outstanding x)%Z
  | _ => False
  end.
Proof.
  intros Hinv. pose proof Hinv as [Hrep Hent]. unfold take_query. rewrite (bind_Done get _ _ _ _ eq_refl).
  destruct (decide (max_outstanding x ≤ num_outstanding (stats x))%Z) as [Hb|Hb]; [done|].
  pose proof (rep_unused _ _ _ Hrep) as (_ & -> & _). destruct p.2 as [|q us] eqn:Hus; [split; [done|lia]|].
  change (head (q :: us)) with (Some q). cbv beta iota zeta.
  destruct (pick_sock _ _ _ _ _ _) as [[s af] cur] eqn:Hpick.
  destruct (take_steps x p q us s cur Hinv Hus) as (x' & E & Hinv' & Hst & Hmo & Hns & Hds & Hqi & Hoth).
  (* the four assignments as one prefix *)
  match goal with |- match ?m x with _ => _ end =>
    assert (m x = (if af : bool then perf_log_fatal
                   else match s with
                        | None => move q prepend_unused;; mret TakeNoSock
                        | Some s => mret (TakeGot q s)
                        end) x') as ->
  end.
  { revert E. run_unfold. destruct (move q prepend_outstanding x) as [[[] x1]| | | |]; try done.
    destruct (update_query q _ x1) as [[[] x2]| | | |]; try done.
    destruct (update_query q _ (set_current_sock x2 cur)) as [[[] x3]| | | |]; try done.
    by intros [= ->]. }
  destruct af; [done|]. assert (q < NQIDS) as Hq by (apply (rep_in _ _ _ _ Hrep); right; rewrite Hus; by left).
  destruct s as [s|].
  - cbn [mret M_ret]. split_and!; [done|lia| |].
    + intros Hpos. by eapply pick_sock_range.
    + exists us. split_and!; try done. destruct Hqi as (qi & ? & _ & ?). eauto.
  - destruct (move_unused_spec x' _ q prepend_unused Hinv' Hq) as (x2 & E2 & Hinv2 & Hs2 & Hst2 & _ & Hl2); [done|].
    rewrite (bind_Done _ _ _ _ _ E2). cbn [mret M_ret]. eexists. split_and!; [done| |congruence|].
    + rewrite (not_outstanding_spec _ _ _ _ (tinv_rep _ _ Hinv') Hq) in Hl2.
      rewrite decide_True in Hl2 by (by left). simpl in Hl2. simpl. lia.
    + destruct Hs2 as (_ & _ & _ & -> & _). done.
Qed.

(** *** The invariant of the two threads *)

(** The id the sender holds, with its socket when that is fixed. *)
Definition holds (t : query_table) (sd : sender) : Prop :=
  match sd with
  | SHolding q s | SStamped q s => q < NQIDS ∧ ∃ qi, queries t !! q = Some qi ∧ sock qi = Some s
  | SStopped (Some q) => q < NQIDS
  | _ => True
  end.

(** Queries taken but not yet counted as sent, and responses matched but not yet counted. *)
Definition pending_send (sd : sender) : nat :=
  match sd with SHolding _ _ | SStamped _ _ | SStopped (Some _) => 1 | _ => 0 end.
Definition pending_count (rc : receiver) : nat :=
  match rc with RMatched rs => length (List.filter accepted rs) | _ => 0 end.

Definition counts (s : stats_t) (h : history) : Prop :=
  num_sent s = u64 (Z.of_nat (h_sent h)) ∧ num_timedout s = u64 (Z.of_nat (h_timedout h)) ∧
  num_completed s = u64 (Z.of_nat (h_completed h)).

Record sys_inv (s : sys) (p : qpair) : Prop := {
  inv_tinv : tinv (ti s) p;
  inv_max : (max_outstanding (ti s) ≤ Z.of_nat NQIDS)%Z;
  inv_holds : holds (table (ti s)) (snd_at s);
  inv_timeouts : match rcv_at s with RTimeouts q _ => q < NQIDS | _ => True end;
  inv_counts : counts (stats (ti s)) (hist s);
  inv_balance : length p.1 + h_timedout (hist s) + h_completed (hist s) + pending_count (rcv_at s) =
                h_sent (hist s) + pending_send (snd_at s) + h_lost (hist s);
}.

Lemma u64_succ (n : nat) z : z = u64 (Z.of_nat n) → u64 (z + 1) = u64 (Z.of_nat (S n)).
Proof. intros ->. rewrite u64_add_l. f_equal. lia. Qed.

Lemma counts_timedout k s h :
  counts s h →
  counts (Nat.iter k count_timedout s) (History (h_sent h) (h_timedout h + k) (h_completed h) (h_lost h)).
Proof.
  intros (Hs & Ht & Hc). induction k as [|k (IH1 & IH2 & IH3)]; [by rewrite Nat.add_0_r|].
  unfold counts in *. simpl in *. split_and!; [done| |done].
  rewrite (u64_succ _ _ IH2). do 2 f_equal. lia.
Qed.

Lemma counts_response r s h :
  counts s h →
  counts (count_response s r)
    (History (h_sent h) (h_timedout h) (h_completed h + (if accepted r then 1 else 0)) (h_lost h)).
Proof.
  intros (Hs & Ht & Hc). unfold count_response. destruct (accepted r); [|by rewrite Nat.add_0_r].
  unfold counts. simpl. split_and!; [done|done|]. rewrite (u64_succ _ _ Hc). do 2 f_equal. lia.
Qed.

Lemma counts_responses rs s h :
  counts s h →
  counts (foldl count_response s rs)
    (History (h_sent h) (h_timedout h) (h_completed h + length (List.filter accepted rs)) (h_lost h)).
Proof.
  revert s h. induction rs as [|r rs IH]; intros s h Hc; simpl; [by rewrite Nat.add_0_r; destruct h|].
  specialize (IH _ _ (counts_response r s h Hc)). simpl in IH.
  replace (h_completed h + length (if accepted r then r :: List.filter accepted rs else List.filter accepted rs))
    with (h_completed h + (if accepted r then 1 else 0) + length (List.filter accepted rs))
    by (destruct (accepted r); simpl; lia).
  exact IH.
Qed.

Lemma counts_event ev e s h : counts s h → counts (net_event ev e s) h.
Proof. by destruct ev. Qed.

(** What the sender holds is not affected by the receiver. *)
Lemma holds_same t t' sd : same_entries t t' → holds t sd → holds t' sd.
Proof.
  intros Hs. destruct sd as [|q s|q s|[q|]]; simpl; try done;
    intros (Hq & qi & Hqi & Hso); (split; [done|]); destruct (Hs q qi Hqi) as (qi' & ? & _ & ?);
    exists qi'; split; congruence.
Qed.

(** An assignment to an entry that keeps its list and its socket, and does not set the time
    of an entry without a socket. *)
Lemma assign_inv x p q f :
  tinv x p → q < NQIDS → (∀ qi, qlist (f qi) = qlist qi ∧ sock (f qi) = sock qi) →
  (∀ qi, queries (table x) !! q = Some qi →
     timestamp (f qi) = timestamp qi ∨ is_Some (sock qi) ∨ timestamp qi ≠ UINT64_MAX) →
  ∃ x', update_query q f x = Done ((), x') ∧ tinv x' p ∧ stats x' = stats x ∧ same_thread x x' ∧
        (∀ sd, holds (table x) sd → holds (table x') sd).
Proof.
  intros [Hrep Hent] Hq Hf Hts. destruct (update_query_spec x p q f Hrep Hq) as (qi & Hqi & E & Hrep').
  { intros qi. apply Hf. }
  eexists. split; [exact E|]. destruct (Hf qi) as [Hl Hs]. split_and!; try done.
  - split; [done|]. intros q' qi' Hq' Hl'. simpl in Hq'. destruct (decide (q' = q)) as [->|Hne].
    + rewrite lookup_insert_eq in Hq'. simplify_eq. rewrite Hs. rewrite Hl in Hl'.
      destruct (Hts qi Hqi) as [->|[?|?]]; [by eapply Hent|by right|].
      destruct (Hent q qi Hqi Hl'); [done|by right].
    + rewrite lookup_insert_ne in Hq' by done. by eapply Hent.
  - assert (∀ q' s, (∃ qi', queries (table x) !! q' = Some qi' ∧ sock qi' = Some s) →
      ∃ qi', queries (set_query (table x) q (f qi)) !! q' = Some qi' ∧ sock qi' = Some s) as Hlk.
    { intros q' s (qi' & Hq' & Hs'). simpl. destruct (decide (q' = q)) as [->|Hne].
      - exists (f qi). rewrite lookup_insert_eq. split; [done|]. congruence.
      - exists qi'. by rewrite lookup_insert_ne. }
    intros [|q' s|q' s|[q'|]]; simpl; try done; intros [??]; (split; [done|]); by apply Hlk.
Qed.

(** The sender gives its id back. *)
Lemma give_back_inv x q p rc h x' :
  tinv x p → (max_outstanding x ≤ Z.of_nat NQIDS)%Z → q < NQIDS →
  match rc with RTimeouts q _ => q < NQIDS | _ => True end → counts (stats x) h →
  length p.1 + h_timedout h + h_completed h + pending_count rc = h_sent h + 1 + h_lost h →
  move q prepend_unused x = Done ((), x') →
  ∃ p', sys_inv (Sys x' SIdle rc (History (h_sent h) (h_timedout h) (h_completed h)
                                    (h_lost h + not_outstanding (table x) q))) p'.
Proof.
  intros Hinv Hmax Hq Hrc Hc Hbal E.
  destruct (move_unused_spec x p q prepend_unused Hinv Hq) as (x1 & E1 & Hinv1 & Hs1 & Hst1 & _ & Hl1); [done|].
  rewrite E in E1. injection E1 as <-. exists (spec_move q prepend_unused p).
  destruct Hs1 as (_ & _ & _ & Hm & _ & _).
  split; cbn [ti snd_at rcv_at hist h_sent h_timedout h_completed h_lost pending_send];
    [done|by rewrite Hm|done|done|by rewrite Hst1|lia].
Qed.

Lemma sender_inv s s' p : sys_inv s p → sender_step s s' → ∃ p', sys_inv s' p'.
Proof.
  intros [Hinv Hmax Hh Ht Hc Hb] Hstep. destruct Hstep; cbn [ti snd_at rcv_at hist] in *.
  - (* take *)
    pose proof (take_query_spec ready x p Hinv) as Hs. rewrite H in Hs. destruct r as [| |q s].
    + subst x'. exists p. by split.
    + destruct Hs as (p' & Hinv' & Hl & Hst & Hmo). exists p'.
      split; cbn [ti snd_at rcv_at hist]; [done|by rewrite Hmo|done|done|by rewrite Hst|by rewrite Hl].
    + destruct Hs as (Hq & _ & _ & us & _ & Hinv' & Hst & Hmo & Hqi). exists (q :: p.1, us).
      split; cbn [ti snd_at rcv_at hist]; [done|by rewrite Hmo|done|done|by rewrite Hst|].
      simpl in *. lia.
  - (* end of file *)
    exists p. split; cbn [ti snd_at rcv_at hist]; try done. by destruct Hh.
  - (* bad request *)
    destruct Hh as [Hq _]. by eapply give_back_inv.
  - (* stamp *)
    destruct Hh as (Hq & qi & Hqi & Hso).
    destruct (assign_inv x p q (λ qi, set_timestamp (match verbose with
        | Some d => set_desc qi (Some d) | None => qi end) now)) as (x1 & E1 & Hinv1 & Hst1 & Hs1 & Hh1);
      [done|done|by destruct verbose| |].
    { intros qi' Hqi'. right; left. rewrite Hqi in Hqi'. simplify_eq. by rewrite Hso. }
    unfold stamp_query in H0. rewrite H0 in E1. injection E1 as <-. exists p.
    destruct Hs1 as (_ & _ & _ & Hm & _ & _).
    split; cbn [ti snd_at rcv_at hist]; [done|by rewrite Hm| |done|by rewrite Hst1|done].
    apply (Hh1 (SHolding q s)). simpl. eauto.
  - (* sent *)
    exists p. unfold finish_send in H. destruct (match r with SendN _ => _ | SendErr _ => _ end).
    + injection H as <-. split; cbn [ti snd_at rcv_at hist]; try done.
      * destruct Hinv. by split.
      * destruct Hc as (H1 & H2 & H3). split_and!; [|done|done]. simpl. by apply u64_succ.
      * simpl in *. lia.
    + revert H. run_unfold. by destruct (move q prepend_unused x) as [[? ?]| | | |].
  - (* send failed *)
    destruct Hh as [Hq _]. unfold finish_send in H. destruct (match r with SendN _ => _ | SendErr _ => _ end); [done|].
    revert H. run_unfold. destruct (move q prepend_unused x) as [[[] x1]| | | |] eqn:E; try done.
    intros [= <-]. by eapply give_back_inv.
  - (* stop *) exists p. by split.
  - (* done *) exists p. split; try done. destruct Hinv. by split.
  - (* net_sent *)
    destruct (assign_inv x p q (λ qi, if decide (timestamp qi ≠ UINT64_MAX) then set_timestamp qi now else qi))
      as (x1 & E1 & Hinv1 & Hst1 & Hs1 & Hh1); [done|done|intros qi; by destruct (decide _)| |].
    { intros qi _. destruct (decide (timestamp qi ≠ UINT64_MAX)); [by right; right|by left]. }
    unfold net_sent in H1. rewrite H1 in E1. injection E1 as <-. exists p.
    destruct Hs1 as (_ & _ & _ & Hm & _ & _).
    split; cbn [ti snd_at rcv_at hist]; [done|by rewrite Hm|by apply Hh1|done|by rewrite Hst1|done].
  - (* net_event *)
    exists p. split; cbn [ti snd_at rcv_at hist]; try done; [destruct Hinv; by split|by apply counts_event].
Qed.

Lemma receiver_inv timeout s s' p : sys_inv s p → receiver_step timeout s s' → ∃ p', sys_inv s' p'.
Proof.
  intros [Hinv Hmax Hh Ht Hc Hb] Hstep. destruct Hstep; cbn [ti snd_at rcv_at hist] in *.
  - (* timeouts, check *)
    exists p. split; try done. cbn [rcv_at]. pose proof (oldest_spec x p Hinv) as Ho.
    unfold timeouts_check in H. destruct (last p.1) as [q'|].
    + destruct Ho as (Hq' & qi & _ & _ & E). rewrite E in H. simpl in H. case_decide; simplify_eq. done.
    + rewrite Ho in H. done.
  - (* timeouts, run *)
    pose proof (timeouts_run_spec fuel timeout now q x p Hinv Ht) as Hs. rewrite H in Hs.
    destruct Hs as (p' & Hinv' & Hs' & Hen & Hl & Hst & _). exists p'.
    destruct Hs' as (_ & _ & _ & Hm & _ & _).
    split; cbn [ti snd_at rcv_at hist]; [done|by rewrite Hm|by eapply holds_same|done| |simpl in *; lia].
    rewrite Hst. exact (counts_timedout k (stats x) h Hc).
  - (* match *)
    destruct (match_batch_spec rs x p Hinv H) as (rs1 & x1 & p1 & E & Hinv1 & Hs1 & Hst1 & Hen1 & _ & Hl1).
    rewrite H0 in E. injection E as <- <-. exists p1. destruct Hs1 as (_ & _ & _ & Hm & _ & _).
    split; cbn [ti snd_at rcv_at hist]; [done|by rewrite Hm|by eapply holds_same|done|by rewrite Hst1|].
    simpl in *. lia.
  - (* count *)
    exists p. assert (table (count_batch rs x) = table x ∧ max_outstanding (count_batch rs x) = max_outstanding x ∧
      stats (count_batch rs x) = foldl count_response (stats x) rs) as (H1 & H2 & H3).
    { unfold count_batch. by destruct (last rs). }
    split; cbn [ti snd_at rcv_at hist]; [|by rewrite H2|by rewrite H1|done| |simpl in *; lia].
    + destruct Hinv as [Hr He]. split; by rewrite H1.
    + rewrite H3. by apply counts_responses.
  - (* receiver stops *) exists p. by split.
Qed.

Lemma step_inv timeout s s' p : sys_inv s p → step timeout s s' → ∃ p', sys_inv s' p'.
Proof. intros Hs [H|H]; [by eapply sender_inv|by eapply receiver_inv]. Qed.

(** The initial state. *)
Lemma init_entries k i t t' :
  (∀ q qi, queries t !! q = Some qi → qlist qi = unused_list) → init_queries k i t = Done t' →
  ∀ q qi, queries t' !! q = Some qi → qlist qi = unused_list.
Proof.
  revert i t. induction k as [|k IH]; intros i t Ht; simpl; [by intros [= <-]|].
  destruct (perf_list_append _ _ _) as [[l st]| | | |]; simpl; try done. intros E. eapply IH; [|exact E].
  simpl. intros q qi. destruct (decide (q = i)) as [->|Hne].
  - rewrite lookup_insert_eq. by intros [= <-].
  - rewrite lookup_insert_ne by done. apply Ht.
Qed.

Lemma table_init_entries n t :
  query_table_init n = Done t → ∀ q qi, queries t !! q = Some qi → qlist qi = unused_list.
Proof. intros E. eapply init_entries; [|exact E]. done. Qed.

Lemma init_inv mo mq c n off x :
  threadinfo_init mo mq c n off = Done x →
  sys_inv (Sys x SIdle RIdle (History 0 0 0 0)) ([], seq 0 NQIDS) ∧ done_sending x = false.
Proof.
  unfold threadinfo_init. destruct (table_init_spec NQIDS) as (t & Et & Hrep). rewrite Et.
  cbn [mbind run_bind]. intros [= <-]. split; [|reflexivity].
  split; cbn [ti snd_at rcv_at hist]; [| |exact I|exact I|by split_and!|reflexivity].
  - split; [exact Hrep|]. intros q qi Hq Hl.
    assert (qlist qi = unused_list); [|congruence].
    exact (table_init_entries NQIDS t Et q qi Hq).
  - cbn [max_outstanding]. destruct (decide _); lia.
Qed.

Lemma reachable_inv timeout s : reachable timeout s → ∃ p, sys_inv s p.
Proof.
  induction 1 as [mo mq c n off x H|s s' Hr [p IH] Hs].
  - eexists. by eapply init_inv.
  - by eapply step_inv.
Qed.

(** *** Stopping *)

Record stop_inv (s : sys) : Prop := {
  stop_sender : done_sending (ti s) = true → ∃ held, snd_at s = SStopped held;
  stop_receiver : rcv_at s = RStopped → done_sending (ti s) = true ∧ num_outstanding (stats (ti s)) = 0%Z;
}.

(** The counters [num_outstanding] reads. *)
Definition outstanding_counts (s : stats_t) : Z * Z * Z := (num_sent s, num_completed s, num_timedout s).

Lemma num_outstanding_ext s s' :
  outstanding_counts s' = outstanding_counts s → num_outstanding s' = num_outstanding s.
Proof. unfold outstanding_counts, num_outstanding. intros [= -> -> ->]. done. Qed.

Lemma update_query_thread q f x x' :
  update_query q f x = Done ((), x') → done_sending x' = done_sending x ∧ stats x' = stats x.
Proof. unfold update_query. destruct (queries (table x) !! q); [|done]. by intros [= <-]. Qed.

Lemma move_thread q op x x' :
  move q op x = Done ((), x') → done_sending x' = done_sending x ∧ stats x' = stats x.
Proof. unfold move. destruct (query_move _ _ _); try done. by intros [= <-]. Qed.

Lemma take_thread ready x r x' :
  take_query ready x = Done (r, x') → done_sending x' = done_sending x.
Proof.
  unfold take_query. run_unfold. destruct (decide _); [by intros [= <- <-]|].
  destruct (pl_head _) as [q|]; [|done]. destruct (pick_sock _ _ _ _ _ _) as [[s af] cur].
  destruct (move q prepend_outstanding x) as [[[] x1]| | | |] eqn:E1; try done.
  destruct (update_query q _ x1) as [[[] x2]| | | |] eqn:E2; try done.
  destruct (update_query q _ (set_current_sock x2 cur)) as [[[] x3]| | | |] eqn:E3; try done.
  apply move_thread in E1 as [E1 _]. apply update_query_thread in E2 as [E2 _], E3 as [E3 _].
  simpl in E3. destruct af; [done|]. destruct s as [s|]; [intros [= <- <-]; congruence|].
  destruct (move q prepend_unused x3) as [[[] x4]| | | |] eqn:E4; try done.
  apply move_thread in E4 as [E4 _]. intros [= <- <-]. congruence.
Qed.

Lemma finish_thread q len r b x x' :
  finish_send q len r x = Done (b, x') → done_sending x' = done_sending x.
Proof.
  unfold finish_send. run_unfold. destruct (match r with SendN _ => _ | SendErr _ => _ end); [by intros [= <- <-]|].
  destruct (move q prepend_unused x) as [[[] x4]| | | |] eqn:E4; try done.
  apply move_thread in E4 as [E4 _]. by intros [= <- <-].
Qed.

(** A step of the sender before it stops. *)
Lemma stop_active x sd rc h x' sd' h' :
  stop_inv (Sys x sd rc h) → done_sending x' = done_sending x →
  (∀ held, sd ≠ SStopped held) → stop_inv (Sys x' sd' rc h').
Proof.
  intros [H1 H2] Hd Hn. simpl in *.
  assert (done_sending x = false) as Hf.
  { destruct (done_sending x) eqn:E; [|done]. destruct (H1 eq_refl) as [held ?]. by destruct (Hn held). }
  split; simpl; [congruence|]. intros Hrc. destruct (H2 Hrc). congruence.
Qed.

Lemma stop_step timeout s s' p : sys_inv s p → stop_inv s → step timeout s s' → stop_inv s'.
Proof.
  intros Hsys Hst [Hs|Hs]; destruct Hs.
  - eapply stop_active; [done|by eapply take_thread|done].
  - by eapply stop_active.
  - apply move_thread in H as [? _]. by eapply stop_active.
  - apply update_query_thread in H0 as [? _]. by eapply stop_active.
  - apply finish_thread in H. by eapply stop_active.
  - apply finish_thread in H. by eapply stop_active.
  - by eapply stop_active.
  - destruct Hst as [H1 H2]. split; simpl in *; [eauto|]. intros Hrc. split; [done|]. by destruct (H2 Hrc).
  - apply update_query_thread in H1 as [E1 E2]. destruct Hst as [H1' H2']. split; simpl in *; by rewrite ?E1, ?E2.
  - destruct Hst as [H1 H2]. split; simpl in *; [done|]. intros Hrc. destruct (H2 Hrc) as [? Hz]. split; [done|].
    rewrite <- Hz. apply num_outstanding_ext. by destruct ev.
  - destruct Hst as [H1 H2]. by split.
  - pose proof (timeouts_run_spec fuel timeout now q x p (inv_tinv _ _ Hsys) (inv_timeouts _ _ Hsys)) as Hr.
    rewrite H in Hr. destruct Hr as (? & _ & (_ & _ & Hd & _) & _). destruct Hst as [H1 H2].
    split; simpl in *; [by rewrite Hd|done].
  - destruct (match_batch_spec rs x p (inv_tinv _ _ Hsys) H) as (? & ? & ? & E & _ & (_ & _ & Hd & _) & _).
    rewrite H0 in E. injection E as <- <-. destruct Hst as [H1 H2]. split; simpl in *; [by rewrite Hd|done].
  - destruct Hst as [H1 H2]. split; simpl in *; [|done].
    replace (done_sending (count_batch rs x)) with (done_sending x); [done|]. unfold count_batch. by destruct (last rs).
  - destruct Hst as [H1 H2]. by split.
Qed.

Lemma reachable_stop timeout s : reachable timeout s → stop_inv s.
Proof.
  induction 1 as [mo mq c n off x H|s s' Hr IH Hs].
  - apply init_inv in H as [_ Hd]. split; simpl; [by rewrite Hd|done].
  - destruct (reachable_inv _ _ Hr) as [p Hp]. by eapply stop_step.
Qed.

(** [num_outstanding] without wrap-around. *)
Lemma num_outstanding_exact s h :
  counts s h → (Z.of_nat (h_sent h) < 2 ^ 64)%Z →
  (Z.of_nat (h_completed h) + Z.of_nat (h_timedout h) < 2 ^ 64)%Z →
  num_outstanding s = Z.max 0 (Z.of_nat (h_sent h) - Z.of_nat (h_completed h) - Z.of_nat (h_timedout h)).
Proof.
  intros (E1 & E2 & E3) H1 H2.
  unfold num_outstanding. rewrite E1, E2, E3. rewrite !(u64_small (Z.of_nat _)) by lia.
  rewrite (u64_small (Z.of_nat _ + _)) by lia. destruct (decide _); [lia|].
  rewrite (u64_small (Z.of_nat _ - _)) by lia. rewrite u64_small by lia. lia.
Qed.

(** *** A thread that has sent one query *)

Lemma init_done mo mq c n off : ∃ x, threadinfo_init mo mq c n off = Done x.
Proof.
  unfold threadinfo_init. destruct (table_init_spec NQIDS) as (t & Et & _). rewrite Et.
  cbn [mbind run_bind]. eauto.
Qed.

Lemma init_fields mo mq c n off x :
  threadinfo_init mo mq c n off = Done x →
  stats x = zero_stats ∧ current_sock x = 0%Z ∧
  max_outstanding x = Z.min (Z.of_nat NQIDS) (per_thread mo n off) ∧
  nsocks x = Z.to_nat (Z.min (Z.of_nat MAX_SOCKETS) (per_thread c n off)).
Proof.
  unfold threadinfo_init. destruct (table_init_spec NQIDS) as (t & Et & _). rewrite Et.
  cbn [mbind run_bind]. intros [= <-]. cbn [stats current_sock max_outstanding nsocks].
  refine (conj eq_refl (conj eq_refl (conj _ _))).
  - destruct (decide (Z.of_nat NQIDS < per_thread mo n off)%Z); lia.
  - f_equal. destruct (decide (Z.of_nat MAX_SOCKETS < per_thread c n off)%Z); lia.
Qed.

(** A thread with one client. *)
Lemma one_thread : ∃ x, threadinfo_init 100 0 1 1 0 = Done x ∧ nsocks x = 1 ∧ stats x = zero_stats ∧
  max_outstanding x = 100%Z ∧ max_qps x = 0%Z.
Proof.
  unfold threadinfo_init. destruct (table_init_spec NQIDS) as (t & Et & _). rewrite Et.
  cbn [mbind run_bind]. eexists. split; [reflexivity|]. cbn [nsocks stats max_outstanding max_qps].
  change (per_thread 100 1 0) with 100%Z. change (per_thread 1 1 0) with 1%Z. change (per_thread 0 1 0) with 0%Z.
  rewrite NQIDS_val. split_and!; reflexivity.
Qed.


Lemma move_nsocks q op x x' : move q op x = Done ((), x') → nsocks x' = nsocks x.
Proof. unfold move. destruct (query_move _ _ _); try done. by intros [= <-]. Qed.
Lemma update_nsocks q f x x' : update_query q f x = Done ((), x') → nsocks x' = nsocks x.
Proof. unfold update_query. destruct (queries (table x) !! q); [|done]. by intros [= <-]. Qed.

Lemma take_nsocks ready x r x' : take_query ready x = Done (r, x') → nsocks x' = nsocks x.
Proof.
  unfold take_query. run_unfold. destruct (decide _); [by intros [= <- <-]|].
  destruct (pl_head _) as [q|]; [|done]. destruct (pick_sock _ _ _ _ _ _) as [[s af] cur].
  destruct (move q prepend_outstanding x) as [[[] x1]| | | |] eqn:E1; try done.
  destruct (update_query q _ x1) as [[[] x2]| | | |] eqn:E2; try done.
  destruct (update_query q _ (set_current_sock x2 cur)) as [[[] x3]| | | |] eqn:E3; try done.
  apply move_nsocks in E1. apply update_nsocks in E2, E3.
  simpl in E3. destruct af; [done|]. destruct s as [s|]; [intros [= <- <-]; congruence|].
  destruct (move q prepend_unused x3) as [[[] x4]| | | |] eqn:E4; try done.
  apply move_nsocks in E4. intros [= <- <-]. congruence.
Qed.

(** With sockets that are ready and room for a query, the sender gets an id. *)
Lemma take_succeeds x p q us :
  tinv x p → p.2 = q :: us → (num_outstanding (stats x) < max_outstanding x)%Z → 0 < nsocks x →
  ∃ k x', take_query (λ _, 1%Z) x = Done (TakeGot q k, x').
Proof.
  intros Hinv Hus Hlt Hns. unfold take_query. rewrite (bind_Done get _ _ _ _ eq_refl). rewrite decide_False by lia.
  pose proof (rep_unused _ _ _ (tinv_rep _ _ Hinv)) as (_ & -> & _). rewrite Hus. change (head (q :: us)) with (Some q).
  cbv beta iota zeta. destruct (nsocks x * 2) as [|i] eqn:Ei; [lia|]. cbn [pick_sock].
  rewrite (decide_False (P := 1 = 0)%Z), (decide_False (P := 1 = -1)%Z) by lia.
  set (k := Z.to_nat _). set (cur := s32 _).
  destruct (take_steps x p q us (Some k) cur Hinv Hus) as (x' & E & _). exists k, x'.
  revert E. run_unfold. destruct (move q prepend_outstanding x) as [[[] x1]| | | |]; try done.
  destruct (update_query q _ x1) as [[[] x2]| | | |]; try done.
  destruct (update_query q _ (set_current_sock x2 cur)) as [[[] x3]| | | |]; try done.
  by intros [= ->].
Qed.

Lemma seq_pos n : 0 < n → seq 0 n = 0 :: seq 1 (pred n).
Proof. destruct n; [lia|done]. Qed.

(** A query is taken, stamped with the time 5 and sent. *)
Lemma one_query_sent_from timeout x0 :
  threadinfo_init 100 0 1 1 0 = Done x0 →
  ∃ x q us, runs timeout x0 (Sys x SIdle RIdle (History 1 0 0 0)) ∧ tinv x ([q], us) ∧
    answers (table x) (Received 0 q 3 40 9 0 false false None).
Proof.
  intros E0. pose proof (runs_reachable timeout _ _ _ _ _ x0 E0) as Hreach. pose proof (runs_start timeout x0) as R0.
  destruct (init_fields _ _ _ _ _ _ E0) as (Hst & Hcs & Hmo & Hns).
  destruct (init_inv _ _ _ _ _ _ E0) as [[Hinv Hmax _ _ _ _] _]. cbn [ti] in *.
  pose proof (seq_pos NQIDS ltac:(pose proof NQIDS_val; lia)) as Hseq.
  assert (per_thread 100 1 0 = 100%Z ∧ per_thread 1 1 0 = 1%Z) as [P1 P2] by (split; reflexivity).
  rewrite P1 in Hmo. rewrite P2 in Hns.
  assert (max_outstanding x0 = 100%Z) as Hmo' by (rewrite Hmo, NQIDS_val; lia).
  destruct (take_succeeds x0 _ 0 (seq 1 (pred NQIDS)) Hinv Hseq) as (k & x1 & E1);
    [rewrite Hst, Hmo'; reflexivity|rewrite Hns; apply (bool_decide_unpack _); reflexivity|]. clear Hseq.
  pose proof (take_query_spec (λ _, 1%Z) x0 _ Hinv) as Hs. rewrite E1 in Hs.
  destruct Hs as (Hq & _ & Hk & us & _ & Hinv1 & _ & _ & qi & Hqi & Hso).
  assert (k = 0) as -> by (rewrite Hns in Hk; assert (k < 1) by (apply Hk; apply (bool_decide_unpack _); reflexivity); lia).
  assert (R1 : runs timeout x0 (Sys x1 (SHolding 0 0) RIdle (History 0 0 0 0))).
  { eapply rtc_r; [exact R0|]. left. exact (step_take _ _ _ _ RIdle _ E1). }
  assert (∃ x2, stamp_query 0 5 None x1 = Done ((), x2) ∧ x2 = set_table x1 (set_query (table x1) 0 (set_timestamp qi 5)))
    as (x2 & E2 & Hx2).
  { eexists. split; [|reflexivity]. unfold stamp_query, update_query. by rewrite Hqi. }
  assert (R2 : runs timeout x0 (Sys x2 (SStamped 0 0) RIdle (History 0 0 0 0))).
  { eapply rtc_r; [exact R1|]. left. eapply (step_stamp 0 0 5 None); [done|exact E2]. }
  set (x3 := set_stats x2 (count_sent (stats x2) 40)).
  exists x3, 0, us. split; [|split].
  - eapply rtc_r; [exact R2|]. left. by apply (step_sent 0 0 40 (SendN 40)).
  - destruct (reachable_inv _ _ (Hreach _ R2)) as [p [[Hrep Hent] _ _ _ _ _]].
    destruct Hinv1 as [Hrep1 Hent1]. split; subst x3 x2; cbn [table set_stats set_table] in *; [|exact Hent].
    eapply table_rep_set; [exact Hrep1|exact Hqi|done].
  - assert (qlist qi = outstanding_list) as Hl.
    { pose proof (rep_entry_o _ _ _ (tinv_rep _ _ Hinv1)) as He. apply Forall_cons in He as [(qi' & Hqi' & Hl) _].
      congruence. }
    split; [done|]. exists (set_timestamp qi 5). subst x3 x2. cbn [table set_stats set_table set_query queries r_qid].
    rewrite lookup_insert_eq. refine (conj eq_refl (conj Hl (conj _ Hso))). discriminate.
Qed.

Lemma one_query_sent timeout :
  ∃ x q us, reachable timeout (Sys x SIdle RIdle (History 1 0 0 0)) ∧ tinv x ([q], us) ∧
    answers (table x) (Received 0 q 3 40 9 0 false false None).
Proof.
  destruct (init_done 100 0 1 1 0) as [x0 E0]. destruct (one_query_sent_from timeout x0 E0) as (x & q & us & R & H).
  exists x, q, us. split; [exact (runs_reachable timeout _ _ _ _ _ _ E0 _ R)|exact H].
Qed.

(** Its response comes in and is counted; then both threads stop. *)
Lemma one_query_answered_from timeout x0 :
  threadinfo_init 100 0 1 1 0 = Done x0 →
  ∃ x, runs timeout x0 (Sys x (SStopped None) RStopped (History 1 0 1 0)).
Proof.
  intros E0. pose proof (runs_reachable timeout _ _ _ _ _ x0 E0) as Hreach.
  destruct (one_query_sent_from timeout x0 E0) as (x & q & us & R & Hinv & Hans).
  assert (q < NQIDS) as Hq by (apply (rep_in _ _ _ _ (tinv_rep _ _ Hinv)); left; by left).
  set (r := Received 0 q 3 40 9 0 false false None) in *.
  destruct (match_response_spec x _ r Hinv Hq eq_refl) as (r' & x1 & p1 & E & _ & _ & _ & _ & Ha & _).
  apply Ha in Hans.
  assert (R1 : runs timeout x0 (Sys x1 SIdle (RMatched [r']) (History 1 0 0 0))).
  { eapply rtc_r; [exact R|]. right. apply (step_match _ [r]).
    { constructor; [|constructor]. split; [exact Hq|]. split; [done|unfold DNSPERF_STATS_RCODECOUNTS; simpl; lia]. }
    cbn [match_batch]. rewrite (bind_Done _ _ _ _ _ E). done. }
  assert (R2 : runs timeout x0 (Sys (count_batch [r'] x1) SIdle RIdle (History 1 0 1 0))).
  { eapply rtc_r; [exact R1|]. right. pose proof (step_count timeout [r'] x1 SIdle (History 1 0 0 0)) as Hs.
    simpl List.filter in Hs. rewrite Hans in Hs. exact Hs. }
  set (x2 := count_batch [r'] x1) in *.
  assert (R3 : runs timeout x0 (Sys (set_done x2 7) (SStopped None) RIdle (History 1 0 1 0))).
  { eapply rtc_r; [eapply rtc_r; [exact R2|left; apply step_stop]|left; apply step_done]. }
  exists (set_done x2 7). eapply rtc_r; [exact R3|]. right. apply step_rcv_stop; [done|].
  destruct (reachable_inv _ _ (Hreach _ R3)) as [p [_ _ _ _ Hc _]]. exact (num_outstanding_exact _ _ Hc eq_refl eq_refl).
Qed.

Lemma one_query_answered timeout :
  ∃ x, reachable timeout (Sys x (SStopped None) RStopped (History 1 0 1 0)).
Proof.
  destruct (init_done 100 0 1 1 0) as [x0 E0]. destruct (one_query_answered_from timeout x0 E0) as [x R].
  exists x. exact (runs_reachable timeout _ _ _ _ _ _ E0 _ R).
Qed.

(** ** Theorems *)

Lemma rep_lengths x p : tinv x p → length p.1 + length p.2 = NQIDS.
Proof.
  intros [Hrep _]. pose proof (rep_ids _ _ _ Hrep) as Hp. apply Permutation_length in Hp.
  by rewrite length_app, length_seq in Hp.
Qed.

(** C5: accounting over every interleaving of the sender, the receiver and the sockets'
    callbacks: the outstanding and the unused ids always partition the message ids, the
    counters are the numbers of queries sent, timed out and completed, and every query
    taken is outstanding, timed out, completed, or matched and about to be counted. *)
Theorem threads_accounting timeout s :
  reachable timeout s →
  ∃ p, table_rep NQIDS (table (ti s)) p ∧ counts (stats (ti s)) (hist s) ∧
       length p.1 + h_timedout (hist s) + h_completed (hist s) + pending_count (rcv_at s) =
         h_sent (hist s) + pending_send (snd_at s) + h_lost (hist s).
Proof.
  intros Hr. destruct (reachable_inv _ _ Hr) as [p Hp]. exists p. destruct Hp as [[Hrep _] _ _ _ Hc Hb]. done.
Qed.

Lemma threads_accounting_witness :
  ∃ x p, table_rep NQIDS (table x) p ∧ counts (stats x) (History 1 0 0 0) ∧ length p.1 + 0 + 0 + 0 = 1 + 0 + 0.
Proof.
  destruct (one_query_sent 10) as (x & q & us & R & _). exists x. exact (threads_accounting 10 _ R).
Defined.

(** The list of unused ids is not empty when an id is needed, unless one was lost. *)
Lemma take_id_safe timeout s ready :
  reachable timeout s → snd_at s = SIdle → h_lost (hist s) = 0 →
  (Z.of_nat (h_sent (hist s)) < 2 ^ 63)%Z →
  match take_query ready (ti s) with
  | Done (TakeGot q sk, x') =>
      q < NQIDS ∧ ∃ p', table_rep NQIDS (table x') p' ∧ q ∈ p'.1 ∧
                        (Z.of_nat (length p'.1) ≤ max_outstanding x')%Z
  | Done _ => True
  | Exit c => c = 1%Z
  | _ => False
  end.
Proof.
  intros Hr Hsd Hlost Hsent. destruct (reachable_inv _ _ Hr) as [p [Hinv Hmax _ _ Hc Hb]].
  rewrite Hsd, Hlost in Hb. simpl in Hb.
  pose proof (num_outstanding_exact _ _ Hc ltac:(lia) ltac:(lia)) as Hno.
  pose proof (rep_lengths _ _ Hinv) as Hlen.
  pose proof (take_query_spec ready (ti s) p Hinv) as Ht.
  destruct (take_query ready (ti s)) as [[[| |q sk] x']| | | |]; try done.
  - destruct Ht as (Hq & Hlt & _ & us & _ & [Hrep' _] & Hst & Hmo & _). split; [done|].
    exists (q :: p.1, us). split_and!; [done|by left|]. rewrite Hmo. simpl. lia.
  - destruct Ht as [Hnil Hlt]. rewrite Hnil in Hlen. simpl in Hlen. lia.
Qed.

(** the sender never runs out of ids: as long as no query was lost to a failed send, the
    limit on queries in flight is kept and the list of unused ids is not empty when an id is
    taken from it, also at the largest limit of 65536. *)
Theorem sender_takes_id timeout s ready :
  reachable timeout s → snd_at s = SIdle → h_lost (hist s) = 0 →
  (Z.of_nat (h_sent (hist s)) < 2 ^ 63)%Z →
  match take_query ready (ti s) with
  | Done (TakeGot q sk, x') =>
      q < NQIDS ∧ ∃ p', table_rep NQIDS (table x') p' ∧ q ∈ p'.1 ∧
                        (Z.of_nat (length p'.1) ≤ max_outstanding x')%Z
  | Done _ => True
  | Exit c => c = 1%Z
  | _ => False
  end.
Proof. exact (take_id_safe timeout s ready). Qed.

Lemma sender_takes_id_witness :
  ∃ x, match take_query (λ _, 1%Z) x with
       | Done (TakeGot q sk, x') =>
           q < NQIDS ∧ ∃ p', table_rep NQIDS (table x') p' ∧ q ∈ p'.1 ∧
                             (Z.of_nat (length p'.1) ≤ max_outstanding x')%Z
       | Done _ => True
       | Exit c => c = 1%Z
       | _ => False
       end.
Proof.
  destruct (one_query_sent 10) as (x & q & us & R & _). exists x.
  exact (sender_takes_id 10 _ (λ _, 1%Z) R eq_refl eq_refl eq_refl).
Defined.

(** When the list of unused ids is empty although fewer queries than allowed are counted as
    outstanding, all but a few ids were lost. *)
Lemma take_id_lost timeout s ready :
  reachable timeout s → snd_at s = SIdle → (Z.of_nat (h_sent (hist s)) < 2 ^ 63)%Z →
  take_query ready (ti s) = Undef →
  pl_head (unused_queries (table (ti s))) = None ∧ (num_outstanding (stats (ti s)) < max_outstanding (ti s))%Z ∧
  (Z.of_nat NQIDS < max_outstanding (ti s) + Z.of_nat (h_lost (hist s)))%Z.
Proof.
  intros Hr Hsd Hsent E. destruct (reachable_inv _ _ Hr) as [p [Hinv Hmax _ _ Hc Hb]].
  pose proof (take_query_spec ready (ti s) p Hinv) as Ht. rewrite E in Ht. destruct Ht as [Hnil Hlt].
  pose proof (rep_unused _ _ _ (tinv_rep _ _ Hinv)) as (_ & Hh & _). rewrite Hnil in Hh.
  split; [exact Hh|]. split; [exact Hlt|].
  pose proof (rep_lengths _ _ Hinv) as Hlen. rewrite Hnil in Hlen. rewrite Hsd in Hb. simpl in Hlen, Hb.
  pose proof NQIDS_val as Hn. destruct (decide (Z.of_nat (h_lost (hist s)) < 2 ^ 63)%Z) as [Hl|Hl].
  - pose proof (num_outstanding_exact _ _ Hc ltac:(lia) ltac:(lia)) as Hno. lia.
  - assert (0 ≤ num_outstanding (stats (ti s)))%Z; [|lia]. unfold num_outstanding, u64.
    destruct (decide _); [lia|]. apply Z.mod_pos_bound. lia.
Qed.

(** C25: when the receiver has stopped, the sender has too, and at least as many queries have been
    counted as answered or timed out as were counted as sent.  Every id that is still
    outstanding then is accounted for: one may be the id the sender took when the input ended,
    and there may be one for each id that was counted as answered or timed out although the
    sending of its query failed ([h_lost]); when there was none of these, every query sent was
    answered or timed out. *)
Theorem all_queries_accounted timeout s :
  reachable timeout s → rcv_at s = RStopped →
  (Z.of_nat (h_sent (hist s) + h_lost (hist s)) < 2 ^ 63)%Z →
  (∃ held, snd_at s = SStopped held) ∧
  h_sent (hist s) ≤ h_completed (hist s) + h_timedout (hist s) ∧
  ∃ p, table_rep NQIDS (table (ti s)) p ∧
       length p.1 + (h_completed (hist s) + h_timedout (hist s)) =
         h_sent (hist s) + pending_send (snd_at s) + h_lost (hist s).
Proof.
  intros Hr Hrc Hsent. destruct (reachable_inv _ _ Hr) as [p [Hinv Hmax _ _ Hc Hb]].
  destruct (reachable_stop _ _ Hr) as [H1 H2]. destruct (H2 Hrc) as [Hd Hz]. specialize (H1 Hd).
  rewrite Hrc in Hb. simpl in Hb.
  assert (pending_send (snd_at s) ≤ 1) as Hp1 by (destruct (snd_at s) as [| | |[|]]; simpl; lia).
  pose proof (num_outstanding_exact _ _ Hc ltac:(lia) ltac:(lia)) as Hno. rewrite Hz in Hno.
  split_and!; [done|lia|]. exists p. split; [apply Hinv|lia].
Qed.

Lemma all_queries_accounted_witness :
  ∃ x, reachable 10 (Sys x (SStopped None) RStopped (History 1 0 1 0)) ∧
       ∃ p, table_rep NQIDS (table x) p ∧ length p.1 + 1 = 1.
Proof.
  destruct (one_query_answered 10) as [x R]. exists x. split; [exact R|].
  destruct (all_queries_accounted 10 _ R eq_refl eq_refl) as (_ & _ & H). exact H.
Defined.

(** the receiver's locked regions always return: matching a batch of responses fails no
    assertion, and the loop over timed out queries ends within one round per id and one. *)
Theorem receiver_total timeout s rs :
  reachable timeout s → Forall as_received rs →
  returns (match_batch rs (ti s)) (λ '(rs', _), length rs' = length rs) ∧
  match rcv_at s with
  | RTimeouts q now => returns (timeouts_run (S (S NQIDS)) timeout now q (ti s)) (λ _, True)
  | _ => True
  end.
Proof.
  intros Hr Hrs. destruct (reachable_inv _ _ Hr) as [p [Hinv _ _ Ht _ _]]. split.
  - destruct (match_batch_spec rs _ p Hinv Hrs) as (rs' & x' & p' & -> & _ & _ & _ & _ & Hl & _). done.
  - destruct (rcv_at s) as [|q now| |]; try done.
    pose proof (timeouts_run_spec (S (S NQIDS)) timeout now q (ti s) p Hinv Ht) as Hs.
    pose proof (rep_lengths _ _ Hinv) as Hlen.
    assert (not_outstanding (table (ti s)) q ≤ 1) as Hno.
    { unfold not_outstanding. destruct (queries _ !! q); [destruct (decide _); lia|lia]. }
    unfold returns. destruct (timeouts_run _ _ _ _ _) as [[k x']| | | |]; try done. lia.
Qed.

Lemma receiver_total_witness :
  ∃ x, returns (match_batch [Received 0 0 3 40 9 0 false false None] x) (λ '(rs', _), length rs' = 1).
Proof.
  destruct (one_query_sent 10) as (x & q & us & R & _). exists x.
  refine (proj1 (receiver_total 10 _ [Received 0 0 3 40 9 0 false false None] R _)).
  constructor; [|constructor].
  split; [pose proof NQIDS_val; simpl; lia|]. split; [reflexivity|unfold DNSPERF_STATS_RCODECOUNTS; simpl; lia].
Defined.

(** What matching one response does to everything else. *)
Lemma match_response_frame x r r' x' :
  match_response r x = Done (r', x') → r_unexpected r = false →
  if accepted r' then
    ∃ qi, queries (table x) !! r_qid r = Some qi ∧
      r' = Received (r_sock r) (r_qid r) (r_rcode r) (r_size r) (r_when r) (timestamp qi) false false (desc qi) ∧
      x' = set_table x (table x') ∧
      queries (table x') = <[r_qid r := set_desc (set_qlist qi unused_list) None]> (queries (table x))
  else
    x' = x ∧ r' = Received (r_sock r) (r_qid r) (r_rcode r) (r_size r) (r_when r) (r_sent r)
                    (negb (r_short r)) (r_short r) (r_desc r).
Proof.
  intros E Hu. revert E. unfold match_response. run_unfold. destruct (r_short r) eqn:Hsh.
  { intros [= <- <-]. unfold accepted. rewrite Hsh. split; [done|]. destruct r; simpl in *. by subst. }
  unfold get_query. destruct (queries (table x) !! r_qid r) as [qi|] eqn:Hqi; [|done].
  destruct (decide _); [by intros [= <- <-]|]. destruct (sock qi) as [s|]; [|done].
  destruct (decide _); [by intros [= <- <-]|].
  unfold move. destruct (query_move _ _ _) as [t1| | | |] eqn:Em; try done.
  destruct (query_move_queries _ _ _ _ Em) as (qi' & Hqi' & Hqs). rewrite Hqi in Hqi'. injection Hqi' as <-.
  unfold update_query. cbn [table set_table]. rewrite Hqs, lookup_insert_eq. intros [= <- <-].
  unfold accepted. cbn [r_short r_unexpected]. rewrite Hu. simpl. exists qi. split_and!; [done..|].
  by rewrite Hqs, insert_insert_eq.
Qed.

(** C26: a response is accepted exactly when it is long enough, its id is that of an outstanding
    query that has been sent, and it came in on the socket the query was sent on.  When it is,
    the id becomes unused, at the end of the list, the entry's description goes over to the
    response with the time of sending, and nothing else changes: no other entry, no counter
    and no other field of the thread.  When it is not, nothing at all changes, and the response
    is marked as unexpected unless it was too short. *)
Theorem response_matching x p r :
  tinv x p → r_qid r < NQIDS → r_unexpected r = false →
  ∃ r' x', match_response r x = Done (r', x') ∧ (accepted r' = true ↔ answers (table x) r) ∧
    if accepted r' then
      ∃ qi, queries (table x) !! r_qid r = Some qi ∧
        r' = Received (r_sock r) (r_qid r) (r_rcode r) (r_size r) (r_when r) (timestamp qi) false false (desc qi) ∧
        tinv x' (spec_move (r_qid r) append_unused p) ∧ x' = set_table x (table x') ∧
        queries (table x') = <[r_qid r := set_desc (set_qlist qi unused_list) None]> (queries (table x))
    else
      x' = x ∧ r' = Received (r_sock r) (r_qid r) (r_rcode r) (r_size r) (r_when r) (r_sent r)
                      (negb (r_short r)) (r_short r) (r_desc r).
Proof.
  intros Hinv Hq Hu.
  destruct (match_response_spec x p r Hinv Hq Hu) as (r' & x' & p' & E & Hinv' & _ & _ & _ & Ha & Hp & _).
  pose proof (match_response_frame x r r' x' E Hu) as Hf. exists r', x'. split; [exact E|]. split; [exact Ha|].
  destruct (accepted r'); [|exact Hf]. destruct Hp as [-> _]. destruct Hf as (qi & H1 & H2 & H3 & H4). by exists qi.
Qed.

Lemma response_matching_witness :
  ∃ x q r' x', match_response (Received 0 q 3 40 9 0 false false None) x = Done (r', x') ∧ accepted r' = true.
Proof.
  destruct (one_query_sent 10) as (x & q & us & _ & Hinv & Hans). exists x, q.
  destruct (response_matching x _ (Received 0 q 3 40 9 0 false false None) Hinv) as (r' & x' & E & Ha & _).
  - apply (rep_in _ _ _ _ (tinv_rep _ _ Hinv)). left. by left.
  - reflexivity.
  - exists r', x'. split; [exact E|]. by apply Ha.
Defined.

(** *** Latencies *)

Definition latencies (rs : list received_query) : list Z :=
  map (λ r, u64 (r_when r - r_sent r)) (List.filter accepted rs).

Lemma u64_add_u64 a b : u64 (u64 a + b) = u64 (a + b).
Proof. unfold u64. by rewrite Zplus_mod_idemp_l. Qed.

(** The counters of latencies after the latencies [ls]. *)
Record latency_ok (s : stats_t) (ls : list Z) : Prop := {
  lat_count : num_completed s = u64 (Z.of_nat (length ls));
  lat_sum : latency_sum s = u64 (foldr Z.add 0%Z ls);
  lat_squares : latency_sum_squares s = u64 (foldr (λ l a, l * l + a)%Z 0%Z ls);
  lat_max : latency_max s = foldr Z.max 0%Z ls;
  lat_min : ls ≠ [] → latency_min s ∈ ls ∧ Forall (λ l, latency_min s ≤ l)%Z ls;
}.

Lemma count_response_latency s r ls :
  latency_ok s ls → (Z.of_nat (S (length ls)) < 2 ^ 64)%Z →
  latency_ok (count_response s r) (if accepted r then u64 (r_when r - r_sent r) :: ls else ls).
Proof.
  intros [H1 H2 H3 H4 H5] Hl. unfold count_response. destruct (accepted r); [|done]. cbv zeta.
  set (l := u64 (r_when r - r_sent r)).
  assert (u64 (num_completed s + 1) = u64 (Z.of_nat (S (length ls)))) as Hc.
  { rewrite H1, u64_add_u64. f_equal. lia. }
  split; cbn [num_completed latency_sum latency_sum_squares latency_max latency_min length foldr].
  - exact Hc.
  - rewrite H2, u64_add_u64. f_equal. lia.
  - rewrite H3. unfold u64. rewrite Zplus_mod_idemp_l, Zplus_mod_idemp_r. f_equal. lia.
  - rewrite H4. destruct (decide _); lia.
  - intros _. rewrite Hc, u64_small by lia. destruct ls as [|l0 ls].
    + rewrite decide_True by (right; reflexivity). split; [by left|constructor; [lia|constructor]].
    + destruct (H5 ltac:(done)) as [Hin Hall].
      destruct (decide _) as [Hd|Hd].
      * split; [by left|]. destruct Hd as [Hd|Hd]; [|simpl in Hd; lia]. constructor; [lia|].
        eapply Forall_impl; [exact Hall|]. simpl. intros. lia.
      * split; [by right|]. constructor; [|done]. destruct (decide (l < latency_min s)%Z); [tauto|lia].
Qed.

(** the latency statistics of a thread are those of the responses it accepted: their number,
    sum and sum of squares modulo 2^64, and their exact minimum and maximum; responses that
    were short or unexpected do not count. *)
Theorem latency_statistics rs :
  (Z.of_nat (length rs) < 2 ^ 64 - 1)%Z → latency_ok (foldl count_response zero_stats rs) (rev (latencies rs)).
Proof.
  intros Hl.
  cut (∀ s ls, latency_ok s ls → (Z.of_nat (length ls + length rs) < 2 ^ 64 - 1)%Z →
         latency_ok (foldl count_response s rs) (rev (latencies rs) ++ ls)).
  { intros H. rewrite <- (app_nil_r (rev _)). apply H; [by split|]. simpl. lia. }
  clear Hl. induction rs as [|r rs IH]; intros s ls Hok Hl; [done|]. cbn [foldl].
  pose proof (count_response_latency s r ls Hok ltac:(simpl in Hl; lia)) as Hr.
  unfold latencies in *. cbn [List.filter]. destruct (accepted r).
  - cbn [map rev]. rewrite <- app_assoc. apply (IH _ (_ :: ls)); [done|]. simpl in *. lia.
  - apply IH; [done|]. simpl in *. lia.
Qed.

Lemma latency_statistics_witness :
  latency_ok (foldl count_response zero_stats
                [Received 0 7 0 40 130 100 false false None; Received 0 8 0 40 115 100 false false None;
                 Received 0 9 0 3 200 100 true false None]) [15; 30]%Z.
Proof.
  apply (latency_statistics [Received 0 7 0 40 130 100 false false None; Received 0 8 0 40 115 100 false false None;
                 Received 0 9 0 3 200 100 true false None]).
  simpl. lia.
Defined.


(** *** Cancelling *)

(** Whether an entry has been sent. *)
Definition was_sent (t : query_table) (q : nat) : bool :=
  match queries t !! q with Some qi => bool_decide (timestamp qi ≠ UINT64_MAX) | None => false end.

Definition sent_among (t : query_table) (os : list nat) : nat := length (List.filter (was_sent t) os).

Lemma sent_among_same t t' os :
  same_entries t t' → (∀ q, q ∈ os → is_Some (queries t !! q)) → sent_among t' os = sent_among t os.
Proof.
  intros Hs. unfold sent_among. induction os as [|q os IH]; intros Hin; [done|]. simpl.
  destruct (Hin q) as [qi Hqi]; [by left|]. destruct (Hs q qi Hqi) as (qi' & Hqi' & Ht & _).
  assert (was_sent t' q = was_sent t q) as -> by (unfold was_sent; by rewrite Hqi, Hqi', Ht).
  destruct (was_sent t q); simpl; rewrite IH; auto; intros; apply Hin; by right.
Qed.

Lemma same_entries_desc t q qi :
  queries t !! q = Some qi → same_entries t (set_query t q (set_desc qi None)).
Proof.
  intros Hq q' qi' Hq'. simpl. destruct (decide (q' = q)) as [->|Hne].
  - rewrite lookup_insert_eq. eexists. split; [done|]. by simplify_eq.
  - rewrite lookup_insert_ne by done. eauto.
Qed.

Lemma cancel_step x os q us :
  tinv x (os ++ [q], us) →
  ∃ x', (move q append_unused;;
         ti ← get;
         qi ← lift (get_query (table ti) q);
         if decide (timestamp qi = UINT64_MAX) then mret ()
         else modify (λ ti, set_stats ti (count_interrupted (stats ti)));;
              update_query q (λ qi, set_desc qi None)) x = Done ((), x') ∧
        tinv x' (os, us ++ [q]) ∧ same_entries (table x) (table x') ∧
        stats x' = if was_sent (table x) q then count_interrupted (stats x) else stats x.
Proof.
  intros Hinv. pose proof (tinv_rep _ _ Hinv) as Hrep.
  assert (q < NQIDS) as Hq by (apply (rep_in _ _ _ _ Hrep); left; simpl; apply elem_of_app; right; by left).
  destruct (move_unused_spec x _ q append_unused Hinv Hq) as (x1 & E1 & Hinv1 & _ & Hst1 & Hen1 & _); [done|].
  pose proof (rep_outstanding _ _ _ Hrep) as (Hnd & _). simpl in Hnd.
  assert (spec_move q append_unused (os ++ [q], us) = (os, us ++ [q])) as Hsp.
  { unfold spec_move. simpl. rewrite filter_split_NoDup, app_nil_r by done.
    rewrite filter_notin; [done|]. apply (rep_disjoint _ _ _ q Hrep). simpl. apply elem_of_app. right. by left. }
  rewrite Hsp in Hinv1. rewrite (bind_Done _ _ _ _ _ E1), (bind_Done get _ _ _ _ eq_refl).
  destruct (rep_lookup _ _ _ _ Hrep Hq) as [qi Hqi]. destruct (Hen1 q qi Hqi) as (qi1 & Hqi1 & Ht1 & _).
  rewrite (bind_Done _ _ _ qi1 x1) by (unfold lift, get_query; by rewrite Hqi1).
  unfold was_sent. rewrite Hqi. destruct (decide (timestamp qi1 = UINT64_MAX)) as [E|E].
  - rewrite bool_decide_eq_false_2 by (rewrite <- Ht1, E; tauto). exists x1. by rewrite Hst1.
  - rewrite bool_decide_eq_true_2 by congruence.
    set (x2 := set_stats x1 (count_interrupted (stats x1))).
    rewrite (bind_Done (modify _) _ _ () x2 eq_refl).
    assert (tinv x2 (os, us ++ [q])) as Hinv2 by (destruct Hinv1; by split).
    destruct (assign_inv x2 _ q (λ qi, set_desc qi None) Hinv2 Hq) as (x3 & E3 & Hinv3 & Hst3 & _ & _);
      [done|by left|].
    exists x3. split; [exact E3|]. split; [exact Hinv3|]. split.
    + unfold update_query in E3. change (queries (table x2)) with (queries (table x1)) in E3. rewrite Hqi1 in E3.
      injection E3 as <-. rewrite Hen1. by apply (same_entries_desc (table x1)).
    + rewrite Hst3. simpl. by rewrite Hst1.
Qed.

Lemma cancel_queries_spec fuel os us x :
  tinv x (os, us) → length os < fuel →
  ∃ x', cancel_queries fuel x = Done ((), x') ∧ tinv x' ([], us ++ rev os) ∧
        stats x' = Nat.iter (sent_among (table x) os) count_interrupted (stats x).
Proof.
  revert os us x. induction fuel as [|fuel IH]; intros os us x Hinv Hf; [lia|]. cbn [cancel_queries].
  rewrite (bind_Done get _ _ _ _ eq_refl). pose proof (tinv_rep _ _ Hinv) as Hrep.
  pose proof (rep_outstanding _ _ _ Hrep) as (_ & _ & Ht & _). simpl in Ht. rewrite Ht.
  destruct os as [|q os _] using rev_ind.
  { simpl. rewrite app_nil_r. by exists x. }
  rewrite last_snoc. destruct (cancel_step x os q us Hinv) as (x1 & E1 & Hinv1 & Hen1 & Hst1).
  rewrite length_app in Hf. simpl in Hf.
  destruct (IH os (us ++ [q]) x1 Hinv1 ltac:(lia)) as (x' & E' & Hinv' & Hst').
  exists x'. split; [|split].
  - rewrite <- E'. revert E1. clear. unfold mbind, M_bind.
    destruct (move q append_unused x) as [[u y]| | | |]; try discriminate. cbn [get].
    destruct (lift (get_query (table y) q) y) as [[qi y']| | | |]; try discriminate.
    destruct (decide (timestamp qi = UINT64_MAX)); [by intros [= ->]|].
    cbn [modify]. destruct (update_query q _ _) as [[[] z]| | | |]; try discriminate. by intros [= ->].
  - rewrite rev_app_distr. by rewrite <- app_assoc in Hinv'.
  - assert (∀ q', q' ∈ os → is_Some (queries (table x) !! q')) as Hos.
    { intros q' Hq'. apply (rep_lookup _ _ _ _ Hrep). apply (rep_in _ _ _ _ Hrep). left. simpl. apply elem_of_app. by left. }
    rewrite Hst', Hst1, (sent_among_same _ _ _ Hen1 Hos).
    unfold sent_among. rewrite List.filter_app, length_app. simpl. destruct (was_sent (table x) q); simpl;
      rewrite ?Nat.add_0_r; [|done]. rewrite Nat.add_1_r. by rewrite Nat.iter_succ_r.
Qed.

(** when a thread's queries are cancelled, the loop ends with every id unused again, and
    exactly the outstanding queries that had been sent are added to the interrupted ones (an id
    that was taken and not stamped yet is not); nothing else is counted. *)
Theorem cancel_counts_interrupted timeout s :
  reachable timeout s →
  ∃ os us x', table_rep NQIDS (table (ti s)) (os, us) ∧
    cancel_queries (S NQIDS) (ti s) = Done ((), x') ∧
    table_rep NQIDS (table x') ([], us ++ rev os) ∧
    stats x' = Nat.iter (sent_among (table (ti s)) os) count_interrupted (stats (ti s)).
Proof.
  intros Hr. destruct (reachable_inv _ _ Hr) as [[os us] [Hinv _ _ _ _ _]].
  pose proof (rep_lengths _ _ Hinv) as Hlen. simpl in Hlen.
  destruct (cancel_queries_spec (S NQIDS) os us (ti s) Hinv) as (x' & E & Hinv' & Hst); [lia|].
  exists os, us, x'. split; [apply Hinv|]. split; [exact E|]. split; [apply Hinv'|exact Hst].
Qed.

Lemma cancel_counts_interrupted_witness :
  ∃ x os us x', cancel_queries (S NQIDS) x = Done ((), x') ∧ table_rep NQIDS (table x') ([], us ++ rev os) ∧
    stats x' = Nat.iter (sent_among (table x) os) count_interrupted (stats x).
Proof.
  destruct (one_query_sent 10) as (x & q & us & R & _). exists x.
  destruct (cancel_counts_interrupted 10 _ R) as (os & us' & x' & _ & H). exists os, us', x'. exact H.
Defined.

(** *** An id that is counted and was not sent *)

(** An id is taken from an empty table and stamped with the time 5. *)
Lemma stamp_from timeout x h q us :
  reachable timeout (Sys x SIdle RIdle h) → tinv x ([], q :: us) →
  (num_outstanding (stats x) < max_outstanding x)%Z → 0 < nsocks x →
  ∃ x' k, reachable timeout (Sys x' (SStamped q k) RIdle h) ∧ tinv x' ([q], us) ∧ stats x' = stats x ∧
    max_outstanding x' = max_outstanding x ∧ nsocks x' = nsocks x ∧
    ∃ qi, queries (table x') !! q = Some qi ∧ timestamp qi = 5%Z.
Proof.
  intros Hr Hinv Hlt Hns. destruct (take_succeeds x _ q us Hinv eq_refl Hlt Hns) as (k & x1 & E1).
  pose proof (take_query_spec (λ _, 1%Z) x _ Hinv) as Hs. rewrite E1 in Hs. apply take_nsocks in E1 as Hn1.
  destruct Hs as (Hq & _ & _ & us' & Hus & Hinv1 & Hst1 & Hm1 & qi & Hqi & Hso). cbn [snd] in Hus. injection Hus as <-.
  assert (reachable timeout (Sys x1 (SHolding q k) RIdle h)) as R1
    by (eapply reach_step; [exact Hr|left; exact (step_take _ _ _ _ RIdle _ E1)]).
  destruct (assign_inv x1 _ q (λ qi, set_timestamp qi 5) Hinv1 Hq) as (x2 & E2 & Hinv2 & Hst2 & Hs2 & _); [done| |].
  { intros qi' Hqi'. right; left. rewrite Hqi in Hqi'. injection Hqi' as <-. by rewrite Hso. }
  destruct Hs2 as (Hn2 & _ & _ & Hm2 & _). exists x2, k. split; [|split; [exact Hinv2|]].
  { eapply reach_step; [exact R1|]. left. by apply (step_stamp q k 5 None). }
  split_and!; [congruence..|]. revert E2. unfold update_query. rewrite Hqi. intros [= <-].
  eexists. split; [apply lookup_insert_eq|done].
Qed.

(** While the query [q] is being sent it is timed out, and then its sending fails. *)
Lemma lost_from x k q us :
  reachable 10 (Sys x (SStamped q k) RIdle (History 0 0 0 0)) → tinv x ([q], us) →
  (∃ qi, queries (table x) !! q = Some qi ∧ timestamp qi = 5%Z) →
  ∃ x' us', reachable 10 (Sys x' SIdle RIdle (History 0 1 0 1)) ∧ tinv x' ([], q :: us') ∧
    max_outstanding x' = max_outstanding x ∧ nsocks x' = nsocks x.
Proof.
  intros R1 Hinv1 (qi & Hqi & Hts). pose proof (tinv_rep _ _ Hinv1) as Hrep1.
  assert (q < NQIDS) as Hpos by (apply (rep_in _ _ _ _ Hrep1); left; by left).
  assert (timeouts_check 10 20 x = Done (Some q)) as Ec.
  { pose proof (oldest_spec x _ Hinv1) as (_ & qi' & Hqi' & _ & Eo). unfold timeouts_check. rewrite Eo. cbn.
    rewrite Hqi in Hqi'. injection Hqi' as <-. by rewrite Hts. }
  assert (reachable 10 (Sys x (SStamped q k) (RTimeouts q 20) (History 0 0 0 0))) as R2
    by (eapply reach_step; [exact R1|right; by apply step_timeouts_check]).
  destruct (move_unused_spec x _ q append_unused Hinv1 Hpos) as (x2 & E2 & Hinv2 & Hs2 & _); [done|].
  assert (∀ l, (spec_move q append_unused ([q], l)).1 = []) as Hsp
    by (intros l; unfold spec_move; simpl; by rewrite filter_cons_False, filter_nil by (intros Hne; by apply Hne)).
  set (p2 := spec_move q append_unused ([q], us)) in *. set (x3 := set_stats x2 (count_timedout (stats x2))).
  assert (tinv x3 p2) as Hinv3 by (destruct Hinv2; by split).
  assert (timeouts_run 2 10 20 q x = Done (1, x3)) as E3.
  { cbn [timeouts_run]. rewrite (bind_Done _ _ _ _ _ E2), (bind_Done (modify _) _ _ () x3 eq_refl),
      (bind_Done get _ _ _ _ eq_refl).
    pose proof (oldest_spec x3 _ Hinv3) as Eo. unfold p2 in Eo. rewrite Hsp in Eo. cbn [last] in Eo. by rewrite Eo. }
  assert (reachable 10 (Sys x3 (SStamped q k) RIdle (History 0 1 0 0))) as R3.
  { eapply reach_step; [exact R2|right].
    pose proof (step_timeouts_run 10 2 q 20 1 x x3 (SStamped q k) (History 0 0 0 0) E3) as Hs.
    rewrite (not_outstanding_spec _ _ _ _ Hrep1 Hpos), decide_True in Hs by (by left). exact Hs. }
  destruct (move_unused_spec x3 _ q prepend_unused Hinv3 Hpos) as (x4 & E4 & Hinv4 & Hs4 & _); [done|].
  exists x4, (filter (λ y, y ≠ q) p2.2). split; [|split].
  - eapply reach_step; [exact R3|left].
    pose proof (step_send_failed q k 40 (SendErr false) x3 x4 RIdle (History 0 1 0 0)) as Hs.
    rewrite (not_outstanding_spec _ _ _ _ (tinv_rep _ _ Hinv3) Hpos), decide_False in Hs
      by (unfold p2; rewrite Hsp; apply not_elem_of_nil).
    apply Hs. unfold finish_send. by rewrite (bind_Done _ _ _ _ _ E4).
  - revert Hinv4. unfold spec_move at 1. unfold p2 at 1. by rewrite Hsp.
  - destruct Hs2 as (A & _ & _ & B & _), Hs4 as (C & _ & _ & D & _). unfold x3 in *. cbn in C, D. split; congruence.
Qed.

(** [process_timeouts] can take the id of a query whose sending has not ended, and a failed
    send does not take back what was counted: the query is counted as timed out and not as
    sent.  The counters then say that nothing is outstanding while another query, sent and
    neither answered nor timed out, still is, and the receiver stops without it. *)
Theorem lost_query_unaccounted :
  ∃ x q us, reachable 10 (Sys x (SStopped None) RStopped (History 1 1 0 1)) ∧
    table_rep NQIDS (table x) ([q], us) ∧ was_sent (table x) q = true ∧ num_outstanding (stats x) = 0%Z.
Proof.
  destruct one_thread as (x0 & E0 & Hns & Hst & Hmo & _). pose proof (reach_init 10 _ _ _ _ _ _ E0) as R0.
  destruct (init_inv _ _ _ _ _ _ E0) as [[Hinv _ _ _ _ _] _]. clear E0. cbn [ti] in Hinv.
  rewrite (seq_pos NQIDS) in Hinv by (pose proof NQIDS_val; lia).
  destruct (stamp_from 10 x0 _ 0 _ R0 Hinv) as (x1 & k & R1 & Hinv1 & _ & Hm1 & Hn1 & Hq1);
    [rewrite Hst, Hmo; reflexivity|lia|].
  destruct (lost_from x1 k 0 _ R1 Hinv1 Hq1) as (x4 & us & R4 & Hinv4 & Hm4 & Hn4).
  destruct (reachable_inv _ _ R4) as [p4 [_ _ _ _ Hc4 _]].
  pose proof (num_outstanding_exact _ _ Hc4 eq_refl eq_refl) as Hz4. cbn in Hz4.
  destruct (stamp_from 10 x4 _ 0 _ R4 Hinv4) as (x5 & k5 & R5 & Hinv5 & _ & _ & _ & qi5 & Hqi5 & Hts5); [|lia|].
  { cbn [ti] in *. rewrite Hz4, Hm4, Hm1, Hmo. done. }
  set (x6 := set_stats x5 (count_sent (stats x5) 40)).
  assert (reachable 10 (Sys x6 SIdle RIdle (History 1 1 0 1))) as R6
    by (eapply reach_step; [exact R5|left; by apply (step_sent 0 k5 40 (SendN 40))]).
  assert (reachable 10 (Sys (set_done x6 30) (SStopped None) RIdle (History 1 1 0 1))) as R7.
  { eapply reach_step; [eapply reach_step; [exact R6|left; apply step_stop]|left; apply step_done]. }
  destruct (reachable_inv _ _ R7) as [p7 [_ _ _ _ Hc7 _]].
  pose proof (num_outstanding_exact _ _ Hc7 eq_refl eq_refl) as Hz7.
  exists (set_done x6 30), 0, us. split; [|split; [exact (tinv_rep _ _ Hinv5)|split; [|exact Hz7]]].
  - eapply reach_step; [exact R7|right]. by apply step_rcv_stop.
  - unfold was_sent. change (table (set_done x6 30)) with (table x5). rewrite Hqi5. apply bool_decide_eq_true. rewrite Hts5. done.
Qed.
