(* ===== verification/SendLoop.v ===== *)
(** * The loop of the sending thread as a whole (dnsperf.c, [do_send])

    [send_round] is one round of the loop: it composes the limits of DoSend.v, the locked
    regions of Dnsperf.v, the reader of Datafile.v and the requests of Dns.v and Update.v.
    What the clock, the sockets and the other threads do during a round is its argument
    [send_env].  The theorems show that the loop only makes steps of the two-thread system of
    Dnsperf.v, so that what is proved there holds of it, and that the packets it hands to its
    sockets are, in order, the requests of lines of the input. *)

From S2P Require Import Prelude Buffer LinkedList Dname Qtype Edns Tsig Dns Datafile Stats Queries DoSend Dnsperf.

Definition MAX_EDNS_PACKET : nat := 4096.
Definition MAX_INPUT_DATA : nat := DATABUF.

Section send_loop.
Context {F : FileIO} {H : Hmac}.
(** [build_update] of the build, see [buildrequest_with]. *)
Context (build_update : list Z → M perf_buffer perf_result).

(** The variables of [do_send] that live across rounds; [ss_wire] is for the specification:
    the socket, the id and the packet of every call of [perf_net_sendto]. *)
Record send_state : Type := SendState {
  ss_ti : threadinfo;
  ss_input : perf_datafile;
  ss_lines : perf_buffer;
  ss_msg : perf_buffer;
  ss_limiter : limiter;
  ss_now : Z;
  ss_any_inprogress : bool;
  ss_socketbits : list Z;
  ss_wire : list (nat * nat * list Z);
}.

(** The parts of the configuration the loop uses; [sc_fuel] bounds the reader's loops. *)
Record send_config : Type := SendConfig {
  sc_edns : bool;
  sc_dnssec : bool;
  sc_edns_option : option perf_ednsoption;
  sc_tsigkey : option perf_tsigkey;
  sc_verbose : bool;
  sc_stop_time : Z;
  sc_fuel : nat;
}.

(** What happens during a round: the interruption flag, the time after the pause against
    flooding and at the end of the round or when the query is sent, the answers of
    [perf_net_sockready] when flushing and when looking for a socket, the outcome of
    [perf_net_sendto], the clock of the signature, and what other threads do to the shared
    data: before the lock, before the query is stamped and while it is sent, and to the input
    before it is read. *)
Record send_env : Type := SendEnv {
  se_interrupted : bool;
  se_now1 : Z;
  se_now2 : Z;
  se_flush : nat → Z;
  se_ready : nat → Z;
  se_send : send_outcome;
  se_tsig_time : Z;
  se_others1 : threadinfo → threadinfo;
  se_others2 : threadinfo → threadinfo;
  se_others3 : threadinfo → threadinfo;
  se_others_input : perf_datafile → perf_datafile;
}.

Definition set_ti (s : send_state) (t : threadinfo) : send_state :=
  SendState t (ss_input s) (ss_lines s) (ss_msg s) (ss_limiter s) (ss_now s) (ss_any_inprogress s)
    (ss_socketbits s) (ss_wire s).
Definition set_file (s : send_state) (d : perf_datafile) (l : perf_buffer) : send_state :=
  SendState (ss_ti s) d l (ss_msg s) (ss_limiter s) (ss_now s) (ss_any_inprogress s)
    (ss_socketbits s) (ss_wire s).
Definition set_msg (s : send_state) (m : perf_buffer) : send_state :=
  SendState (ss_ti s) (ss_input s) (ss_lines s) m (ss_limiter s) (ss_now s) (ss_any_inprogress s)
    (ss_socketbits s) (ss_wire s).
Definition set_limiter (s : send_state) (l : limiter) : send_state :=
  SendState (ss_ti s) (ss_input s) (ss_lines s) (ss_msg s) l (ss_now s) (ss_any_inprogress s)
    (ss_socketbits s) (ss_wire s).
Definition set_now (s : send_state) (now : Z) : send_state :=
  SendState (ss_ti s) (ss_input s) (ss_lines s) (ss_msg s) (ss_limiter s) now (ss_any_inprogress s)
    (ss_socketbits s) (ss_wire s).
Definition set_progress (s : send_state) (any : bool) (bits : list Z) : send_state :=
  SendState (ss_ti s) (ss_input s) (ss_lines s) (ss_msg s) (ss_limiter s) (ss_now s) any bits (ss_wire s).
Definition set_wire (s : send_state) (w : list (nat * nat * list Z)) : send_state :=
  SendState (ss_ti s) (ss_input s) (ss_lines s) (ss_msg s) (ss_limiter s) (ss_now s) (ss_any_inprogress s)
    (ss_socketbits s) w.

(** Operations on a part of the state. *)
Definition on_ti {A} (m : M threadinfo A) : M send_state A := λ s,
  '(a, t) ← m (ss_ti s); Done (a, set_ti s t).
Definition on_input {A} (m : M (perf_datafile * perf_buffer) A) : M send_state A := λ s,
  '(a, (d, l)) ← m (ss_input s, ss_lines s); Done (a, set_file s d l).
Definition on_msg {A} (m : M perf_buffer A) : M send_state A := λ s,
  '(a, b) ← m (ss_msg s); Done (a, set_msg s b).

(** The variables before the loop, lines 913-931; the buffers are on the stack. *)
Definition send_init (cfg : send_config) (t : threadinfo) (d : perf_datafile) (now : Z) : send_state :=
  SendState t d (perf_buffer_init (replicate MAX_INPUT_DATA 0%Z) MAX_INPUT_DATA)
    (perf_buffer_init (replicate MAX_EDNS_PACKET 0%Z) (if sc_edns cfg then MAX_EDNS_PACKET else MAX_UDP_PACKET))
    (limiter_init now) now false (replicate (MAX_SOCKETS / 8 + 1) 0%Z) [].

(** Lines 933-940: the pause against flooding the network. *)
Definition avoid_flooding (e : send_env) (s : send_state) : send_state :=
  let st := stats (ss_ti s) in
  if decide (num_sent st < max_outstanding (ss_ti s) ∧ num_sent st mod 2 = 1)%Z
  then set_now s (se_now1 e) else s.

(** Lines 942-955: the sockets that are still sending. *)
Definition send_pause (e : send_env) : M send_state unit :=
  modify (avoid_flooding e);;
  s ← get;
  if ss_any_inprogress s then
    '(any, bits) ← lift (flush_sockets (nsocks (ss_ti s)) 0 (se_flush e) (ss_socketbits s) false);
    modify (λ s, set_progress s any bits)
  else mret ().

(** Lines 1072-1091: the packet of the query, or none. *)
Definition send_packet (cfg : send_config) (e : send_env) (q : nat) : M send_state (option (list Z)) :=
  s ← get;
  match format (ss_input s) with
  | input_format_text_query | input_format_text_update =>
      on_msg (modify perf_buffer_clear);;
      result ← on_msg (buildrequest_with build_update (perf_buffer_usedregion (ss_lines s)) (Z.of_nat q)
                 (sc_edns cfg) (sc_dnssec cfg) (bool_decide (format (ss_input s) = input_format_text_update))
                 (sc_tsigkey cfg) (sc_edns_option cfg) (se_tsig_time e));
      s ← get;
      mret (if decide (result = PERF_R_SUCCESS) then Some (perf_buffer_usedregion (ss_msg s)) else None)
  | input_format_tcp_wire_format =>
      mret (Some (set_wire_id (Z.of_nat q) (perf_buffer_usedregion (ss_lines s))))
  end.

(** Lines 1102-1147: the query is stamped and sent; [sock] is the index of its socket. *)
Definition send_query (cfg : send_config) (e : send_env) (q sock : nat) (packet : list Z) : M send_state unit :=
  modify (λ s, set_now s (se_now2 e));;
  s ← get;
  let desc :=
    if sc_verbose cfg then
      Some (if decide (format (ss_input s) = input_format_tcp_wire_format) then bytes "binary input"
            else cstr (pb_base (ss_lines s)))
    else None in
  on_ti (stamp_query q (se_now2 e) desc);;
  modify (λ s, set_wire s (ss_wire s ++ [(sock, q, packet)]));;
  on_ti (modify (se_others3 e));;
  sent ← on_ti (finish_send q (Z.of_nat (length packet)) (se_send e));
  (match se_send e with
   | SendErr true =>
       s ← get;
       bits ← lift (bit_set (ss_socketbits s) sock);
       modify (λ s, set_progress s true bits)
   | _ => mret ()
   end);;
  if sent : bool then modify (λ s, set_limiter s (count_query (ss_limiter s))) else mret ().

(** A round of the loop, lines 932-1148: whether the loop goes on. *)
Definition send_round (cfg : send_config) (e : send_env) : M send_state bool :=
  s ← get;
  if decide (se_interrupted e = true ∨ sc_stop_time cfg ≤ ss_now s)%Z then mret false
  else
    send_pause e;;
    s ← get;
    let '(v, l) := rate_limit (max_qps (ss_ti s)) (ss_now s) (ss_limiter s) in
    modify (λ s, set_limiter s l);;
    match v with
    | Wait _ => modify (λ s, set_now s (se_now2 e));; mret true
    | Proceed =>
        on_ti (modify (se_others1 e));;
        r ← on_ti (take_query (se_ready e));
        match r with
        | TakeBusy | TakeNoSock => modify (λ s, set_now s (se_now2 e));; mret true
        | TakeGot q sock =>
            modify (λ s, set_file s (se_others_input e (ss_input s)) (perf_buffer_clear (ss_lines s)));;
            result ← on_input (perf_datafile_next (sc_fuel cfg));
            if decide (result = PERF_R_INVALIDFILE) then perf_log_fatal
            else if decide (result ≠ PERF_R_SUCCESS) then mret false
            else
              packet ← send_packet cfg e q;
              on_ti (modify (se_others2 e));;
              match packet with
              | None => on_ti (move q prepend_unused);; modify (λ s, set_now s (se_now2 e));; mret true
              | Some packet => send_query cfg e q sock packet;; mret true
              end
        end
    end.

(** The loop over the rounds of [es]; [true] means that it has not ended yet. *)
Fixpoint send_loop (cfg : send_config) (es : list send_env) : M send_state bool :=
  match es with
  | [] => mret true
  | e :: es' => go ← send_round cfg e; if go : bool then send_loop cfg es' else mret false
  end.

(** Lines 1150-1161: all sockets are flushed until none is still sending ([readies] has the
    answers of a pass each), then the thread is done. *)
Fixpoint send_drain (ns : nat) (readies : list (nat → Z)) (any : bool) : run unit :=
  if any : bool then
    match readies with
    | [] => NoFuel
    | ready :: rs => send_drain ns rs (existsb (λ i, bool_decide (ready i = 0%Z)) (seq 0 ns))
    end
  else Done ().
Definition send_end (readies : list (nat → Z)) (now : Z) : M send_state unit :=
  s ← get;
  lift (send_drain (nsocks (ss_ti s)) readies (ss_any_inprogress s));;
  on_ti (modify (λ t, set_done t now)).
End send_loop.

(** ** What the other threads may do *)

(** Calls of the reader, and the lines they delivered. *)
Inductive reader_calls (all : list (list Z)) (max : Z) : reader → list (list Z) → reader → Prop :=
| calls_none s : reader_calls all max s [] s
| calls_next s r out s1 ls s' :
    reader_next all max s = (r, out, s1) → reader_calls all max s1 ls s' →
    reader_calls all max s (match out with Some l => l :: ls | None => ls end) s'.

Lemma reader_calls_app all max s ls s1 ls1 s2 :
  reader_calls all max s ls s1 → reader_calls all max s1 ls1 s2 → reader_calls all max s (ls ++ ls1) s2.
Proof.
  induction 1 as [|s r out s0 ls s1 Hn Hc IH]; intros H2; [done|].
  pose proof (calls_next all max s r out s0 (ls ++ ls1) s2 Hn (IH H2)) as Hr. by destruct out.
Qed.

Section environment.
Context {F : FileIO} `{!FileLaws F}.

(** The id the sender holds is among the outstanding queries. *)
Definition held (sd : sender) (x : threadinfo) : Prop :=
  match sd with
  | SHolding q _ | SStamped q _ => not_outstanding (table x) q = 0
  | _ => True
  end.

(** No id was lost; asked for only when [strict]. *)
Definition lost_ok (strict : bool) (h : history) : Prop := strict = true → h_lost h = 0.

(** The receiver and the callbacks of the sockets take steps of the system, any of them; they
    count no query as sent.  When [strict], they also lose no id and do not take the one the
    sender holds, at least before it is stamped ([stamped]: also after that). *)
Definition others_ok (strict : bool) (timeout : Z) (stamped : bool) (f : threadinfo → threadinfo) : Prop :=
  ∀ x sd rc h, reachable timeout (Sys x sd rc h) → lost_ok strict h → (strict = true → held sd x) →
    ∃ rc' h', reachable timeout (Sys (f x) sd rc' h') ∧ lost_ok strict h' ∧ h_sent h' = h_sent h ∧
      nsocks (f x) = nsocks x ∧
      (strict = true → match sd with SStamped _ _ => if stamped then held sd (f x) else True | _ => held sd (f x) end).

(** The other senders take lines from the input. *)
Definition input_ok (f : perf_datafile → perf_datafile) : Prop :=
  ∀ d, query_inv d → query_inv (f d) ∧ maxruns (f d) = maxruns d ∧ fio_whole (fd (f d)) = fio_whole (fd d) ∧
       ∃ ls, reader_calls (all_lines d) (maxruns d) (abs d) ls (abs (f d)).

(** What may happen during a round.  When [strict], a send that fails is not answered. *)
Record env_ok (strict : bool) (timeout : Z) (e : send_env) : Prop := {
  env_others1 : others_ok strict timeout false (se_others1 e);
  env_others2 : others_ok strict timeout false (se_others2 e);
  env_others3 : others_ok strict timeout (match se_send e with SendErr true => false | _ => true end) (se_others3 e);
  env_input : input_ok (se_others_input e);
  env_now : se_now2 e ≠ UINT64_MAX;
}.
End environment.

(** ** What is sent *)

Section sent.
Context {H : Hmac} `{!HmacLaws H}.

(** Packets that are the requests of some of the lines, in order, each with the id of its
    query, on one of the sockets. *)
Inductive sent_from (cfg : send_config) (ns : nat) : list (list Z) → list (nat * nat * list Z) → Prop :=
| sent_none : sent_from cfg ns [] []
| sent_skip l ls w : sent_from cfg ns ls w → sent_from cfg ns (l :: ls) w
| sent_one l ls w sock q time packet :
    sock < ns → q < NQIDS →
    query_message (l ++ [0%Z]) (Z.of_nat q) (sc_edns cfg) (sc_dnssec cfg) (sc_tsigkey cfg)
      (sc_edns_option cfg) time = Some packet →
    sent_from cfg ns ls w → sent_from cfg ns (l :: ls) ((sock, q, packet) :: w).

Lemma sent_from_app cfg ns ls w ls' w' :
  sent_from cfg ns ls w → sent_from cfg ns ls' w' → sent_from cfg ns (ls ++ ls') (w ++ w').
Proof. induction 1; intros Hw; simpl; [done|apply sent_skip; auto|eapply sent_one; eauto]. Qed.

Lemma sent_from_skips cfg ns ls : sent_from cfg ns ls [].
Proof. induction ls; by constructor. Qed.

Definition config_ok (cfg : send_config) : Prop :=
  option_ok (sc_edns_option cfg) ∧ match sc_tsigkey cfg with Some k => key_works k | None => True end.
End sent.

Section invariant.
Context {F : FileIO} `{!FileLaws F} {H : Hmac} `{!HmacLaws H}.
Context (build_update : list Z → M perf_buffer perf_result).
Implicit Types (s : send_state) (cfg : send_config).

(** The sender is where [sd] says and at most [n] queries were sent; when [strict], no id was
    lost. *)
Definition sender_at (strict : bool) (timeout : Z) (n : nat) (sd : sender) (x : threadinfo) : Prop :=
  0 < nsocks x ≤ MAX_SOCKETS ∧
  ∃ rc h, reachable timeout (Sys x sd rc h) ∧ lost_ok strict h ∧ h_sent h ≤ n.

Record send_inv (strict : bool) (timeout : Z) (cfg : send_config) (n : nat) (sd : sender) (s : send_state) : Prop := {
  si_sender : sender_at strict timeout n sd (ss_ti s);
  si_input : query_inv (ss_input s);
  si_fuel : file_fuel (ss_input s) < sc_fuel cfg;
  si_bytes : Forall byte_ok (fio_whole (fd (ss_input s)));
  si_lines : buffer_wf (ss_lines s) ∧ pb_length (ss_lines s) = MAX_INPUT_DATA;
  si_msg : buffer_wf (ss_msg s) ∧ 12 + QUESTION_MAX ≤ pb_length (ss_msg s);
  si_bits : MAX_SOCKETS ≤ 8 * length (ss_socketbits s);
}.

Lemma on_ti_Done {A} (m : M threadinfo A) s a x :
  m (ss_ti s) = Done (a, x) → on_ti m s = Done (a, set_ti s x).
Proof. intros E. unfold on_ti. by rewrite E. Qed.
Lemma on_input_Done {A} (m : M (perf_datafile * perf_buffer) A) s a d l :
  m (ss_input s, ss_lines s) = Done (a, (d, l)) → on_input m s = Done (a, set_file s d l).
Proof. intros E. unfold on_input. by rewrite E. Qed.
Lemma on_msg_Done {A} (m : M perf_buffer A) s a b :
  m (ss_msg s) = Done (a, b) → on_msg m s = Done (a, set_msg s b).
Proof. intros E. unfold on_msg. by rewrite E. Qed.

(** *** Steps of the sender *)

Lemma sender_move strict timeout n sd x sd' x' rc h h' :
  0 < nsocks x ≤ MAX_SOCKETS → nsocks x' = nsocks x →
  reachable timeout (Sys x sd rc h) → sender_step (Sys x sd rc h) (Sys x' sd' rc h') →
  lost_ok strict h' → h_sent h' ≤ n → sender_at strict timeout n sd' x'.
Proof.
  intros Hns Hn Hr Hs Hl Hc. split; [by rewrite Hn|]. exists rc, h'. split_and!; [|done|done].
  eapply reach_step; [exact Hr|by left].
Qed.

Lemma sender_others strict timeout n sd x b f :
  others_ok strict timeout b f → sender_at strict timeout n sd x → (strict = true → held sd x) →
  sender_at strict timeout n sd (f x) ∧ nsocks (f x) = nsocks x ∧
  (strict = true → match sd with SStamped _ _ => if b then held sd (f x) else True | _ => held sd (f x) end).
Proof.
  intros Hf (Hns & rc & h & Hr & Hl & Hc) Hh.
  destruct (Hf x sd rc h Hr Hl Hh) as (rc' & h' & Hr' & Hl' & Hs' & Hn & Hk).
  split_and!; [|done|done]. split; [by rewrite Hn|]. exists rc', h'. split_and!; [done|done|lia].
Qed.

(** The sender needs an id and the list of unused ones is empty, although fewer queries than
    allowed are counted as outstanding: nearly all ids were lost. *)
Definition out_of_ids (timeout : Z) (x : threadinfo) : Prop :=
  pl_head (unused_queries (table x)) = None ∧ (num_outstanding (stats x) < max_outstanding x)%Z ∧
  ∃ rc h, reachable timeout (Sys x SIdle rc h) ∧ (Z.of_nat NQIDS < max_outstanding x + Z.of_nat (h_lost h))%Z.

Lemma take_ok strict timeout n ready x :
  sender_at strict timeout n SIdle x → (Z.of_nat n < 2 ^ 63)%Z →
  match take_query ready x with
  | Done (r, x') =>
      nsocks x' = nsocks x ∧
      match r with
      | TakeGot q k => q < NQIDS ∧ k < nsocks x ∧ sender_at strict timeout n (SHolding q k) x' ∧ held (SHolding q k) x'
      | _ => sender_at strict timeout n SIdle x'
      end
  | Exit c => c = 1%Z
  | Undef => strict = false ∧ out_of_ids timeout x
  | _ => False
  end.
Proof.
  intros (Hns & rc & h & Hr & Hl & Hc) Hn.
  destruct (reachable_inv _ _ Hr) as [p [Hinv _ _ _ _ _]].
  pose proof (take_query_spec ready x p Hinv) as Hs.
  destruct (take_query ready x) as [[r x']| | | |] eqn:E; try done; cycle 1.
  { destruct strict.
    - pose proof (take_id_safe timeout _ ready Hr eq_refl (Hl eq_refl) ltac:(simpl; lia)) as Ht. simpl in Ht. by rewrite E in Ht.
    - destruct (take_id_lost timeout _ ready Hr eq_refl ltac:(simpl; lia) E) as (H1 & H2 & H3). split; [done|].
      split_and!; [done|done|]. by exists rc, h. }
  pose proof (take_nsocks _ _ _ _ E) as Hns'. split; [done|].
  assert (sender_at strict timeout n (match r with TakeGot q k => SHolding q k | _ => SIdle end) x') as Hat.
  { eapply (sender_move strict timeout n SIdle x _ x' rc h h); [done|done|done|by eapply step_take|done|done]. }
  destruct r as [| |q k]; [done|done|]. destruct Hs as (Hq & _ & Hk & us & _ & [Hrep' _] & _).
  split_and!; [done|auto with lia|done|]. simpl. rewrite (not_outstanding_spec _ _ _ _ Hrep' Hq).
  by rewrite decide_True by (by left).
Qed.

Lemma give_back_ok strict timeout n q k x :
  sender_at strict timeout n (SHolding q k) x → (strict = true → held (SHolding q k) x) →
  ∃ x', move q prepend_unused x = Done ((), x') ∧ nsocks x' = nsocks x ∧ sender_at strict timeout n SIdle x'.
Proof.
  intros (Hns & rc & h & Hr & Hl & Hc) Ho. simpl in Ho.
  destruct (reachable_inv _ _ Hr) as [p [Hinv _ [Hq _] _ _ _]].
  destruct (move_unused_spec x p q prepend_unused Hinv Hq) as (x' & E & _); [done|].
  exists x'. pose proof (move_nsocks _ _ _ _ E) as Hn. split_and!; [done|done|].
  eapply (sender_move strict timeout n (SHolding q k) x _ x' rc h); [done|done|done|by eapply step_bad_request| |done].
  intros Hst. specialize (Hl Hst). specialize (Ho Hst). simpl. lia.
Qed.

Lemma stamp_ok strict timeout n q k x now verbose :
  sender_at strict timeout n (SHolding q k) x → (strict = true → held (SHolding q k) x) → now ≠ UINT64_MAX →
  ∃ x', stamp_query q now verbose x = Done ((), x') ∧ nsocks x' = nsocks x ∧
        sender_at strict timeout n (SStamped q k) x' ∧ (strict = true → held (SStamped q k) x').
Proof.
  intros (Hns & rc & h & Hr & Hl & Hc) Hh Hnow. destruct (reachable_inv _ _ Hr) as [p [[Hrep _] _ [Hq _] _ _ _]].
  destruct (update_query_spec x p q (λ qi, set_timestamp (match verbose with
    | Some d => set_desc qi (Some d) | None => qi end) now) Hrep Hq) as (qi & Hqi & E & _); [by destruct verbose|].
  eexists. split; [exact E|]. split_and!; [done| |].
  - eapply (sender_move strict timeout n (SHolding q k) x _ _ rc h h); [done|done|done|by eapply step_stamp|done|done].
  - intros Hst. generalize (Hh Hst). simpl. unfold not_outstanding. simpl. rewrite Hqi, lookup_insert_eq. by destruct verbose.
Qed.

Lemma finish_ok strict timeout n q k x len out :
  sender_at strict timeout n (SStamped q k) x →
  (strict = true → match out with SendErr true => False | _ => True end → held (SStamped q k) x) →
  ∃ b x', finish_send q len out x = Done (b, x') ∧ nsocks x' = nsocks x ∧ sender_at strict timeout (S n) SIdle x'.
Proof.
  intros (Hns & rc & h & Hr & Hl & Hc) Ho. destruct (reachable_inv _ _ Hr) as [p [Hinv _ [Hq _] _ _ _]].
  destruct (finish_send q len out x) as [[b x']| | | |] eqn:E; cycle 1.
  1-4: exfalso; revert E; unfold finish_send; destruct (match out with SendN _ => _ | SendErr _ => _ end); [done|];
       destruct (move_unused_spec x p q prepend_unused Hinv Hq) as (x' & Em & _); [done|];
       by rewrite (bind_Done _ _ _ _ _ Em).
  exists b, x'. assert (nsocks x' = nsocks x ∧ (strict = true → b = false → not_outstanding (table x) q = 0)) as [Hn Hb].
  { revert E. unfold finish_send. destruct out as [m|[]].
    - destruct (bool_decide _); [by intros [= <- <-]|].
      destruct (move_unused_spec x p q prepend_unused Hinv Hq) as (x1 & Em & _); [done|].
      rewrite (bind_Done _ _ _ _ _ Em). intros [= <- <-]. split; [by eapply move_nsocks|intros Hst _; by apply Ho].
    - by intros [= <- <-].
    - destruct (move_unused_spec x p q prepend_unused Hinv Hq) as (x1 & Em & _); [done|].
      rewrite (bind_Done _ _ _ _ _ Em). intros [= <- <-]. split; [by eapply move_nsocks|intros Hst _; by apply Ho]. }
  split_and!; [done|done|]. destruct b.
  - eapply (sender_move strict timeout (S n) (SStamped q k) x _ x' rc h); [done|done|done|by eapply step_sent|done|simpl; lia].
  - eapply (sender_move strict timeout (S n) (SStamped q k) x _ x' rc h);
      [done|done|done|by eapply step_send_failed| |simpl; lia].
    intros Hst. specialize (Hl Hst). simpl. rewrite Hb by done. lia.
Qed.

(** *** The parts of a round *)

(** What a part of a round leaves alone. *)
Definition same_env (s s' : send_state) : Prop :=
  ss_ti s' = ss_ti s ∧ ss_input s' = ss_input s ∧ ss_lines s' = ss_lines s ∧ ss_wire s' = ss_wire s.

Lemma pause_ok strict timeout cfg n e s :
  send_inv strict timeout cfg n SIdle s →
  ∃ s', send_pause e s = Done ((), s') ∧ send_inv strict timeout cfg n SIdle s' ∧ same_env s s' ∧ ss_msg s' = ss_msg s.
Proof.
  intros Hinv. unfold send_pause. set (s1 := avoid_flooding e s).
  rewrite (bind_Done (modify _) _ _ () s1 eq_refl), (bind_Done get _ _ _ _ eq_refl).
  assert (same_env s s1 ∧ ss_msg s1 = ss_msg s ∧ ss_socketbits s1 = ss_socketbits s) as ((E1 & E2 & E3 & E4) & E5 & E6)
    by (unfold s1, avoid_flooding; cbv zeta; by destruct (decide _)).
  assert (send_inv strict timeout cfg n SIdle s1) as Hinv1.
  { destruct Hinv. split; by rewrite ?E1, ?E2, ?E3, ?E5, ?E6. }
  destruct (ss_any_inprogress s1); [|by exists s1].
  pose proof (si_bits _ _ _ _ _ _ Hinv1) as Hb. destruct (si_sender _ _ _ _ _ _ Hinv1) as [Hns _].
  destruct (flush_sockets_correct (nsocks (ss_ti s1)) 0 (se_flush e) (ss_socketbits s1) false) as (any & bits & Ef & Hl & _);
    [lia|]. rewrite Ef, (bind_Done (lift (Done _)) _ _ _ s1 eq_refl).
  eexists. split; [done|]. split; [|by split]. destruct Hinv1. split; try done. simpl. by rewrite Hl.
Qed.

(** A query line whose request fits a packet of [m] bytes. *)
Definition request_fits cfg (l : list Z) (m : nat) : Prop :=
  let opt := if sc_edns cfg then opt_record (sc_dnssec cfg) (option_data (sc_edns_option cfg)) else [] in
  let sig := match sc_tsigkey cfg with Some k => tsig_space k | None => 0 end in
  ∃ body, question (l ++ [0%Z]) = Some body ∧ strcspn (l ++ [0%Z]) WHITESPACE + 12 ≤ m ∧
          12 + (length body + (length opt + sig)) ≤ m.

Lemma packet_ok cfg e q l s :
  config_ok cfg → q < NQIDS → format (ss_input s) = input_format_text_query →
  contents (ss_lines s) = l ++ [0%Z] → Forall byte_ok l →
  buffer_wf (ss_msg s) → 12 + QUESTION_MAX ≤ pb_length (ss_msg s) →
  ∃ packet msg', send_packet build_update cfg e q s = Done (packet, set_msg s msg') ∧
    buffer_wf msg' ∧ pb_length msg' = pb_length (ss_msg s) ∧
    (request_fits cfg l (pb_length (ss_msg s)) → is_Some packet) ∧
    ∀ pk, packet = Some pk →
      query_message (l ++ [0%Z]) (Z.of_nat q) (sc_edns cfg) (sc_dnssec cfg) (sc_tsigkey cfg)
        (sc_edns_option cfg) (se_tsig_time e) = Some pk.
Proof.
  intros [Ho Hk] Hq Hf Hc Hb Hwf Hl. unfold send_packet. rewrite (bind_Done get _ _ _ _ eq_refl), Hf.
  set (m0 := perf_buffer_clear (ss_msg s)).
  rewrite (bind_Done (on_msg (modify perf_buffer_clear)) _ _ () (set_msg s m0) eq_refl).
  rewrite bool_decide_eq_false_2 by done. change (perf_buffer_usedregion (ss_lines s)) with (contents (ss_lines s)). rewrite Hc.
  destruct (buildrequest_sound build_update (l ++ [0%Z]) (Z.of_nat q) (sc_edns cfg) (sc_dnssec cfg) (sc_tsigkey cfg)
    (sc_edns_option cfg) (se_tsig_time e) m0) as (r & m1 & E & Hwf1 & Hl1 & Hm); try done.
  { apply Forall_app. split; [done|]. by repeat constructor. }
  { destruct Hwf as [_ ?]. split; simpl; [lia|done]. }
  assert (request_fits cfg l (pb_length (ss_msg s)) → r = PERF_R_SUCCESS) as Hfit.
  { intros (body & Hq' & Hd & Hm'). pose proof (buildrequest_complete build_update (l ++ [0%Z]) (Z.of_nat q)
      (sc_edns cfg) (sc_dnssec cfg) (sc_tsigkey cfg) (sc_edns_option cfg) (se_tsig_time e) m0 body) as Hbc.
    cbv zeta in Hbc. destruct Hbc as (p' & E' & _); try done.
    - apply Forall_app. split; [done|]. by repeat constructor.
    - destruct Hwf as [_ ?]. split; simpl; [lia|done].
    - rewrite !length_app. unfold room, m0. simpl.
      destruct (sc_tsigkey cfg); [split; [done|]|]; simpl in *; lia.
    - rewrite E in E'. congruence. }
  rewrite (bind_Done (on_msg _) _ _ r (set_msg s m1)); [|exact (on_msg_Done _ (set_msg s m0) _ _ E)].
  rewrite (bind_Done get _ _ _ _ eq_refl). eexists _, m1. split_and!; [done|done|done| |].
  { intros Hfits. rewrite decide_True by auto. by eexists. }
  intros pk. destruct (decide (r = PERF_R_SUCCESS)) as [->|]; [|done]. intros [= <-].
  rewrite <- (u16_small (Z.of_nat q)) by (pose proof NQIDS_val; lia). by apply Hm.
Qed.

Lemma query_ok strict timeout cfg n e q k packet s :
  env_ok strict timeout e → send_inv strict timeout cfg n (SHolding q k) s → (strict = true → held (SHolding q k) (ss_ti s)) → k < nsocks (ss_ti s) →
  ∃ s', send_query cfg e q k packet s = Done ((), s') ∧ send_inv strict timeout cfg (S n) SIdle s' ∧
        ss_input s' = ss_input s ∧ ss_wire s' = ss_wire s ++ [(k, q, packet)] ∧ nsocks (ss_ti s') = nsocks (ss_ti s).
Proof.
  intros [_ _ Ho3 _ Hnow] [Hat Hi Hf Hby Hli Hms Hbi] Hh Hk. unfold send_query.
  rewrite (bind_Done (modify _) _ _ () (set_now s (se_now2 e)) eq_refl), (bind_Done get _ _ _ _ eq_refl). cbv zeta.
  set (desc := if sc_verbose cfg then _ else _).
  destruct (stamp_ok strict timeout n q k (ss_ti s) (se_now2 e) desc Hat Hh Hnow) as (x1 & E1 & Hn1 & Hat1 & Hh1).
  rewrite (bind_Done (on_ti _) _ _ () (set_ti (set_now s (se_now2 e)) x1));
    [|by apply on_ti_Done].
  rewrite (bind_Done (modify _) _ _ () _ eq_refl), (bind_Done (on_ti (modify _)) _ _ () _ eq_refl).
  destruct (sender_others _ _ _ _ _ _ _ Ho3 Hat1 Hh1) as (Hat2 & Hn2 & Hk2). simpl ss_ti.
  destruct (finish_ok strict timeout n q k (se_others3 e x1) (Z.of_nat (length packet)) (se_send e) Hat2)
    as (b & x3 & E3 & Hn3 & Hat3).
  { intros Hst. specialize (Hk2 Hst). destruct (se_send e) as [|[]]; [done|by intros []|done]. }
  match goal with |- context [(on_ti (finish_send _ _ _) ≫= _) ?st] =>
    rewrite (bind_Done (on_ti (finish_send _ _ _)) _ st b (set_ti st x3)); [|by apply on_ti_Done] end.
  destruct (bit_ops_spec (ss_socketbits s) k) as [(bits & Eb & Hlb & _) _]; [destruct Hat as [? _]; lia|].
  set (st := set_ti _ x3).
  assert (∃ st', (match se_send e with
     | SendErr true => s ← get; bits ← lift (bit_set (ss_socketbits s) k); modify (λ s, set_progress s true bits)
     | _ => mret () end) st = Done ((), st') ∧ ss_ti st' = x3 ∧ ss_input st' = ss_input s ∧ ss_lines st' = ss_lines s ∧
     ss_msg st' = ss_msg s ∧ ss_wire st' = ss_wire s ++ [(k, q, packet)] ∧
     length (ss_socketbits st') = length (ss_socketbits s)) as (st' & Est & F1 & F2 & F3 & F4 & F5 & F6).
  { destruct (se_send e) as [|[]]; [by exists st| |by exists st].
    rewrite (bind_Done get _ _ _ _ eq_refl). change (ss_socketbits st) with (ss_socketbits s). rewrite Eb.
    rewrite (bind_Done (lift (Done _)) _ _ _ st eq_refl). eexists. split; [done|]. by split_and!. }
  rewrite (bind_Done _ _ _ _ _ Est).
  exists (if b then set_limiter st' (count_query (ss_limiter st')) else st').
  split; [by destruct b|]. split; [|by destruct b; simpl; rewrite ?F1, ?F2, ?F5; split_and!; try done; rewrite Hn3, Hn2].
  destruct b; split; simpl; rewrite ?F1, ?F2, ?F3, ?F4, ?F6; done.
Qed.

(** *** A round *)

(** From [s] to [s']: the invariant, the lines taken from the input, and the packets sent. *)
Record progress (strict : bool) (timeout : Z) (cfg : send_config) (n : nat) (s : send_state) (go : bool) (s' : send_state) : Prop := {
  pr_inv : ∃ sd, send_inv strict timeout cfg n sd s' ∧ if go then sd = SIdle else ∃ held, sd = SStopped held;
  pr_socks : nsocks (ss_ti s') = nsocks (ss_ti s);
  pr_input : maxruns (ss_input s') = maxruns (ss_input s) ∧
             fio_whole (fd (ss_input s')) = fio_whole (fd (ss_input s));
  pr_sent : ∃ ls w, reader_calls (all_lines (ss_input s)) (maxruns (ss_input s)) (abs (ss_input s)) ls
                      (abs (ss_input s')) ∧
                    ss_wire s' = ss_wire s ++ w ∧ sent_from cfg (nsocks (ss_ti s)) ls w;
}.

Lemma sender_at_le strict timeout n m sd x : n ≤ m → sender_at strict timeout n sd x → sender_at strict timeout m sd x.
Proof. intros Hle (? & rc & h & ? & ? & ?). split; [done|]. exists rc, h. split_and!; [done|done|lia]. Qed.

Lemma send_inv_le strict timeout cfg n m sd s : n ≤ m → send_inv strict timeout cfg n sd s → send_inv strict timeout cfg m sd s.
Proof. intros Hle []. split; try done. by eapply sender_at_le. Qed.

(** A round that sends nothing and reads nothing. *)
Lemma progress_idle strict timeout cfg n s s' :
  send_inv strict timeout cfg n SIdle s' → nsocks (ss_ti s') = nsocks (ss_ti s) →
  ss_input s' = ss_input s → ss_wire s' = ss_wire s → progress strict timeout cfg (S n) s true s'.
Proof.
  intros Hinv Hn Hi Hw. split; [|done|by rewrite Hi|].
  - exists SIdle. split; [eapply send_inv_le; [|exact Hinv]; lia|done].
  - exists [], []. rewrite Hi, Hw, app_nil_r. split_and!; [constructor|done|constructor].
Qed.

Lemma records_bytes r : Forall byte_ok r → Forall (Forall byte_ok) (records r).
Proof.
  intros Hr. apply List.Forall_forall. intros l Hin. apply filter_In in Hin as [Hin _]. revert l Hin.
  apply List.Forall_forall.
  assert (∀ line, Forall byte_ok line → Forall (Forall byte_ok) (split_lines line r)) as Hs; [|by apply Hs].
  induction Hr as [|c r Hc Hr IH]; intros line Hl; simpl; [by repeat constructor|].
  destruct (decide _); [constructor; [done|by apply IH]|]. apply IH. apply Forall_app. split; [done|by apply Forall_singleton].
Qed.

(** A line has been taken for the query [q], and nothing was sent yet. *)
Lemma next_line_ok strict timeout cfg n e q k s :
  env_ok strict timeout e → send_inv strict timeout cfg n (SHolding q k) s →
  let s1 := set_file s (se_others_input e (ss_input s)) (perf_buffer_clear (ss_lines s)) in
  ∃ r s2 ls, on_input (perf_datafile_next (sc_fuel cfg)) s1 = Done (r, s2) ∧
    send_inv strict timeout cfg n (SHolding q k) s2 ∧
    ss_ti s2 = ss_ti s ∧ ss_wire s2 = ss_wire s ∧ ss_msg s2 = ss_msg s ∧ maxruns (ss_input s2) = maxruns (ss_input s) ∧
    fio_whole (fd (ss_input s2)) = fio_whole (fd (ss_input s)) ∧
    reader_calls (all_lines (ss_input s)) (maxruns (ss_input s)) (abs (ss_input s)) ls (abs (ss_input s2)) ∧
    (r = PERF_R_SUCCESS → ∃ ls' l, ls = ls' ++ [l] ∧ Forall byte_ok l ∧ contents (ss_lines s2) = l ++ [0%Z]) ∧
    (∀ l rd, reader_next (all_lines (ss_input s)) (maxruns (ss_input s)) (abs (se_others_input e (ss_input s)))
               = (PERF_R_SUCCESS, Some l, rd) → r = PERF_R_SUCCESS ∧ last ls = Some l).
Proof.
  intros [_ _ _ Hin _] [Hat Hi Hf Hby [Hlw Hll] Hms Hbi] s1.
  destruct (Hin _ Hi) as (Hi1 & Hm1 & Hw1 & ls1 & Hc1). set (d1 := se_others_input e (ss_input s)) in *.
  set (b1 := perf_buffer_clear (ss_lines s)) in *.
  assert (buffer_wf b1) as Hbw by (destruct Hlw as [_ ?]; split; simpl; [lia|done]).
  assert (lines_ready b1) as Hb1.
  { split_and!; [done|unfold room; simpl; rewrite Hll; unfold MAX_INPUT_DATA, DATABUF; lia|].
    simpl. rewrite Hll. unfold MAX_INPUT_DATA, DATABUF. lia. }
  destruct (next_query_spec (sc_fuel cfg) d1 b1 Hi1) as (d2 & r & out & E & Hi2 & Hm2 & Hw2 & Hr2);
    [unfold file_fuel in *; by rewrite Hw1|done|].
  assert (all_lines d1 = all_lines (ss_input s)) as Hal by (unfold all_lines; by rewrite Hw1).
  rewrite Hal, Hm1 in Hr2.
  set (b2 := match out with Some l => _ | None => _ end) in *.
  exists r, (set_file s1 d2 b2), (ls1 ++ match out with Some l => [l] | None => [] end).
  destruct (reader_next_cases _ _ _ _ _ _ Hr2) as [(l & -> & -> & Hl)|[Hne ->]].
  { destruct (inv_lines _ Hi1) as (read & Hread). exists read. by rewrite <- Hal, Hread. }
  - assert (S (length l) < DATABUF) as Hlen by exact (all_lines_bound _ _ Hi Hl).
    assert (line_output b1 l = l ++ [0%Z]) as Hlo.
    { unfold line_output. rewrite take_ge; [done|]. unfold perf_buffer_availablelength. simpl.
      rewrite Hll. unfold MAX_INPUT_DATA. lia. }
    assert (room b1 (length (l ++ [0%Z]))) as Hrm.
    { unfold room. rewrite length_app. simpl. rewrite Hll. unfold MAX_INPUT_DATA. lia. }
    unfold b2 in *. rewrite Hlo in E |- *.
    split_and!; [by apply on_input_Done| |done|done|done|simpl; congruence|simpl; congruence| | |].
    + split; simpl; try done; [unfold file_fuel in *; by rewrite Hw2, Hw1|by rewrite Hw2, Hw1|].
      split; [by apply push_wf|done].
    + eapply reader_calls_app; [exact Hc1|]. by apply (calls_next _ _ _ _ (Some l) _ [] _ Hr2), calls_none.
    + intros _. exists ls1, l. split_and!; [done| |].
      * pose proof (records_bytes _ Hby) as Hrb. rewrite Forall_forall in Hrb. by apply Hrb.
      * simpl. rewrite contents_push by done. done.
    + intros l' rd Hl'. fold d1 in Hl'. rewrite Hr2 in Hl'. simplify_eq. split; [done|]. by rewrite last_snoc.
  - split_and!; [by apply on_input_Done| |done|done|done|simpl; congruence|simpl; congruence| |done|].
    + split; simpl; try done; [unfold file_fuel in *; by rewrite Hw2, Hw1|by rewrite Hw2, Hw1].
    + eapply reader_calls_app; [exact Hc1|]. by apply (calls_next _ _ _ _ None _ [] _ Hr2), calls_none.
    + intros l' rd Hl'. fold d1 in Hl'. rewrite Hr2 in Hl'. by simplify_eq.
Qed.

(** The rest of a round, once an id and a socket have been found. *)
Lemma line_round_ok strict timeout cfg n e q k s :
  config_ok cfg → env_ok strict timeout e → send_inv strict timeout cfg n (SHolding q k) s → (strict = true → held (SHolding q k) (ss_ti s)) →
  q < NQIDS → k < nsocks (ss_ti s) →
  match (result ← on_input (perf_datafile_next (sc_fuel cfg));
         if decide (result = PERF_R_INVALIDFILE) then perf_log_fatal
         else if decide (result ≠ PERF_R_SUCCESS) then mret false
         else
           packet ← send_packet build_update cfg e q;
           on_ti (modify (se_others2 e));;
           match packet with
           | None => on_ti (move q prepend_unused);; modify (λ s, set_now s (se_now2 e));; mret true
           | Some packet => send_query cfg e q k packet;; mret true
           end)
          (set_file s (se_others_input e (ss_input s)) (perf_buffer_clear (ss_lines s))) with
  | Done (go, s') =>
      progress strict timeout cfg (S n) s go s' ∧
      ∀ l rd, reader_next (all_lines (ss_input s)) (maxruns (ss_input s)) (abs (se_others_input e (ss_input s)))
                = (PERF_R_SUCCESS, Some l, rd) →
              request_fits cfg l (pb_length (ss_msg s)) →
              go = true ∧ ∃ packet, ss_wire s' = ss_wire s ++ [(k, q, packet)] ∧
                query_message (l ++ [0%Z]) (Z.of_nat q) (sc_edns cfg) (sc_dnssec cfg) (sc_tsigkey cfg)
                  (sc_edns_option cfg) (se_tsig_time e) = Some packet
  | Exit c => c = 1%Z ∧
      ∀ l rd, reader_next (all_lines (ss_input s)) (maxruns (ss_input s)) (abs (se_others_input e (ss_input s)))
                ≠ (PERF_R_SUCCESS, Some l, rd)
  | _ => False
  end.
Proof.
  intros Hcfg He Hinv Hh Hq Hk.
  destruct (next_line_ok strict timeout cfg n e q k s He Hinv)
    as (r & s2 & ls & E & Hinv2 & Ht2 & Hw2 & Hmsg & Hm2 & Hf2 & Hc2 & Hl2 & Hlive).
  rewrite (bind_Done _ _ _ _ _ E). destruct (decide (r = PERF_R_INVALIDFILE)) as [->|].
  { cbn. split; [done|]. intros l rd Hrd. by destruct (Hlive l rd Hrd). }
  destruct (decide (r ≠ PERF_R_SUCCESS)) as [Hr|Hr].
  { cbn. split; [|intros l rd Hrd; by destruct (Hlive l rd Hrd)]. split; [|by rewrite Ht2|done|].
    - exists (SStopped (Some q)). split; [|eauto]. destruct Hinv2 as [(Hns & rc & h & Hre & Hlo & Hse) ? ? ? ? ? ?].
      split; try done. eapply (sender_move strict timeout (S n) _ _ _ _ rc h h); [done|done|done|by eapply step_eof|done|lia].
    - exists ls, []. rewrite Hw2, app_nil_r. split_and!; [done|done|apply sent_from_skips]. }
  apply dec_stable in Hr. destruct (Hl2 Hr) as (ls' & l & -> & Hbl & Hcl).
  pose proof (si_msg _ _ _ _ _ _ Hinv2) as [Hmw Hml].
  destruct (packet_ok cfg e q l s2 Hcfg Hq (inv_format _ (si_input _ _ _ _ _ _ Hinv2)) Hcl Hbl Hmw Hml)
    as (packet & m & Ep & Hmw' & Hml' & Hfits & Hpk).
  assert (∀ l' rd, reader_next (all_lines (ss_input s)) (maxruns (ss_input s)) (abs (se_others_input e (ss_input s)))
            = (PERF_R_SUCCESS, Some l', rd) → l' = l) as Hsame.
  { intros l' rd Hrd. destruct (Hlive l' rd Hrd) as [_ Hla]. rewrite last_snoc in Hla. congruence. }
  rewrite (bind_Done _ _ _ _ _ Ep). set (s3 := set_msg s2 m).
  destruct (sender_others _ _ _ _ _ _ _ (env_others2 _ _ _ He) (si_sender _ _ _ _ _ _ Hinv2)) as (Hat4 & Hn4 & Hk4);
    [by rewrite Ht2|].
  set (s4 := set_ti s3 (se_others2 e (ss_ti s2))).
  rewrite (bind_Done (on_ti (modify (se_others2 e))) _ s3 () s4 eq_refl).
  assert (send_inv strict timeout cfg n (SHolding q k) s4) as Hinv4.
  { destruct Hinv2. split; try done. simpl. by rewrite Hml'. }
  destruct packet as [packet|].
  - destruct (query_ok strict timeout cfg n e q k packet s4 He Hinv4 Hk4) as (s5 & E5 & Hinv5 & Hi5 & Hw5 & Hn5);
      [simpl; by rewrite Hn4, Ht2|].
    rewrite (bind_Done _ _ _ _ _ E5). cbn. split; cycle 1.
    { intros l' rd Hrd _. rewrite (Hsame l' rd Hrd). split; [done|]. exists packet.
      rewrite Hw5. simpl. rewrite Hw2. split; [done|by apply Hpk]. }
    split; [by exists SIdle|by rewrite Hn5; simpl; rewrite Hn4, Ht2|by rewrite Hi5|].
    exists (ls' ++ [l]), [(k, q, packet)]. rewrite Hi5, Hw5. simpl. rewrite Hw2. split_and!; [done|done|].
    apply (sent_from_app cfg _ ls' [] [l] [(k, q, packet)]); [apply sent_from_skips|].
    eapply sent_one; [done|done|by apply Hpk|constructor].
  - destruct (give_back_ok strict timeout n q k (ss_ti s4) Hat4 Hk4) as (x5 & E5 & Hn5 & Hat5).
    rewrite (bind_Done (on_ti _) _ s4 () (set_ti s4 x5)) by (by apply on_ti_Done).
    rewrite (bind_Done (modify _) _ _ () _ eq_refl). cbn. split; cycle 1.
    { intros l' rd Hrd. rewrite (Hsame l' rd Hrd), <- Hmsg. intros Hfit. by destruct (Hfits Hfit). }
    split; [|simpl; by rewrite Hn5; simpl; rewrite Hn4, Ht2|done|].
    + exists SIdle. split; [|done]. destruct Hinv4. split; try done. simpl. eapply sender_at_le; [|exact Hat5]. lia.
    + exists (ls' ++ [l]), []. simpl. rewrite Hw2, app_nil_r. split_and!; [done|done|apply sent_from_skips].
Qed.

Lemma take_ready timeout n x :
  sender_at true timeout n SIdle x → (Z.of_nat n < 2 ^ 63)%Z → (num_outstanding (stats x) < max_outstanding x)%Z →
  ∃ q k x', take_query (λ _, 1%Z) x = Done (TakeGot q k, x').
Proof.
  intros Hat Hn Hlt. pose proof (take_ok true timeout n (λ _, 1%Z) x Hat Hn) as Ht.
  destruct Hat as (Hns & rc & h & Hr & _). destruct (reachable_inv _ _ Hr) as [p [Hinv _ _ _ _ _]].
  cbn [ti] in Hinv. destruct p.2 as [|q us] eqn:Eq.
  - assert (take_query (λ _, 1%Z) x = Undef) as E; [|rewrite E in Ht; by destruct Ht].
    unfold take_query. rewrite (bind_Done get _ _ _ _ eq_refl), decide_False by lia.
    pose proof (rep_unused _ _ _ (tinv_rep _ _ Hinv)) as (_ & -> & _). by rewrite Eq.
  - destruct (take_succeeds x p q us Hinv Eq Hlt) as (k & x' & E); [lia|]. by exists q, k, x'.
Qed.

(** Nothing holds the round back and [l] is the next line. *)
Record unhindered (cfg : send_config) (e : send_env) (s : send_state) (l : list Z) : Prop := {
  un_running : se_interrupted e = false ∧ (ss_now s < sc_stop_time cfg)%Z;
  un_rate : max_qps (ss_ti s) = 0%Z;
  un_limit : let x := se_others1 e (ss_ti s) in (num_outstanding (stats x) < max_outstanding x)%Z;
  un_ready : se_ready e = λ _, 1%Z;
  un_line : ∃ rd, reader_next (all_lines (ss_input s)) (maxruns (ss_input s))
                    (abs (se_others_input e (ss_input s))) = (PERF_R_SUCCESS, Some l, rd);
  un_fits : request_fits cfg l (pb_length (ss_msg s));
}.

Lemma send_round_ok strict timeout cfg n e s :
  config_ok cfg → env_ok strict timeout e → send_inv strict timeout cfg n SIdle s → (Z.of_nat n < 2 ^ 63)%Z →
  match send_round build_update cfg e s with
  | Done (go, s') =>
      progress strict timeout cfg (S n) s go s' ∧
      ∀ l, strict = true → unhindered cfg e s l →
           go = true ∧ ∃ k q packet, ss_wire s' = ss_wire s ++ [(k, q, packet)] ∧
             query_message (l ++ [0%Z]) (Z.of_nat q) (sc_edns cfg) (sc_dnssec cfg) (sc_tsigkey cfg)
               (sc_edns_option cfg) (se_tsig_time e) = Some packet
  | Exit c => c = 1%Z ∧ ∀ l, strict = true → ¬ unhindered cfg e s l
  | Undef => strict = false ∧ out_of_ids timeout (se_others1 e (ss_ti s))
  | _ => False
  end.
Proof.
  intros Hcfg He Hinv Hn. unfold send_round. rewrite (bind_Done get _ _ _ _ eq_refl).
  destruct (decide (se_interrupted e = true ∨ sc_stop_time cfg ≤ ss_now s)%Z) as [Hst|].
  { cbn. split; [|intros l _ [[H1 H2] _ _ _ _ _]; destruct Hst; [congruence|lia]].
    split; [|done|done|exists [], []; rewrite app_nil_r; split_and!; constructor].
    exists (SStopped None). split; [|eauto]. destruct Hinv as [(Hns & rc & h & Hre & Hlo & Hse) ? ? ? ? ? ?].
    split; try done. eapply (sender_move strict timeout (S n) _ _ _ _ rc h h); [done|done|done|by eapply step_stop|done|lia]. }
  destruct (pause_ok strict timeout cfg n e s Hinv) as (s1 & E1 & Hinv1 & (Ht1 & Hi1 & _ & Hw1) & Hm1).
  rewrite (bind_Done _ _ _ _ _ E1), (bind_Done get _ _ _ _ eq_refl).
  destruct (rate_limit (max_qps (ss_ti s1)) (ss_now s1) (ss_limiter s1)) as [v l] eqn:Erl.
  set (s2 := set_limiter s1 l). rewrite (bind_Done (modify (λ s, set_limiter s l)) _ s1 () s2 eq_refl).
  assert (send_inv strict timeout cfg n SIdle s2) as Hinv2 by (destruct Hinv1; by split).
  destruct v as [|us].
  2:{ cbn. split; [apply progress_idle; [destruct Hinv2; by split|simpl; by rewrite Ht1|done|done]|].
      intros l' _ [_ Hrate _ _ _ _]. unfold rate_limit in Erl. rewrite Ht1, Hrate in Erl.
      by rewrite decide_False in Erl by lia. }
  destruct (sender_others _ _ _ _ _ _ _ (env_others1 _ _ _ He) (si_sender _ _ _ _ _ _ Hinv2) (λ _, I)) as (Hat3 & Hn3 & _).
  set (s3 := set_ti s2 (se_others1 e (ss_ti s2))). rewrite (bind_Done (on_ti (modify (se_others1 e))) _ s2 () s3 eq_refl).
  pose proof (take_ok strict timeout n (se_ready e) _ Hat3 Hn) as Ht.
  unfold mbind at 1, M_bind at 1, on_ti at 1. change (ss_ti s3) with (se_others1 e (ss_ti s2)).
  assert (∀ l, strict = true → unhindered cfg e s l → ∃ q k x', take_query (se_ready e) (se_others1 e (ss_ti s2)) = Done (TakeGot q k, x'))
    as Hgot.
  { intros l' -> [_ _ Hlt Hrd _ _]. rewrite Hrd. eapply take_ready; [exact Hat3|done|]. simpl. by rewrite Ht1. }
  destruct (take_query (se_ready e) (se_others1 e (ss_ti s2))) as [[r x4]| | | |]; cbn [mbind run_bind]; try done; cycle 1.
  { split; [done|]. intros l' Hst Hun. by destruct (Hgot l' Hst Hun) as (? & ? & ? & ?). }
  { destruct Ht as [? Ht]. split; [done|]. simpl in Ht. by rewrite Ht1 in Ht. }
  destruct Ht as [Hn4 Hr]. set (s4 := set_ti s3 x4).
  assert (nsocks (ss_ti s4) = nsocks (ss_ti s)) as Hns by (simpl; rewrite Hn4, Hn3; simpl; by rewrite Ht1).
  destruct r as [| |q k].
  1,2: cbn; split; [apply progress_idle; [destruct Hinv2; by split|done|done|done]|];
    intros l' Hst Hun; by destruct (Hgot l' Hst Hun) as (? & ? & ? & ?).
  destruct Hr as (Hq & Hk & Hat4 & Hh4).
  rewrite (bind_Done (modify (λ s, set_file s (se_others_input e (ss_input s)) (perf_buffer_clear (ss_lines s)))) _ s4 ()
    (set_file s4 (se_others_input e (ss_input s4)) (perf_buffer_clear (ss_lines s4))) eq_refl).
  assert (send_inv strict timeout cfg n (SHolding q k) s4) as Hinv4 by (destruct Hinv2; by split).
  pose proof (line_round_ok strict timeout cfg n e q k s4 Hcfg He Hinv4 (λ _, Hh4) Hq ltac:(simpl; by rewrite Hn4)) as Hl.
  match goal with |- match ?m with _ => _ end => destruct m as [[go s']| | | |]; try done end.
  2:{ destruct Hl as [Hl Hno]. split; [done|]. intros l' _ [_ _ _ _ (rd & Hrd) _]. simpl in Hno. rewrite Hi1 in Hno.
      by apply (Hno l' rd). }
  destruct Hl as [Hl Hlive]. split; cycle 1.
  { intros l' _ [_ _ _ _ (rd & Hrd) Hfit]. simpl in Hlive. rewrite Hi1, Hm1, Hw1 in Hlive.
    destruct (Hlive l' rd Hrd Hfit) as (-> & packet & ? & ?). eauto 10. }
  destruct Hl as [P1 P2 P3 (ls & w & P4 & P5 & P6)]. split; [done|congruence| |].
  - simpl in P3. by rewrite Hi1 in P3.
  - exists ls, w. simpl in P4, P5. rewrite Hi1 in P4. rewrite Hw1 in P5. rewrite Hns in P6. done.
Qed.

Lemma progress_trans strict timeout cfg n m s s1 go s2 :
  progress strict timeout cfg n s true s1 → progress strict timeout cfg m s1 go s2 → progress strict timeout cfg m s go s2.
Proof.
  intros [_ P2 [P3 P3'] (ls & w & P4 & P5 & P6)] [Q1 Q2 [Q3 Q3'] (ls1 & w1 & Q4 & Q5 & Q6)].
  assert (all_lines (ss_input s1) = all_lines (ss_input s)) as Hal by (unfold all_lines; by rewrite P3').
  rewrite Hal, P3 in Q4. rewrite P2 in Q6.
  split; [done|congruence|split; congruence|]. exists (ls ++ ls1), (w ++ w1). split_and!.
  - by eapply reader_calls_app.
  - by rewrite Q5, P5, app_assoc.
  - by apply sent_from_app.
Qed.

Lemma send_loop_ok strict timeout cfg n es s :
  config_ok cfg → Forall (env_ok strict timeout) es → send_inv strict timeout cfg n SIdle s →
  (Z.of_nat (n + length es) < 2 ^ 63)%Z →
  match send_loop build_update cfg es s with
  | Done (go, s') => progress strict timeout cfg (n + length es) s go s'
  | Exit c => c = 1%Z
  | Undef => strict = false ∧ ∃ es1 e es2 s1, es = es1 ++ e :: es2 ∧
               send_loop build_update cfg es1 s = Done (true, s1) ∧ out_of_ids timeout (se_others1 e (ss_ti s1))
  | _ => False
  end.
Proof.
  intros Hcfg Hes. revert n s. induction Hes as [|e es He Hes IH]; intros n s Hinv Hn; cbn [send_loop length].
  { cbn. split; [|done|done|exists [], []; rewrite app_nil_r; split_and!; constructor].
    exists SIdle. by rewrite Nat.add_0_r. }
  cbn [length] in Hn. pose proof (send_round_ok strict timeout cfg n e s Hcfg He Hinv ltac:(lia)) as Hr.
  unfold mbind at 1, M_bind at 1. destruct (send_round build_update cfg e s) as [[go s1]| | | |] eqn:Er; try done; [|apply Hr|].
  2:{ destruct Hr as [? Hr]. split; [done|]. by exists [], e, es, s. }
  destruct Hr as [Hr _]. destruct go.
  - destruct (pr_inv _ _ _ _ _ _ _ Hr) as (sd & Hinv1 & ->).
    specialize (IH (S n) s1 Hinv1 ltac:(lia)). destruct (send_loop _ _ _ _) as [[go s2]| | | |]; try done; cycle 1.
    { destruct IH as (? & es1 & e' & es2 & s2 & -> & El & Ho). split; [done|]. exists (e :: es1), e', es2, s2.
      split; [done|]. split; [|done]. cbn [send_loop]. by rewrite (bind_Done _ _ _ _ _ Er). }
    replace (n + S (length es)) with (S n + length es) by lia. by eapply progress_trans.
  - cbn. destruct Hr as [(sd & Hinv1 & Hsd) ? ? ?]. split; try done. exists sd. split; [|done].
    eapply send_inv_le; [|done]. lia.
Qed.

(** *** The start *)

Lemma init_ok strict timeout cfg mo mq c nth off x d now :
  threadinfo_init mo mq c nth off = Done x → 0 < nsocks x →
  query_inv d → file_fuel d < sc_fuel cfg → Forall byte_ok (fio_whole (fd d)) →
  send_inv strict timeout cfg 0 SIdle (send_init cfg x d now).
Proof.
  intros Hx Hns Hd Hf Hb. split; [|exact Hd|exact Hf|exact Hb| | |].
  - split; [|exists RIdle, (History 0 0 0 0); exact (conj (reach_init timeout mo mq c nth off x Hx) (conj (λ _, eq_refl) (le_n 0)))].
    apply init_fields in Hx as (_ & _ & _ & Hn). cbn [ss_ti send_init]. split; [exact Hns|]. rewrite Hn. lia.
  - split; [exact (test_buffer_wf MAX_INPUT_DATA)|reflexivity].
  - cbn [ss_msg send_init perf_buffer_init pb_length]. unfold buffer_wf, perf_buffer_init.
    cbn [pb_used pb_length pb_base]. rewrite length_replicate.
    unfold QUESTION_MAX, MAX_EDNS_PACKET, MAX_UDP_PACKET. destruct (sc_edns cfg); split_and!; lia.
  - cbn [ss_socketbits send_init]. rewrite length_replicate. apply (bool_decide_unpack _). vm_compute. done.
Qed.

(** ** Theorems *)

(** C6: from its start, whatever the clock and the sockets answer and whatever steps of the system
    the receiver takes in between, the other senders taking any lines from the input, the
    sender's loop only takes steps of the system of the two threads, never leaves a buffer or
    fails an assertion, and hands to its sockets exactly requests of lines of the input, in the
    order in which the lines were delivered, each line at most once, with the id of the query
    in the packet; it ends the process only with status 1.  The one way to go wrong is
    [out_of_ids]: an id is to be taken and none is unused, because more than [NQIDS] less
    [max_outstanding] queries were counted as answered or timed out while their sending
    failed. *)
Theorem sender_sends_input timeout cfg es mo mq c nth off x d now :
  threadinfo_init mo mq c nth off = Done x → 0 < nsocks x →
  query_inv d → file_fuel d < sc_fuel cfg → Forall byte_ok (fio_whole (fd d)) →
  config_ok cfg → Forall (env_ok false timeout) es → (Z.of_nat (length es) < 2 ^ 63)%Z →
  match send_loop build_update cfg es (send_init cfg x d now) with
  | Done (go, s') =>
      (∃ sd rc h, reachable timeout (Sys (ss_ti s') sd rc h) ∧
         if go then sd = SIdle else ∃ held, sd = SStopped held) ∧
      ∃ ls, reader_calls (all_lines d) (maxruns d) (abs d) ls (abs (ss_input s')) ∧
            sent_from cfg (nsocks x) ls (ss_wire s')
  | Exit c => c = 1%Z
  | Undef => ∃ es1 e es2 s1, es = es1 ++ e :: es2 ∧
               send_loop build_update cfg es1 (send_init cfg x d now) = Done (true, s1) ∧
               out_of_ids timeout (se_others1 e (ss_ti s1))
  | _ => False
  end.
Proof.
  intros Hx Hns Hd Hf Hb Hcfg Hes Hlen.
  pose proof (send_loop_ok false timeout cfg 0 es (send_init cfg x d now) Hcfg Hes) as Hl.
  specialize (Hl (init_ok false timeout cfg mo mq c nth off x d now Hx Hns Hd Hf Hb) Hlen). clear Hx.
  destruct (send_loop _ _ _ _) as [[go s']| | | |]; try done; [|apply Hl].
  destruct Hl as [(sd & [(_ & rc & h & Hr & _) _ _ _ _ _ _] & Hsd) _ _ (ls & w & P4 & P5 & P6)].
  simpl in P4, P5, P6. split; [eauto|]. exists ls. split; [done|]. by rewrite P5.
Qed.

(** C8: a round that nothing holds back (time left, no limit on the rate, fewer queries in flight
    than allowed, ready sockets, a next line whose request fits the packet) sends exactly
    one packet: the request of that line, and the loop goes on. *)
Theorem sender_round_sends timeout cfg n e s l :
  config_ok cfg → env_ok true timeout e → send_inv true timeout cfg n SIdle s → (Z.of_nat n < 2 ^ 63)%Z →
  unhindered cfg e s l →
  ∃ s' k q packet, send_round build_update cfg e s = Done (true, s') ∧
    ss_wire s' = ss_wire s ++ [(k, q, packet)] ∧
    query_message (l ++ [0%Z]) (Z.of_nat q) (sc_edns cfg) (sc_dnssec cfg) (sc_tsigkey cfg)
      (sc_edns_option cfg) (se_tsig_time e) = Some packet.
Proof.
  intros Hcfg He Hinv Hn Hun. pose proof (send_round_ok true timeout cfg n e s Hcfg He Hinv Hn) as Hr.
  destruct (send_round build_update cfg e s) as [[go s']| | | |]; try done; [| |by destruct Hr].
  - destruct Hr as [_ Hlive]. destruct (Hlive l eq_refl Hun) as (-> & k & q & packet & ? & ?). by exists s', k, q, packet.
  - destruct Hr as [_ Hno]. by destruct (Hno l eq_refl).
Qed.
End invariant.

(** *** Witnesses *)

Definition plain_config : send_config := SendConfig false false None None false 1000 60.
Definition quiet_env : send_env :=
  SendEnv false 5 6 (λ _, 1%Z) (λ _, 1%Z) (SendN 19) 0 id id id id.

Lemma quiet_others strict timeout b : others_ok strict timeout b id.
Proof.
  intros x sd rc h Hr Hl Hh. exists rc, h. split_and!; [done..|]. intros Hst. specialize (Hh Hst). by destruct sd, b.
Qed.
Lemma quiet_ok strict timeout : env_ok (F := chunked_io) strict timeout quiet_env.
Proof.
  split; [apply quiet_others..| |done]. intros d Hd. split_and!; [done..|]. exists []. constructor.
Qed.
Lemma plain_config_ok : config_ok plain_config.
Proof. done. Qed.

Lemma small_file_bytes : Forall byte_ok (fio_whole (fd small_dfile)).
Proof. by apply (bool_decide_unpack _). Qed.

Lemma sender_sends_input_witness :
  ∃ x, match send_loop (λ _, mret PERF_R_FAILURE) plain_config [quiet_env; quiet_env]
               (send_init plain_config x small_dfile 0) with
       | Done (go, s') =>
           (∃ sd rc h, reachable 10 (Sys (ss_ti s') sd rc h) ∧
              if go then sd = SIdle else ∃ held, sd = SStopped held) ∧
           ∃ ls, reader_calls (all_lines small_dfile) (maxruns small_dfile) (abs small_dfile) ls
                   (abs (ss_input s')) ∧
                 sent_from plain_config 1 ls (ss_wire s')
       | Exit c => c = 1%Z
       | Undef => ∃ es1 e es2 s1, [quiet_env; quiet_env] = es1 ++ e :: es2 ∧
                    send_loop (λ _, mret PERF_R_FAILURE) plain_config es1 (send_init plain_config x small_dfile 0)
                      = Done (true, s1) ∧
                    out_of_ids 10 (se_others1 e (ss_ti s1))
       | _ => False
       end.
Proof.
  destruct one_thread as (x & Hx & Hn & _). exists x. rewrite <- Hn.
  assert (0 < nsocks x) as Hpos by (clear Hx; lia).
  assert (file_fuel small_dfile < sc_fuel plain_config) as Hf by (clear Hx; vm_compute; lia).
  assert (Forall (env_ok false 10) [quiet_env; quiet_env]) as Hes
    by (clear Hx; constructor; [apply quiet_ok|constructor; [apply quiet_ok|constructor]]).
  assert (Z.of_nat (length [quiet_env; quiet_env]) < 2 ^ 63)%Z as Hl by (clear Hx; simpl; lia).
  exact (sender_sends_input (λ _, mret PERF_R_FAILURE) 10 plain_config [quiet_env; quiet_env] 100 0 1 1 0 x
    small_dfile 0 Hx Hpos small_dfile_inv Hf small_file_bytes plain_config_ok Hes Hl).
Defined.

Lemma sender_round_sends_witness :
  ∃ x s' k q packet,
    send_round (λ _, mret PERF_R_FAILURE) plain_config quiet_env (send_init plain_config x small_dfile 0)
      = Done (true, s') ∧
    ss_wire s' = [(k, q, packet)] ∧
    query_message (bytes "a A" ++ [0%Z]) (Z.of_nat q) false false None None 0 = Some packet.
Proof.
  destruct one_thread as (x & Hx & Hn & Hs & Hm & Hq). exists x.
  assert (0 < nsocks x) as Hpos by (clear Hx; lia).
  assert (file_fuel small_dfile < sc_fuel plain_config) as Hf by (clear Hx; vm_compute; lia).
  pose proof (init_ok true 10 plain_config 100 0 1 1 0 x small_dfile 0 Hx Hpos small_dfile_inv Hf small_file_bytes) as Hi.
  clear Hx. assert (unhindered plain_config quiet_env (send_init plain_config x small_dfile 0) (bytes "a A")) as Hun.
  { split; [done|exact Hq| |reflexivity|eexists; vm_compute; reflexivity|].
    - cbn [ss_ti send_init se_others1 quiet_env id]. rewrite Hs, Hm. vm_compute. done.
    - eexists. split; [vm_compute; reflexivity|]. vm_compute. split; lia. }
  exact (sender_round_sends (λ _, mret PERF_R_FAILURE) 10 plain_config 0 quiet_env _ (bytes "a A") plain_config_ok
    (quiet_ok true 10) Hi ltac:(lia) Hun).
Defined.
