(* ===== verification/RecvLoop.v ===== *)
(** * The loop of the receiving thread as a whole (dnsperf.c, [do_recv])

    [recv_round] is one round of the loop: the timeouts, the test for the end, a batch of
    responses from the sockets, their matching and counting, and what is done about an error.
    What the sockets, the clock and the sender do during a round is its argument [recv_env].
    The theorems show that the loop only takes steps of the two-thread system of Dnsperf.v
    and always returns, when it ends the process, and how the sockets are polled. *)

From S2P Require Import Prelude LinkedList Stats Queries DoSend Dnsperf.

Definition EINTR : Z := 4.

(** The variables of [do_recv] that live across rounds. *)
Record recv_state : Type := RecvState {
  rs_ti : threadinfo;
  rs_now : Z;
  rs_last_socket : nat;
}.

(** What happens during a round: the interruption flag, the answers of [perf_net_recv] and the
    time after each, the time after waiting, and what the sender does: between the check and
    the loop of [process_timeouts], before the responses are matched and before they are
    counted. *)
Record recv_env : Type := RecvEnv {
  re_interrupted : bool;
  re_recv : nat → nat → recv_out;
  re_clock : nat → Z;
  re_now : Z;
  re_sender1 : threadinfo → threadinfo;
  re_sender2 : threadinfo → threadinfo;
  re_sender3 : threadinfo → threadinfo;
}.

Definition on_thread {A} (m : M threadinfo A) : M recv_state A := λ s,
  '(a, t) ← m (rs_ti s); Done (a, RecvState t (rs_now s) (rs_last_socket s)).

(** [process_timeouts(tinfo, now)]. *)
Definition process_timeouts (timeout now : Z) (other : threadinfo → threadinfo) : M threadinfo unit :=
  ti ← get;
  o ← lift (timeouts_check timeout now ti);
  match o with
  | None => mret ()
  | Some q => modify other;; _ ← timeouts_run (S (S NQIDS)) timeout now q; mret ()
  end.

(** [memset(socketbits, 0, sizeof(socketbits))]. *)
Definition no_sockets : list Z := replicate (MAX_SOCKETS / 8 + 1) 0%Z.

(** A round of the loop, lines 1273-1392: whether the loop goes on. *)
Definition recv_round (timeout : Z) (e : recv_env) : M recv_state bool :=
  if re_interrupted e then mret false
  else
    s ← get;
    on_thread (process_timeouts timeout (rs_now s) (re_sender1 e));;
    s ← get;
    if decide (done_sending (rs_ti s) = true ∧ num_outstanding (stats (rs_ti s)) = 0%Z) then mret false
    else
      '(recvd, last_socket, _, saved_errno) ←
        lift (recv_batch RECV_BATCH_SIZE (nsocks (rs_ti s)) (re_recv e) (re_clock e) (rs_last_socket s) no_sockets 0 0);
      modify (λ s, RecvState (rs_ti s) (rs_now s) last_socket);;
      on_thread (modify (re_sender2 e));;
      recvd ← on_thread (match_batch recvd);
      on_thread (modify (re_sender3 e));;
      on_thread (modify (count_batch recvd));;
      if decide (length recvd < RECV_BATCH_SIZE) then
        if decide (saved_errno = EINTR) then mret true
        else if decide (saved_errno = EAGAIN) then
          modify (λ s, RecvState (rs_ti s) (re_now e) (rs_last_socket s));; mret true
        else perf_log_fatal
      else mret true.

(** The loop over the rounds of [es]; [true] means that it has not ended yet. *)
Fixpoint recv_loop (timeout : Z) (es : list recv_env) : M recv_state bool :=
  match es with
  | [] => mret true
  | e :: es' => go ← recv_round timeout e; if go : bool then recv_loop timeout es' else mret false
  end.

(** ** Polling the sockets *)

(** What [perf_net_recv] can answer: an error has a number, data is bytes. *)
Definition recv_ok (recv : nat → nat → recv_out) : Prop :=
  ∀ k s, match recv k s with
         | RecvErr e => e ≠ 0%Z
         | RecvData packet => Forall byte_ok packet
         | RecvClosed => True
         end.

(** The marks and the error of a batch so far: a marked socket has failed, and the error is
    that of a socket. *)
Record polled (recv : nat → nat → recv_out) (bits : list Z) (err : Z) : Prop := {
  po_err : ∀ i, bit_check bits i = Done true → err ≠ 0%Z;
  po_source : err = 0%Z ∨ err = EAGAIN ∨ ∃ k s, recv k s = RecvErr err;
}.

Definition marked (bits : list Z) (i : nat) : Prop := bit_check bits i = Done true.

(** A response of the batch, received on one of the sockets. *)
Definition received (recv : nat → nat → recv_out) (clock : nat → Z) (ns : nat) (r : received_query) : Prop :=
  ∃ k s packet, recv k s = RecvData packet ∧ packet ≠ [] ∧ s < ns ∧ r = recv_parse s packet (clock k).

Lemma recv_one_spec recv s k now bits err :
  recv_ok recv → polled recv bits err →
  match recv_one s (recv k s) now err with
  | (Some r, err') => err' = err ∧ ∃ packet, recv k s = RecvData packet ∧ packet ≠ [] ∧ r = recv_parse s packet now
  | (None, err') => err' ≠ 0%Z ∧ (err' = 0%Z ∨ err' = EAGAIN ∨ ∃ k s, recv k s = RecvErr err')
  end.
Proof.
  intros Hok [_ Hsrc]. specialize (Hok k s). unfold recv_one.
  assert ((if decide (err = 0) then EAGAIN else err) ≠ 0 ∧
          ((if decide (err = 0) then EAGAIN else err) = 0 ∨ (if decide (err = 0) then EAGAIN else err) = EAGAIN ∨
           ∃ k s, recv k s = RecvErr (if decide (err = 0) then EAGAIN else err)))%Z as Hag
    by (destruct (decide (err = 0)%Z); [split; [done|by right; left]|done]).
  destruct (recv k s) as [e| |packet] eqn:E; [split; [done|right; right; eauto]|done|].
  destruct (decide (packet = [])); [done|]. split; [done|]. by exists packet.
Qed.

Section poll.
Context (recv : nat → nat → recv_out) (clock : nat → Z) (ns : nat).
Context (Hok : recv_ok recv) (Hns : 0 < ns ≤ MAX_SOCKETS).

(** The loop over the sockets: it stops at the first response, skips the sockets that have
    failed before, and marks those that fail now. *)
Lemma recv_sockets_spec n j last bits err k :
  MAX_SOCKETS ≤ 8 * length bits → polled recv bits err →
  ∃ r bits' err' k', recv_sockets n j ns recv clock last bits err k = Done (r, bits', err', k') ∧
    length bits' = length bits ∧ polled recv bits' err' ∧ (∀ i, marked bits i → marked bits' i) ∧
    match r with
    | Some (q, last') => received recv clock ns q ∧ last' = S (r_sock q)
    | None => ∀ i, j ≤ i < j + n → marked bits' ((i + last) mod ns)
    end.
Proof using Hok Hns.
  revert j bits err k. induction n as [|n IH]; intros j bits err k Hl Hp; cbn [recv_sockets].
  { eexists _, _, _, _. split_and!; [done|done|done|done|]. intros i Hi. lia. }
  set (cur := (j + last) mod ns). assert (cur < ns) as Hcur by (apply Nat.mod_upper_bound; lia).
  assert (cur < 8 * length bits) as Hbit by (clearbody cur; lia).
  destruct (bit_check_in bits cur Hbit) as [b Eb]. rewrite Eb. cbn [mbind run_bind]. destruct b.
  - destruct (IH (S j) bits err k Hl Hp) as (r & bits' & err' & k' & E & Hl' & Hp' & Hm & Hr).
    eexists _, _, _, _. split_and!; [exact E|done|done|done|]. destruct r as [[q last']|]; [done|].
    intros i Hi. destruct (decide (i = j)) as [->|]; [by apply Hm|]. apply Hr. lia.
  - pose proof (recv_one_spec recv cur k (clock k) bits err Hok Hp) as Ho.
    destruct (recv_one cur (recv k cur) (clock k) err) as [[q|] err1].
    + destruct Ho as (-> & packet & Hr & Hne & ->). eexists _, _, _, _. split_and!; [done|done|done|done|].
      split; [by exists k, cur, packet|done].
    + destruct Ho as [Hne Hsrc]. destruct (bit_ops_spec bits cur Hbit) as [(bits1 & E1 & Hl1 & Hb1) _].
      rewrite E1. cbn [mbind run_bind]. destruct (IH (S j) bits1 err1 (S k)) as (r & bits' & err' & k' & E & Hl' & Hp' & Hm & Hr);
        [by rewrite Hl1|by split|]. eexists _, _, _, _. split_and!; [exact E|congruence|done| |].
      * intros i Hi. apply Hm. unfold marked. rewrite Hb1. by destruct (decide (i = cur)).
      * destruct r as [[q last']|]; [done|]. intros i Hi. destruct (decide (i = j)) as [->|]; [|apply Hr; lia].
        apply Hm. unfold marked. rewrite Hb1. by rewrite decide_True.
Qed.

(** The loop over the batch: only received packets, in at most [n] pieces, and fewer only
    when every socket has failed. *)
Lemma recv_batch_spec n last bits err k :
  MAX_SOCKETS ≤ 8 * length bits → polled recv bits err →
  ∃ rs last' bits' err', recv_batch n ns recv clock last bits err k = Done (rs, last', bits', err') ∧
    Forall (received recv clock ns) rs ∧ length rs ≤ n ∧ polled recv bits' err' ∧
    last' = match list.last rs with Some r => S (r_sock r) | None => last end ∧
    (length rs < n → ∀ s, s < ns → marked bits' s).
Proof using Hok Hns.
  revert last bits err k. induction n as [|n IH]; intros last bits err k Hl Hp; cbn [recv_batch].
  { eexists _, _, _, _. split_and!; [done|constructor|done|done|done|]. simpl. intros Hlt. lia. }
  destruct (recv_sockets_spec ns 0 last bits err k Hl Hp) as (r & bits1 & err1 & k1 & E & Hl1 & Hp1 & _ & Hr).
  rewrite E. cbn [mbind run_bind]. destruct r as [[q last1]|].
  - destruct Hr as [Hq ->].
    destruct (IH (S (r_sock q)) bits1 err1 k1 ltac:(by rewrite Hl1) Hp1) as (rs & last2 & bits2 & err2 & E2 & Hrs & Hlen & Hp2 & Hla & Hall).
    rewrite E2. cbn [mbind run_bind]. eexists _, _, _, _. split_and!; [done|by constructor|simpl; lia|done| |].
    + rewrite Hla, last_cons. by destruct (list.last rs).
    + simpl. intros Hlt. apply Hall. lia.
  - eexists _, _, _, _. split_and!; [done|constructor|simpl; lia|done|done|]. intros _ s Hs.
    (* the residues from [last] on cover all sockets *)
    pose proof (Nat.mod_upper_bound last ns ltac:(lia)) as Hm.
    specialize (Hr ((s + ns - last mod ns) mod ns)). replace s with (((s + ns - last mod ns) mod ns + last) mod ns).
    { apply Hr. pose proof (Nat.mod_upper_bound (s + ns - last mod ns) ns ltac:(lia)). lia. }
    rewrite Nat.Div0.add_mod_idemp_l. rewrite (Nat.Div0.div_mod last ns) at 2.
    replace (s + ns - last mod ns + (ns * (last / ns) + last mod ns)) with (s + (1 + last / ns) * ns) by nia.
    rewrite Nat.Div0.mod_add. by apply Nat.mod_small.
Qed.
End poll.

(** ** The loop *)

(** The sender takes steps of the system. *)
Definition sender_ok (timeout : Z) (f : threadinfo → threadinfo) : Prop :=
  ∀ x sd rc h, reachable timeout (Sys x sd rc h) →
    ∃ sd' h', reachable timeout (Sys (f x) sd' rc h') ∧ nsocks (f x) = nsocks x.

Record recv_env_ok (timeout : Z) (e : recv_env) : Prop := {
  env_recv : recv_ok (re_recv e);
  env_sender1 : sender_ok timeout (re_sender1 e);
  env_sender2 : sender_ok timeout (re_sender2 e);
  env_sender3 : sender_ok timeout (re_sender3 e);
}.

Definition receiver_at (timeout : Z) (rc : receiver) (x : threadinfo) : Prop :=
  0 < nsocks x ≤ MAX_SOCKETS ∧ ∃ sd h, reachable timeout (Sys x sd rc h).

Lemma receiver_sender timeout rc f x :
  sender_ok timeout f → receiver_at timeout rc x → receiver_at timeout rc (f x) ∧ nsocks (f x) = nsocks x.
Proof.
  intros Hf (Hns & sd & h & Hr). destruct (Hf x sd rc h Hr) as (sd' & h' & Hr' & Hn).
  split; [|done]. split; [by rewrite Hn|eauto].
Qed.

Lemma receiver_move timeout x sd rc h x' rc' h' :
  0 < nsocks x ≤ MAX_SOCKETS → nsocks x' = nsocks x → reachable timeout (Sys x sd rc h) →
  receiver_step timeout (Sys x sd rc h) (Sys x' sd rc' h') → receiver_at timeout rc' x'.
Proof.
  intros Hns Hn Hr Hs. split; [by rewrite Hn|]. exists sd, h'. eapply reach_step; [exact Hr|by right].
Qed.

(** [process_timeouts] returns; when nothing interferes, it leaves no overdue query at the end of
    the list. *)
Lemma process_timeouts_ok timeout now f x :
  sender_ok timeout f → receiver_at timeout RIdle x →
  ∃ x', process_timeouts timeout now f x = Done ((), x') ∧ receiver_at timeout RIdle x' ∧ nsocks x' = nsocks x.
Proof.
  intros Hf Hat. pose proof Hat as (Hns & sd & h & Hr). destruct (reachable_inv _ _ Hr) as [p [Hinv _ _ _ _ _]].
  cbn [ti] in Hinv. pose proof (oldest_spec x p Hinv) as Ho.
  unfold process_timeouts. rewrite (bind_Done get _ _ _ _ eq_refl).
  destruct (timeouts_check timeout now x) as [[q|]| | | |] eqn:Ec; cycle 1.
  2-5: exfalso; revert Ec; unfold timeouts_check; destruct (last p.1);
       [destruct Ho as (_ & qi & _ & _ & ->); cbn [mbind run_bind]; by destruct (decide _)|by rewrite Ho].
  { rewrite (bind_Done (lift (Done _)) _ _ _ x eq_refl). by exists x. }
  rewrite (bind_Done (lift (Done _)) _ _ _ x eq_refl), (bind_Done (modify f) _ x () (f x) eq_refl).
  assert (receiver_at timeout (RTimeouts q now) x) as Hat1
    by (eapply (receiver_move timeout x sd RIdle h x _ h); [done|done|done|by constructor]).
  destruct (receiver_sender timeout _ f x Hf Hat1) as [(Hns2 & sd2 & h2 & Hr2) Hn2].
  destruct (reachable_inv _ _ Hr2) as [p2 [Hinv2 _ _ Hq2 _ _]]. cbn [ti rcv_at] in *.
  pose proof (timeouts_run_spec (S (S NQIDS)) timeout now q (f x) p2 Hinv2 Hq2) as Hs.
  pose proof (rep_lengths _ _ Hinv2) as Hlen.
  assert (not_outstanding (table (f x)) q ≤ 1) as Hno.
  { unfold not_outstanding. destruct (queries _ !! q); [destruct (decide _); lia|lia]. }
  destruct (timeouts_run (S (S NQIDS)) timeout now q (f x)) as [[k x']| | | |] eqn:Er; try done; [|lia].
  rewrite (bind_Done _ _ _ _ _ Er). destruct Hs as (p3 & _ & (Hn3 & _) & _). exists x'.
  split_and!; [done| |congruence].
  eapply (receiver_move timeout (f x) sd2 (RTimeouts q now) h2 x'); [done|done|done|by econstructor].
Qed.

Lemma on_thread_Done {A} (m : M threadinfo A) s a x :
  m (rs_ti s) = Done (a, x) → on_thread m s = Done (a, RecvState x (rs_now s) (rs_last_socket s)).
Proof. intros E. unfold on_thread. by rewrite E. Qed.

(** The ids of received packets are those of the table. *)
Lemma received_ids recv clock ns rs :
  recv_ok recv → Forall (received recv clock ns) rs →
  Forall as_received rs.
Proof.
  intros Hok Hrs. eapply Forall_impl; [exact Hrs|]. intros r (k & s & packet & Hr & _ & _ & ->).
  assert (r_rcode (recv_parse s packet (clock k)) < DNSPERF_STATS_RCODECOUNTS) as Hrc by apply rcode_range.
  split; [|done].
  specialize (Hok k s). rewrite Hr in Hok. simpl.
  assert (∀ i, byte_ok (default 0%Z (packet !! i))) as Hb.
  { intros i. destruct (packet !! i) as [b|] eqn:E; [|done]. rewrite Forall_lookup in Hok. by apply (Hok i). }
  pose proof (Hb 0) as H0. pose proof (Hb 1) as H1. pose proof NQIDS_val. unfold byte_ok, rd16 in *. lia.
Qed.

(** Matching and counting a batch. *)
Lemma batch_ok timeout f g rs x :
  sender_ok timeout f → sender_ok timeout g → receiver_at timeout RIdle x →
  Forall as_received rs →
  ∃ rs' x1, match_batch rs (f x) = Done (rs', x1) ∧ length rs' = length rs ∧
    receiver_at timeout RIdle (count_batch rs' (g x1)) ∧ nsocks (count_batch rs' (g x1)) = nsocks x.
Proof.
  intros Hf Hg Hat Hrs. destruct (receiver_sender timeout _ f x Hf Hat) as [(Hns & sd & h & Hr) Hn].
  destruct (reachable_inv _ _ Hr) as [p [Hinv _ _ _ _ _]]. cbn [ti] in Hinv.
  destruct (match_batch_spec rs (f x) p Hinv Hrs) as (rs' & x1 & p1 & E & _ & (Hn1 & _) & _ & _ & Hl & _).
  exists rs', x1. split_and!; [done|done| |].
  - assert (receiver_at timeout (RMatched rs') x1) as Hat1
      by (eapply (receiver_move timeout (f x) sd RIdle h x1 _ h); [done|done|done|by econstructor]).
    destruct (receiver_sender timeout _ g x1 Hg Hat1) as [(Hns2 & sd2 & h2 & Hr2) Hn2].
    eapply (receiver_move timeout (g x1) sd2 (RMatched rs') h2); [done| |done|constructor].
    unfold count_batch. by destruct (last rs').
  - destruct (Hg x1 sd (RMatched rs') h) as (? & ? & _ & Hn2).
    { eapply reach_step; [exact Hr|]. right. by econstructor. }
    assert (nsocks (count_batch rs' (g x1)) = nsocks (g x1)) as -> by (unfold count_batch; by destruct (last rs')).
    congruence.
Qed.

Lemma no_sockets_unmarked i : ¬ marked no_sockets i.
Proof.
  unfold marked, bit_check, no_sockets. destruct (replicate _ 0%Z !! (i / 8)) as [b|] eqn:Eb; [|done].
  apply lookup_replicate in Eb as [-> _]. cbn [mbind run_bind]. intros [= Hb]. revert Hb. by rewrite Z.shiftr_0_l.
Qed.

Lemma recv_round_ok timeout e s :
  recv_env_ok timeout e → receiver_at timeout RIdle (rs_ti s) →
  match recv_round timeout e s with
  | Done (true, s') => receiver_at timeout RIdle (rs_ti s')
  | Done (false, s') =>
      (re_interrupted e = true ∧ receiver_at timeout RIdle (rs_ti s')) ∨
      receiver_at timeout RStopped (rs_ti s')
  | Exit c => c = 1%Z ∧ ∃ k i err, re_recv e k i = RecvErr err ∧ err ≠ EAGAIN ∧ err ≠ EINTR
  | _ => False
  end.
Proof.
  intros [Hrecv Hs1 Hs2 Hs3] Hat. unfold recv_round.
  destruct (re_interrupted e); [cbn; by left|].
  rewrite (bind_Done get _ _ _ _ eq_refl).
  destruct (process_timeouts_ok timeout (rs_now s) (re_sender1 e) (rs_ti s) Hs1 Hat) as (x1 & E1 & Hat1 & Hn1).
  rewrite (bind_Done _ _ _ _ _ (on_thread_Done _ s _ _ E1)), (bind_Done get _ _ _ _ eq_refl). cbn [rs_ti].
  destruct (decide (done_sending x1 = true ∧ num_outstanding (stats x1) = 0%Z)) as [[Hd Ho]|_].
  { cbn. right. destruct Hat1 as (Hns & sd & h & Hr).
    eapply (receiver_move timeout x1 sd RIdle h x1 _ h); [done|done|done|by constructor]. }
  pose proof Hat1 as [Hns _].
  destruct (recv_batch_spec (re_recv e) (re_clock e) (nsocks x1) Hrecv Hns RECV_BATCH_SIZE (rs_last_socket s) no_sockets 0 0)
    as (rs & last' & bits & err & E2 & Hrs & Hlen & [Hperr Hpsrc] & _ & Hall).
  { unfold no_sockets. rewrite length_replicate. apply (bool_decide_unpack _). by vm_compute. }
  { split; [|by left]. intros i Hi. by destruct (no_sockets_unmarked i). }
  cbn [rs_last_socket]. rewrite E2, (bind_Done (lift (Done _)) _ _ _ _ eq_refl). cbv beta iota.
  rewrite (bind_Done (modify _) _ _ () _ eq_refl). cbn [rs_ti rs_now].
  rewrite (bind_Done (on_thread (modify (re_sender2 e))) _ _ () _ eq_refl). cbn [rs_ti rs_now rs_last_socket].
  destruct (batch_ok timeout (re_sender2 e) (re_sender3 e) rs x1 Hs2 Hs3 Hat1) as (rs' & x3 & E3 & Hl3 & Hat4 & _);
    [by eapply received_ids|].
  rewrite (bind_Done _ _ _ _ _ (on_thread_Done _ (RecvState (re_sender2 e x1) (rs_now s) last') _ _ E3)).
  cbn [rs_now rs_last_socket].
  rewrite (bind_Done (on_thread (modify (re_sender3 e))) _ _ () _ eq_refl). cbn [rs_ti rs_now rs_last_socket].
  rewrite (bind_Done (on_thread (modify (count_batch rs'))) _ _ () _ eq_refl). cbn [rs_ti rs_now rs_last_socket].
  rewrite Hl3. destruct (decide (length rs < RECV_BATCH_SIZE)) as [Hlt|]; [|exact Hat4].
  destruct (decide (err = EINTR)); [exact Hat4|]. destruct (decide (err = EAGAIN)); [exact Hat4|].
  cbn. split; [done|]. assert (err ≠ 0%Z) as Hnz by (apply (Hperr 0), Hall; [done|lia]).
  destruct Hpsrc as [?|[?|(k & i & Hk)]]; [done|done|]. by exists k, i, err.
Qed.

Lemma recv_loop_ok timeout es s :
  Forall (recv_env_ok timeout) es → receiver_at timeout RIdle (rs_ti s) →
  match recv_loop timeout es s with
  | Done (true, s') => receiver_at timeout RIdle (rs_ti s')
  | Done (false, s') =>
      (Exists (λ e, re_interrupted e = true) es ∧ receiver_at timeout RIdle (rs_ti s')) ∨
      receiver_at timeout RStopped (rs_ti s')
  | Exit c => c = 1%Z ∧ Exists (λ e, ∃ k i err, re_recv e k i = RecvErr err ∧ err ≠ EAGAIN ∧ err ≠ EINTR) es
  | _ => False
  end.
Proof.
  intros Hes. revert s. induction Hes as [|e es He Hes IH]; intros s Hat; cbn [recv_loop]; [done|].
  pose proof (recv_round_ok timeout e s He Hat) as Hr. unfold mbind at 1, M_bind at 1.
  destruct (recv_round timeout e s) as [[[] s1]| | | |]; try done.
  - specialize (IH s1 Hr). destruct (recv_loop timeout es s1) as [[[] s2]| | | |]; try done.
    + destruct IH as [[Hi ?]|?]; [left; split; [by apply Exists_cons_tl|done]|by right].
    + destruct IH as [? Hi]. split; [done|]. by apply Exists_cons_tl.
  - cbn. destruct Hr as [[Hi ?]|?]; [left; split; [by apply Exists_cons_hd|done]|by right].
  - destruct Hr as [? Hi]. split; [done|]. by apply Exists_cons_hd.
Qed.

(** ** Theorems *)

(** C7: from any state the thread can be in, whatever the sockets, the clock and the sender do in
    between, the receiver's loop takes only steps of the system of the two threads and
    returns from every round: no assertion fails, no mark or id is out of range, and the loop
    over timed out queries ends.  It stops only when it is interrupted or when everything was
    sent and nothing is outstanding, and ends the process only when a socket reported an error
    other than [EAGAIN] and [EINTR]. *)
Theorem receiver_loop_total timeout es x sd h now last_socket :
  Forall (recv_env_ok timeout) es → reachable timeout (Sys x sd RIdle h) → 0 < nsocks x ≤ MAX_SOCKETS →
  match recv_loop timeout es (RecvState x now last_socket) with
  | Done (true, s') => ∃ sd h, reachable timeout (Sys (rs_ti s') sd RIdle h)
  | Done (false, s') =>
      (Exists (λ e, re_interrupted e = true) es ∧ ∃ sd h, reachable timeout (Sys (rs_ti s') sd RIdle h)) ∨
      ∃ sd h, reachable timeout (Sys (rs_ti s') sd RStopped h)
  | Exit c => c = 1%Z ∧ Exists (λ e, ∃ k i err, re_recv e k i = RecvErr err ∧ err ≠ EAGAIN ∧ err ≠ EINTR) es
  | _ => False
  end.
Proof.
  intros Hes Hr Hns. pose proof (recv_loop_ok timeout es (RecvState x now last_socket) Hes) as Hl.
  specialize (Hl ltac:(split; [exact Hns|by exists sd, h])).
  destruct (recv_loop _ _ _) as [[[] s']| | | |]; try done; [by destruct Hl|].
  destruct Hl as [[? [_ ?]]|[_ ?]]; [by left|by right].
Qed.

(** a batch: every response in it is a packet that one of the sockets delivered, with its id
    and code; there are at most [n]; polling goes on after the socket of the last one; and
    there are fewer than [n] only when every socket has failed since the start of the batch,
    with the error of one of them. *)
Theorem recv_batch_complete recv clock ns n last_socket :
  recv_ok recv → 0 < ns ≤ MAX_SOCKETS →
  ∃ rs last' bits err, recv_batch n ns recv clock last_socket no_sockets 0 0 = Done (rs, last', bits, err) ∧
    Forall (received recv clock ns) rs ∧ length rs ≤ n ∧
    last' = match list.last rs with Some r => S (r_sock r) | None => last_socket end ∧
    (length rs < n → (∀ s, s < ns → marked bits s) ∧ err ≠ 0%Z ∧ (err = EAGAIN ∨ ∃ k s, recv k s = RecvErr err)).
Proof.
  intros Hok Hns.
  destruct (recv_batch_spec recv clock ns Hok Hns n last_socket no_sockets 0 0)
    as (rs & last' & bits & err & E & Hrs & Hlen & [Hperr Hpsrc] & Hla & Hall).
  { unfold no_sockets. rewrite length_replicate. apply (bool_decide_unpack _). by vm_compute. }
  { split; [|by left]. intros i Hi. by destruct (no_sockets_unmarked i). }
  exists rs, last', bits, err. split_and!; [done..|]. intros Hlt.
  assert (err ≠ 0%Z) as Hnz by (apply (Hperr 0), Hall; [done|lia]).
  split_and!; [by apply Hall|done|]. by destruct Hpsrc.
Qed.

(** *** Witnesses *)

Definition idle_recv_env : recv_env := RecvEnv false (λ _ _, RecvErr EAGAIN) (λ _, 5%Z) 6 id id id.

Lemma idle_recv_ok timeout : recv_env_ok timeout idle_recv_env.
Proof.
  assert (sender_ok timeout id) as Hid by (intros x sd rc h Hr; exists sd, h; done).
  split; [|exact Hid..]. intros k s. simpl. done.
Qed.

Lemma receiver_loop_total_witness :
  ∃ x, match recv_loop 10 [idle_recv_env; idle_recv_env] (RecvState x 5 0) with
       | Done (true, s') => ∃ sd h, reachable 10 (Sys (rs_ti s') sd RIdle h)
       | Done (false, s') =>
           (Exists (λ e, re_interrupted e = true) [idle_recv_env; idle_recv_env] ∧
            ∃ sd h, reachable 10 (Sys (rs_ti s') sd RIdle h)) ∨
           ∃ sd h, reachable 10 (Sys (rs_ti s') sd RStopped h)
       | Exit c => c = 1%Z ∧ Exists (λ e, ∃ k i err, re_recv e k i = RecvErr err ∧ err ≠ EAGAIN ∧ err ≠ EINTR)
                               [idle_recv_env; idle_recv_env]
       | _ => False
       end.
Proof.
  destruct one_thread as (x & Hx & Hn & _). exists x.
  pose proof (reach_init 10 100 0 1 1 0 x Hx) as Hr. clear Hx.
  apply (receiver_loop_total 10 [idle_recv_env; idle_recv_env] x SIdle (History 0 0 0 0) 5 0);
    [constructor; [apply idle_recv_ok|constructor; [apply idle_recv_ok|constructor]]|exact Hr|].
  rewrite Hn. unfold MAX_SOCKETS. lia.
Defined.

Lemma recv_batch_complete_witness :
  let recv k s := match k with 0 => RecvData [0; 7; 128; 3]%Z | _ => RecvErr EAGAIN end in
  ∃ rs last' bits err, recv_batch 16 2 recv (λ _, 5%Z) 1 no_sockets 0 0 = Done (rs, last', bits, err) ∧
    Forall (received recv (λ _, 5%Z) 2) rs ∧ length rs ≤ 16 ∧
    last' = match list.last rs with Some r => S (r_sock r) | None => 1 end ∧
    (length rs < 16 → (∀ s, s < 2 → marked bits s) ∧ err ≠ 0%Z ∧ (err = EAGAIN ∨ ∃ k s, recv k s = RecvErr err)).
Proof.
  intros recv. apply (recv_batch_complete recv (λ _, 5%Z) 2 16 1).
  - intros [|k] s; [by apply (bool_decide_unpack _)|done].
  - unfold MAX_SOCKETS. lia.
Defined.
