(* ===== verification/IntervalStats.v ===== *)
(** * Statistics with histograms, and the interval statistics (dnsperf.c)

    The statistics of Stats.v with the histograms of latencies kept beside them, and the thread
    that reports, at the end of each interval, what was counted since the last report. *)

From S2P Require Import Prelude Hg64 Stats Dnsperf.

Definition HISTOGRAM_SIGBITS : Z := 5.

(** [stats_t] with its members [latency] and [conn_latency]; [None] is a null pointer. *)
Record hstats : Type := HStats { hs_stats : stats_t; hs_latency : option hg64; hs_conn : option hg64 }.

(** [hg64_create(HISTOGRAM_SIGBITS)], which does not fail for this precision. *)
Definition new_hist : run hg64 := match hg64_create HISTOGRAM_SIGBITS with Some h => Done h | None => Undef end.

(** [threadinfo_init] and [count_response] on the histogram: [hg64_inc] when there is one. *)
Definition record_latency (h : option hg64) (latency : Z) : run (option hg64) :=
  match h with Some h => h' ← hg64_inc h latency; Done (Some h') | None => Done None end.

(** The statistics of a response, lines 1335-1370, and of an event of a socket, with the
    histograms. *)
Definition count_hresponse (s : hstats) (r : received_query) : run hstats :=
  if accepted r then
    l ← record_latency (hs_latency s) (u64 (r_when r - r_sent r));
    Done (HStats (count_response (hs_stats s) r) l (hs_conn s))
  else Done s.
Definition net_hevent (ev : perf_socket_event) (elapsed : Z) (s : hstats) : run hstats :=
  c ← match ev with
      | perf_socket_event_reconnected | perf_socket_event_connected => record_latency (hs_conn s) elapsed
      | _ => Done (hs_conn s)
      end;
  Done (HStats (net_event ev elapsed (hs_stats s)) (hs_latency s) c).

Fixpoint count_hresponses (s : hstats) (rs : list received_query) : run hstats :=
  match rs with [] => Done s | r :: rs' => s ← count_hresponse s r; count_hresponses s rs' end.

(** ** Differences *)

(** The histogram of the difference: of the first sample it is the sample itself. *)
Definition hist_diff (last now : option hg64) : run hg64 :=
  diff ← new_hist;
  match now with
  | None => Undef
  | Some now => match last with Some last => hg64_diff now last diff | None => hg64_merge diff now end
  end.

(** [hg64_get] at the lowest or highest key, into a variable that holds 0. *)
Definition lowest (hg : hg64) : run Z :=
  key ← hg64_min_key hg; r ← hg64_get hg key; Done (match r with Some (pmin, _, _) => pmin | None => 0%Z end).
Definition highest (hg : hg64) : run Z :=
  key ← hg64_max_key hg; r ← hg64_get hg key; Done (match r with Some (_, pmax, _) => pmax | None => 0%Z end).

Definition set_extremes (s : stats_t) (lmin lmax cmin cmax : Z) : stats_t :=
  Stats (rcodecounts s) (num_sent s) (num_interrupted s) (num_timedout s) (num_completed s) (total_request_size s)
    (total_response_size s) (latency_sum s) (latency_sum_squares s) lmin lmax (num_conn_attempts s) (num_conn_completed s)
    (conn_latency_sum s) (conn_latency_sum_squares s) cmin cmax.

(** [diff_stats(config, last, now, diff)]; [hist] is [config->latency_histogram]. *)
Definition diff_hstats (hist : bool) (last now : hstats) : run hstats :=
  let d := diff_stats (hs_stats last) (hs_stats now) in
  if hist then
    l ← hist_diff (hs_latency last) (hs_latency now);
    lmin ← lowest l;
    lmax ← highest l;
    c ← hist_diff (hs_conn last) (hs_conn now);
    cmin ← lowest c;
    cmax ← highest c;
    Done (HStats (set_extremes d lmin lmax cmin cmax) (Some l) (Some c))
  else Done (HStats d None None).

(** ** Sums *)

(** [hg64_merge] of two members. *)
Definition merge_member (total part : option hg64) : run (option hg64) :=
  match total, part with Some t, Some p => t' ← hg64_merge t p; Done (Some t') | _, _ => Undef end.

Fixpoint sum_hloop (hist : bool) (total : hstats) (first : bool) (threads : list hstats) : run hstats :=
  match threads with
  | [] => Done total
  | s :: threads' =>
      l ← (if hist then merge_member (hs_latency total) (hs_latency s) else Done (hs_latency total));
      c ← (if hist then merge_member (hs_conn total) (hs_conn s) else Done (hs_conn total));
      sum_hloop hist (HStats (add_stats (hs_stats total) first (hs_stats s)) l c) false threads'
  end.

(** [sum_stats(config, total)]. *)
Definition sum_hstats (hist : bool) (threads : list hstats) : run hstats :=
  l ← (if hist then h ← new_hist; Done (Some h) else Done None);
  c ← (if hist then h ← new_hist; Done (Some h) else Done None);
  sum_hloop hist (HStats zero_stats l c) true threads.

(** ** The interval statistics *)

(** What is printed after an interval: all statistics of it, or the queries completed in it with
    its length, from which the rate is computed. *)
Inductive report : Type := Detailed (d : hstats) (now interval : Z) | Rate (completed now interval : Z).

(** The loop of [do_interval_stats]; a sample is the time and what the threads have counted. *)
Fixpoint interval_loop (hist verbose : bool) (last : hstats) (last_interval_time : Z) (samples : list (Z * list hstats))
    : run (list report) :=
  match samples with
  | [] => Done []
  | (now, threads) :: samples' =>
      total ← sum_hstats hist threads;
      let interval_time := u64 (now - last_interval_time) in
      r ← (if verbose then d ← diff_hstats hist last total; Done (Detailed d now interval_time)
           else Done (Rate (u64 (num_completed (hs_stats total) - num_completed (hs_stats last))) now interval_time));
      rs ← interval_loop hist verbose total now samples';
      Done (r :: rs)
  end.

(** [do_interval_stats]. *)
Definition do_interval_stats (hist verbose : bool) (start_time : Z) (samples : list (Z * list hstats)) : run (list report) :=
  interval_loop hist verbose (HStats zero_stats None None) start_time samples.

(** ** Well-formed statistics *)

Definition hist_ok (h : hg64) : Prop := hg_ok h ∧ sigbits h = HISTOGRAM_SIGBITS.
(** With histograms there are two of them, without there are none. *)
Definition members_ok (hist : bool) (s : hstats) : Prop :=
  if hist then (∃ h, hs_latency s = Some h ∧ hist_ok h) ∧ (∃ h, hs_conn s = Some h ∧ hist_ok h)
  else hs_latency s = None ∧ hs_conn s = None.
Definition hstats_ok (hist : bool) (s : hstats) : Prop := stats_ok (hs_stats s) ∧ members_ok hist s.

(** The histograms of latencies: of the queries, or of the connections ([conn]). *)
Definition latencies_of (conn : bool) (s : hstats) : option hg64 := if conn then hs_conn s else hs_latency s.

(** The number of values in a bucket; none without a histogram. *)
Definition bucket (h : option hg64) (key : Z) : Z := match h with Some h => count_of h key | None => 0%Z end.
Definition key_ok (key : Z) : Prop := (0 ≤ key < KEYS HISTOGRAM_SIGBITS)%Z.

Lemma new_hist_ok : ∃ h, new_hist = Done h ∧ hist_ok h ∧ ∀ k, count_of h k = 0%Z.
Proof.
  unfold new_hist. destruct (hg64_create HISTOGRAM_SIGBITS) as [h|] eqn:E; [|discriminate E].
  destruct (create_ok _ _ E) as (Hok & Hs & Hz). by exists h.
Qed.

Lemma in_range_ok h k : hist_ok h → key_ok k → in_range h k.
Proof. intros [_ Hs] Hk. unfold in_range. by rewrite Hs. Qed.

Lemma hist_diff_spec last now :
  match last with Some l => hist_ok l | None => True end → hist_ok now →
  ∃ d, hist_diff last (Some now) = Done d ∧ hist_ok d ∧
       ∀ k, key_ok k → count_of d k = u64 (count_of now k - bucket last k).
Proof.
  intros Hl Hn. unfold hist_diff. destruct new_hist_ok as (h & -> & Hh & Hz). cbn [mbind run_bind].
  destruct Hh as [Hh Hhs]. pose proof Hn as [Hno Hns]. destruct last as [l|].
  - destruct Hl as [Hlo Hls]. destruct (hg64_diff_spec now l h Hno Hlo Hh) as (d & E & Hd & Hds & Hc); [congruence|congruence|].
    exists d. split; [done|]. split; [split; congruence|]. intros k Hk. rewrite Hc by by apply in_range_ok. by rewrite Hz.
  - destruct (hg64_merge_spec h now Hh Hno) as (d & E & Hd & Hds & Hc); [congruence|].
    exists d. split; [done|]. split; [split; congruence|]. intros k Hk. rewrite Hc by by apply in_range_ok. rewrite Hz. simpl. f_equal. lia.
Qed.

Lemma extremes_done h : hist_ok h → ∃ lo hi, lowest h = Done lo ∧ highest h = Done hi.
Proof.
  intros [Ho Hs]. destruct (hg64_extremes h Ho) as (lo & hi & E1 & E2 & Hr). unfold lowest, highest. rewrite E1, E2.
  cbn [mbind run_bind]. unfold hg64_get.
  assert (in_range h lo ∧ in_range h hi) as [R1 R2].
  { unfold in_range. pose proof (KEYS_bound _ (ok_sigbits _ Ho)). destruct (decide (Forall _ _)); [destruct Hr; lia|].
    destruct Hr as [Hr _]. lia. }
  rewrite !decide_True by apply R1 || apply R2. rewrite !get_key_count_spec by done. cbn [mbind run_bind]. by eexists _, _.
Qed.

(** ** Sums over the threads *)

Lemma zip_counts_range f a b : Forall (λ z, 0 ≤ z < 2 ^ 64)%Z (zip_counts f a b).
Proof.
  unfold zip_counts. revert b. induction a as [|x a IH]; intros [|y b]; simpl; constructor; [apply u64_range|apply IH].
Qed.

Lemma add_stats_ok total first s : stats_ok total → stats_ok s → stats_ok (add_stats total first s).
Proof.
  intros [H1 _] [H2 _]. split.
  - simpl. unfold zip_counts. by rewrite length_zip_with, H1, H2.
  - rewrite counters_add by congruence. apply zip_counts_range.
Qed.

Lemma diff_stats_ok last now : stats_ok last → stats_ok now → stats_ok (diff_stats last now).
Proof.
  intros [H1 _] [H2 _]. split.
  - simpl. unfold zip_counts. by rewrite length_zip_with, H1, H2.
  - rewrite counters_diff by congruence. apply zip_counts_range.
Qed.

Lemma diff_nth last now i :
  stats_ok last → stats_ok now → i < 28 →
  nth_counter i (diff_stats last now) = u64 (nth_counter i now - nth_counter i last).
Proof.
  intros [H1 _] [H2 _] Hi. unfold nth_counter. rewrite counters_diff by congruence. unfold zip_counts.
  assert (∀ s, length (rcodecounts s) = DNSPERF_STATS_RCODECOUNTS → ∃ x, counters s !! i = Some x) as Hx.
  { intros s Hs. apply lookup_lt_is_Some_2. unfold counters. by rewrite length_app, Hs. }
  destruct (Hx last H1) as [x Ex]. destruct (Hx now H2) as [y Ey]. by rewrite lookup_zip_with, Ex, Ey.
Qed.

Lemma merge_member_spec t p :
  (∃ h, t = Some h ∧ hist_ok h) → (∃ h, p = Some h ∧ hist_ok h) →
  ∃ h, merge_member t p = Done (Some h) ∧ hist_ok h ∧ ∀ k, key_ok k → count_of h k = u64 (bucket t k + bucket p k).
Proof.
  intros (th & -> & Ht) (ph & -> & Hp). pose proof Ht as [Hto Hts]. pose proof Hp as [Hpo Hps].
  destruct (hg64_merge_spec th ph Hto Hpo) as (h & E & Ho & Hs & Hc); [congruence|]. simpl. rewrite E. cbn [mbind run_bind].
  exists h. split; [done|]. split; [split; congruence|]. intros k Hk. apply Hc. by apply in_range_ok.
Qed.

Lemma sum_hloop_spec hist threads total first :
  hstats_ok hist total → Forall (hstats_ok hist) threads →
  ∃ t, sum_hloop hist total first threads = Done t ∧ hstats_ok hist t ∧
    hs_stats t = sum_loop (hs_stats total) first (map hs_stats threads) ∧
    ∀ w k, key_ok k → bucket (latencies_of w t) k =
      u64 (bucket (latencies_of w total) k + sumZ (map (λ s, bucket (latencies_of w s) k) threads)).
Proof.
  intros Ht Hs. revert total first Ht. induction Hs as [|s threads Hs _ IH]; intros total first [Ho Hm]; cbn [sum_hloop].
  { exists total. split; [done|]. split; [done|]. split; [done|]. intros w k Hk. simpl. rewrite Z.add_0_r.
    destruct hist; simpl in Hm.
    - destruct Hm as [(h & E1 & Hok1 & _) (h' & E2 & Hok2 & _)].
      destruct w; unfold latencies_of; rewrite ?E1, ?E2; simpl; by rewrite u64_small by by apply count_of_range.
    - destruct Hm as [E1 E2]. by destruct w; unfold latencies_of; rewrite ?E1, ?E2. }
  destruct Hs as [Hso Hsm]. destruct hist; simpl in Hm, Hsm.
  - destruct Hm as [Hm1 Hm2]. destruct Hsm as [Hs1 Hs2].
    destruct (merge_member_spec _ _ Hm1 Hs1) as (l & -> & Hl & Hlc). destruct (merge_member_spec _ _ Hm2 Hs2) as (c & -> & Hc & Hcc).
    cbn [mbind run_bind]. edestruct IH as (t & E & Hok & Hst & Hb); [|exists t; split; [exact E|]].
    { split; [by apply add_stats_ok|]. split; [by exists l|by exists c]. }
    split; [done|]. split; [exact Hst|]. intros w k Hk. rewrite Hb by done. cbn [map sumZ foldr].
    fold (sumZ (map (λ s, bucket (latencies_of w s) k) threads)).
    destruct w; cbn [latencies_of hs_latency hs_conn bucket]; rewrite ?Hlc, ?Hcc by done; rewrite u64_add_l; f_equal; lia.
  - cbn [mbind run_bind]. edestruct IH as (t & E & Hok & Hst & Hb); [|exists t; split; [exact E|]].
    { split; [by apply add_stats_ok|]. exact Hm. }
    split; [done|]. split; [exact Hst|]. intros w k Hk. rewrite Hb by done. cbn [map].
    destruct Hm as [E1 E2], Hsm as [E3 E4]. by destruct w; unfold latencies_of; cbn [hs_latency hs_conn]; rewrite ?E1, ?E2, ?E3, ?E4.
Qed.

Lemma zero_stats_ok : stats_ok zero_stats.
Proof. split; [done|]. apply (bool_decide_unpack _). by vm_compute. Qed.

Lemma sum_hstats_spec hist threads :
  Forall (hstats_ok hist) threads →
  ∃ t, sum_hstats hist threads = Done t ∧ hstats_ok hist t ∧ hs_stats t = sum_stats (map hs_stats threads) ∧
    ∀ w k, key_ok k → bucket (latencies_of w t) k = u64 (sumZ (map (λ s, bucket (latencies_of w s) k) threads)).
Proof.
  intros Hs. unfold sum_hstats. destruct hist.
  - destruct new_hist_ok as (h & -> & Hh & Hz). cbn [mbind run_bind].
    destruct (sum_hloop_spec true threads (HStats zero_stats (Some h) (Some h)) true) as (t & E & Hok & Hst & Hb); [|done|].
    { split; [apply zero_stats_ok|]. split; by exists h. }
    exists t. split; [exact E|]. split; [done|]. split; [exact Hst|]. intros w k Hk. rewrite Hb by done. destruct w; simpl; by rewrite Hz.
  - cbn [mbind run_bind].
    destruct (sum_hloop_spec false threads (HStats zero_stats None None) true) as (t & E & Hok & Hst & Hb); [|done|].
    { split; [apply zero_stats_ok|done]. }
    exists t. split; [exact E|]. split; [done|]. split; [exact Hst|]. intros w k Hk. rewrite Hb by done. by destruct w.
Qed.

(** ** Reports *)

(** What an earlier sample is: nothing was sampled, or the totals of the threads. *)
Definition last_ok (hist : bool) (s : hstats) : Prop :=
  stats_ok (hs_stats s) ∧ match hs_latency s with Some h => hist_ok h | None => True end ∧
  match hs_conn s with Some h => hist_ok h | None => True end.

Lemma hstats_last hist s : hstats_ok hist s → last_ok hist s.
Proof.
  intros [Ho Hm]. split; [done|]. destruct hist; simpl in Hm.
  - by destruct Hm as [(h & -> & ?) (h' & -> & ?)].
  - by destruct Hm as [-> ->].
Qed.

Lemma diff_hstats_spec hist last now :
  last_ok hist last → hstats_ok hist now →
  ∃ d, diff_hstats hist last now = Done d ∧
    num_completed (hs_stats d) = u64 (num_completed (hs_stats now) - num_completed (hs_stats last)) ∧
    (∀ i, i < 28 → nth_counter i (hs_stats d) = u64 (nth_counter i (hs_stats now) - nth_counter i (hs_stats last))) ∧
    (hist = true → ∀ w k, key_ok k →
       bucket (latencies_of w d) k = u64 (bucket (latencies_of w now) k - bucket (latencies_of w last) k)).
Proof.
  intros (Hl & Hl1 & Hl2) [Hn Hm]. unfold diff_hstats. destruct hist; simpl in Hm.
  - destruct Hm as [(hl & El & Hhl) (hc & Ec & Hhc)]. rewrite El, Ec.
    destruct (hist_diff_spec (hs_latency last) hl Hl1 Hhl) as (l & -> & Hlo & Hlc). cbn [mbind run_bind].
    destruct (hist_diff_spec (hs_conn last) hc Hl2 Hhc) as (c & -> & Hco & Hcc). cbn [mbind run_bind].
    destruct (extremes_done l Hlo) as (a & b & -> & ->). destruct (extremes_done c Hco) as (a' & b' & -> & ->). cbn [mbind run_bind].
    eexists. split; [reflexivity|]. split; [done|]. split; [|intros _ [|] k Hk; cbn [latencies_of hs_latency hs_conn bucket]; rewrite ?El, ?Ec; [by apply Hcc|by apply Hlc]].
    intros i Hi. rewrite <- diff_nth by done. done.
  - eexists. split; [reflexivity|]. split; [done|]. split; [|done]. intros i Hi. by apply diff_nth.
Qed.

Definition r_interval (r : report) : Z := match r with Detailed _ _ i => i | Rate _ _ i => i end.
Definition r_completed (r : report) : Z := match r with Detailed d _ _ => num_completed (hs_stats d) | Rate c _ _ => c end.
(** A counter and a bucket of a detailed report. *)
Definition r_counter (i : nat) (r : report) : Z := match r with Detailed d _ _ => nth_counter i (hs_stats d) | Rate _ _ _ => 0%Z end.
Definition r_bucket (conn : bool) (k : Z) (r : report) : Z :=
  match r with Detailed d _ _ => bucket (latencies_of conn d) k | Rate _ _ _ => 0%Z end.

Lemma u64_telescope x y z b : u64 b = u64 (z - x) → u64 (u64 (x - y) + b) = u64 (z - y).
Proof. intros E. rewrite u64_add_l, <- u64_add_r, E, u64_add_r. f_equal. lia. Qed.

Lemma u64_sub_self z : u64 (z - z) = 0%Z.
Proof. by rewrite Z.sub_diag. Qed.

Lemma nth_completed s : stats_ok s → nth_counter 19 s = num_completed s.
Proof.
  intros [Hl _]. unfold nth_counter, counters. unfold DNSPERF_STATS_RCODECOUNTS in Hl. rewrite lookup_app_r by lia. by rewrite Hl.
Qed.

(** The reports of samples up to the totals [tot] at time [tn] add up. *)
Record adds_up (hist verbose : bool) (last tot : hstats) (t0 tn : Z) (rs : list report) : Prop := {
  up_completed : u64 (sumZ (map r_completed rs)) = u64 (num_completed (hs_stats tot) - num_completed (hs_stats last));
  up_interval : u64 (sumZ (map r_interval rs)) = u64 (tn - t0);
  up_counters : verbose = true → ∀ i, i < 28 →
    u64 (sumZ (map (r_counter i) rs)) = u64 (nth_counter i (hs_stats tot) - nth_counter i (hs_stats last));
  up_buckets : verbose = true → hist = true → ∀ w k, key_ok k →
    u64 (sumZ (map (r_bucket w k) rs)) = u64 (bucket (latencies_of w tot) k - bucket (latencies_of w last) k);
}.

Lemma adds_up_nil hist verbose s t : adds_up hist verbose s s t t [].
Proof. split; intros; simpl; by rewrite u64_sub_self. Qed.

Lemma report_spec hist verbose last total t0 now :
  last_ok hist last → hstats_ok hist total →
  ∃ r, (if verbose : bool then d ← diff_hstats hist last total; Done (Detailed d now (u64 (now - t0)))
        else Done (Rate (u64 (num_completed (hs_stats total) - num_completed (hs_stats last))) now (u64 (now - t0)))) = Done r ∧
    r_interval r = u64 (now - t0) ∧ r_completed r = u64 (num_completed (hs_stats total) - num_completed (hs_stats last)) ∧
    (verbose = true → (∀ i, i < 28 → r_counter i r = u64 (nth_counter i (hs_stats total) - nth_counter i (hs_stats last))) ∧
       (hist = true → ∀ w k, key_ok k →
          r_bucket w k r = u64 (bucket (latencies_of w total) k - bucket (latencies_of w last) k))).
Proof.
  intros Hl Ht. destruct verbose; [|by eexists].
  destruct (diff_hstats_spec hist last total Hl Ht) as (d & -> & Hc & Hn & Hb). cbn [mbind run_bind].
  by eexists.
Qed.

Lemma interval_loop_spec hist verbose samples last t0 :
  last_ok hist last → Forall (λ s, Forall (hstats_ok hist) s.2) samples →
  ∃ rs tot tn, interval_loop hist verbose last t0 samples = Done rs ∧ length rs = length samples ∧
    (samples = [] → tot = last ∧ tn = t0) ∧
    (∀ pre now threads, samples = pre ++ [(now, threads)] → tn = now ∧ sum_hstats hist threads = Done tot) ∧
    adds_up hist verbose last tot t0 tn rs.
Proof.
  intros Hl Hs. revert last t0 Hl. induction Hs as [|[now threads] samples Hs _ IH]; intros last t0 Hl; cbn [interval_loop].
  { exists [], last, t0. split_and!; try done; [|apply adds_up_nil]. intros pre n th E. by destruct pre. }
  simpl in Hs. destruct (sum_hstats_spec hist threads Hs) as (total & Et & Hok & _). rewrite Et. cbn [mbind run_bind].
  destruct (report_spec hist verbose last total t0 now Hl Hok) as (r & -> & Ri & Rc & Rv). cbn [mbind run_bind].
  destruct (IH total now (hstats_last _ _ Hok)) as (rs & tot & tn & -> & Hlen & Hnil & Hlast & [U1 U2 U3 U4]). cbn [mbind run_bind].
  exists (r :: rs), tot, tn. split; [done|]. split; [simpl; by rewrite Hlen|]. split; [done|]. split.
  - intros pre n th E. destruct pre as [|p pre]; simpl in E.
    + injection E as -> -> E2. by destruct (Hnil E2) as [-> ->].
    + injection E as E1 E2. by apply (Hlast pre).
  - split; cbn [map sumZ foldr]; fold (sumZ (map r_completed rs)).
    + rewrite Rc. by apply u64_telescope.
    + rewrite Ri. by apply u64_telescope.
    + intros Hv i Hi. rewrite (proj1 (Rv Hv)) by done. apply u64_telescope. by apply U3.
    + intros Hv Hh w k Hk. rewrite (proj2 (Rv Hv)) by done. apply u64_telescope. by apply U4.
Qed.

(** ** Theorems *)

(** C39: The interval statistics add up: after each interval there is one report, and the reports
    together account exactly for what the threads have counted when the last one is made: the
    completed queries, the time since the start and, with detailed reports, every counter and
    every bucket of both histograms, of the latencies of queries and of connections, whose totals
    are the sums over the threads. *)
Theorem interval_reports_add_up hist verbose start samples now threads :
  Forall (λ s, Forall (hstats_ok hist) s.2) (samples ++ [(now, threads)]) →
  ∃ rs, do_interval_stats hist verbose start (samples ++ [(now, threads)]) = Done rs ∧ length rs = S (length samples) ∧
    u64 (sumZ (map r_completed rs)) = num_completed (sum_stats (map hs_stats threads)) ∧
    u64 (sumZ (map r_interval rs)) = u64 (now - start) ∧
    (verbose = true →
       (∀ i, i < 28 → u64 (sumZ (map (r_counter i) rs)) = nth_counter i (sum_stats (map hs_stats threads))) ∧
       (hist = true → ∀ conn k, key_ok k →
          u64 (sumZ (map (r_bucket conn k) rs)) = u64 (sumZ (map (λ s, bucket (latencies_of conn s) k) threads)))).
Proof.
  intros Hs. unfold do_interval_stats.
  destruct (interval_loop_spec hist verbose (samples ++ [(now, threads)]) (HStats zero_stats None None) start)
    as (rs & tot & tn & E & Hlen & _ & Hlast & [U1 U2 U3 U4]); [split; [apply zero_stats_ok|done]|done|].
  destruct (Hlast samples now threads eq_refl) as [-> Et]. exists rs. split; [done|].
  apply Forall_app in Hs as [_ Hs]. apply Forall_cons in Hs as [Hs _]. simpl in Hs.
  destruct (sum_hstats_spec hist threads Hs) as (t & Et' & [Hok _] & Hst & Hb). rewrite Et in Et'. injection Et' as <-.
  rewrite <- Hst. split; [rewrite Hlen, length_app; simpl; lia|].
  assert (∀ i, i < 28 → nth_counter i zero_stats = 0%Z) as H0.
  { intros i Hi. unfold nth_counter. do 28 (destruct i as [|i]; [done|]). lia. }
  assert (∀ i, i < 28 → (0 ≤ nth_counter i (hs_stats tot) < 2 ^ 64)%Z) as Hr.
  { intros i Hi. destruct Hok as [Hl Hf]. unfold nth_counter. destruct (counters (hs_stats tot) !! i) as [x|] eqn:Ex; [|simpl; lia].
    by apply (Forall_lookup_1 _ _ _ _ Hf Ex). }
  split. { rewrite U1, <- (nth_completed _ Hok). cbn [hs_stats]. rewrite <- (nth_completed _ zero_stats_ok).
           rewrite H0, Z.sub_0_r, u64_small by (try apply Hr; lia). done. }
  split; [done|]. intros Hv. split.
  - intros i Hi. rewrite U3 by done. cbn [hs_stats]. by rewrite H0, Z.sub_0_r, u64_small by (try apply Hr; done).
  - intros Hh w k Hk. rewrite U4 by done. rewrite Hb by done. destruct w; cbn [latencies_of hs_latency hs_conn bucket]; rewrite Z.sub_0_r; apply u64_idemp.
Qed.

(** A thread with [n] queries answered after 20 microseconds each, and a connection that took 7. *)
Definition example_hist (v : Z) (n : nat) : option hg64 :=
  match new_hist with
  | Done h => match hg64_incs h (replicate n v) with Done h => Some h | _ => None end
  | _ => None
  end.
Definition example_thread (n : nat) : hstats :=
  HStats (sample_stats (Z.of_nat n) (Z.of_nat n) 20 20) (example_hist 20 n) (example_hist 7 1).

Lemma example_hist_ok v n : (0 ≤ v < 2 ^ 64)%Z → ∃ h, example_hist v n = Some h ∧ hist_ok h.
Proof.
  intros Hv. unfold example_hist. destruct new_hist_ok as (h & -> & [Ho Hs] & _).
  destruct (incs_spec (replicate n v) h Ho) as (h' & -> & Ho' & Hs' & _); [by apply Forall_replicate|].
  exists h'. split; [done|]. split; [done|congruence].
Qed.

Lemma interval_reports_add_up_witness :
  ∃ rs, do_interval_stats true true 100 ([(1100%Z, [example_thread 1])] ++ [(2100%Z, [example_thread 3])]) = Done rs ∧
    length rs = 2 ∧ u64 (sumZ (map r_completed rs)) = 3%Z ∧ u64 (sumZ (map r_interval rs)) = 2000%Z ∧
    ∀ conn k, key_ok k →
      u64 (sumZ (map (r_bucket conn k) rs)) = u64 (bucket (latencies_of conn (example_thread 3)) k + 0).
Proof.
  destruct (interval_reports_add_up true true 100 [(1100%Z, [example_thread 1])] 2100 [example_thread 3])
    as (rs & E & Hl & H1 & H2 & H3).
  - assert (∀ n, n < 10 → hstats_ok true (example_thread n)) as Hx.
    { intros n Hn. split; [|split; apply example_hist_ok; lia]. split; [done|]. repeat constructor; simpl; lia. }
    constructor; [constructor; [apply Hx; lia|constructor]|]. constructor; [constructor; [apply Hx; lia|constructor]|constructor].
  - exists rs. split; [exact E|]. split; [exact Hl|]. split; [exact H1|]. split; [exact H2|].
    exact (proj2 (H3 eq_refl) eq_refl).
Defined.

(** What the two reports say: one and then two queries of 20 microseconds, and one connection of 7. *)
Example example_interval_reports :
  match do_interval_stats true true 100 [(1100%Z, [example_thread 1]); (2100%Z, [example_thread 3])] with
  | Done rs => (map r_completed rs, map (r_bucket false 20) rs, map (r_bucket true 7) rs) = ([1; 2], [1; 2], [1; 0])%Z
  | _ => False
  end.
Proof. vm_compute. reflexivity. Qed.

(** *** The histogram of a thread *)

Lemma count_hresponses_incs s h rs :
  hs_latency s = Some h →
  count_hresponses s rs =
  (h' ← hg64_incs h (latencies rs); Done (HStats (foldl count_response (hs_stats s) rs) (Some h') (hs_conn s))).
Proof.
  revert s h. induction rs as [|r rs IH]; intros s h Hh; [by destruct s; simpl in *; subst|].
  cbn [count_hresponses foldl]. unfold count_hresponse, latencies. cbn [List.filter].
  destruct (accepted r) eqn:Ha.
  - rewrite Hh. cbn [record_latency map hg64_incs]. destruct (hg64_inc h _) as [h1| | | |]; try done. cbn [mbind run_bind].
    by rewrite (IH (HStats (count_response (hs_stats s) r) (Some h1) (hs_conn s)) h1 eq_refl).
  - cbn [mbind run_bind]. rewrite (IH s h Hh). assert (count_response (hs_stats s) r = hs_stats s) as ->; [|done].
    unfold count_response. by rewrite Ha.
Qed.

(** The histogram of a thread counts each accepted response in the bucket of its latency, and the
    other statistics are those without a histogram. *)
Theorem latency_histogram_counts rs :
  ∃ h s, new_hist = Done h ∧ count_hresponses (HStats zero_stats (Some h) None) rs = Done s ∧
    hs_stats s = foldl count_response zero_stats rs ∧
    ∀ k, key_ok k → bucket (hs_latency s) k = u64 (bucket_size HISTOGRAM_SIGBITS k (latencies rs)).
Proof.
  destruct new_hist_ok as (h & E & Hh & Hz). pose proof Hh as [Ho Hs]. exists h.
  destruct (incs_spec (latencies rs) h Ho) as (h' & Ei & _ & _ & Hc).
  { apply Forall_map, Forall_true. intros r. apply u64_range. }
  eexists. split; [done|]. rewrite (count_hresponses_incs (HStats zero_stats (Some h) None) h _ eq_refl), Ei. cbn [mbind run_bind]. split; [reflexivity|].
  split; [done|]. intros k Hk. cbn [hs_latency bucket]. rewrite Hc by by apply in_range_ok. by rewrite Hz, Hs.
Qed.
