(* ===== verification/NetTcp.v ===== *)
(** * DNS over TCP (net_tcp.c)

    A TCP socket of dnsperf frames messages with a two byte length.  The receiving thread
    collects what the kernel delivers until a frame is complete ([tcp_recv]); the sending
    thread sends a frame, continues a frame that was sent in part, and reconnects
    ([tcp_sendto], [tcp_sockready]).  What the system calls return is an argument. *)

From S2P Require Import Prelude Dnsperf.

Definition TCP_RECV_BUF_SIZE : nat := Z.to_nat 65537.
Definition TCP_SEND_BUF_SIZE : nat := Z.to_nat 65537.

Lemma TCP_RECV_BUF_SIZE_val : Z.of_nat TCP_RECV_BUF_SIZE = 65537%Z.
Proof. unfold TCP_RECV_BUF_SIZE. lia. Qed.
Lemma TCP_SEND_BUF_SIZE_val : Z.of_nat TCP_SEND_BUF_SIZE = 65537%Z.
Proof. unfold TCP_SEND_BUF_SIZE. lia. Qed.
#[global] Opaque TCP_RECV_BUF_SIZE TCP_SEND_BUF_SIZE.

(** The [errno] values that are told apart. *)
Inductive errno : Set :=
| E_AGAIN | E_INPROGRESS | E_BADF | E_CONNREFUSED | E_CONNRESET | E_NOTCONN | E_PIPE | E_other.

#[export] Instance errno_eq_dec : EqDecision errno.
Proof. solve_decision. Defined.

(** [struct perf__tcp_socket]; [wire], [sent_cb] and [events] are for the specification: the
    bytes written to the current connection, the ids [sock->sent] was called with, and the
    events [sock->event] was called with. *)
Record tcp : Type := Tcp {
  fd : Z;
  recvbuf : list Z;
  sendbuf : list Z;
  at_ : nat;
  sending : nat;
  is_ready : bool;
  need_reconnect : bool;
  have_more : bool;
  is_sending : bool;
  recvfd : Z;
  recv_need_reconn : Z;
  qid : Z;
  conn_ts : Z;
  conn_event : perf_socket_event;
  conning_event : perf_socket_event;
  num_queries_per_conn : Z;
  nqpc_timeout : Z;
  nqpc_sent : Z;
  nqpc_recv : Z;
  nqpc_ts : Z;
  wire : list Z;
  sent_cb : list Z;
  events : list (perf_socket_event * Z);
}.

Definition set_recv (s : tcp) (buf : list Z) (n : nat) (more : bool) (rfd rneed rcvd : Z) : tcp :=
  Tcp (fd s) buf (sendbuf s) n (sending s) (is_ready s) (need_reconnect s) more (is_sending s) rfd rneed
    (qid s) (conn_ts s) (conn_event s) (conning_event s) (num_queries_per_conn s) (nqpc_timeout s) (nqpc_sent s)
    rcvd (nqpc_ts s) (wire s) (sent_cb s) (events s).

Definition set_send (s : tcp) (buf : list Z) (n : nat) (need issnd : bool) (id nsent : Z) (w cb : list Z) : tcp :=
  Tcp (fd s) (recvbuf s) buf (at_ s) n (is_ready s) need (have_more s) issnd (recvfd s) (recv_need_reconn s)
    id (conn_ts s) (conn_event s) (conning_event s) (num_queries_per_conn s) (nqpc_timeout s) nsent
    (nqpc_recv s) (nqpc_ts s) w cb (events s).

Definition set_conn (s : tcp) (newfd : Z) (ready : bool) (ts : Z) (cev cgev : perf_socket_event)
    (nsent nrecv nts : Z) (w : list Z) (evs : list (perf_socket_event * Z)) : tcp :=
  Tcp newfd (recvbuf s) (sendbuf s) (at_ s) (sending s) ready (need_reconnect s) (have_more s) (is_sending s)
    (recvfd s) (recv_need_reconn s) (qid s) ts cev cgev (num_queries_per_conn s) (nqpc_timeout s) nsent nrecv nts
    w (sent_cb s) evs.

Definition set_need_reconnect (s : tcp) (b : bool) : tcp :=
  set_send s (sendbuf s) (sending s) b (is_sending s) (qid s) (nqpc_sent s) (wire s) (sent_cb s).
Definition set_sending (s : tcp) (n : nat) (b : bool) : tcp :=
  set_send s (sendbuf s) n (need_reconnect s) b (qid s) (nqpc_sent s) (wire s) (sent_cb s).
Definition set_ready (s : tcp) (b : bool) : tcp :=
  set_conn s (fd s) b (conn_ts s) (conn_event s) (conning_event s) (nqpc_sent s) (nqpc_recv s) (nqpc_ts s)
    (wire s) (events s).
Definition set_nqpc_ts (s : tcp) (ts : Z) : tcp :=
  set_conn s (fd s) (is_ready s) (conn_ts s) (conn_event s) (conning_event s) (nqpc_sent s) (nqpc_recv s) ts
    (wire s) (events s).

(** ** Receiving *)

(** What [recv] returned: an error, end of file, or bytes. *)
Inductive sys_recv : Type := SysRecvErr (e : errno) | SysRecvEof | SysRecvData (bs : list Z).

(** What [perf__tcp_recv] returns: -1 with [errno], 0, or the length with the bytes copied. *)
Inductive tcp_recv_result : Type := TcpErr (e : errno) | TcpEof | TcpMsg (dnslen : nat) (copied : list Z).

(** The length at the start of the receive buffer. *)
Definition buf_dnslen (buf : list Z) : nat :=
  Z.to_nat (rd16 (default 0%Z (buf !! 0)) (default 0%Z (buf !! 1))).

(** The end of [perf__tcp_recv], lines 193-218: deliver the frame at the start of the buffer. *)
Definition tcp_deliver (len : nat) : M tcp tcp_recv_result :=
  s ← get;
  let dnslen := buf_dnslen (recvbuf s) in
  if decide (at_ s < dnslen + 2) then mret (TcpErr E_AGAIN)
  else
    let copied := take (Nat.min len dnslen) (drop 2 (recvbuf s)) in
    let rest := take (at_ s - 2 - dnslen) (drop (2 + dnslen) (recvbuf s)) in
    let buf := list_inserts 0 rest (recvbuf s) in
    let n := at_ s - (2 + dnslen) in
    let rcvd := if decide (num_queries_per_conn s ≠ 0)%Z then u32 (nqpc_recv s + 1) else nqpc_recv s in
    let more := bool_decide (2 < n) && bool_decide (buf_dnslen buf + 2 ≤ n) in
    put (set_recv s buf n more (recvfd s) (recv_need_reconn s) rcvd);;
    mret (TcpMsg dnslen copied).

(** [perf__tcp_recv(sock, buf, len, flags)]; [r] is what [recv] would return.  [recv] gives at
    most the number of bytes it was asked for. *)
Definition tcp_recv (len : nat) (r : sys_recv) : M tcp tcp_recv_result :=
  modify (λ s, if decide (fd s ≠ recvfd s)
               then set_recv s (recvbuf s) 0 false (fd s) (recv_need_reconn s) (nqpc_recv s) else s);;
  s ← get;
  if have_more s then tcp_deliver len
  else
    match r with
    | SysRecvEof =>
        put (set_recv s (recvbuf s) (at_ s) (have_more s) (recvfd s) (fd s) (nqpc_recv s));; mret TcpEof
    | SysRecvErr e =>
        if decide (e = E_BADF ∨ e = E_CONNREFUSED ∨ e = E_CONNRESET ∨ e = E_NOTCONN) then
          put (set_recv s (recvbuf s) (at_ s) (have_more s) (recvfd s) (fd s) (nqpc_recv s));;
          mret (TcpErr E_AGAIN)
        else mret (TcpErr e)
    | SysRecvData bs =>
        if decide (TCP_RECV_BUF_SIZE < at_ s + length bs) then lift Undef
        else
          let n := at_ s + length bs in
          put (set_recv s (list_inserts (at_ s) bs (recvbuf s)) n (have_more s) (recvfd s) (recv_need_reconn s)
                 (nqpc_recv s));;
          if decide (n < 3) then mret (TcpErr E_AGAIN) else tcp_deliver len
    end.

(** ** Connecting and sending *)

(** What connecting came to: [ConnFailed] is a [connect] that failed for good and, in a
    reconnection, any other call of [perf__tcp_connect] whose failure ends the process. *)
Inductive conn_res : Set := ConnOk | ConnInProgress | ConnFailed.

(** What [sendto] returned. *)
Inductive sys_send : Set := SysSent (n : nat) | SysSendErr (e : errno).

(** [perf__tcp_connect(sock)]: [newfd] is what [socket] returned, [now] the time and [res] what
    [connect] did.  The new descriptor is returned, not stored. *)
Definition tcp_connect (newfd now : Z) (res : conn_res) : M tcp Z :=
  modify (λ s, set_conn s (fd s) true (conn_ts s) (conn_event s) (conning_event s) 0 0 0 (wire s) (events s));;
  if decide (newfd = -1)%Z then perf_log_fatal
  else
    modify (λ s, set_conn s (fd s) (is_ready s) now (conn_event s) perf_socket_event_reconnecting (nqpc_sent s)
                   (nqpc_recv s) (nqpc_ts s) (wire s) (events s ++ [(conning_event s, now)]));;
    match res with
    | ConnOk => mret newfd
    | ConnInProgress => modify (λ s, set_ready s false);; mret newfd
    | ConnFailed => perf_log_fatal
    end.

(** [sock->fd] becomes the new connection, on which nothing has been written. *)
Definition swap_fd (newfd : Z) : M tcp unit :=
  modify (λ s, set_conn s newfd (is_ready s) (conn_ts s) (conn_event s) (conning_event s) (nqpc_sent s)
                 (nqpc_recv s) (nqpc_ts s) [] (events s)).

(** [perf__tcp_sendto(sock, qid, buf, len, ...)]: [None] is -1 with [errno] as given. *)
Definition tcp_sendto (id : Z) (buf : list Z) (r : sys_send) : M tcp (errno + nat) :=
  let send := if decide (length buf < TCP_SEND_BUF_SIZE - 2) then length buf else TCP_SEND_BUF_SIZE - 2 in
  modify (λ s, set_send s (list_inserts 0 (be16 (Z.of_nat send) ++ take send buf) (sendbuf s)) (sending s)
                 (need_reconnect s) (is_sending s) id (nqpc_sent s) (wire s) (sent_cb s));;
  s ← get;
  if decide (recv_need_reconn s = fd s) then
    put (set_send s (sendbuf s) 0 true true (qid s) (nqpc_sent s) (wire s) (sent_cb s));;
    mret (inl E_INPROGRESS)
  else
    match r with
    | SysSendErr e =>
        if decide (e = E_CONNREFUSED ∨ e = E_CONNRESET ∨ e = E_NOTCONN ∨ e = E_PIPE) then
          put (set_send s (sendbuf s) 0 true true (qid s) (nqpc_sent s) (wire s) (sent_cb s));;
          mret (inl E_INPROGRESS)
        else mret (inl e)
    | SysSent n =>
        let w := wire s ++ take n (take (send + 2) (sendbuf s)) in
        if decide (n < send + 2) then
          put (set_send s (sendbuf s) n (need_reconnect s) true (qid s) (nqpc_sent s) w (sent_cb s));;
          mret (inl E_INPROGRESS)
        else
          put (set_send s (sendbuf s) (sending s) (need_reconnect s) (is_sending s) (qid s)
                 (u32 (nqpc_sent s + 1)) w (sent_cb s));;
          mret (inr (n - 2))
    end.

(** The answers of the system calls one call of [perf__tcp_sockready] can make. *)
Record answers : Type := Answers {
  a_fd1 : Z; a_conn1 : conn_res;
  a_send1 : sys_send;
  a_fd2 : Z; a_conn2 : conn_res;
  a_wait : perf_result; a_error : option errno;
  a_send2 : sys_send;
  a_now : Z;
}.

(** The bytes of a frame in the send buffer that are still to be sent. *)
Definition unsent (s : tcp) : list Z :=
  take (buf_dnslen (sendbuf s) + 2 - sending s) (drop (sending s) (sendbuf s)).

(** The part of [perf__tcp_sockready] after [n] bytes were sent, lines 313-322 and 374-383:
    [true] when the frame is complete. *)
Definition tcp_continue (n : nat) : M tcp bool :=
  modify (λ s, set_send s (sendbuf s) (sending s + n) (need_reconnect s) (is_sending s) (qid s) (nqpc_sent s)
                 (wire s ++ take n (unsent s)) (sent_cb s));;
  s ← get;
  if decide (sending s < buf_dnslen (sendbuf s) + 2) then mret false
  else
    put (set_send s (sendbuf s) 0 (need_reconnect s) false (qid s) (u32 (nqpc_sent s + 1)) (wire s)
           (sent_cb s ++ [qid s]));;
    mret true.

(** Lines 324-333: the limit on queries per connection. *)
Definition tcp_per_conn (a : answers) : M tcp Z :=
  s ← get;
  if decide (num_queries_per_conn s ≠ 0 ∧ num_queries_per_conn s ≤ nqpc_sent s)%Z then
    modify (λ s, if decide (nqpc_ts s = 0)%Z then set_nqpc_ts s (u64 (a_now a + nqpc_timeout s)) else s);;
    s ← get;
    (if decide (nqpc_sent s ≤ nqpc_recv s ∨ nqpc_ts s < a_now a)%Z
     then modify (λ s, set_need_reconnect s true) else mret ());;
    mret 0%Z
  else mret 1%Z.

(** From the label [conn_cont] on, lines 337-392. *)
Definition tcp_conn_cont (a : answers) : M tcp Z :=
  match a_wait a with
  | PERF_R_SUCCESS =>
      match a_error a with
      | Some e =>
          if decide (e = E_INPROGRESS ∨ e = E_AGAIN) then mret 0%Z
          else modify (λ s, set_need_reconnect s true);; mret 0%Z
      | None =>
          modify (λ s, set_conn s (fd s) true (conn_ts s) perf_socket_event_reconnected (conning_event s)
                         (nqpc_sent s) (nqpc_recv s) (nqpc_ts s) (wire s)
                         (events s ++ [(conn_event s, u64 (a_now a - conn_ts s))]));;
          s ← get;
          if is_sending s then
            match a_send2 a with
            | SysSendErr e =>
                (if decide (e ≠ E_AGAIN) then modify (λ s, set_need_reconnect s true) else mret ());; mret 0%Z
            | SysSent n => done ← tcp_continue n; mret (if done : bool then 1%Z else 0%Z)
            end
          else mret 1%Z
      end
  | _ => mret (-1)%Z
  end.

(** [perf__tcp_sockready(sock, pipe_fd, timeout)]. *)
Definition tcp_sockready (a : answers) : M tcp Z :=
  s ← get;
  (if decide (recv_need_reconn s = fd s ∨ need_reconnect s = true) then
     newfd ← tcp_connect (a_fd1 a) (a_now a) (a_conn1 a);
     swap_fd newfd;;
     modify (λ s, set_need_reconnect s false)
   else mret ());;
  s ← get;
  if is_ready s then
    if is_sending s then
      match a_send1 a with
      | SysSendErr e =>
          if decide (e = E_AGAIN) then mret 0%Z
          else
            newfd ← tcp_connect (a_fd2 a) (a_now a) (a_conn2 a);
            swap_fd newfd;;
            modify (λ s, if decide (sending s ≠ 0) then set_sending s 0 false else s);;
            tcp_conn_cont a
      | SysSent n =>
          done ← tcp_continue n;
          if done : bool then tcp_per_conn a else mret 0%Z
      end
    else tcp_per_conn a
  else tcp_conn_cont a.

(** [perf_net_tcp_opensocket(...)] and [perf__tcp_num_queries_per_conn]. *)
Definition tcp_init : tcp :=
  Tcp 0 (replicate TCP_RECV_BUF_SIZE 0%Z) (replicate TCP_SEND_BUF_SIZE 0%Z) 0 0 false false false false 0 0 0 0
    perf_socket_event_connected perf_socket_event_connecting 0 0 0 0 0 [] [] [].

Definition tcp_opensocket (newfd now : Z) (res : conn_res) : run tcp :=
  match tcp_connect newfd now res tcp_init with
  | Done (f, s) =>
      let s := set_conn s f (is_ready s) (conn_ts s) (conn_event s) (conning_event s) (nqpc_sent s) (nqpc_recv s)
                 (nqpc_ts s) [] (events s) in
      Done (set_recv s (recvbuf s) (at_ s) (have_more s) f (-1) (nqpc_recv s))
  | Abort => Abort | Exit c => Exit c | Undef => Undef | NoFuel => NoFuel
  end.

Definition tcp_num_queries_per_conn (n timeout : Z) (s : tcp) : tcp :=
  Tcp (fd s) (recvbuf s) (sendbuf s) (at_ s) (sending s) (is_ready s) (need_reconnect s) (have_more s)
    (is_sending s) (recvfd s) (recv_need_reconn s) (qid s) (conn_ts s) (conn_event s) (conning_event s) n timeout
    (nqpc_sent s) (nqpc_recv s) (nqpc_ts s) (wire s) (sent_cb s) (events s).

(** ** Specification of receiving *)

(** The bytes that have been received and not been delivered. *)
Definition view (s : tcp) : list Z := take (at_ s) (recvbuf s).

(** A frame: the message with its length in front. *)
Definition frame (m : list Z) : list Z := be16 (Z.of_nat (length m)) ++ m.

(** There is a complete frame at the start, and at least three bytes. *)
Definition complete (v : list Z) : Prop := 3 ≤ length v ∧ buf_dnslen v + 2 ≤ length v.

#[export] Instance complete_dec v : Decision (complete v).
Proof. unfold complete. apply _. Defined.

(** The reference: cut a stream into the messages of its complete frames, and the rest. *)
Fixpoint parse (fuel : nat) (v : list Z) : list (list Z) * list Z :=
  match fuel with
  | 0 => ([], v)
  | S fuel' =>
      if decide (complete v) then
        let n := buf_dnslen v in
        let '(ms, rest) := parse fuel' (drop (n + 2) v) in
        (take n (drop 2 v) :: ms, rest)
      else ([], v)
  end.

Record rinv (s : tcp) : Prop := {
  rinv_len : length (recvbuf s) = TCP_RECV_BUF_SIZE;
  rinv_at : at_ s ≤ TCP_RECV_BUF_SIZE;
  rinv_bytes : Forall byte_ok (recvbuf s);
  rinv_fd : recvfd s = fd s;
  rinv_more : have_more s = true ↔ complete (view s);
}.

Lemma view_length s : rinv s → length (view s) = at_ s.
Proof. intros [Hl Ha _ _ _]. unfold view. rewrite length_take. lia. Qed.

Lemma rd16_bound hi lo : byte_ok hi → byte_ok lo → (0 ≤ rd16 hi lo ≤ 65535)%Z.
Proof. unfold byte_ok, rd16. lia. Qed.

Lemma dnslen_bound v : Forall byte_ok v → buf_dnslen v + 2 ≤ TCP_RECV_BUF_SIZE.
Proof.
  intros Hv. unfold buf_dnslen. pose proof TCP_RECV_BUF_SIZE_val.
  assert (∀ i, byte_ok (default 0%Z (v !! i))) as Hb.
  { intros i. destruct (v !! i) as [b|] eqn:E; [by eapply Forall_lookup_1 in Hv|]. unfold byte_ok. simpl. lia. }
  pose proof (rd16_bound _ _ (Hb 0) (Hb 1)). lia.
Qed.

(** The length depends on the first two bytes. *)
Lemma dnslen_prefix v w : 2 ≤ length v → buf_dnslen (v ++ w) = buf_dnslen v.
Proof. intros Hl. unfold buf_dnslen. rewrite !lookup_app_l by lia. done. Qed.

Lemma dnslen_take n v : 2 ≤ n → buf_dnslen (take n v) = buf_dnslen v.
Proof. intros Hn. unfold buf_dnslen. by rewrite !lookup_take_lt by lia. Qed.

Lemma complete_app v w : complete v → complete (v ++ w).
Proof.
  intros [H1 H2]. unfold complete. rewrite length_app, dnslen_prefix by lia. lia.
Qed.

(** The frame at the start of a complete view. *)
Lemma frame_split v :
  Forall byte_ok v → buf_dnslen v + 2 ≤ length v →
  v = frame (take (buf_dnslen v) (drop 2 v)) ++ drop (buf_dnslen v + 2) v.
Proof.
  intros Hb Hl. unfold frame. rewrite length_take, length_drop, Nat.min_l by lia.
  destruct v as [|hi [|lo v]]; simpl in Hl; [lia|lia|]. rewrite !Forall_cons in Hb. destruct Hb as (Hhi & Hlo & _).
  change (buf_dnslen (hi :: lo :: v)) with (Z.to_nat (rd16 hi lo)) in *.
  pose proof (rd16_bound _ _ Hhi Hlo). rewrite Z2Nat.id by lia.
  assert (be16 (rd16 hi lo) = [hi; lo]) as ->.
  { unfold be16, u8, rd16, byte_ok in *. rewrite Z.shiftr_div_pow2 by lia. change (2 ^ 8)%Z with 256%Z.
    rewrite Z.div_add_l, Z.div_small, Z.add_0_r by lia. rewrite Z.add_comm, Z.mod_add, Z.mod_small by lia. done. }
  simpl. rewrite Nat.add_comm. simpl. by rewrite take_drop.
Qed.

(** *** One call *)

Lemma tcp_deliver_spec len s :
  length (recvbuf s) = TCP_RECV_BUF_SIZE → at_ s ≤ TCP_RECV_BUF_SIZE → Forall byte_ok (recvbuf s) →
  recvfd s = fd s → 3 ≤ at_ s → (have_more s = false ∨ complete (view s)) →
  let v := view s in
  let m := take (buf_dnslen v) (drop 2 v) in
  if decide (complete v) then
    ∃ s', tcp_deliver len s = Done (TcpMsg (length m) (take len m), s') ∧ rinv s' ∧
          view s' = drop (buf_dnslen v + 2) v ∧ fd s' = fd s
  else tcp_deliver len s = Done (TcpErr E_AGAIN, s) ∧ rinv s.
Proof.
  intros Hl Ha Hb Hfd H3 Hmore v m.
  assert (length v = at_ s) as Hv by (unfold v, view; rewrite length_take; lia).
  assert (buf_dnslen v = buf_dnslen (recvbuf s)) as Hd by (apply dnslen_take; lia).
  unfold tcp_deliver. rewrite (bind_Done get _ _ _ _ eq_refl). cbv zeta. rewrite <- Hd.
  destruct (decide (complete v)) as [Hc|Hc].
  - destruct Hc as [_ Hc]. rewrite decide_False by lia.
    set (n := buf_dnslen v) in *. set (rest := take (at_ s - 2 - n) (drop (2 + n) (recvbuf s))).
    assert (rest = drop (n + 2) v) as Hrest.
    { unfold rest, v, view. rewrite skipn_firstn_comm. f_equal; [lia|f_equal; lia]. }
    assert (length rest = at_ s - (2 + n)) as Hlr by (rewrite Hrest, length_drop; lia).
    assert (view (set_recv s (list_inserts 0 rest (recvbuf s)) (at_ s - (2 + n))
      (bool_decide (2 < at_ s - (2 + n)) && bool_decide (buf_dnslen (list_inserts 0 rest (recvbuf s)) + 2 ≤ at_ s - (2 + n)))
      (recvfd s) (recv_need_reconn s)
      (if decide (num_queries_per_conn s ≠ 0%Z) then u32 (nqpc_recv s + 1) else nqpc_recv s)) = rest) as Hview.
    { unfold view. cbn [at_ recvbuf set_recv]. rewrite <- Hlr. apply (take_list_inserts 0). lia. }
    eexists. split; [|split; [|split; [exact (eq_trans Hview Hrest)|done]]].
    + assert (length m = n) as -> by (unfold m; rewrite length_take, length_drop; lia).
      assert (take (Nat.min len n) (drop 2 (recvbuf s)) = take len m) as ->.
      { unfold m. rewrite take_take. unfold v, view. rewrite skipn_firstn_comm, take_take. f_equal. lia. }
      by rewrite (bind_Done (put _) _ _ () _ eq_refl).
    + split; cbn [recvbuf at_ recvfd fd have_more set_recv].
      * by rewrite length_inserts.
      * lia.
      * apply Forall_forall. intros b [i Hi]%list_elem_of_lookup.
        destruct (decide (i < length rest)).
        -- rewrite list_lookup_inserts in Hi by lia. rewrite Nat.sub_0_r in Hi.
           unfold rest in Hi. rewrite lookup_take_lt, lookup_drop in Hi by lia. by eapply Forall_lookup_1 in Hb.
        -- rewrite list_lookup_inserts_ge in Hi by lia. by eapply Forall_lookup_1 in Hb.
      * done.
      * rewrite Hview. unfold complete. rewrite Hlr, andb_true_iff, !bool_decide_eq_true.
        assert (2 ≤ length rest → buf_dnslen (list_inserts 0 rest (recvbuf s)) = buf_dnslen rest) as Hdl.
        { intros. unfold buf_dnslen. by rewrite !list_lookup_inserts by lia. }
        destruct (decide (2 < at_ s - (2 + n))); [rewrite Hdl by lia; split; intros [??]; split; lia|].
        split; intros [??]; lia.
  - assert (at_ s < buf_dnslen v + 2) as Hlt by (unfold complete in Hc; lia). rewrite decide_True by done.
    split; [done|]. split; try done. split; [|done]. intros Hm. destruct Hmore; [congruence|done].
Qed.

(** The bytes the call looks at: what is buffered, and new data unless there is a complete
    frame already. *)
Definition seen (s : tcp) (bs : list Z) : list Z := if have_more s then view s else view s ++ bs.

Lemma tcp_recv_spec len bs s :
  rinv s → Forall byte_ok bs → bs ≠ [] → (have_more s = false → at_ s + length bs ≤ TCP_RECV_BUF_SIZE) →
  let v := seen s bs in
  let m := take (buf_dnslen v) (drop 2 v) in
  if decide (complete v) then
    ∃ s', tcp_recv len (SysRecvData bs) s = Done (TcpMsg (length m) (take len m), s') ∧ rinv s' ∧
          view s' = drop (buf_dnslen v + 2) v
  else ∃ s', tcp_recv len (SysRecvData bs) s = Done (TcpErr E_AGAIN, s') ∧ rinv s' ∧ view s' = v.
Proof.
  intros Hinv Hbs Hne Hfit v m. pose proof Hinv as [Hl Ha Hb Hfd Hmore].
  unfold tcp_recv. rewrite (bind_Done (modify _) _ _ () s) by (unfold modify; by rewrite decide_False by congruence).
  rewrite (bind_Done get _ _ _ _ eq_refl). unfold seen in v.
  destruct (have_more s) eqn:Hm.
  - assert (complete (view s)) as Hc by (by apply Hmore). pose proof Hc as [Hc1 _].
    rewrite view_length in Hc1 by done.
    pose proof (tcp_deliver_spec len s Hl Ha Hb Hfd Hc1 (or_intror Hc)) as Hd. cbv zeta in Hd. fold v in Hd.
    rewrite decide_True in Hd |- * by done. destruct Hd as (s' & ? & ? & ? & _). eauto.
  - specialize (Hfit eq_refl). rewrite (decide_False (P := TCP_RECV_BUF_SIZE < _)) by lia. cbv zeta.
    set (s1 := set_recv s (list_inserts (at_ s) bs (recvbuf s)) (at_ s + length bs) false (recvfd s)
                 (recv_need_reconn s) (nqpc_recv s)).
    rewrite (bind_Done (put _) _ _ () s1 eq_refl).
    assert (view s1 = v) as Hv.
    { unfold view. cbn [at_ recvbuf set_recv s1]. apply take_list_inserts. lia. }
    assert (length (recvbuf s1) = TCP_RECV_BUF_SIZE) as Hl1 by (cbn [recvbuf set_recv s1]; by rewrite length_inserts).
    assert (Forall byte_ok (recvbuf s1)) as Hb1.
    { apply Forall_forall. intros b [i Hi]%list_elem_of_lookup. cbn [recvbuf set_recv s1] in Hi.
      destruct (decide (i < at_ s)); [rewrite list_lookup_inserts_lt in Hi by lia; by eapply Forall_lookup_1 in Hb|].
      destruct (decide (i < at_ s + length bs)).
      - assert (i < length (recvbuf s)) by lia. rewrite list_lookup_inserts in Hi by lia. by eapply Forall_lookup_1 in Hbs.
      - rewrite list_lookup_inserts_ge in Hi by lia. by eapply Forall_lookup_1 in Hb. }
    destruct (decide (at_ s + length bs < 3)) as [H3|H3].
    + assert (length v < 3) as Hlv by (rewrite <- Hv; unfold view; rewrite length_take; cbn [at_ set_recv s1]; lia).
      rewrite decide_False by (unfold complete; lia). exists s1. split_and!; [done| |done].
      split; cbn [at_ recvfd fd have_more set_recv s1]; [done|lia|done|done|].
      change (view (set_recv s (list_inserts (at_ s) bs (recvbuf s)) (at_ s + length bs) false (recvfd s)
                 (recv_need_reconn s) (nqpc_recv s))) with (view s1). rewrite Hv.
      split; [done|]. intros [? _]. lia.
    + pose proof (tcp_deliver_spec len s1 Hl1) as Hd. cbv zeta in Hd. rewrite Hv in Hd.
      specialize (Hd Hfit Hb1 Hfd ltac:(cbn [at_ set_recv s1]; lia) (or_introl eq_refl)). fold m in Hd.
      destruct (decide (complete v)) as [Hc|Hc].
      * destruct Hd as (s' & ? & ? & ? & _). eauto.
      * destruct Hd as [??]. eauto.
Qed.

(** When data is read, there is room for it. *)
Lemma room_for_data s : rinv s → have_more s = false → at_ s < TCP_RECV_BUF_SIZE.
Proof.
  intros Hinv Hm. pose proof Hinv as [Hl Ha Hb _ Hmore]. destruct (decide (at_ s = TCP_RECV_BUF_SIZE)) as [E|]; [|lia].
  pose proof TCP_RECV_BUF_SIZE_val.
  assert (complete (view s)) as Hc.
  { unfold complete. rewrite view_length by done. unfold view. rewrite dnslen_take by lia.
    pose proof (dnslen_bound _ Hb). lia. }
  apply Hmore in Hc. congruence.
Qed.

(** *** Receiving a stream *)

(** Receive until nothing more comes: chunks are read as long as no frame is complete, and the
    messages are collected. *)
Fixpoint tcp_receive (fuel : nat) (len : nat) (chunks : list (list Z)) (s : tcp)
    : run (list (nat * list Z) * tcp) :=
  match fuel with
  | 0 => NoFuel
  | S fuel' =>
      if decide (have_more s = false ∧ chunks = []) then Done ([], s)
      else
        let '(bs, rest) :=
          if have_more s then ([0%Z], chunks)
          else match chunks with c :: cs => (c, cs) | [] => ([], []) end in
        match tcp_recv len (SysRecvData bs) s with
        | Done (TcpMsg n c, s') =>
            '(ms, s'') ← tcp_receive fuel' len rest s'; Done ((n, c) :: ms, s'')
        | Done (TcpErr _, s') => tcp_receive fuel' len rest s'
        | Done (TcpEof, _) => Undef
        | Abort => Abort | Exit c => Exit c | Undef => Undef | NoFuel => NoFuel
        end
  end.

(** Each chunk fits where it is read: the kernel gives no more than it is asked for. *)
Fixpoint chunks_fit (fuel : nat) (len : nat) (chunks : list (list Z)) (s : tcp) : Prop :=
  match fuel with
  | 0 => True
  | S fuel' =>
      match chunks with
      | [] => True
      | c :: cs =>
          if have_more s then
            match tcp_recv len (SysRecvData [0%Z]) s with
            | Done (_, s') => chunks_fit fuel' len chunks s' | _ => True end
          else at_ s + length c ≤ TCP_RECV_BUF_SIZE ∧
               match tcp_recv len (SysRecvData c) s with
               | Done (_, s') => chunks_fit fuel' len cs s' | _ => True end
      end
  end.

Lemma parse_incomplete fuel v : ¬ complete v → parse fuel v = ([], v).
Proof. intros Hc. destruct fuel; [done|]. simpl. by rewrite decide_False. Qed.

Lemma parse_step fuel v w :
  complete v →
  parse (S fuel) (v ++ w) =
    (take (buf_dnslen v) (drop 2 v) :: (parse fuel (drop (buf_dnslen v + 2) v ++ w)).1,
     (parse fuel (drop (buf_dnslen v + 2) v ++ w)).2).
Proof.
  intros Hc. pose proof (complete_app v w Hc) as Hc'. destruct Hc as [H1 H2]. cbn [parse].
  rewrite decide_True by done. cbv zeta. rewrite dnslen_prefix by lia.
  rewrite (drop_app_le v w (buf_dnslen v + 2)) by lia. rewrite (drop_app_le v w 2) by lia.
  rewrite take_app_le by (rewrite length_drop; lia).
  by destruct (parse fuel (drop (buf_dnslen v + 2) v ++ w)).
Qed.

(** More fuel does not change the result once there is enough. *)
Lemma parse_fuel n k v : length v < n → n ≤ k → parse n v = parse k v.
Proof.
  revert k v. induction n as [|n IH]; intros k v Hl Hk; [lia|]. destruct k as [|k]; [lia|]. cbn [parse].
  destruct (decide (complete v)) as [[H1 H2]|]; [|done]. cbv zeta.
  rewrite (IH k) by (rewrite ?length_drop; lia). done.
Qed.

Lemma parse_tail v w fuel :
  complete v → length (v ++ w) < fuel →
  parse fuel (v ++ w) =
    (take (buf_dnslen v) (drop 2 v) :: (parse fuel (drop (buf_dnslen v + 2) v ++ w)).1,
     (parse fuel (drop (buf_dnslen v + 2) v ++ w)).2).
Proof.
  intros Hc Hf. destruct fuel as [|fuel]; [lia|]. rewrite parse_step by done. pose proof Hc as [H1 H2].
  rewrite length_app in Hf. rewrite (parse_fuel fuel (S fuel)) by (rewrite ?length_app, ?length_drop; lia). done.
Qed.

Lemma tcp_receive_spec fuel len chunks s F :
  rinv s → Forall (λ c, Forall byte_ok c ∧ c ≠ []) chunks → chunks_fit fuel len chunks s →
  length chunks + length (view s ++ concat chunks) < fuel → length (view s ++ concat chunks) < F →
  ∃ s', tcp_receive fuel len chunks s =
          Done (map (λ m, (length m, take len m)) (parse F (view s ++ concat chunks)).1, s') ∧
        rinv s' ∧ view s' = (parse F (view s ++ concat chunks)).2.
Proof.
  revert chunks s. induction fuel as [|fuel IH]; intros chunks s Hinv Hch Hfit Hf HF; [lia|].
  pose proof Hinv as [_ _ _ _ Hmore]. cbn [tcp_receive]. destruct (have_more s) eqn:Hm.
  - rewrite decide_False by naive_solver. cbv zeta.
    assert (complete (view s)) as Hc by (by apply Hmore).
    pose proof (tcp_recv_spec len [0%Z] s Hinv) as Hr. unfold seen in Hr. rewrite Hm in Hr. cbv zeta in Hr.
    rewrite decide_True in Hr by done.
    destruct Hr as (s' & E & Hinv' & Hv'); [by repeat constructor|done|done|]. rewrite E.
    assert (chunks_fit fuel len chunks s') as Hfit'.
    { destruct chunks as [|c cs]; [by destruct fuel|]. cbn [chunks_fit] in Hfit. by rewrite Hm, E in Hfit. }
    rewrite (parse_tail _ _ F Hc HF). pose proof Hc as [H1 H2]. rewrite <- Hv'.
    destruct (IH chunks s' Hinv' Hch Hfit') as (s'' & -> & Hinv'' & Hv'').
    { rewrite length_app in *. rewrite Hv', length_drop. lia. }
    { rewrite length_app in *. rewrite Hv', length_drop. lia. }
    exists s''. split; [done|]. split; [done|]. exact Hv''.
  - destruct chunks as [|c cs].
    { rewrite decide_True by done. rewrite parse_incomplete; [|intros Hc; simpl in Hc; rewrite app_nil_r in Hc; apply Hmore in Hc; congruence].
      exists s. split; [done|]. split; [done|]. simpl. by rewrite app_nil_r. }
    rewrite decide_False by naive_solver. cbv zeta. apply Forall_cons in Hch as [[Hcb Hcn] Hch].
    cbn [chunks_fit] in Hfit. rewrite Hm in Hfit. destruct Hfit as [Hspace Hfit].
    pose proof (tcp_recv_spec len c s Hinv Hcb Hcn (λ _, Hspace)) as Hr. unfold seen in Hr. rewrite Hm in Hr.
    cbv zeta in Hr. cbn [concat] in *. rewrite app_assoc in *. cbn [length] in Hf.
    destruct (decide (complete (view s ++ c))) as [Hc|Hc].
    + destruct Hr as (s' & E & Hinv' & Hv'). rewrite E in Hfit |- *. pose proof Hc as [H1 H2].
      rewrite (parse_tail _ _ F Hc HF). rewrite <- Hv'.
      destruct (IH cs s' Hinv' Hch Hfit) as (s'' & -> & Hinv'' & Hv'').
      { rewrite length_app in *. rewrite Hv', length_drop. lia. }
      { rewrite length_app in *. rewrite Hv', length_drop. lia. }
      exists s''. split; [done|]. split; [done|]. exact Hv''.
    + destruct Hr as (s' & E & Hinv' & Hv'). rewrite E in Hfit |- *. rewrite <- Hv' in *.
      apply (IH cs s' Hinv' Hch Hfit); lia.
Qed.

(** The reference parser undoes framing. *)
Lemma parse_frames ms F :
  Forall (λ m, m ≠ [] ∧ (Z.of_nat (length m) ≤ 65535)%Z) ms → length (concat (map frame ms)) < F →
  parse F (concat (map frame ms)) = (ms, []).
Proof.
  intros Hms. revert F. induction Hms as [|m ms [Hne Hlen] Hms IH]; intros F HF.
  { apply parse_incomplete. intros [H _]. simpl in H. lia. }
  cbn [map concat] in *.
  assert (buf_dnslen (frame m) = length m) as Hd.
  { unfold buf_dnslen, frame, be16. simpl. rewrite rd16_be16 by lia. lia. }
  assert (length (frame m) = length m + 2) as Hfl by (unfold frame; rewrite length_app; simpl; lia).
  assert (complete (frame m)) as Hc.
  { unfold complete. rewrite Hd, Hfl. destruct m; [done|]. simpl. lia. }
  rewrite parse_tail, Hd by done.
  assert (drop (length m + 2) (frame m) = []) as -> by (apply drop_ge; lia).
  assert (take (length m) (drop 2 (frame m)) = m) as -> by (simpl; by rewrite firstn_all).
  simpl. rewrite length_app in HF. rewrite IH by lia. done.
Qed.

(** *** The initial state *)
Lemma opensocket_rinv newfd now res s : tcp_opensocket newfd now res = Done s → rinv s ∧ view s = [].
Proof.
  unfold tcp_opensocket, tcp_connect. run_unfold. destruct (decide _); [done|].
  destruct res; try done; intros [= <-]; (split; [|done]); split;
    cbn [recvbuf at_ recvfd fd have_more set_recv set_conn set_ready tcp_init];
    try (by rewrite length_replicate); try lia; try done;
    try (apply Forall_replicate; unfold byte_ok; lia); (split; [done|]; intros [H _]; simpl in H; lia).
Qed.

(** A short stream always fits. *)
Lemma chunks_fit_short fuel len chunks s :
  rinv s → Forall (λ c, Forall byte_ok c ∧ c ≠ []) chunks → length (view s ++ concat chunks) ≤ TCP_RECV_BUF_SIZE →
  chunks_fit fuel len chunks s.
Proof.
  revert chunks s. induction fuel as [|fuel IH]; intros chunks s Hinv Hch Hl; [done|].
  destruct chunks as [|c cs]; [done|]. cbn [chunks_fit]. rewrite length_app in Hl. cbn [concat] in Hl.
  rewrite length_app in Hl. pose proof (view_length s Hinv) as Hv. pose proof Hch as [[Hcb Hcn] Hcs]%Forall_cons.
  destruct (have_more s) eqn:Hm.
  - pose proof (tcp_recv_spec len [0%Z] s Hinv) as Hr. unfold seen in Hr. rewrite Hm in Hr. cbv zeta in Hr.
    specialize (Hr ltac:(by repeat constructor) ltac:(done) ltac:(done)).
    destruct (decide (complete (view s))); destruct Hr as (s' & -> & Hinv' & Hv'); apply IH; try done;
      rewrite length_app; cbn [concat]; rewrite length_app, Hv', ?length_drop; lia.
  - split; [lia|].
    pose proof (tcp_recv_spec len c s Hinv Hcb Hcn ltac:(lia)) as Hr. unfold seen in Hr. rewrite Hm in Hr. cbv zeta in Hr.
    destruct (decide (complete (view s ++ c))); destruct Hr as (s' & -> & Hinv' & Hv'); apply IH; try done;
      rewrite length_app, Hv', ?length_drop, length_app; lia.
Qed.

(** ** Theorems *)

(** C15: receiving over TCP does not depend on how the kernel cuts the stream into pieces: from a
    new connection, the messages delivered are those of the complete frames of the stream, in
    order, each with its length and as much of it as fits the caller's buffer; what is left is
    an incomplete frame.  A stream of non-empty messages is delivered whole. *)
Theorem tcp_framing newfd now res s len chunks :
  tcp_opensocket newfd now res = Done s →
  Forall (λ c, Forall byte_ok c ∧ c ≠ []) chunks →
  let stream := concat chunks in
  let fuel := S (length chunks + length stream) in
  chunks_fit fuel len chunks s →
  ∃ s', tcp_receive fuel len chunks s =
          Done (map (λ m, (length m, take len m)) (parse (S (length stream)) stream).1, s') ∧
        view s' = (parse (S (length stream)) stream).2 ∧
        (∀ ms, Forall (λ m, m ≠ [] ∧ (Z.of_nat (length m) ≤ 65535)%Z) ms → stream = concat (map frame ms) →
               (parse (S (length stream)) stream).1 = ms).
Proof.
  intros E Hch stream fuel Hfit. destruct (opensocket_rinv _ _ _ _ E) as [Hinv Hv].
  destruct (tcp_receive_spec fuel len chunks s (S (length stream)) Hinv Hch Hfit) as (s' & Er & _ & Hv').
  - rewrite Hv. unfold fuel, stream. simpl. lia.
  - rewrite Hv. unfold stream. simpl. lia.
  - rewrite Hv in Er, Hv'. exists s'. split; [exact Er|]. split; [exact Hv'|].
    intros ms Hms Hst. rewrite Hst. by rewrite parse_frames by (try done; lia).
Qed.

Lemma tcp_framing_witness :
  ∃ s s', tcp_opensocket 5 100 ConnOk = Done s ∧
          tcp_receive 11 4096 [[0; 3; 1]; [2; 3; 0; 1; 9]]%Z s = Done ([(3, [1; 2; 3]%Z); (1, [9]%Z)], s').
Proof.
  destruct (tcp_opensocket 5 100 ConnOk) as [s| | | |] eqn:E; try discriminate E.
  exists s.
  destruct (tcp_framing 5 100 ConnOk s 4096 [[0; 3; 1]; [2; 3; 0; 1; 9]]%Z E) as (s' & Er & _).
  - by apply (bool_decide_unpack _).
  - destruct (opensocket_rinv _ _ _ _ E) as [Hinv Hv]. apply chunks_fit_short; [exact Hinv| |].
    + by apply (bool_decide_unpack _).
    + rewrite Hv. pose proof TCP_RECV_BUF_SIZE_val. simpl. lia.
  - exists s'. split; [reflexivity|]. etrans; [exact Er|]. reflexivity.
Defined.

(** ** Specification of sending *)

(** The frame in the send buffer, and the part of it that is on the wire. *)
Definition cur_frame (s : tcp) : list Z := take (buf_dnslen (sendbuf s) + 2) (sendbuf s).
Definition partial (s : tcp) : list Z := if is_sending s then take (sending s) (cur_frame s) else [].

Record winv (s : tcp) : Prop := {
  winv_len : length (sendbuf s) = TCP_SEND_BUF_SIZE;
  winv_bytes : Forall byte_ok (sendbuf s);
  winv_idle : is_sending s = false → sending s = 0;
  winv_sending : sending s ≤ buf_dnslen (sendbuf s) + 2;
  winv_wire : ∃ ms, wire s = concat (map frame ms) ++ partial s;
}.

(** The part of the state the invariant is about. *)
Definition send_part (s : tcp) : list Z * nat * bool * list Z := (sendbuf s, sending s, is_sending s, wire s).

Lemma winv_ext s s' : send_part s' = send_part s → winv s → winv s'.
Proof.
  unfold send_part. intros [= E1 E2 E3 E4] [H1 H2 H3 H4 H5].
  split; rewrite ?E1, ?E2, ?E3; auto. unfold partial, cur_frame in *. rewrite E1, E2, E3, E4. done.
Qed.

(** A new connection: nothing is on its wire. *)
Lemma winv_swap s s' : send_part s' = (sendbuf s, sending s, is_sending s, []) → winv s → sending s = 0 → winv s'.
Proof.
  unfold send_part. intros [= E1 E2 E3 E4] [H1 H2 H3 H4 H5] H0.
  split; rewrite ?E1, ?E2, ?E3; auto. exists []. rewrite E4. unfold partial. rewrite E2, H0.
  by destruct (is_sending s').
Qed.

Lemma cur_frame_length s : winv s → length (cur_frame s) = buf_dnslen (sendbuf s) + 2.
Proof.
  intros [H1 H2 _ _ _]. unfold cur_frame. rewrite length_take. pose proof (dnslen_bound _ H2).
  pose proof TCP_RECV_BUF_SIZE_val. pose proof TCP_SEND_BUF_SIZE_val. lia.
Qed.

Lemma cur_frame_is_frame s : winv s → ∃ m, cur_frame s = frame m.
Proof.
  intros Hw. pose proof (cur_frame_length s Hw) as Hl. destruct Hw as [H1 H2 _ _ _].
  exists (take (buf_dnslen (cur_frame s)) (drop 2 (cur_frame s))).
  assert (buf_dnslen (cur_frame s) = buf_dnslen (sendbuf s)) as Hd by (apply dnslen_take; lia).
  pose proof (frame_split (cur_frame s)) as Hf. rewrite Hd in Hf.
  rewrite (drop_ge (cur_frame s) (_ + 2)), app_nil_r in Hf by lia.
  rewrite Hd. apply Hf; [by apply Forall_take|lia].
Qed.

(** Continuing the frame in the buffer keeps the wire a sequence of frames. *)
Lemma tcp_continue_spec n s :
  winv s → is_sending s = true → n ≤ buf_dnslen (sendbuf s) + 2 - sending s →
  match tcp_continue n s with
  | Done (b, s') => winv s' ∧ (b = true → sent_cb s' = sent_cb s ++ [qid s] ∧ is_sending s' = false)
  | _ => False
  end.
Proof.
  intros Hw Hs Hn. pose proof (cur_frame_length s Hw) as Hl. destruct (cur_frame_is_frame s Hw) as [m Hm].
  pose proof Hw as [H1 H2 _ H4 [ms H5]]. unfold partial in H5. rewrite Hs in H5.
  set (s1 := set_send s (sendbuf s) (sending s + n) (need_reconnect s) (is_sending s) (qid s) (nqpc_sent s)
               (wire s ++ take n (unsent s)) (sent_cb s)).
  assert (wire s1 = concat (map frame ms) ++ take (sending s + n) (cur_frame s)) as Hwire.
  { cbn [wire set_send s1]. rewrite H5, <- app_assoc. f_equal. unfold unsent, cur_frame.
    rewrite <- skipn_firstn_comm. by rewrite take_take_drop. }
  unfold tcp_continue. rewrite (bind_Done (modify _) _ _ () s1 eq_refl), (bind_Done get _ _ _ _ eq_refl).
  cbn [sending sendbuf set_send s1]. destruct (decide _) as [Hlt|Hge].
  - split; [|done]. split; cbn [sendbuf sending is_sending set_send s1]; auto; [congruence|lia|].
    exists ms. rewrite Hwire. unfold partial. cbn [is_sending set_send s1]. by rewrite Hs.
  - rewrite (bind_Done (put _) _ _ () _ eq_refl). cbn [mret M_ret]. split; [|done].
    split; cbn [sendbuf sending is_sending set_send s1]; auto; [lia|]. exists (ms ++ [m]).
    unfold partial. cbn [is_sending set_send]. rewrite app_nil_r. change (wire s1 = concat (map frame (ms ++ [m]))).
    rewrite Hwire, take_ge by lia. rewrite map_app, concat_app. simpl. by rewrite app_nil_r, Hm.
Qed.

Lemma tcp_connect_part newfd now res s :
  match tcp_connect newfd now res s with
  | Done (_, s') => send_part s' = send_part s
  | Exit c => c = 1%Z
  | _ => False
  end.
Proof. unfold tcp_connect. run_unfold. destruct (decide _); [done|]. by destruct res. Qed.

(** What the calls of one [perf__tcp_sockready] can have sent. *)
Definition sends_ok (s : tcp) (a : answers) : Prop :=
  (∀ n, a_send1 a = SysSent n → n ≤ buf_dnslen (sendbuf s) + 2 - sending s) ∧
  (∀ n, a_send2 a = SysSent n → n ≤ buf_dnslen (sendbuf s) + 2 - sending s).

Lemma sends_ok_ext s s' a : send_part s' = send_part s → sends_ok s a → sends_ok s' a.
Proof. unfold send_part, sends_ok. by intros [= -> -> _ _]. Qed.

Lemma tcp_per_conn_inv a : triple winv (tcp_per_conn a) (λ _, winv).
Proof.
  intros s Hw. unfold tcp_per_conn. rewrite (bind_Done get _ _ _ _ eq_refl).
  destruct (decide (num_queries_per_conn s ≠ 0 ∧ num_queries_per_conn s ≤ nqpc_sent s)%Z); [|done].
  set (s1 := if decide (nqpc_ts s = 0)%Z then set_nqpc_ts s (u64 (a_now a + nqpc_timeout s)) else s).
  assert (winv s1) as Hw1 by (unfold s1; destruct (decide _); [by apply (winv_ext s)|done]).
  rewrite (bind_Done (modify _) _ _ () s1 eq_refl), (bind_Done get _ _ _ _ eq_refl).
  destruct (decide (nqpc_sent s1 ≤ nqpc_recv s1 ∨ nqpc_ts s1 < a_now a)%Z); run_unfold; [by apply (winv_ext s1)|done].
Qed.

Lemma tcp_conn_cont_inv a s :
  winv s → sends_ok s a →
  match tcp_conn_cont a s with Done (_, s') => winv s' | _ => False end.
Proof.
  intros Hw [_ Ha]. unfold tcp_conn_cont. destruct (a_wait a); try done.
  destruct (a_error a) as [e|].
  { destruct (decide _); [done|]. run_unfold. by apply (winv_ext s). }
  set (s1 := set_conn s (fd s) true (conn_ts s) perf_socket_event_reconnected (conning_event s) (nqpc_sent s)
               (nqpc_recv s) (nqpc_ts s) (wire s) (events s ++ [(conn_event s, u64 (a_now a - conn_ts s))])).
  rewrite (bind_Done (modify _) _ _ () s1 eq_refl), (bind_Done get _ _ _ _ eq_refl).
  assert (winv s1) as Hw1 by (by apply (winv_ext s)). destruct (is_sending s1) eqn:Hs; [|done].
  destruct (a_send2 a) as [n|e] eqn:Ea.
  - pose proof (tcp_continue_spec n s1 Hw1 Hs (Ha n eq_refl)) as Hc. unfold mbind, M_bind.
    destruct (tcp_continue n s1) as [[b s']| | | |]; try done. by destruct Hc.
  - run_unfold. destruct (decide _); [by apply (winv_ext s1)|done].
Qed.

(** The reconnection of [perf__tcp_sockready] keeps the invariant between frames. *)
Lemma tcp_sockready_inv a s :
  winv s → sends_ok s a → (recv_need_reconn s = fd s ∨ need_reconnect s = true → sending s = 0) →
  match tcp_sockready a s with Done (_, s') => winv s' | Exit c => c = 1%Z | _ => False end.
Proof.
  intros Hw Ha Hre. unfold tcp_sockready. rewrite (bind_Done get _ _ _ _ eq_refl).
  set (first := if decide _ then _ else _).
  assert (match first s with
          | Done (_, s1) => winv s1 ∧ sends_ok s1 a
          | Exit c => c = 1%Z | _ => False end) as Hfirst.
  { unfold first. destruct (decide _) as [Hd|]; [|done]. specialize (Hre Hd).
    pose proof (tcp_connect_part (a_fd1 a) (a_now a) (a_conn1 a) s) as Hc.
    unfold mbind at 1, M_bind at 1. destruct (tcp_connect _ _ _ s) as [[f s0]| | | |]; try done.
    unfold swap_fd. run_unfold. unfold send_part in Hc. injection Hc as E1 E2 E3 E4. split.
    - eapply (winv_swap s); [|done|done]. unfold send_part. simpl. by rewrite E1, E2, E3.
    - unfold sends_ok in *. simpl. by rewrite E1, E2. }
  unfold mbind at 1, M_bind at 1. destruct (first s) as [[u s1]| | | |]; try done. clear Hw Ha Hre.
  destruct Hfirst as [Hw Ha]. rewrite (bind_Done get _ _ _ _ eq_refl).
  destruct (is_ready s1); [|pose proof (tcp_conn_cont_inv a s1 Hw Ha); by destruct (tcp_conn_cont a s1) as [[??]| | | |]].
  destruct (is_sending s1) eqn:Hs; [|exact (tcp_per_conn_inv a s1 Hw)].
  destruct (a_send1 a) as [n|e] eqn:E1.
  - pose proof (tcp_continue_spec n s1 Hw Hs (proj1 Ha n E1)) as Hc. unfold mbind, M_bind.
    destruct (tcp_continue n s1) as [[b s2]| | | |]; try done. destruct Hc as [Hw2 _].
    destruct b; [exact (tcp_per_conn_inv a s2 Hw2)|done].
  - destruct (decide (e = E_AGAIN)); [done|].
    pose proof (tcp_connect_part (a_fd2 a) (a_now a) (a_conn2 a) s1) as Hc.
    unfold mbind at 1, M_bind at 1. destruct (tcp_connect _ _ _ s1) as [[f s2]| | | |]; try done.
    unfold send_part in Hc. injection Hc as F1 F2 F3 F4. unfold swap_fd.
    set (s3 := set_conn s2 f (is_ready s2) (conn_ts s2) (conn_event s2) (conning_event s2) (nqpc_sent s2)
                 (nqpc_recv s2) (nqpc_ts s2) [] (events s2)).
    set (s4 := if decide (sending s3 ≠ 0) then set_sending s3 0 false else s3).
    assert (winv s4 ∧ sends_ok s4 a) as [Hw4 Ha4].
    { unfold s4. cbn [sending s3 set_conn].
      destruct (decide (sending s2 ≠ 0)) as [Hz|Hz].
      - destruct Hw as [G1 G2 G3 G4 _].
        split; [split; cbn [sendbuf sending is_sending set_sending set_send s3 set_conn]; rewrite ?F1; auto; [lia|by exists []]|].
        unfold sends_ok. cbn [sendbuf sending set_sending set_send s3 set_conn]. rewrite F1.
        destruct Ha as [Ha1 Ha2]. split; intros k Hk; [specialize (Ha1 k Hk)|specialize (Ha2 k Hk)]; lia.
      - assert (sending s1 = 0) as Hz1 by (rewrite <- F2; lia). split.
        + eapply (winv_swap s1); [|done|done].
          unfold send_part. cbn [sendbuf sending is_sending wire s3 set_conn]. by rewrite F1, F2, F3.
        + unfold sends_ok in *. cbn [sendbuf sending s3 set_conn]. by rewrite F1, F2. }
    pose proof (tcp_conn_cont_inv a s4 Hw4 Ha4) as Hcc. run_unfold. fold s3. fold s4.
    by destruct (tcp_conn_cont a s4) as [[??]| | | |].
Qed.

Lemma inserts_0 (k l : list Z) : length k ≤ length l → list_inserts 0 k l = k ++ drop (length k) l.
Proof.
  intros Hl. rewrite <- (take_drop (length k) (list_inserts 0 k l)).
  pose proof (take_list_inserts 0 k l Hl) as Ht. simpl in Ht. rewrite Ht. f_equal. apply list_eq. intros i. rewrite !lookup_drop.
  by rewrite list_lookup_inserts_ge by lia.
Qed.

(** How much of a message is sent. *)
Definition send_length (buf : list Z) : nat := Nat.min (length buf) (TCP_SEND_BUF_SIZE - 2).

(** The buffer after a query was put into it. *)
Lemma sendto_frame buf old :
  length old = TCP_SEND_BUF_SIZE → Forall byte_ok old → Forall byte_ok buf →
  let k := send_length buf in let sb := list_inserts 0 (be16 (Z.of_nat k) ++ take k buf) old in
  buf_dnslen sb = k ∧ length sb = TCP_SEND_BUF_SIZE ∧ Forall byte_ok sb ∧ take (k + 2) sb = frame (take k buf) ∧
  length (frame (take k buf)) = k + 2.
Proof.
  intros Hl Hold Hb k sb. pose proof TCP_SEND_BUF_SIZE_val as HSZ.
  assert (k ≤ length buf ∧ k + 2 ≤ TCP_SEND_BUF_SIZE ∧ (Z.of_nat k ≤ 65535)%Z) as (Hkb & Hk2 & Hk) by (unfold k, send_length; lia).
  unfold sb. clearbody k. clear sb. set (sb := list_inserts 0 _ old).
  assert (length (take k buf) = k) as Hm by (rewrite length_take; lia).
  assert (be16 (Z.of_nat k) ++ take k buf = frame (take k buf)) as Hfr by (unfold frame; by rewrite Hm).
  assert (length (frame (take k buf)) = k + 2) as Hfl by (rewrite <- Hfr, length_app, Hm; simpl; lia).
  assert (sb = frame (take k buf) ++ drop (k + 2) old) as Hsb by (unfold sb; rewrite Hfr, inserts_0, Hfl by lia; done).
  split_and!; [| | | |exact Hfl].
  - rewrite Hsb, dnslen_prefix by lia. unfold buf_dnslen, frame, be16. simpl. rewrite rd16_be16 by lia. lia.
  - unfold sb. by rewrite length_inserts.
  - rewrite Hsb, <- Hfr. rewrite !Forall_app. split_and!; [apply be16_bytes; lia|by apply Forall_take|by apply Forall_drop].
  - rewrite Hsb, take_app_length' by lia. done.
Qed.

Lemma tcp_sendto_inv id buf r s :
  winv s → is_sending s = false → Forall byte_ok buf → (∀ n, r = SysSent n → n ≤ send_length buf + 2) →
  match tcp_sendto id buf r s with
  | Done (res, s') =>
      winv s' ∧ sent_cb s' = sent_cb s ∧
      match res with
      | inr n => n = send_length buf ∧ is_sending s' = false ∧ wire s' = wire s ++ frame (take n buf)
      | inl _ => True
      end
  | _ => False
  end.
Proof.
  intros Hw Hs Hb Hr. pose proof Hw as [H1 H2 H3 _ [ms H5]]. specialize (H3 Hs). unfold partial in H5.
  rewrite Hs, app_nil_r in H5. unfold tcp_sendto. cbv zeta.
  set (send := if decide (length buf < TCP_SEND_BUF_SIZE - 2) then length buf else TCP_SEND_BUF_SIZE - 2).
  assert (send = send_length buf) as Hsend by (unfold send, send_length; destruct (decide _); lia).
  clearbody send. subst send. destruct (sendto_frame buf (sendbuf s) H1 H2 Hb) as (Hd & Hlsb & Hbsb & Htk & Hfl).
  generalize dependent (send_length buf). intros k Hr. set (m := take k buf).
  set (sb := list_inserts 0 (be16 (Z.of_nat k) ++ m) (sendbuf s)). intros Hd Hlsb Hbsb Htk Hfl.
  set (s1 := set_send s sb (sending s) (need_reconnect s) (is_sending s) id (nqpc_sent s) (wire s) (sent_cb s)).
  rewrite (bind_Done (modify _) _ _ () s1 eq_refl), (bind_Done get _ _ _ _ eq_refl).
  clearbody sb.
  (* a state that holds the frame, [n] bytes of which are on the wire *)
  assert (∀ n b nr i ns w, n ≤ k + 2 → (b = false → n = 0) → w = wire s ++ (if b then take n (frame m) else []) →
    winv (set_send s1 sb n nr b i ns w (sent_cb s1))) as Hst.
  { intros n b nr i ns w Hn Hbn ->. split; cbn [sendbuf sending is_sending wire set_send]; auto; [by rewrite Hd|].
    exists ms. rewrite H5. f_equal. unfold partial, cur_frame. cbn [is_sending sending sendbuf set_send].
    by rewrite Hd, Htk. }
  destruct (decide (recv_need_reconn s1 = fd s1)) as [_|_].
  { rewrite (bind_Done (put _) _ _ () _ eq_refl). refine (conj (Hst 0 true true _ _ _ _ _ _) (conj eq_refl I));
      [lia|discriminate|symmetry; apply app_nil_r]. }
  destruct r as [n|e].
  - specialize (Hr n eq_refl). cbn [wire sendbuf set_send s1]. rewrite Htk.
    destruct (decide (n < k + 2)).
    + rewrite (bind_Done (put _) _ _ () _ eq_refl). refine (conj (Hst n true _ _ _ _ _ _ _) (conj eq_refl I));
        [lia|discriminate|reflexivity].
    + assert (n = k + 2) as -> by lia. rewrite take_ge by lia. rewrite (bind_Done (put _) _ _ () _ eq_refl).
      refine (conj _ (conj eq_refl _)).
      * assert (winv (set_send s1 sb 0 (need_reconnect s1) false (qid s1) (u32 (nqpc_sent s1 + 1))
          (wire s ++ frame m) (sent_cb s1))) as Hw'.
        { split; cbn [sendbuf sending is_sending wire set_send]; auto; [lia|]. exists (ms ++ [m]).
          unfold partial. cbn [is_sending set_send]. rewrite H5, map_app, concat_app. simpl. by rewrite !app_nil_r. }
        eapply winv_ext; [|exact Hw']. unfold send_part. cbn [sendbuf sending is_sending wire set_send s1].
        by rewrite H3, Hs.
      * replace (k + 2 - 2) with k by lia. exact (conj eq_refl (conj Hs eq_refl)).
  - destruct (decide _).
    + rewrite (bind_Done (put _) _ _ () _ eq_refl). refine (conj (Hst 0 true true _ _ _ _ _ _) (conj eq_refl I));
        [lia|discriminate|symmetry; apply app_nil_r].
    + refine (conj _ (conj eq_refl I)). assert (winv (set_send s1 sb 0 (need_reconnect s) false id (nqpc_sent s) (wire s) (sent_cb s1))) as Hw'.
      { apply Hst; [lia|reflexivity|symmetry; apply app_nil_r]. }
      eapply winv_ext; [|exact Hw']. unfold send_part. cbn [sendbuf sending is_sending wire set_send s1].
      by rewrite H3, Hs.
Qed.

(** *** Sequences of operations of both threads *)

Inductive tcp_op : Type :=
| OpSend (id : Z) (buf : list Z) (r : sys_send)
| OpReady (a : answers)
| OpRecv (len : nat) (r : sys_recv).

Definition tcp_do (op : tcp_op) (s : tcp) : run tcp :=
  match op with
  | OpSend id buf r => '(_, s') ← tcp_sendto id buf r s; Done s'
  | OpReady a => '(_, s') ← tcp_sockready a s; Done s'
  | OpRecv len r => '(_, s') ← tcp_recv len r s; Done s'
  end.

(** A query is only sent when no other is being sent, a reconnection does not come in the
    middle of a frame, and the kernel keeps to the sizes it was given. *)
Definition op_ok (s : tcp) (op : tcp_op) : Prop :=
  match op with
  | OpSend _ buf r => is_sending s = false ∧ Forall byte_ok buf ∧ ∀ n, r = SysSent n → n ≤ send_length buf + 2
  | OpReady a => sends_ok s a ∧ (recv_need_reconn s = fd s ∨ need_reconnect s = true → sending s = 0)
  | OpRecv _ r => ∀ bs, r = SysRecvData bs → at_ s + length bs ≤ TCP_RECV_BUF_SIZE
  end.

Fixpoint tcp_run (ops : list tcp_op) (s : tcp) : run tcp :=
  match ops with [] => Done s | op :: ops' => s' ← tcp_do op s; tcp_run ops' s' end.
Fixpoint ops_ok (ops : list tcp_op) (s : tcp) : Prop :=
  match ops with
  | [] => True
  | op :: ops' => op_ok s op ∧ match tcp_do op s with Done s' => ops_ok ops' s' | _ => True end
  end.

Lemma tcp_deliver_part len s :
  match tcp_deliver len s with Done (_, s') => send_part s' = send_part s | _ => False end.
Proof.
  unfold tcp_deliver. rewrite (bind_Done get _ _ _ _ eq_refl). cbv zeta. by destruct (decide (at_ s < _)).
Qed.

Lemma tcp_recv_part len r s :
  (∀ bs, r = SysRecvData bs → at_ s + length bs ≤ TCP_RECV_BUF_SIZE) →
  match tcp_recv len r s with Done (_, s') => send_part s' = send_part s | _ => False end.
Proof.
  intros Hr. unfold tcp_recv.
  set (s1 := if decide (fd s ≠ recvfd s)
             then set_recv s (recvbuf s) 0 false (fd s) (recv_need_reconn s) (nqpc_recv s) else s).
  rewrite (bind_Done (modify _) _ _ () s1 eq_refl), (bind_Done get _ _ _ _ eq_refl).
  assert (send_part s1 = send_part s ∧ at_ s1 ≤ at_ s) as [Hs1 Ha1].
  { unfold s1. destruct (decide _); split; try done. simpl. lia. }
  rewrite <- Hs1. clearbody s1. destruct (have_more s1); [apply tcp_deliver_part|].
  destruct r as [e| |bs]; [by destruct (decide _)|done|].
  specialize (Hr bs eq_refl). rewrite decide_False by lia. cbv zeta. rewrite (bind_Done (put _) _ _ () _ eq_refl).
  destruct (decide _); [done|].
  match goal with |- match tcp_deliver _ ?y with _ => _ end => pose proof (tcp_deliver_part len y) as Hd;
    destruct (tcp_deliver len y) as [[res s2]| | | |]; try done end.
Qed.

Lemma tcp_do_inv op s :
  winv s → op_ok s op → match tcp_do op s with Done s' => winv s' | Exit c => c = 1%Z | _ => False end.
Proof.
  intros Hw Hok. destruct op as [id buf r|a|len r]; simpl in *.
  - destruct Hok as (H1 & H2 & H3). pose proof (tcp_sendto_inv id buf r s Hw H1 H2 H3) as Hs.
    destruct (tcp_sendto id buf r s) as [[res s']| | | |]; try done. by destruct Hs.
  - destruct Hok as (H1 & H2). pose proof (tcp_sockready_inv a s Hw H1 H2) as Hs.
    by destruct (tcp_sockready a s) as [[res s']| | | |].
  - pose proof (tcp_recv_part len r s Hok) as Hs. destruct (tcp_recv len r s) as [[res s']| | | |]; try done.
    by apply (winv_ext s).
Qed.

Lemma opensocket_winv newfd now res s : tcp_opensocket newfd now res = Done s → winv s.
Proof.
  unfold tcp_opensocket, tcp_connect. run_unfold. destruct (decide _); [done|].
  destruct res; try done; intros [= <-]; split;
    cbn [sendbuf sending is_sending wire set_recv set_conn set_ready tcp_init];
    try (by rewrite length_replicate); try lia; try done;
    try (apply Forall_replicate; unfold byte_ok; lia); by exists [].
Qed.

Lemma tcp_run_inv ops s :
  winv s → ops_ok ops s → match tcp_run ops s with Done s' => winv s' | Exit c => c = 1%Z | _ => False end.
Proof.
  revert s. induction ops as [|op ops IH]; intros s Hw Hok; simpl in *; [done|]. destruct Hok as [Hop Hok].
  pose proof (tcp_do_inv op s Hw Hop) as Hd. destruct (tcp_do op s) as [s'| | | |]; simpl; try done. by apply IH.
Qed.

(** C16: sending over TCP: whatever the sending and the receiving thread do and however the
    kernel cuts what it sends, the bytes written to a connection are complete frames and the
    sent part of the query in progress; when [sendto] reports a query as sent, exactly its
    frame has been added.  Reconnections have to come between frames. *)
Theorem tcp_wire_frames newfd now res ops s0 :
  tcp_opensocket newfd now res = Done s0 → ops_ok ops s0 →
  match tcp_run ops s0 with
  | Done s =>
      (∃ ms, wire s = concat (map frame ms) ++ (if is_sending s then take (sending s) (cur_frame s) else [])) ∧
      (∀ id buf r n s', op_ok s (OpSend id buf r) → tcp_sendto id buf r s = Done (inr n, s') →
                        n = send_length buf ∧ wire s' = wire s ++ frame (take n buf))
  | Exit c => c = 1%Z
  | _ => False
  end.
Proof.
  intros E Hok. pose proof (tcp_run_inv ops s0 (opensocket_winv _ _ _ _ E) Hok) as Hr.
  destruct (tcp_run ops s0) as [s| | | |]; try done. split; [exact (winv_wire _ Hr)|].
  intros id buf r n s' (H1 & H2 & H3) Es. pose proof (tcp_sendto_inv id buf r s Hr H1 H2 H3) as Hs.
  rewrite Es in Hs. destruct Hs as (_ & _ & Hn & _ & Hw). done.
Qed.

Lemma tcp_wire_frames_witness :
  ∃ s0, tcp_opensocket 5 100 ConnOk = Done s0 ∧
        match tcp_run [OpSend 7 [1; 2; 3]%Z (SysSent 2)] s0 with
        | Done s => ∃ ms, wire s = concat (map frame ms) ++ (if is_sending s then take (sending s) (cur_frame s) else [])
        | Exit c => c = 1%Z
        | _ => False
        end.
Proof.
  destruct (tcp_opensocket 5 100 ConnOk) as [s0| | | |] eqn:E; try discriminate E. exists s0. split; [reflexivity|].
  pose proof (tcp_wire_frames 5 100 ConnOk [OpSend 7 [1; 2; 3]%Z (SysSent 2)] s0 E) as Hw.
  assert (is_sending s0 = false) as Hs by (injection E as <-; reflexivity).
  assert (Forall byte_ok [1; 2; 3]%Z) as Hb by (repeat constructor; done).
  assert (∀ n, SysSent 2 = SysSent n → n ≤ send_length [1; 2; 3]%Z + 2) as Hn.
  { intros n [= <-]. lia. }
  assert (ops_ok [OpSend 7 [1; 2; 3]%Z (SysSent 2)] s0) as Hok.
  { refine (conj (conj Hs (conj Hb Hn)) _). by destruct (tcp_do (OpSend 7 [1; 2; 3]%Z (SysSent 2)) s0). }
  specialize (Hw Hok).
  destruct (tcp_run _ s0) as [s| | | |]; [exact (proj1 Hw)|exact Hw|exact Hw|exact Hw|exact Hw].
Defined.

(** A connection that is lost in the middle of a frame: the receiving thread asks for a new
    connection, and [perf__tcp_sockready] makes one without starting the frame again.  The
    first bytes on the new connection are the end of the frame. *)
Definition lost_connection : list tcp_op :=
  [OpSend 7 [1; 2; 3]%Z (SysSent 3);
   OpRecv 4096 SysRecvEof;
   OpReady (Answers 6 ConnOk (SysSent 2) 0 ConnOk PERF_R_SUCCESS None (SysSent 0) 200)].

Theorem tcp_resumes_midway :
  ∃ s, (s0 ← tcp_opensocket 5 100 ConnOk; tcp_run lost_connection s0) = Done s ∧
       fd s = 6%Z ∧ is_sending s = false ∧ sent_cb s = [7%Z] ∧ wire s = [2; 3]%Z ∧ frame [1; 2; 3]%Z = [0; 3; 1; 2; 3]%Z.
Proof.
  set (r := s0 ← tcp_opensocket 5 100 ConnOk; tcp_run lost_connection s0).
  assert (match r with
          | Done s => (fd s, is_sending s, sent_cb s, wire s) = (6%Z, false, [7%Z], [2; 3]%Z)
          | _ => False end) as Hr by (vm_compute; reflexivity).
  destruct r as [s| | | |]; try done. exists s. injection Hr as H1 H2 H3 H4. split_and!; done.
Qed.
