(* ===== verification/NetUdp.v ===== *)
(** * UDP sockets (net_udp.c)

    A datagram socket has no state of its own: receiving and sending are one system call each,
    whose answer is the argument, and the socket is always ready. *)

From S2P Require Import Prelude Net NetTcp.

(** The calls that set a socket up, in order. *)
Inductive udp_call : Type :=
| CallV6Only
| CallBind (local : perf_sockaddr)
| CallRcvBuf (n : Z) | CallSndBuf (n : Z)
| CallSetFlags (flags : Z).

(** [struct perf__udp_socket]; [u_calls] is for the specification: the calls made on the
    descriptor. *)
Record udp : Type := Udp { u_fd : Z; u_calls : list udp_call }.

Definition O_NONBLOCK : Z := 2048.

(** [perf__udp_recv(sock, buf, len, flags)]: the datagram, cut to [len]. *)
Definition udp_recv (len : nat) (r : sys_recv) : M udp tcp_recv_result :=
  match r with
  | SysRecvErr e => mret (TcpErr e)
  | SysRecvEof => mret TcpEof
  | SysRecvData bs => mret (TcpMsg (Nat.min len (length bs)) (take len bs))
  end.

(** [perf__udp_sendto(sock, qid, buf, len, ...)]. *)
Definition udp_sendto (buf : list Z) (r : sys_send) : M udp (errno + nat) :=
  match r with SysSent n => mret (inr n) | SysSendErr e => mret (inl e) end.

(** [perf__udp_sockready(sock, pipe_fd, timeout)]. *)
Definition udp_sockready : M udp Z := mret 1%Z.

(** What the system answers when a socket is opened: the descriptor, whether [bind] succeeds,
    and the flags [fcntl] reports, negative when it fails, and whether it sets them. *)
Record udp_answers : Type := UdpAnswers { ua_fd : Z; ua_bind : bool; ua_flags : Z; ua_setfl : bool }.

Definition call (c : udp_call) : M udp unit := modify (λ s, Udp (u_fd s) (u_calls s ++ [c])).

(** [perf_net_udp_opensocket(server, local, bufsize, ...)]; failing to set an option is only
    reported. *)
Definition udp_opensocket (server local : perf_sockaddr) (bufsize : Z) (a : udp_answers) : run udp :=
  '(_, s) ← ((if decide (ua_fd a = -1)%Z then perf_log_fatal else mret ());;
   (if decide (sa_family server = AF_INET6) then call CallV6Only else mret ());;
   (if ua_bind a then call (CallBind local) else perf_log_fatal);;
   (if decide (0 < bufsize)%Z
    then call (CallRcvBuf (u64 (bufsize * 1024)));; call (CallSndBuf (u64 (bufsize * 1024))) else mret ());;
   (if decide (ua_flags a < 0)%Z then perf_log_fatal else mret ());;
   (if ua_setfl a then call (CallSetFlags (Z.lor (ua_flags a) O_NONBLOCK)) else perf_log_fatal)) (Udp (ua_fd a) []);
  Done s.

(** A socket that is opened is bound to the local address and does not block. *)
Lemma udp_open_spec server local bufsize a s :
  udp_opensocket server local bufsize a = Done s →
  u_fd s = ua_fd a ∧ u_fd s ≠ (-1)%Z ∧ CallBind local ∈ u_calls s ∧
  list.last (u_calls s) = Some (CallSetFlags (Z.lor (ua_flags a) O_NONBLOCK)).
Proof.
  unfold udp_opensocket, call. run_unfold. destruct (decide _); [done|].
  destruct (decide _), (ua_bind a); try done; (destruct (decide _); (destruct (decide _); [done|]);
    destruct (ua_setfl a); try done; intros [= <-]; cbn [u_fd u_calls app]; split_and!; try done;
    rewrite !elem_of_cons; tauto).
Qed.
