(* ===== verification/Lock.v ===== *)
(** * Locks (util.h)

    The mutex of a DoT or DoH socket as a flag of its state.  The mutexes are created without
    attributes: locking one that the caller holds, or releasing one that is free, has no
    defined behaviour, which is [Undef] here.  What a thread does with the lock held is one step;
    where an operation of a DoT socket goes on without it, NetDot.v has the steps that follow. *)

From S2P Require Import Prelude.

Class Lockable (S : Type) : Type := {
  held : S → bool;
  set_held : bool → S → S;
  held_set b s : held (set_held b s) = b;
  set_held_twice b b' s : set_held b (set_held b' s) = set_held b s;
}.

Section lock.
Context {S : Type} `{!Lockable S}.

Definition PERF_LOCK : M S unit := λ s, if held s then Undef else Done ((), set_held true s).
Definition PERF_UNLOCK : M S unit := λ s, if held s then Done ((), set_held false s) else Undef.

(** [true] when the lock is held already. *)
Definition PERF_TRYLOCK : M S bool := λ s,
  if held s then Done (true, s) else Done (false, set_held true s).

(** Return [a] after releasing the lock. *)
Definition unlock_return {A} (a : A) : M S A := PERF_UNLOCK;; mret a.

Lemma lock_free s : held s = false → PERF_LOCK s = Done ((), set_held true s).
Proof. unfold PERF_LOCK. by intros ->. Qed.

Lemma unlock_held s : held s = true → PERF_UNLOCK s = Done ((), set_held false s).
Proof. unfold PERF_UNLOCK. by intros ->. Qed.

Lemma unlock_return_held {A} (a : A) s : held s = true → unlock_return a s = Done (a, set_held false s).
Proof. intros Hh. unfold unlock_return. by rewrite (bind_Done _ _ _ _ _ (unlock_held s Hh)). Qed.

Lemma lock_bind {A} (k : unit → M S A) s : held s = false → (PERF_LOCK ≫= k) s = k () (set_held true s).
Proof. intros Hh. by rewrite (bind_Done _ _ _ _ _ (lock_free s Hh)). Qed.

Lemma unlock_bind {A} (k : unit → M S A) s : held s = true → (PERF_UNLOCK ≫= k) s = k () (set_held false s).
Proof. intros Hh. by rewrite (bind_Done _ _ _ _ _ (unlock_held s Hh)). Qed.

End lock.
