(* ===== verification/NetDot.v ===== *)
(** * DNS over TLS (net_dot.c)

    A DoT socket is a TCP socket behind OpenSSL.  Unlike the TCP socket it is shared by the
    sending and the receiving thread under a lock, and either of them reconnects.  Each
    operation has a part that holds the lock and goes on without it: the two are definitions of
    their own ([dot_write] and [dot_sent], [dot_ready_locked] and the steps of [dot_rest],
    [dot_read] and [dot_recv_rest]), so that the other thread's operations can come in between.
    What OpenSSL and the system calls return is an argument of the operations. *)

From S2P Require Import Prelude Dnsperf NetTcp Lock.

(** What [SSL_get_error] tells apart, with [errno] for a failed system call. *)
Inductive ssl_error : Set :=
| SSL_ERROR_WANT_READ | SSL_ERROR_WANT_WRITE | SSL_ERROR_SYSCALL (e : errno) | SSL_ERROR_SSL | SSL_ERROR_other.

#[export] Instance ssl_error_eq_dec : EqDecision ssl_error.
Proof. solve_decision. Defined.

Inductive ssl_read : Type := SslRead (bs : list Z) | SslReadZero | SslReadErr (e : ssl_error).
Inductive ssl_write : Set := SslWrote (n : nat) | SslWriteErr (e : ssl_error).
Inductive ssl_connect : Set := SslConnected | SslConnectZero | SslConnectErr (e : ssl_error).

(** [struct perf__dot_socket]; [d_wire], [d_sent_cb] and [d_events] are for the specification:
    the bytes written to the current connection, the ids [sock->sent] was called with, and the
    events [sock->event] was called with. *)
Record dot : Type := Dot {
  d_lock : bool;
  d_fd : Z;
  d_recvbuf : list Z; d_at : nat; d_have_more : bool;
  d_sendbuf : list Z; d_sending : nat; d_is_sending : bool; d_qid : Z;
  d_is_ready : bool; d_is_conn_ready : bool; d_do_reconnect : bool;
  d_conn_ts : Z; d_conn_event : perf_socket_event; d_conning_event : perf_socket_event;
  d_num_queries_per_conn : Z; d_nqpc_timeout : Z;
  d_nqpc_sent : Z; d_nqpc_recv : Z; d_nqpc_ts : Z;
  d_wire : list Z; d_sent_cb : list Z; d_events : list (perf_socket_event * Z);
}.

Definition d_set_lock (b : bool) (s : dot) : dot :=
  Dot b (d_fd s) (d_recvbuf s) (d_at s) (d_have_more s) (d_sendbuf s) (d_sending s) (d_is_sending s) (d_qid s)
    (d_is_ready s) (d_is_conn_ready s) (d_do_reconnect s) (d_conn_ts s) (d_conn_event s) (d_conning_event s)
    (d_num_queries_per_conn s) (d_nqpc_timeout s) (d_nqpc_sent s) (d_nqpc_recv s) (d_nqpc_ts s)
    (d_wire s) (d_sent_cb s) (d_events s).

#[export] Instance dot_lockable : Lockable dot :=
  Build_Lockable dot d_lock d_set_lock (λ _ _, eq_refl) (λ _ _ _, eq_refl).

(** The receive buffer, and how many responses were received. *)
Definition d_set_recv (s : dot) (buf : list Z) (n : nat) (more : bool) (rcvd : Z) : dot :=
  Dot (d_lock s) (d_fd s) buf n more (d_sendbuf s) (d_sending s) (d_is_sending s) (d_qid s)
    (d_is_ready s) (d_is_conn_ready s) (d_do_reconnect s) (d_conn_ts s) (d_conn_event s) (d_conning_event s)
    (d_num_queries_per_conn s) (d_nqpc_timeout s) (d_nqpc_sent s) rcvd (d_nqpc_ts s)
    (d_wire s) (d_sent_cb s) (d_events s).

(** The send buffer, what was sent of it, and how many queries were sent. *)
Definition d_set_send (s : dot) (buf : list Z) (n : nat) (issnd : bool) (id nsent : Z) (w cb : list Z) : dot :=
  Dot (d_lock s) (d_fd s) (d_recvbuf s) (d_at s) (d_have_more s) buf n issnd id
    (d_is_ready s) (d_is_conn_ready s) (d_do_reconnect s) (d_conn_ts s) (d_conn_event s) (d_conning_event s)
    (d_num_queries_per_conn s) (d_nqpc_timeout s) nsent (d_nqpc_recv s) (d_nqpc_ts s) w cb (d_events s).
Definition d_set_sending (s : dot) (n : nat) (b : bool) : dot :=
  d_set_send s (d_sendbuf s) n b (d_qid s) (d_nqpc_sent s) (d_wire s) (d_sent_cb s).

(** What was written to the connection. *)
Definition d_set_wire (s : dot) (w : list Z) : dot :=
  d_set_send s (d_sendbuf s) (d_sending s) (d_is_sending s) (d_qid s) (d_nqpc_sent s) w (d_sent_cb s).

(** The connection. *)
Definition d_set_flags (s : dot) (ready conn_ready reconn : bool) : dot :=
  Dot (d_lock s) (d_fd s) (d_recvbuf s) (d_at s) (d_have_more s) (d_sendbuf s) (d_sending s) (d_is_sending s)
    (d_qid s) ready conn_ready reconn (d_conn_ts s) (d_conn_event s) (d_conning_event s)
    (d_num_queries_per_conn s) (d_nqpc_timeout s) (d_nqpc_sent s) (d_nqpc_recv s) (d_nqpc_ts s)
    (d_wire s) (d_sent_cb s) (d_events s).
Definition d_set_conn (s : dot) (newfd ts : Z) (cev cgev : perf_socket_event) (nsent nrecv nts : Z) (w : list Z)
    (evs : list (perf_socket_event * Z)) : dot :=
  Dot (d_lock s) newfd (d_recvbuf s) (d_at s) (d_have_more s) (d_sendbuf s) (d_sending s) (d_is_sending s)
    (d_qid s) (d_is_ready s) (d_is_conn_ready s) (d_do_reconnect s) ts cev cgev
    (d_num_queries_per_conn s) (d_nqpc_timeout s) nsent nrecv nts w (d_sent_cb s) evs.

(** ** Connecting *)

(** What connecting once needs from outside: the descriptor, the time, and what [connect]
    did.  OpenSSL's failures to make a connection object are [ConnFailed]: they end the
    process too. *)
Record connecting : Type := Connecting { c_fd : Z; c_now : Z; c_res : conn_res }.

(** [perf__dot_connect(sock)]. *)
Definition dot_connect (c : connecting) : M dot unit :=
  modify (λ s, d_set_conn s (d_fd s) (d_conn_ts s) (d_conn_event s) (d_conning_event s) 0 0 0 (d_wire s) (d_events s));;
  if decide (c_fd c = -1)%Z then perf_log_fatal
  else
    modify (λ s, d_set_conn s (c_fd c) (c_now c) (d_conn_event s) perf_socket_event_reconnecting (d_nqpc_sent s)
                   (d_nqpc_recv s) (d_nqpc_ts s) [] (d_events s ++ [(d_conning_event s, c_now c)]));;
    match c_res c with
    | ConnOk => modify (λ s, d_set_flags s (d_is_ready s) true (d_do_reconnect s))
    | ConnInProgress => mret ()
    | ConnFailed => perf_log_fatal
    end.

(** [perf__dot_reconnect(sock)]: a query that was sent in part is given up. *)
Definition dot_reconnect (c : connecting) : M dot unit :=
  modify (λ s, d_set_recv s (d_recvbuf s) 0 false (d_nqpc_recv s));;
  modify (λ s, if decide (d_sending s ≠ 0) then d_set_sending s 0 false else s);;
  modify (λ s, d_set_flags s false false (d_do_reconnect s));;
  dot_connect c.

(** ** Receiving *)

(** What [perf__dot_recv] returns: -1 with [errno], or the length with the bytes copied. *)
Inductive dot_recv_result : Type := DotErr (e : errno) | DotMsg (dnslen : nat) (copied : list Z).

(** Lines 216-239: deliver the frame at the start of the buffer. *)
Definition dot_deliver (len : nat) : M dot dot_recv_result :=
  s ← get;
  let dnslen := buf_dnslen (d_recvbuf s) in
  if decide (d_at s < dnslen + 2) then mret (DotErr E_AGAIN)
  else
    let copied := take (Nat.min len dnslen) (drop 2 (d_recvbuf s)) in
    let rest := take (d_at s - 2 - dnslen) (drop (2 + dnslen) (d_recvbuf s)) in
    let buf := list_inserts 0 rest (d_recvbuf s) in
    let n := d_at s - (2 + dnslen) in
    let rcvd := if decide (d_num_queries_per_conn s ≠ 0)%Z then u32 (d_nqpc_recv s + 1) else d_nqpc_recv s in
    let more := bool_decide (2 < n) && bool_decide (buf_dnslen buf + 2 ≤ n) in
    put (d_set_recv s buf n more rcvd);;
    mret (DotMsg dnslen copied).

(** The [errno] values [perf__dot_recv] reconnects on. *)
Definition recv_lost (e : errno) : bool :=
  bool_decide (e = E_BADF ∨ e = E_CONNREFUSED ∨ e = E_CONNRESET ∨ e = E_NOTCONN).

(** The error branch of [SSL_read], lines 175-206.  [openssl3] tells whether the program was
    built with OpenSSL 3, where [SSL_ERROR_SSL] is treated as a bad descriptor. *)
Definition dot_read_error (openssl3 : bool) (c : connecting) (e : ssl_error) : M dot dot_recv_result :=
  match e with
  | SSL_ERROR_WANT_READ => unlock_return (DotErr E_AGAIN)
  | SSL_ERROR_SSL =>
      if openssl3 then dot_reconnect c;; unlock_return (DotErr E_AGAIN) else unlock_return (DotErr E_BADF)
  | SSL_ERROR_SYSCALL en =>
      if recv_lost en then dot_reconnect c;; unlock_return (DotErr E_AGAIN) else unlock_return (DotErr en)
  | SSL_ERROR_WANT_WRITE | SSL_ERROR_other => unlock_return (DotErr E_BADF)
  end.

(** What is left of [perf__dot_recv] when the lock has been released: to return, to look at the
    bytes there are, or to count the [n] bytes that were read. *)
Inductive recv_rest : Type := RecvReturn (x : dot_recv_result) | RecvDeliver | RecvBytes (n : nat).

(** Lines 160-208, which hold the lock.  [SSL_read] gives at most what it was asked for. *)
Definition dot_read (openssl3 : bool) (r : ssl_read) (c : connecting) : M dot recv_rest :=
  s ← get;
  if d_have_more s then mret RecvDeliver
  else
    PERF_LOCK;;
    s ← get;
    if d_is_ready s then
      match r with
      | SslReadZero => dot_reconnect c;; unlock_return (RecvReturn (DotErr E_AGAIN))
      | SslReadErr e => x ← dot_read_error openssl3 c e; mret (RecvReturn x)
      | SslRead bs =>
          if decide (TCP_RECV_BUF_SIZE < d_at s + length bs) then lift Undef
          else
            put (d_set_recv s (list_inserts (d_at s) bs (d_recvbuf s)) (d_at s) (d_have_more s) (d_nqpc_recv s));;
            unlock_return (RecvBytes (length bs))
      end
    else unlock_return (RecvReturn (DotErr E_AGAIN)).

(** Lines 210-239, without the lock. *)
Definition dot_recv_rest (len : nat) (x : recv_rest) : M dot dot_recv_result :=
  match x with
  | RecvReturn x => mret x
  | RecvDeliver => dot_deliver len
  | RecvBytes n =>
      modify (λ s, d_set_recv s (d_recvbuf s) (d_at s + n) (d_have_more s) (d_nqpc_recv s));;
      s ← get;
      if decide (d_at s < 3) then mret (DotErr E_AGAIN) else dot_deliver len
  end.

(** [perf__dot_recv(sock, buf, len, flags)]. *)
Definition dot_recv (openssl3 : bool) (len : nat) (r : ssl_read) (c : connecting) : M dot dot_recv_result :=
  x ← dot_read openssl3 r c; dot_recv_rest len x.

(** ** Sending *)

(** The [errno] values [perf__dot_sendto] reconnects on. *)
Definition send_lost (e : errno) : bool :=
  bool_decide (e = E_CONNREFUSED ∨ e = E_CONNRESET ∨ e = E_NOTCONN ∨ e = E_PIPE).

(** The query in the buffer is to be sent later, from byte [n] on. *)
Definition send_later (n : nat) : M dot (errno + nat) :=
  modify (λ s, d_set_sending s n true);; unlock_return (inl E_INPROGRESS).

(** [perf__dot_sendto(sock, qid, buf, len, ...)] up to line 305, which holds the lock: [inl] is -1
    with [errno]. *)
Definition dot_write (id : Z) (buf : list Z) (r : ssl_write) (c : connecting) : M dot (errno + nat) :=
  let send := if decide (length buf < TCP_SEND_BUF_SIZE - 2) then length buf else TCP_SEND_BUF_SIZE - 2 in
  PERF_LOCK;;
  modify (λ s, d_set_send s (list_inserts 0 (be16 (Z.of_nat send) ++ take send buf) (d_sendbuf s)) (d_sending s)
                 (d_is_sending s) id (d_nqpc_sent s) (d_wire s) (d_sent_cb s));;
  s ← get;
  if d_is_ready s then
    match r with
    | SslWriteErr (SSL_ERROR_SYSCALL en) =>
        if send_lost en then dot_reconnect c;; send_later 0 else unlock_return (inl en)
    | SslWriteErr SSL_ERROR_WANT_READ | SslWriteErr SSL_ERROR_WANT_WRITE => send_later 0
    | SslWriteErr SSL_ERROR_SSL | SslWriteErr SSL_ERROR_other => mret (inl E_BADF)
    | SslWrote n =>
        put (d_set_wire s (d_wire s ++ take n (take (send + 2) (d_sendbuf s))));;
        if decide (n < send + 2) then send_later n else unlock_return (inr (n - 2))
    end
  else send_later 0.

(** Line 307, without the lock. *)
Definition dot_sent (x : errno + nat) : M dot (errno + nat) :=
  (match x with
   | inr _ => modify (λ s, d_set_send s (d_sendbuf s) (d_sending s) (d_is_sending s) (d_qid s)
                             (u32 (d_nqpc_sent s + 1)) (d_wire s) (d_sent_cb s))
   | inl _ => mret ()
   end);;
  mret x.

Definition dot_sendto (id : Z) (buf : list Z) (r : ssl_write) (c : connecting) : M dot (errno + nat) :=
  x ← dot_write id buf r c; dot_sent x.

(** ** Readiness *)

(** What one call of [perf__dot_sockready] needs from outside. *)
Record dot_answers : Type := DotAnswers {
  da_conn : connecting;
  da_write : ssl_write;
  da_wait : perf_result; da_error : option errno;
  da_connect : ssl_connect;
  da_now_ts : Z; da_now_check : Z; da_now_event : Z;
}.

(** The bytes of the frame in the send buffer that are still to be sent. *)
Definition dot_unsent (s : dot) : list Z :=
  take (buf_dnslen (d_sendbuf s) + 2 - d_sending s) (drop (d_sending s) (d_sendbuf s)).

(** What is left of [perf__dot_sockready] when the lock has been released: to return, to count
    [n] bytes that were written, to look at the number of queries of the connection, to give
    up a connection that had its share, or to report the new connection. *)
Inductive dot_rest : Set :=
| RestReturn (z : Z) | RestWritten (n : nat) | RestReady | RestUsedUp | RestConnected.

(** Lines 331-357 and 370: the connection is ready. *)
Definition dot_when_ready (a : dot_answers) : M dot dot_rest :=
  s ← get;
  if d_is_sending s then
    match da_write a with
    | SslWriteErr (SSL_ERROR_SYSCALL _) => dot_reconnect (da_conn a);; unlock_return (RestReturn 0)
    | SslWriteErr _ => unlock_return (RestReturn 0)
    | SslWrote n =>
        put (d_set_wire s (d_wire s ++ take n (dot_unsent s)));;
        unlock_return (RestWritten n)
    end
  else unlock_return RestReady.

(** Lines 407, 423 and 434: the connection cannot be used. *)
Definition ask_reconnect : M dot dot_rest :=
  modify (λ s, d_set_flags s (d_is_ready s) (d_is_conn_ready s) true);; unlock_return (RestReturn 0).

(** Lines 420-440: the TLS handshake. *)
Definition dot_handshake (a : dot_answers) : M dot dot_rest :=
  match da_connect a with
  | SslConnectZero => ask_reconnect
  | SslConnectErr SSL_ERROR_WANT_READ | SslConnectErr SSL_ERROR_WANT_WRITE => unlock_return (RestReturn 0)
  | SslConnectErr _ => ask_reconnect
  | SslConnected =>
      modify (λ s, d_set_flags s true (d_is_conn_ready s) (d_do_reconnect s));; unlock_return RestConnected
  end.

(** The part of [perf__dot_sockready] that holds the lock. *)
Definition dot_ready_locked (a : dot_answers) : M dot dot_rest :=
  PERF_LOCK;;
  s ← get;
  (if d_do_reconnect s then
     dot_reconnect (da_conn a);; modify (λ s, d_set_flags s (d_is_ready s) (d_is_conn_ready s) false)
   else mret ());;
  s ← get;
  if d_is_ready s then dot_when_ready a
  else if d_is_conn_ready s then dot_handshake a
  else
    match da_wait a with
    | PERF_R_SUCCESS =>
        match da_error a with
        | Some e => if decide (e = E_INPROGRESS ∨ e = E_AGAIN) then unlock_return (RestReturn 0) else ask_reconnect
        | None => modify (λ s, d_set_flags s (d_is_ready s) true (d_do_reconnect s));; dot_handshake a
        end
    | _ => unlock_return (RestReturn (-1))
    end.

(** Lines 359-368, after [n] bytes were written: [true] when the frame is complete. *)
Definition dot_continue (n : nat) : M dot bool :=
  modify (λ s, d_set_sending s (d_sending s + n) (d_is_sending s));;
  s ← get;
  if decide (d_sending s < buf_dnslen (d_sendbuf s) + 2) then mret false
  else
    put (d_set_send s (d_sendbuf s) 0 false (d_qid s) (u32 (d_nqpc_sent s + 1)) (d_wire s)
           (d_sent_cb s ++ [d_qid s]));;
    mret true.

(** Lines 372-378 and 384: the limit on queries per connection. *)
Definition dot_check (a : dot_answers) : M dot dot_rest :=
  s ← get;
  if decide (d_num_queries_per_conn s ≠ 0 ∧ d_num_queries_per_conn s ≤ d_nqpc_sent s)%Z then
    modify (λ s, if decide (d_nqpc_ts s = 0)%Z
                 then d_set_conn s (d_fd s) (d_conn_ts s) (d_conn_event s) (d_conning_event s) (d_nqpc_sent s)
                        (d_nqpc_recv s) (u64 (da_now_ts a + d_nqpc_timeout s)) (d_wire s) (d_events s)
                 else s);;
    s ← get;
    mret (if decide (d_nqpc_sent s ≤ d_nqpc_recv s ∨ d_nqpc_ts s < da_now_check a)%Z then RestUsedUp else RestReturn 0)
  else mret (RestReturn 1).

(** Lines 379-383. *)
Definition dot_used_up (a : dot_answers) : M dot dot_rest :=
  PERF_LOCK;; dot_reconnect (da_conn a);; unlock_return (RestReturn 0).

(** Lines 441-448. *)
Definition dot_connected (a : dot_answers) : M dot dot_rest :=
  modify (λ s, d_set_conn s (d_fd s) (d_conn_ts s) perf_socket_event_reconnected (d_conning_event s)
                 (d_nqpc_sent s) (d_nqpc_recv s) (d_nqpc_ts s) (d_wire s)
                 (d_events s ++ [(d_conn_event s, u64 (da_now_event a - d_conn_ts s))]));;
  s ← get;
  mret (RestReturn (if d_is_sending s then 0 else 1)).

(** One step of what is left. *)
Definition dot_rest_step (a : dot_answers) (r : dot_rest) : M dot dot_rest :=
  match r with
  | RestReturn z => mret (RestReturn z)
  | RestWritten n => done ← dot_continue n; mret (if done : bool then RestReady else RestReturn 0)
  | RestReady => dot_check a
  | RestUsedUp => dot_used_up a
  | RestConnected => dot_connected a
  end.

(** All that is left: at most three steps, see [dot_rest_returns]. *)
Definition dot_sockready_rest (a : dot_answers) (r : dot_rest) : M dot Z :=
  r ← dot_rest_step a r;
  r ← dot_rest_step a r;
  r ← dot_rest_step a r;
  match r with RestReturn z => mret z | _ => lift NoFuel end.

(** [perf__dot_sockready(sock, pipe_fd, timeout)]. *)
Definition dot_sockready (a : dot_answers) : M dot Z :=
  r ← dot_ready_locked a; dot_sockready_rest a r.

(** [perf_net_dot_opensocket(...)] and [perf__dot_num_queries_per_conn]. *)
Definition dot_init : dot :=
  Dot false 0 (replicate TCP_RECV_BUF_SIZE 0%Z) 0 false (replicate TCP_SEND_BUF_SIZE 0%Z) 0 false 0
    false false false 0 perf_socket_event_connected perf_socket_event_connecting 0 0 0 0 0 [] [] [].

Definition dot_opensocket (c : connecting) : run dot := '(_, s) ← dot_connect c dot_init; Done s.

Definition dot_num_queries_per_conn (n timeout : Z) (s : dot) : dot :=
  Dot (d_lock s) (d_fd s) (d_recvbuf s) (d_at s) (d_have_more s) (d_sendbuf s) (d_sending s) (d_is_sending s)
    (d_qid s) (d_is_ready s) (d_is_conn_ready s) (d_do_reconnect s) (d_conn_ts s) (d_conn_event s)
    (d_conning_event s) n timeout (d_nqpc_sent s) (d_nqpc_recv s) (d_nqpc_ts s) (d_wire s) (d_sent_cb s) (d_events s).

(** ** Receiving as TCP does

    The buffers of a DoT socket seen as those of a TCP socket that needs no reconnection. *)
Definition as_tcp (s : dot) : tcp :=
  Tcp (d_fd s) (d_recvbuf s) (d_sendbuf s) (d_at s) (d_sending s) (d_is_ready s) (d_do_reconnect s) (d_have_more s)
    (d_is_sending s) (d_fd s) (d_fd s - 1) (d_qid s) (d_conn_ts s) (d_conn_event s) (d_conning_event s)
    (d_num_queries_per_conn s) (d_nqpc_timeout s) (d_nqpc_sent s) (d_nqpc_recv s) (d_nqpc_ts s)
    (d_wire s) (d_sent_cb s) (d_events s).

Definition with_rx (s : dot) (t : tcp) : dot := d_set_recv s (recvbuf t) (at_ t) (have_more t) (nqpc_recv t).

Definition from_tcp (r : tcp_recv_result) : dot_recv_result :=
  match r with TcpErr e => DotErr e | TcpEof => DotErr E_AGAIN | TcpMsg n c => DotMsg n c end.

Definition lift_tcp (s : dot) (m : run (tcp_recv_result * tcp)) : run (dot_recv_result * dot) :=
  '(r, t) ← m; Done (from_tcp r, with_rx s t).

Lemma dot_deliver_tcp len s : dot_deliver len s = lift_tcp s (tcp_deliver len (as_tcp s)).
Proof.
  unfold dot_deliver, tcp_deliver, lift_tcp. run_unfold. cbn [as_tcp recvbuf at_]. cbv zeta.
  destruct (decide _); [|done]. cbn. by destruct s.
Qed.

(** When the socket can be read. *)
Definition readable (s : dot) : Prop := d_lock s = false ∧ d_is_ready s = true.

(** What the locked part reads. *)
Lemma dot_read_bytes openssl3 bs c s :
  readable s → dot_read openssl3 (SslRead bs) c s =
    if d_have_more s then Done (RecvDeliver, s)
    else if decide (TCP_RECV_BUF_SIZE < d_at s + length bs) then Undef
    else Done (RecvBytes (length bs),
               d_set_recv s (list_inserts (d_at s) bs (d_recvbuf s)) (d_at s) (d_have_more s) (d_nqpc_recv s)).
Proof.
  intros [Hl Hr]. unfold dot_read. rewrite (bind_Done get _ _ _ _ eq_refl). destruct (d_have_more s) eqn:Hm; [done|].
  rewrite lock_bind, (bind_Done get _ _ _ _ eq_refl) by exact Hl. cbn [set_held dot_lockable d_set_lock d_is_ready d_at].
  rewrite Hr. destruct (decide _); [done|]. rewrite (bind_Done (put _) _ _ () _ eq_refl), unlock_return_held by done.
  destruct s; simpl in *. by subst.
Qed.

Lemma dot_recv_tcp openssl3 len bs c s :
  readable s → dot_recv openssl3 len (SslRead bs) c s = lift_tcp s (tcp_recv len (SysRecvData bs) (as_tcp s)).
Proof.
  intros Hr. unfold dot_recv, tcp_recv. pose proof (dot_read_bytes openssl3 bs c s Hr) as E.
  rewrite (bind_Done (modify _) _ _ () (as_tcp s)) by (unfold modify; by rewrite decide_False by (cbn; congruence)).
  rewrite !(bind_Done get _ _ _ _ eq_refl). cbn [as_tcp have_more].
  destruct (d_have_more s) eqn:Hm; [rewrite (bind_Done _ _ _ _ _ E); apply dot_deliver_tcp|].
  cbn [as_tcp at_]. destruct (decide (TCP_RECV_BUF_SIZE < _)); [unfold mbind, M_bind; by rewrite E|].
  rewrite (bind_Done _ _ _ _ _ E). cbv zeta. cbn [dot_recv_rest].
  rewrite (bind_Done (modify _) _ _ () _ eq_refl), (bind_Done get _ _ _ _ eq_refl), !(bind_Done (put _) _ _ () _ eq_refl).
  cbn [d_at d_set_recv]. destruct (decide _).
  - unfold lift_tcp. destruct s; simpl in *. by subst.
  - rewrite dot_deliver_tcp. destruct s; simpl in *. subst. unfold lift_tcp, as_tcp, set_recv. simpl.
    by destruct (tcp_deliver len _) as [[??]| | | |].
Qed.

Lemma tcp_recv_frame len bs s r t :
  recvfd s = fd s → tcp_recv len (SysRecvData bs) s = Done (r, t) →
  t = set_recv s (recvbuf t) (at_ t) (have_more t) (recvfd s) (recv_need_reconn s) (nqpc_recv t).
Proof.
  intros Hfd. unfold tcp_recv, tcp_deliver. run_unfold. cbv zeta. rewrite decide_False by congruence.
  destruct (have_more s) eqn:Hm; [destruct (decide _); intros [= <- <-]; by destruct s|].
  destruct (decide _); [done|]. destruct (decide _); [intros [= <- <-]; by destruct s|].
  destruct (decide _); intros [= <- <-]; by destruct s.
Qed.

(** Receive until nothing more comes, as for TCP. *)
Fixpoint dot_receive (openssl3 : bool) (c : connecting) (fuel len : nat) (chunks : list (list Z)) (s : dot)
    : run (list (nat * list Z) * dot) :=
  match fuel with
  | 0 => NoFuel
  | S fuel' =>
      if decide (d_have_more s = false ∧ chunks = []) then Done ([], s)
      else
        let '(bs, rest) :=
          if d_have_more s then ([0%Z], chunks)
          else match chunks with c :: cs => (c, cs) | [] => ([], []) end in
        match dot_recv openssl3 len (SslRead bs) c s with
        | Done (DotMsg n m, s') =>
            '(ms, s'') ← dot_receive openssl3 c fuel' len rest s'; Done ((n, m) :: ms, s'')
        | Done (DotErr _, s') => dot_receive openssl3 c fuel' len rest s'
        | Abort => Abort | Exit c => Exit c | Undef => Undef | NoFuel => NoFuel
        end
  end.

Lemma dot_receive_tcp openssl3 c fuel len chunks s :
  readable s →
  dot_receive openssl3 c fuel len chunks s =
    ('(ms, t) ← tcp_receive fuel len chunks (as_tcp s); Done (ms, with_rx s t)).
Proof.
  revert chunks s. induction fuel as [|fuel IH]; intros chunks s Hr; [done|]. cbn [dot_receive tcp_receive].
  cbn [as_tcp have_more]. destruct (decide _) as [|_]; [by destruct s|].
  destruct (if d_have_more s then _ else _) as [bs rest] eqn:Eb. rewrite dot_recv_tcp by done. fold (as_tcp s).
  destruct (tcp_recv len (SysRecvData bs) (as_tcp s)) as [[r t]| | | |] eqn:E; try done.
  pose proof (tcp_recv_frame _ _ _ _ _ (eq_refl : recvfd (as_tcp s) = fd (as_tcp s)) E) as Ht.
  assert (as_tcp (with_rx s t) = t) as Hat by (rewrite Ht; by destruct s).
  assert (∀ u, with_rx (with_rx s t) u = with_rx s u) as Hw by done.
  cbn [lift_tcp mbind run_bind]. destruct r as [e| |n m]; cbn [from_tcp].
  - rewrite IH by done. rewrite Hat. by destruct (tcp_receive fuel len rest t) as [[??]| | | |].
  - exfalso. revert E. clear. unfold tcp_recv, tcp_deliver. run_unfold. cbv zeta.
    repeat case_match; congruence.
  - rewrite IH by done. rewrite Hat. by destruct (tcp_receive fuel len rest t) as [[??]| | | |].
Qed.

(** ** What is written

    The invariant of the send buffer is that of the TCP socket, [winv]; [b] is whether the lock
    is held. *)
Definition dinv (b : bool) (s : dot) : Prop := d_lock s = b ∧ winv (as_tcp s).

Lemma dinv_ext b s s' : d_lock s' = b → send_part (as_tcp s') = send_part (as_tcp s) → winv (as_tcp s) → dinv b s'.
Proof. intros Hl Hs Hw. split; [done|]. by apply (winv_ext (as_tcp s)). Qed.

Lemma unlock_return_inv {A} (a : A) s : dinv true s → unlock_return a s = Done (a, d_set_lock false s) ∧ dinv false (d_set_lock false s).
Proof.
  intros [Hl Hw]. split; [exact (unlock_return_held a s Hl)|]. by apply (dinv_ext false s).
Qed.

Lemma dot_connect_part c s :
  match dot_connect c s with
  | Done (_, s') =>
      d_lock s' = d_lock s ∧ send_part (as_tcp s') = (d_sendbuf s, d_sending s, d_is_sending s, []) ∧
      d_is_ready s' = d_is_ready s ∧ d_qid s' = d_qid s ∧ d_sent_cb s' = d_sent_cb s
  | Exit c => c = 1%Z
  | _ => False
  end.
Proof. unfold dot_connect. run_unfold. destruct (decide _); [done|]. by destruct (c_res c). Qed.

(** A reconnection drops a frame that was sent in part and starts with an empty wire. *)
Lemma dot_reconnect_inv c s :
  winv (as_tcp s) →
  match dot_reconnect c s with
  | Done (_, s') =>
      d_lock s' = d_lock s ∧ winv (as_tcp s') ∧ d_sending s' = 0 ∧ d_wire s' = [] ∧ d_is_ready s' = false ∧
      d_sendbuf s' = d_sendbuf s ∧ (d_sending s = 0 → d_is_sending s' = d_is_sending s)
  | Exit c => c = 1%Z
  | _ => False
  end.
Proof.
  intros Hw. unfold dot_reconnect. do 3 rewrite (bind_Done (modify _) _ _ () _ eq_refl).
  set (s1 := d_set_flags _ false false _).
  assert (d_sending s1 = 0 ∧ d_sendbuf s1 = d_sendbuf s ∧ d_lock s1 = d_lock s ∧ d_is_ready s1 = false ∧
          (d_sending s = 0 → d_is_sending s1 = d_is_sending s)) as (H0 & Hb & Hlk & Hrd & His).
  { unfold s1. simpl. destruct (decide (d_sending s ≠ 0)); simpl; split_and!; try done; try lia. }
  clearbody s1.
  pose proof (dot_connect_part c s1) as Hc. destruct (dot_connect c s1) as [[[] s']| | | |]; try done.
  destruct Hc as (Hl & Hs & Hr & _ & _). unfold send_part in Hs. injection Hs as E1 E2 E3 E4.
  destruct Hw as [W1 W2 W3 W4 _]. cbn [as_tcp sendbuf sending is_sending wire] in *.
  refine (conj _ (conj _ (conj _ (conj E4 (conj _ (conj _ _)))))); try congruence.
  - split; cbn [as_tcp sendbuf sending is_sending wire]; rewrite ?E1, ?E2, ?Hb, ?H0; try done; try lia.
    exists []. rewrite E4. unfold partial. cbn [as_tcp is_sending sending]. rewrite E2, H0. by destruct (d_is_sending s').
  - intros Hz. rewrite E3. by apply His.
Qed.

(** *** Continuing a frame *)

(** [n] bytes of the query in progress have been written and are not counted yet. *)
Definition in_flight (n : nat) (s : dot) : Prop :=
  d_lock s = false ∧ d_is_sending s = true ∧ n ≤ buf_dnslen (d_sendbuf s) + 2 - d_sending s ∧
  ∃ w, d_wire s = w ++ take n (dot_unsent s) ∧ winv (as_tcp (d_set_wire s w)).

Lemma dot_continue_inv n s :
  in_flight n s →
  match dot_continue n s with
  | Done (b, s') =>
      dinv false s' ∧ d_is_ready s' = d_is_ready s ∧
      (b = true → d_is_sending s' = false ∧ d_sent_cb s' = d_sent_cb s ++ [d_qid s])
  | _ => False
  end.
Proof.
  intros (Hl & Hs & Hn & w & Hw & Hinv). pose proof (tcp_continue_spec n (as_tcp (d_set_wire s w)) Hinv Hs Hn) as Ht.
  unfold dot_continue, tcp_continue in *. run_unfold.
  cbn [as_tcp set_send sendbuf sending d_set_send d_set_sending d_set_wire d_sendbuf d_sending] in *.
  destruct (decide _); (destruct Ht as [Ht _]; split_and!; [split; [exact Hl|]; refine (winv_ext _ _ _ Ht)|done|done]).
  - exact (f_equal (λ l, (d_sendbuf s, d_sending s + n, d_is_sending s, l)) Hw).
  - exact (f_equal (λ l, (d_sendbuf s, 0, false, l)) Hw).
Qed.

(** *** One query *)

(** An error of [SSL_write] that is neither a failed system call nor a request to wait. *)
Definition write_fatal (r : ssl_write) : Prop :=
  r = SslWriteErr SSL_ERROR_SSL ∨ r = SslWriteErr SSL_ERROR_other.

(** What [sendto] of a TCP socket would have returned. *)
Definition sys_of (ready : bool) (r : ssl_write) : sys_send :=
  if ready then
    match r with
    | SslWrote n => SysSent n
    | SslWriteErr (SSL_ERROR_SYSCALL en) => SysSendErr (if send_lost en then E_CONNRESET else E_other)
    | SslWriteErr _ => SysSendErr E_CONNRESET
    end
  else SysSendErr E_CONNRESET.

Lemma send_later_inv n s t :
  d_lock s = true → winv t → send_part t = (d_sendbuf s, n, true, d_wire s) →
  ∃ s', send_later n s = Done (inl E_INPROGRESS, s') ∧ dinv false s'.
Proof.
  intros Hl Hw Ht. unfold send_later. rewrite (bind_Done (modify _) _ _ () _ eq_refl), unlock_return_held by exact Hl.
  eexists. split; [reflexivity|]. split; [done|]. apply (winv_ext t); [|done]. by rewrite Ht.
Qed.

Lemma dot_write_inv id buf r c s :
  dinv false s → d_is_sending s = false → Forall byte_ok buf → ¬ write_fatal r →
  (∀ n, r = SslWrote n → n ≤ send_length buf + 2) →
  match dot_write id buf r c s with
  | Done (res, s') =>
      dinv false s' ∧
      match res with
      | inr n => n = send_length buf ∧ d_is_sending s' = false ∧ d_wire s' = d_wire s ++ frame (take n buf)
      | inl _ => True
      end
  | Exit c => c = 1%Z
  | _ => False
  end.
Proof.
  intros [Hl Hw] Hs Hb Hnf Hn. pose proof (tcp_sendto_inv id buf (sys_of (d_is_ready s) r) (as_tcp s) Hw Hs Hb) as Ht.
  assert (∀ n, sys_of (d_is_ready s) r = SysSent n → n ≤ send_length buf + 2) as Hsz.
  { intros n. unfold sys_of. destruct (d_is_ready s); [|done]. destruct r as [k|[]]; try done. intros [= <-]. by apply Hn. }
  specialize (Ht Hsz). unfold tcp_sendto in Ht. unfold dot_write. cbv zeta in *.
  set (send := if decide (length buf < TCP_SEND_BUF_SIZE - 2) then length buf else TCP_SEND_BUF_SIZE - 2) in *. clearbody send.
  rewrite (bind_Done (modify _) _ _ () _ eq_refl), (bind_Done get _ _ _ _ eq_refl) in Ht.
  rewrite decide_False in Ht by (simpl; lia).
  rewrite lock_bind, (bind_Done (modify _) _ _ () _ eq_refl), (bind_Done get _ _ _ _ eq_refl) by exact Hl.
  set (s1 := d_set_send (set_held true s) _ _ _ _ _ _ _).
  set (t1 := set_send (as_tcp s) _ _ _ _ _ _ _ _) in Ht.
  assert (t1 = as_tcp (d_set_lock false s1)) as E1 by done.
  assert (d_lock s1 = true ∧ d_is_ready s1 = d_is_ready s ∧ d_is_sending s1 = false ∧ d_sending s1 = 0 ∧ d_wire s1 = d_wire s)
    as (Hl1 & Hr1 & Hs1 & Hz1 & Hw1) by (destruct Hw as [_ _ W3 _ _]; split_and!; try done; exact (W3 Hs)).
  clearbody t1 s1. subst t1. rewrite Hr1. destruct (d_is_ready s); unfold sys_of in Ht.
  2: { rewrite decide_True in Ht by auto. rewrite (bind_Done (put _) _ _ () _ eq_refl) in Ht. destruct Ht as [Ht _].
       by destruct (send_later_inv 0 s1 _ Hl1 Ht eq_refl) as (s' & -> & ?). }
  destruct r as [n|[| |en| |]].
  - rewrite (bind_Done (put _) _ _ () _ eq_refl). cbn [as_tcp d_set_lock sendbuf d_sendbuf wire d_wire] in Ht.
    destruct (decide (n < send + 2)).
    + rewrite (bind_Done (put _) _ _ () _ eq_refl) in Ht. destruct Ht as [Ht _].
      edestruct (send_later_inv n) as (s' & -> & ?); [|exact Ht|reflexivity|done]. exact Hl1.
    + rewrite (bind_Done (put _) _ _ () _ eq_refl) in Ht. destruct Ht as (Ht & _ & Hm).
      rewrite unlock_return_held by exact Hl1.
      split; [|exact Hm]. split; [done|]. refine (winv_ext _ _ _ Ht). reflexivity.
  - rewrite decide_True in Ht by auto. rewrite (bind_Done (put _) _ _ () _ eq_refl) in Ht. destruct Ht as [Ht _].
    by destruct (send_later_inv 0 s1 _ Hl1 Ht eq_refl) as (s' & -> & ?).
  - rewrite decide_True in Ht by auto. rewrite (bind_Done (put _) _ _ () _ eq_refl) in Ht. destruct Ht as [Ht _].
    by destruct (send_later_inv 0 s1 _ Hl1 Ht eq_refl) as (s' & -> & ?).
  - destruct (send_lost en).
    + rewrite decide_True in Ht by auto. rewrite (bind_Done (put _) _ _ () _ eq_refl) in Ht. destruct Ht as [Ht _].
      assert (winv (as_tcp s1)) as W1.
      { destruct Ht as [T1 T2 _ T4 [ms T5]]. split; [done|done|done|simpl; lia|].
        exists ms. etrans; [exact T5|]. unfold partial. simpl. by rewrite Hs1. }
      pose proof (dot_reconnect_inv c s1 W1) as Hc. unfold mbind at 1, M_bind at 1.
      destruct (dot_reconnect c s1) as [[[] s2]| | | |]; try done. destruct Hc as (L2 & W2 & Z2 & E2 & _ & B2 & _).
      edestruct (send_later_inv 0 s2 (as_tcp (d_set_sending s2 0 true))) as (s' & -> & ?); [congruence| |done|done].
      destruct W2 as [T1 T2 _ T4 _]. split; cbn [as_tcp d_set_sending d_set_send sendbuf sending is_sending wire d_sendbuf d_sending d_is_sending d_wire]; [done|done|done|lia|].
      exists []. by rewrite E2.
    + rewrite decide_False in Ht by naive_solver. destruct Ht as [Ht _].
      rewrite unlock_return_held by exact Hl1. split; [|done]. split; [done|]. exact Ht.
  - destruct Hnf. by left.
  - destruct Hnf. by right.
Qed.

(** Counting the query changes nothing else. *)
Lemma dot_sent_inv x s :
  ∃ s', dot_sent x s = Done (x, s') ∧ (dinv false s → dinv false s') ∧ d_is_sending s' = d_is_sending s ∧
        d_wire s' = d_wire s ∧ d_is_ready s' = d_is_ready s.
Proof.
  destruct x as [e|n]; [by exists s|]. eexists. split; [reflexivity|]. split_and!; try done.
  intros [Hl Hw]. by apply (dinv_ext false s).
Qed.

Lemma dot_sendto_inv id buf r c s :
  dinv false s → d_is_sending s = false → Forall byte_ok buf → ¬ write_fatal r →
  (∀ n, r = SslWrote n → n ≤ send_length buf + 2) →
  match dot_sendto id buf r c s with
  | Done (res, s') =>
      dinv false s' ∧
      match res with
      | inr n => n = send_length buf ∧ d_is_sending s' = false ∧ d_wire s' = d_wire s ++ frame (take n buf)
      | inl _ => True
      end
  | Exit c => c = 1%Z
  | _ => False
  end.
Proof.
  intros Hi Hs Hb Hnf Hn. pose proof (dot_write_inv id buf r c s Hi Hs Hb Hnf Hn) as Hd. unfold dot_sendto, mbind, M_bind.
  destruct (dot_write id buf r c s) as [[res s1]| | | |]; try done.
  destruct (dot_sent_inv res s1) as (s2 & -> & Hi2 & Hs2 & Hw2 & _). destruct Hd as [Hi1 Hr]. split; [auto|].
  destruct res; [done|]. by rewrite Hs2, Hw2.
Qed.

(** *** Readiness *)

(** How many steps are left. *)
Definition rest_left (r : dot_rest) : nat :=
  match r with RestReturn _ => 0 | RestUsedUp | RestConnected => 1 | RestReady => 2 | RestWritten _ => 3 end.

(** The lock is free and the invariant true, up to bytes that are not counted yet. *)
Definition rest_inv (r : dot_rest) (s : dot) : Prop :=
  match r with RestWritten n => in_flight n s | _ => dinv false s end.

(** If the call returns 1, the socket is ready and no query is being sent. *)
Definition rest_ready (r : dot_rest) (s : dot) : Prop :=
  match r with
  | RestReturn z => z = 1%Z → d_is_ready s = true ∧ d_is_sending s = false
  | RestWritten _ | RestConnected => d_is_ready s = true
  | RestReady => d_is_ready s = true ∧ d_is_sending s = false
  | RestUsedUp => True
  end.

Definition rest_post (P : dot_rest → dot → Prop) (m : run (dot_rest * dot)) : Prop :=
  match m with
  | Done (r, s') => P r s'
  | Exit c => c = 1%Z
  | _ => False
  end.
Notation locked_post := (rest_post (λ r s, rest_inv r s ∧ rest_ready r s)).

Lemma unlock_post z s : dinv true s → z ≠ 1%Z → locked_post (unlock_return (RestReturn z) s).
Proof. intros Hi Hz. destruct (unlock_return_inv (RestReturn z) s Hi) as [-> ?]. by split. Qed.

Lemma reconnect_unlock_post c s :
  dinv true s → locked_post ((dot_reconnect c;; unlock_return (RestReturn 0)) s).
Proof.
  intros [Hl Hw]. pose proof (dot_reconnect_inv c s Hw) as Hc. unfold mbind, M_bind.
  destruct (dot_reconnect c s) as [[[] s']| | | |]; try done. destruct Hc as (Hl' & Hw' & _).
  apply unlock_post; [|done]. split; [congruence|done].
Qed.

Lemma dot_when_ready_post a s :
  dinv true s → d_is_ready s = true →
  (∀ n, da_write a = SslWrote n → n ≤ buf_dnslen (d_sendbuf s) + 2 - d_sending s) →
  locked_post (dot_when_ready a s).
Proof.
  intros Hi Hr Hn. pose proof Hi as [Hl Hw]. unfold dot_when_ready. rewrite (bind_Done get _ _ _ _ eq_refl).
  destruct (d_is_sending s) eqn:Hs.
  - destruct (da_write a) as [n|[| |en| |]]; try (by apply unlock_post); [|by apply reconnect_unlock_post].
    rewrite (bind_Done (put _) _ _ () _ eq_refl), unlock_return_held by exact Hl. split; [|exact Hr].
    split; [done|]. split; [exact Hs|]. split; [exact (Hn n eq_refl)|]. exists (d_wire s). split; [done|].
    exact (winv_ext _ _ eq_refl Hw).
  - destruct (unlock_return_inv RestReady s Hi) as [-> Hi']. by split.
Qed.

Lemma ask_reconnect_post s : dinv true s → locked_post (ask_reconnect s).
Proof.
  intros [Hl Hw]. unfold ask_reconnect. rewrite (bind_Done (modify _) _ _ () _ eq_refl). apply unlock_post; [|done].
  by apply (dinv_ext true s).
Qed.

Lemma dot_handshake_post a s : dinv true s → locked_post (dot_handshake a s).
Proof.
  intros Hi. unfold dot_handshake. destruct (da_connect a) as [| |[]];
    try (by apply unlock_post); try (by apply ask_reconnect_post).
  destruct Hi as [Hl Hw]. rewrite (bind_Done (modify _) _ _ () _ eq_refl), unlock_return_held by exact Hl.
  split; [|done]. split; [done|]. apply (winv_ext (as_tcp s)); [reflexivity|exact Hw].
Qed.

Lemma dot_ready_locked_post a s :
  dinv false s → (∀ n, da_write a = SslWrote n → n ≤ buf_dnslen (d_sendbuf s) + 2 - d_sending s) →
  locked_post (dot_ready_locked a s).
Proof.
  intros [Hl Hw] Hn. unfold dot_ready_locked. rewrite lock_bind, (bind_Done get _ _ _ _ eq_refl) by exact Hl.
  set (s1 := d_set_lock true s). assert (winv (as_tcp s1)) as Hw1 by exact (winv_ext _ _ eq_refl Hw).
  cbn [set_held dot_lockable]. fold s1.
  set (first := (if d_do_reconnect s1 then _ else _) : M dot unit).
  assert (match first s1 with
          | Done (_, s2) => dinv true s2 ∧
              (d_is_ready s2 = true → d_sendbuf s2 = d_sendbuf s ∧ d_sending s2 = d_sending s)
          | Exit c => c = 1%Z | _ => False end) as Hf.
  { unfold first. destruct (d_do_reconnect s1); [|done]. pose proof (dot_reconnect_inv (da_conn a) s1 Hw1) as Hc.
    unfold mbind, M_bind. destruct (dot_reconnect (da_conn a) s1) as [[[] s2]| | | |]; try done.
    destruct Hc as (L2 & W2 & _ & _ & R2 & _). cbn [modify]. split; [by apply (dinv_ext true s2)|]. simpl. congruence. }
  unfold mbind at 1, M_bind at 1. destruct (first s1) as [[[] s2]| | | |]; try done. destruct Hf as [Hi Hsame].
  rewrite (bind_Done get _ _ _ _ eq_refl).
  destruct (d_is_ready s2) eqn:Hr2.
  { destruct (Hsame eq_refl) as [Eb Es]. apply dot_when_ready_post; [done|done|]. by rewrite Eb, Es. }
  destruct (d_is_conn_ready s2); [by apply dot_handshake_post|].
  destruct (da_wait a); try (by apply unlock_post). destruct (da_error a) as [e|].
  - destruct (decide _); [by apply unlock_post|by apply ask_reconnect_post].
  - rewrite (bind_Done (modify _) _ _ () _ eq_refl). apply dot_handshake_post. destruct Hi. by apply (dinv_ext true s2).
Qed.

Lemma dot_check_post a s :
  match dot_check a s with
  | Done (r, s') =>
      (dinv false s → dinv false s') ∧ rest_left r ≤ 1 ∧
      (r = RestUsedUp ∨ r = RestReturn 0%Z ∨ r = RestReturn 1%Z ∧ s' = s)
  | _ => False
  end.
Proof.
  unfold dot_check. rewrite (bind_Done get _ _ _ _ eq_refl).
  destruct (decide (d_num_queries_per_conn s ≠ 0 ∧ d_num_queries_per_conn s ≤ d_nqpc_sent s)%Z); [|simpl; split_and!; [done|lia|by right; right]].
  rewrite (bind_Done (modify _) _ _ () _ eq_refl), (bind_Done get _ _ _ _ eq_refl). set (s1 := if decide _ then _ else s).
  cbn [mret M_ret]. split; [|case_decide; (split; [simpl; lia|auto])].
  intros [Hl Hw]. unfold s1. destruct (decide (d_nqpc_ts s = 0)%Z); [by apply (dinv_ext false s)|done].
Qed.

Lemma dot_used_up_post a s : dinv false s → locked_post (dot_used_up a s).
Proof.
  intros [Hl Hw]. unfold dot_used_up. rewrite lock_bind by exact Hl. apply reconnect_unlock_post.
  split; [done|]. exact (winv_ext _ _ eq_refl Hw).
Qed.

(** A step of what is left. *)
Lemma dot_rest_step_post a r s :
  rest_inv r s →
  rest_post (λ r' s', rest_inv r' s' ∧ rest_left r' ≤ pred (rest_left r) ∧ (rest_ready r s → rest_ready r' s'))
    (dot_rest_step a r s).
Proof.
  intros Hi. destruct r as [z|n| | |]; cbn [dot_rest_step].
  - by split.
  - pose proof (dot_continue_inv n s Hi) as Hc. unfold mbind, M_bind.
    destruct (dot_continue n s) as [[b s']| | | |]; try done. destruct Hc as (Hi' & Hr & Hb).
    destruct b; cbn; (split; [exact Hi'|split; [lia|]]); [|done]. intros Hr0. destruct (Hb eq_refl). split; congruence.
  - pose proof (dot_check_post a s) as Hc. destruct (dot_check a s) as [[r s']| | | |]; try done.
    destruct Hc as (Hi' & Hl & Hr). specialize (Hi' Hi). cbn. destruct Hr as [->|[->|[-> ->]]]; (split_and!; [exact Hi'|simpl; lia|intros Hr0]); [done| |].
    + by intros [=].
    + by intros _.
  - pose proof (dot_used_up_post a s Hi) as Hu. destruct (dot_used_up a s) as [[r s']| | | |] eqn:E; try done.
    destruct Hu as [Hi' Hr]. assert (∃ z, r = RestReturn z) as [z ->].
    { revert E. unfold dot_used_up, unlock_return, mbind, M_bind. destruct (PERF_LOCK s) as [[[] ?]| | | |]; try done.
      destruct (dot_reconnect _ _) as [[[] y]| | | |]; try done. destruct (PERF_UNLOCK y) as [[[] ?]| | | |]; try done.
      intros [= <- _]. eauto. }
    by split_and!.
  - destruct Hi as [Hl Hw]. unfold dot_connected. rewrite (bind_Done (modify _) _ _ () _ eq_refl), (bind_Done get _ _ _ _ eq_refl).
    cbn. split; [by apply (dinv_ext false s)|]. split; [lia|]. intros Hr. destruct (d_is_sending s); [done|]. by intros _.
Qed.

(** With at most [k] steps left. *)
Definition rest_within (k : nat) (r : dot_rest) (s : dot) : Prop :=
  rest_inv r s ∧ rest_ready r s ∧ rest_left r ≤ k.

Lemma dot_rest_within a k r s :
  rest_within (S k) r s → rest_post (rest_within k) (dot_rest_step a r s).
Proof.
  intros (Hi & Hr & Hl). pose proof (dot_rest_step_post a r s Hi) as Hs.
  destruct (dot_rest_step a r s) as [[r' s']| | | |]; try done. destruct Hs as (Hi' & Hl' & Hr').
  split_and!; [done|auto|lia].
Qed.

(** All that is left, without anything in between. *)
Lemma dot_rest_returns a r s :
  rest_inv r s → rest_ready r s →
  match dot_sockready_rest a r s with
  | Done (z, s') => dinv false s' ∧ (z = 1%Z → d_is_ready s' = true ∧ d_is_sending s' = false)
  | Exit c => c = 1%Z
  | _ => False
  end.
Proof.
  intros Hi Hr. assert (rest_within 3 r s) as H3 by (split_and!; [done|done|destruct r; simpl; lia]).
  unfold dot_sockready_rest. apply (dot_rest_within a) in H3. unfold mbind at 1, M_bind at 1.
  destruct (dot_rest_step a r s) as [[r2 s2]| | | |]; try done. apply (dot_rest_within a) in H3. unfold mbind at 1, M_bind at 1.
  destruct (dot_rest_step a r2 s2) as [[r1 s1]| | | |]; try done. apply (dot_rest_within a) in H3. unfold mbind at 1, M_bind at 1.
  destruct (dot_rest_step a r1 s1) as [[r0 s0]| | | |]; try done. destruct H3 as (Hi0 & Hr0 & Hl0).
  destruct r0; simpl in Hl0; try lia. by split.
Qed.

(** A call that leaves the lock free and the invariant true; when it returns 1, the socket is
    ready and no query is being sent. *)
Definition ready_post (m : run (Z * dot)) : Prop :=
  match m with
  | Done (z, s') => dinv false s' ∧ (z = 1%Z → d_is_ready s' = true ∧ d_is_sending s' = false)
  | Exit c => c = 1%Z
  | _ => False
  end.

Lemma dot_sockready_post a s :
  dinv false s → (∀ n, da_write a = SslWrote n → n ≤ buf_dnslen (d_sendbuf s) + 2 - d_sending s) →
  ready_post (dot_sockready a s).
Proof.
  intros Hi Hn. pose proof (dot_ready_locked_post a s Hi Hn) as Hp. unfold dot_sockready, mbind, M_bind.
  destruct (dot_ready_locked a s) as [[r s1]| | | |]; try done. destruct Hp as [Hi1 Hr1].
  exact (dot_rest_returns a r s1 Hi1 Hr1).
Qed.

(** *** The receiving thread *)

(** The part of the state that sending is about. *)
Definition send_view (s : dot) : bool * bool * list Z * nat * bool * list Z :=
  (d_lock s, d_is_ready s, d_sendbuf s, d_sending s, d_is_sending s, d_wire s).

Lemma rest_inv_view r s s' : send_view s' = send_view s → rest_inv r s → rest_inv r s'.
Proof.
  unfold send_view. intros E. injection E as E1 E2 E3 E4 E5 E6.
  assert (send_part (as_tcp s') = send_part (as_tcp s)) as Hp
    by (unfold send_part; cbn [as_tcp sendbuf sending is_sending wire]; congruence).
  destruct r as [z|n| | |]; cbn [rest_inv]; try (intros [Hl Hw]; split; [congruence|exact (winv_ext _ _ Hp Hw)]).
  intros (Hl & Hs & Hn & w & Hw & Hi). unfold in_flight, dot_unsent in *. rewrite E1, E3, E4, E5, E6.
  split_and!; [done|done|done|]. exists w. split; [done|]. refine (winv_ext _ _ _ Hi).
  unfold send_part. cbn [as_tcp sendbuf sending is_sending wire d_set_wire d_set_send d_sendbuf d_sending d_is_sending d_wire]. congruence.
Qed.

(** The receiver reconnects. *)
Definition recv_reconnects (openssl3 : bool) (s : dot) (r : ssl_read) : Prop :=
  d_have_more s = false ∧ d_is_ready s = true ∧
  match r with
  | SslReadZero => True
  | SslReadErr SSL_ERROR_SSL => openssl3 = true
  | SslReadErr (SSL_ERROR_SYSCALL e) => recv_lost e = true
  | _ => False
  end.

(** [SSL_read] gives no more than it was asked for. *)
Definition read_fits (s : dot) (r : ssl_read) : Prop :=
  ∀ bs, r = SslRead bs → d_at s + length bs ≤ TCP_RECV_BUF_SIZE.

Lemma dot_read_inv openssl3 r c s :
  dinv false s → read_fits s r →
  match dot_read openssl3 r c s with
  | Done (_, s') => dinv false s' | Exit c => c = 1%Z | _ => False end.
Proof.
  intros [Hl Hw] Hr. unfold dot_read. rewrite (bind_Done get _ _ _ _ eq_refl). destruct (d_have_more s); [done|].
  rewrite lock_bind, (bind_Done get _ _ _ _ eq_refl) by exact Hl. cbn [set_held dot_lockable].
  set (s1 := d_set_lock true s). assert (dinv true s1) as Hi by (by apply (dinv_ext true s)).
  assert (∀ A (x : A), match unlock_return x s1 with Done (_, s') => dinv false s' | Exit c => c = 1%Z | _ => False end) as Hu.
  { intros A x. by destruct (unlock_return_inv x s1 Hi) as [-> ?]. }
  assert (∀ A (x : A), match (dot_reconnect c;; unlock_return x) s1 with
               | Done (_, s') => dinv false s' | Exit c => c = 1%Z | _ => False end) as Hrc.
  { intros A x. destruct Hi as [L1 W1]. pose proof (dot_reconnect_inv c s1 W1) as Hc. unfold mbind, M_bind.
    destruct (dot_reconnect c s1) as [[[] s2]| | | |]; try done. destruct Hc as (L2 & W2 & _).
    by destruct (unlock_return_inv x s2 (conj (eq_trans L2 L1) W2)) as [-> ?]. }
  destruct (d_is_ready s1); [|apply Hu]. destruct r as [bs| |e]; [|apply Hrc|].
  - specialize (Hr bs eq_refl). rewrite decide_False by (simpl; lia). rewrite (bind_Done (put _) _ _ () _ eq_refl).
    rewrite unlock_return_held by done. by apply (dinv_ext false s).
  - unfold dot_read_error.
    assert (∀ m : M dot dot_recv_result, match m s1 with Done (_, s') => dinv false s' | Exit c => c = 1%Z | _ => False end →
      match (x ← m; mret (RecvReturn x)) s1 with Done (_, s') => dinv false s' | Exit c => c = 1%Z | _ => False end) as Hret
      by (intros m; unfold mbind, M_bind; by destruct (m s1) as [[? ?]| | | |]).
    apply Hret. destruct e as [| |en| |]; try apply Hu; [destruct (recv_lost en)|destruct openssl3];
      try apply Hu; apply Hrc.
Qed.

(** Unless it reconnects, nothing about sending changes. *)
Lemma dot_read_quiet openssl3 r c s :
  d_lock s = false → ¬ recv_reconnects openssl3 s r → read_fits s r →
  ∃ x s', dot_read openssl3 r c s = Done (x, s') ∧ send_view s' = send_view s.
Proof.
  intros Hl Hno Hr. unfold dot_read. rewrite (bind_Done get _ _ _ _ eq_refl).
  destruct (d_have_more s) eqn:Hm; [by eexists _, _|].
  rewrite lock_bind, (bind_Done get _ _ _ _ eq_refl) by exact Hl. cbn [set_held dot_lockable].
  assert (∀ A (x : A), unlock_return x (d_set_lock true s) = Done (x, d_set_lock false s)) as Hu
    by (intros A x; exact (unlock_return_held x (d_set_lock true s) eq_refl)).
  assert (send_view (d_set_lock false s) = send_view s) as Hv by (unfold send_view; simpl; congruence).
  cbn [d_is_ready d_set_lock]. destruct (d_is_ready s) eqn:Hrd; [|rewrite Hu; eauto]. destruct r as [bs| |e].
  - specialize (Hr bs eq_refl). cbn [d_at d_set_lock]. rewrite decide_False by lia.
    rewrite (bind_Done (put _) _ _ () _ eq_refl), unlock_return_held by done. eexists _, _. split; [reflexivity|exact Hv].
  - by destruct Hno.
  - assert (dot_read_error openssl3 c e (d_set_lock true s) =
      Done (match e with SSL_ERROR_WANT_READ => DotErr E_AGAIN | SSL_ERROR_SYSCALL en => DotErr en | _ => DotErr E_BADF end,
            d_set_lock false s)) as E.
    { unfold dot_read_error, recv_reconnects in *. destruct e as [| |en| |]; rewrite ?Hu; try done.
      - destruct (recv_lost en) eqn:Hen; [|apply Hu]. by destruct Hno.
      - destruct openssl3; [|apply Hu]. by destruct Hno. }
    rewrite (bind_Done _ _ _ _ _ E). eexists _, _. split; [reflexivity|exact Hv].
Qed.

Lemma dot_recv_rest_quiet len x s :
  ∃ r s', dot_recv_rest len x s = Done (r, s') ∧ send_view s' = send_view s.
Proof.
  assert (∀ y, ∃ r s', dot_deliver len y = Done (r, s') ∧ send_view s' = send_view y) as Hdel.
  { intros y. rewrite dot_deliver_tcp. pose proof (tcp_deliver_part len (as_tcp y)) as Hd.
    destruct (tcp_deliver len (as_tcp y)) as [[r' t]| | | |]; try done. by eexists _, _. }
  destruct x as [r| |n]; cbn [dot_recv_rest]; [by eexists _, _|apply Hdel|].
  rewrite (bind_Done (modify _) _ _ () _ eq_refl), (bind_Done get _ _ _ _ eq_refl).
  destruct (decide _); [by eexists _, _|]. match goal with |- context [dot_deliver len ?y] =>
    destruct (Hdel y) as (r & s' & E & Hv) end. exists r, s'. by rewrite E, Hv.
Qed.

Lemma dot_recv_inv openssl3 len r c s :
  dinv false s → read_fits s r →
  match dot_recv openssl3 len r c s with
  | Done (_, s') => dinv false s' | Exit c => c = 1%Z | _ => False end.
Proof.
  intros Hi Hr. pose proof (dot_read_inv openssl3 r c s Hi Hr) as Hd. unfold dot_recv, mbind, M_bind.
  destruct (dot_read openssl3 r c s) as [[x s1]| | | |]; try done.
  destruct (dot_recv_rest_quiet len x s1) as (y & s2 & -> & Hv). exact (rest_inv_view (RestReturn 0) s1 s2 Hv Hd).
Qed.

(** *** The two threads *)

(** What is left of the sender's call: of [perf__dot_sockready], or of [perf__dot_sendto]. *)
Inductive dot_sender : Type :=
| DIdle | DReady (a : dot_answers) (r : dot_rest) | DSent (x : errno + nat).

(** A socket, and where its sender and its receiver are between their locked parts. *)
Record dot_threads : Type := DotThreads {
  dt_sock : dot;
  dt_sender : dot_sender;
  dt_receiver : option (nat * recv_rest);
}.

(** A call up to where it releases the lock, or the next step of what is left of it. *)
Inductive dot_op : Type :=
| DotSend (id : Z) (buf : list Z) (r : ssl_write) (c : connecting)
| DotReady (a : dot_answers)
| DotSender
| DotRecv (len : nat) (r : ssl_read) (c : connecting)
| DotReceiver.

(** A thread makes a call only when its last one has returned. *)
Definition dot_do (openssl3 : bool) (op : dot_op) (t : dot_threads) : run dot_threads :=
  let s := dt_sock t in
  match op with
  | DotSend id buf r c =>
      match dt_sender t with
      | DIdle => '(x, s') ← dot_write id buf r c s; Done (DotThreads s' (DSent x) (dt_receiver t))
      | _ => Done t
      end
  | DotReady a =>
      match dt_sender t with
      | DIdle => '(r, s') ← dot_ready_locked a s; Done (DotThreads s' (DReady a r) (dt_receiver t))
      | _ => Done t
      end
  | DotSender =>
      match dt_sender t with
      | DIdle => Done t
      | DReady a (RestReturn _) => Done (DotThreads s DIdle (dt_receiver t))
      | DReady a r => '(r', s') ← dot_rest_step a r s; Done (DotThreads s' (DReady a r') (dt_receiver t))
      | DSent x => '(_, s') ← dot_sent x s; Done (DotThreads s' DIdle (dt_receiver t))
      end
  | DotRecv len r c =>
      match dt_receiver t with
      | None => '(x, s') ← dot_read openssl3 r c s; Done (DotThreads s' (dt_sender t) (Some (len, x)))
      | Some _ => Done t
      end
  | DotReceiver =>
      match dt_receiver t with
      | None => Done t
      | Some (len, x) => '(_, s') ← dot_recv_rest len x s; Done (DotThreads s' (dt_sender t) None)
      end
  end.

(** The bytes of the query in progress that were written and are not counted yet. *)
Definition uncounted (t : dot_threads) : option nat :=
  match dt_sender t with DReady _ (RestWritten n) => Some n | _ => None end.

(** A query is only sent when no other is being sent, no [SSL_write] of [perf__dot_sendto] fails
    for good, OpenSSL keeps to the sizes it was given, and the receiver does not reconnect
    between a write of [perf__dot_sockready] and its counting. *)
Definition dot_op_ok (openssl3 : bool) (t : dot_threads) (op : dot_op) : Prop :=
  let s := dt_sock t in
  match op with
  | DotSend _ buf r _ =>
      d_is_sending s = false ∧ Forall byte_ok buf ∧ ¬ write_fatal r ∧ ∀ n, r = SslWrote n → n ≤ send_length buf + 2
  | DotReady a => ∀ n, da_write a = SslWrote n → n ≤ buf_dnslen (d_sendbuf s) + 2 - d_sending s
  | DotRecv _ r _ => read_fits s r ∧ (is_Some (uncounted t) → ¬ recv_reconnects openssl3 s r)
  | DotSender | DotReceiver => True
  end.

Fixpoint dot_run (openssl3 : bool) (ops : list dot_op) (t : dot_threads) : run dot_threads :=
  match ops with [] => Done t | op :: ops' => t' ← dot_do openssl3 op t; dot_run openssl3 ops' t' end.
Fixpoint dot_ops_ok (openssl3 : bool) (ops : list dot_op) (t : dot_threads) : Prop :=
  match ops with
  | [] => True
  | op :: ops' =>
      dot_op_ok openssl3 t op ∧ match dot_do openssl3 op t with Done t' => dot_ops_ok openssl3 ops' t' | _ => True end
  end.

(** The invariant of both threads. *)
Definition threads_inv (t : dot_threads) : Prop :=
  rest_inv (match dt_sender t with DReady _ r => r | _ => RestReturn 0 end) (dt_sock t).

Lemma dot_do_inv openssl3 op t :
  threads_inv t → dot_op_ok openssl3 t op →
  match dot_do openssl3 op t with Done t' => threads_inv t' | Exit c => c = 1%Z | _ => False end.
Proof.
  destruct t as [s sd rc]. unfold threads_inv, dot_op_ok, dot_do, uncounted. cbn [dt_sock dt_sender dt_receiver].
  intros Hi Hok. destruct op as [id buf r c|a| |len r c|].
  - destruct sd; try exact Hi. destruct Hok as (H1 & H2 & H3 & H4).
    pose proof (dot_write_inv id buf r c s Hi H1 H2 H3 H4) as Hs.
    destruct (dot_write id buf r c s) as [[x s']| | | |]; try done. apply Hs.
  - destruct sd; try exact Hi. pose proof (dot_ready_locked_post a s Hi Hok) as Hs.
    destruct (dot_ready_locked a s) as [[r s']| | | |]; try done. apply Hs.
  - destruct sd as [|a r|x]; [exact Hi| |].
    + pose proof (dot_rest_step_post a r s Hi) as Hs.
      destruct r as [z|n| | |]; [exact Hi|..];
        (match goal with |- context [dot_rest_step a ?r s] => destruct (dot_rest_step a r s) as [[r' s']| | | |] end; try done);
        apply Hs.
    + destruct (dot_sent_inv x s) as (s' & -> & Hi' & _). cbn. auto.
  - destruct rc; [exact Hi|]. destruct Hok as [Hr Hno].
    set (r0 := match sd with DReady _ r => r | _ => RestReturn 0 end) in *.
    destruct (match sd with DReady _ (RestWritten n) => Some n | _ => None end) as [n|] eqn:Hun.
    + assert (r0 = RestWritten n) as E0 by (unfold r0; destruct sd as [|a [| | | |]|]; try done; by injection Hun as ->).
      rewrite E0 in Hi. pose proof Hi as [Hl _].
      destruct (dot_read_quiet openssl3 r c s Hl (Hno ltac:(done)) Hr) as (x & s' & -> & Hv). cbn. fold r0.
      rewrite E0. exact (rest_inv_view _ _ _ Hv Hi).
    + assert (∀ y, rest_inv r0 y ↔ dinv false y) as Hd by (intros y; unfold r0; by destruct sd as [|a [| | | |]|]).
      apply Hd in Hi. pose proof (dot_read_inv openssl3 r c s Hi Hr) as Hs.
      destruct (dot_read openssl3 r c s) as [[x s']| | | |]; try done. cbn. by apply Hd.
  - destruct rc as [[len x]|]; [|exact Hi]. destruct (dot_recv_rest_quiet len x s) as (r & s' & -> & Hv). cbn.
    exact (rest_inv_view _ _ _ Hv Hi).
Qed.

Lemma dot_run_inv openssl3 ops t :
  threads_inv t → dot_ops_ok openssl3 ops t →
  match dot_run openssl3 ops t with Done t' => threads_inv t' | Exit c => c = 1%Z | _ => False end.
Proof.
  revert t. induction ops as [|op ops IH]; intros t Hi Hok; simpl in *; [done|]. destruct Hok as [Hop Hok].
  pose proof (dot_do_inv openssl3 op t Hi Hop) as Hd. destruct (dot_do openssl3 op t) as [t'| | | |]; simpl; try done.
  by apply IH.
Qed.

(** What was written, with the bytes that are not counted yet. *)
Lemma threads_wire t :
  threads_inv t →
  let s := dt_sock t in
  d_lock s = false ∧
  ∃ ms, d_wire s = concat (map frame ms) ++
    (if d_is_sending s then take (d_sending s + default 0 (uncounted t)) (take (buf_dnslen (d_sendbuf s) + 2) (d_sendbuf s))
     else []).
Proof.
  unfold threads_inv, uncounted. destruct t as [s sd rc]. cbn [dt_sock dt_sender]. cbv zeta.
  assert (dinv false s → d_lock s = false ∧ ∃ ms, d_wire s = concat (map frame ms) ++
    (if d_is_sending s then take (d_sending s + 0) (take (buf_dnslen (d_sendbuf s) + 2) (d_sendbuf s)) else [])) as Hd.
  { intros [Hl Hw]. split; [done|]. rewrite Nat.add_0_r. exact (winv_wire _ Hw). }
  destruct sd as [|a [z|n| | |]|x]; try exact Hd. cbn [rest_inv default].
  intros (Hl & Hs & Hn & w & Hw & Hi). split; [done|]. destruct (winv_wire _ Hi) as [ms Hms]. exists ms.
  unfold partial in Hms.
  cbn [as_tcp wire is_sending sending sendbuf d_set_wire d_set_send d_wire d_is_sending d_sending d_sendbuf] in Hms.
  rewrite Hs in Hms |- *. rewrite Hw, Hms, <- app_assoc. f_equal. unfold dot_unsent, cur_frame.
  cbn [as_tcp sendbuf d_set_wire d_set_send d_sendbuf].
  rewrite <- skipn_firstn_comm. by rewrite take_take_drop.
Qed.

Lemma dot_open_inv c s : dot_opensocket c = Done s → dinv false s ∧ rinv (as_tcp s) ∧ view (as_tcp s) = [].
Proof.
  unfold dot_opensocket. assert (dinv false dot_init) as [_ Hw].
  { split; [done|]. split; cbn [as_tcp dot_init d_sendbuf d_sending d_is_sending d_wire sendbuf sending is_sending wire];
      [by rewrite length_replicate|apply Forall_replicate; unfold byte_ok; lia|done|lia|by exists []]. }
  unfold dot_connect. run_unfold. destruct (decide _); [done|].
  destruct (c_res c); try done; intros [= <-]; (split; [by apply (dinv_ext false dot_init)|split; [|done]]); split;
    cbn [as_tcp dot_init d_set_conn d_set_flags d_recvbuf d_at d_have_more d_fd recvbuf at_ recvfd fd have_more];
    try (by rewrite length_replicate); try lia; try done;
    try (apply Forall_replicate; unfold byte_ok; lia); (split; [done|]; intros [H _]; simpl in H; lia).
Qed.

(** ** Theorems *)

(** C17: The sender's and the receiver's calls on a DoT socket, interleaved wherever they hold no lock:
    whatever OpenSSL and the kernel answer, no call is left with the lock held and none uses the
    lock wrongly; the bytes written to a connection are whole frames and the sent part of the
    query in progress, across reconnections; a call of [perf__dot_sockready] that returns 1
    leaves a socket on which a query can be sent, and a query that [perf__dot_sendto] says was
    sent is written as one frame.  Two things are excluded, and shown to be errors
    below: an [SSL_write] of [perf__dot_sendto] that fails for good ([dot_sendto_keeps_lock]),
    and a receiver that reconnects between a write of [perf__dot_sockready] and the counting of
    its bytes, which the lock does not prevent ([dot_starts_mid_frame]). *)
Theorem dot_wire_frames openssl3 c ops s0 :
  dot_opensocket c = Done s0 → dot_ops_ok openssl3 ops (DotThreads s0 DIdle None) →
  match dot_run openssl3 ops (DotThreads s0 DIdle None) with
  | Done t =>
      let s := dt_sock t in
      d_lock s = false ∧
      (∃ ms, d_wire s = concat (map frame ms) ++
         (if d_is_sending s
          then take (d_sending s + default 0 (uncounted t)) (take (buf_dnslen (d_sendbuf s) + 2) (d_sendbuf s)) else [])) ∧
      (∀ a s', dt_sender t = DIdle → dot_op_ok openssl3 t (DotReady a) → dot_sockready a s = Done (1%Z, s') →
               d_is_ready s' = true ∧ d_is_sending s' = false) ∧
      (∀ id buf r c' n s', dt_sender t = DIdle → dot_op_ok openssl3 t (DotSend id buf r c') →
               dot_sendto id buf r c' s = Done (inr n, s') →
               n = send_length buf ∧ d_wire s' = d_wire s ++ frame (take n buf))
  | Exit c => c = 1%Z
  | _ => False
  end.
Proof.
  intros E Hok. pose proof (dot_run_inv openssl3 ops (DotThreads s0 DIdle None) (proj1 (dot_open_inv _ _ E)) Hok) as Hr.
  destruct (dot_run _ _ _) as [t| | | |]; try done. destruct (threads_wire t Hr) as [Hl Hw].
  refine (conj Hl (conj Hw _)). destruct t as [s sd rc]. cbn [dt_sock dt_sender] in *. unfold dot_op_ok. cbn [dt_sock].
  split.
  - intros a s' -> Ha Es. pose proof (dot_sockready_post a s Hr Ha) as Hp. rewrite Es in Hp. by apply Hp.
  - intros id buf r c' n s' -> (H1 & H2 & H3 & H4) Es. pose proof (dot_sendto_inv id buf r c' s Hr H1 H2 H3 H4) as Hs.
    rewrite Es in Hs. by destruct Hs as (_ & ? & _ & ?).
Qed.

(** A handshake, and a query of which two bytes are written before the connection is lost. *)
Definition example_answers (w : ssl_write) : dot_answers :=
  DotAnswers (Connecting 5 1 ConnOk) w PERF_R_SUCCESS None SslConnected 2 2 2.
Definition example_ops : list dot_op :=
  [DotReady (example_answers (SslWrote 0)); DotSender; DotSender;
   DotSend 7 [1; 2; 3]%Z (SslWrote 2) (Connecting 6 3 ConnOk); DotSender;
   DotRecv 4096 SslReadZero (Connecting 6 4 ConnInProgress); DotReceiver].

Lemma dot_wire_frames_witness :
  ∃ s0, dot_opensocket (Connecting 5 0 ConnOk) = Done s0 ∧
        match dot_run true example_ops (DotThreads s0 DIdle None) with
        | Done t => d_lock (dt_sock t) = false | Exit c => c = 1%Z | _ => False end.
Proof.
  destruct (dot_opensocket (Connecting 5 0 ConnOk)) as [s0| | | |] eqn:E; try discriminate E.
  exists s0. split; [reflexivity|]. pose proof (dot_wire_frames true (Connecting 5 0 ConnOk) example_ops s0 E) as Hw.
  assert (dot_ops_ok true example_ops (DotThreads s0 DIdle None)) as Hok.
  { injection E as <-. split; [intros n [= <-]; lia|]. cbn [dot_do dt_sender dt_sock].
    match goal with |- context [dot_ready_locked ?a ?s] => set (m := dot_ready_locked a s) end.
    assert (∃ s1, m = Done (RestConnected, s1) ∧ d_is_sending s1 = false) as (s1 & -> & Hs1)
      by (unfold m; eexists; split; [reflexivity|done]). clear Hw.
    cbn. split; [done|]. split; [done|]. cbn [dot_do dt_sender dt_sock dt_receiver dot_ops_ok].
    split; [split; [exact Hs1|split; [by apply (bool_decide_unpack _)|split; [by intros [?|?]|intros n [= <-]; lia]]]|].
    match goal with |- context [dot_write ?id ?b ?r ?c ?s] => destruct (dot_write id b r c s) as [[x s2]| | | |] end; try exact I.
    cbn [mbind run_bind dot_do dt_sender dt_sock dt_receiver dot_ops_ok]. split; [done|].
    destruct (dot_sent x s2) as [[y s3]| | | |]; try exact I. cbn [mbind run_bind dot_do dt_sender dt_sock dt_receiver dot_ops_ok].
    split; [split; [done|intros [? [=]]]|]. destruct (dot_read _ _ _ s3) as [[z s4]| | | |]; try exact I.
    cbn [mbind run_bind dot_do dt_sender dt_sock dt_receiver dot_ops_ok]. split; [done|].
    by destruct (dot_recv_rest _ z s4) as [[? ?]| | | |]. }
  specialize (Hw Hok).
  destruct (dot_run true example_ops _) as [t| | | |]; [exact (proj1 Hw)|exact Hw..].
Defined.

(** [perf__dot_sockready] releases the lock before it counts what it has written.  When the
    receiver loses the connection in between and opens another one, the count goes to the new
    connection: what is written there starts in the middle of the frame, with bytes that the
    server takes for a length, and the query is reported as sent. *)
Definition late_count_ops : list dot_op :=
  [DotReady (example_answers (SslWrote 0)); DotSender; DotSender;
   DotSend 7 [1; 2; 3]%Z (SslWriteErr SSL_ERROR_WANT_WRITE) (Connecting 5 2 ConnOk); DotSender;
   DotReady (example_answers (SslWrote 2)); DotRecv 4096 SslReadZero (Connecting 6 3 ConnOk); DotSender; DotSender; DotReceiver;
   DotReady (example_answers (SslWrote 0)); DotSender; DotSender;
   DotReady (example_answers (SslWrote 3)); DotSender; DotSender; DotSender].

Theorem dot_starts_mid_frame :
  match dot_opensocket (Connecting 5 0 ConnOk) with
  | Done s0 =>
      match dot_run true late_count_ops (DotThreads s0 DIdle None) with
      | Done t =>
          d_wire (dt_sock t) = [1; 2; 3]%Z ∧ d_is_sending (dt_sock t) = false ∧ d_sent_cb (dt_sock t) = [7]%Z ∧
          ¬ ∃ ms, d_wire (dt_sock t) = concat (map frame ms)
      | _ => False
      end
  | _ => False
  end.
Proof.
  assert (match dot_opensocket (Connecting 5 0 ConnOk) with
          | Done s0 =>
              match dot_run true late_count_ops (DotThreads s0 DIdle None) with
              | Done t => (d_wire (dt_sock t), d_is_sending (dt_sock t), d_sent_cb (dt_sock t)) = ([1; 2; 3]%Z, false, [7]%Z)
              | _ => False
              end
          | _ => False
          end) as H by (vm_compute; reflexivity).
  destruct (dot_opensocket _) as [s0| | | |]; try done. destruct (dot_run _ _ _) as [t| | | |]; try done.
  injection H as -> -> ->. split_and!; [done..|]. intros [[|l ms] Hms]; [done|].
  pose proof (f_equal length Hms) as Hl. simpl in Hl. unfold frame in Hms, Hl. rewrite !length_app in Hl. simpl in Hl.
  injection Hms as H1 _. unfold u8 in H1. destruct l as [|? [|? ?]]; simpl in *; try lia; done.
Qed.

Lemma rinv_same s s' :
  (d_recvbuf s', d_at s', d_have_more s') = (d_recvbuf s, d_at s, d_have_more s) → rinv (as_tcp s) → rinv (as_tcp s').
Proof.
  intros [= E1 E2 E3] [H1 H2 H3 _ H5]. split; cbn [as_tcp recvbuf at_ recvfd fd have_more] in *; rewrite ?E1, ?E2, ?E3; try done.
  unfold view in *. cbn [as_tcp recvbuf at_] in *. by rewrite E1, E2.
Qed.

(** A new socket after its handshake. *)
Lemma dot_open_ready c a s0 s :
  dot_opensocket c = Done s0 → dot_sockready a s0 = Done (1%Z, s) →
  readable s ∧ rinv (as_tcp s) ∧ view (as_tcp s) = [].
Proof.
  intros E. destruct (dot_open_inv _ _ E) as ([Hl _] & Hri & Hv).
  assert (d_is_ready s0 = false ∧ d_do_reconnect s0 = false) as [Hr Hd].
  { revert E. unfold dot_opensocket, dot_connect. run_unfold. destruct (decide _); [done|].
    destruct (c_res c); try done; by intros [= <-]. }
  unfold dot_sockready, mbind at 1, M_bind at 1.
  assert (match dot_ready_locked a s0 with
          | Done (r, y) => r = RestConnected ∧ readable y ∧
              (d_recvbuf y, d_at y, d_have_more y) = (d_recvbuf s0, d_at s0, d_have_more s0) ∨ ∃ z, r = RestReturn z ∧ z ≠ 1%Z
          | _ => True end) as Hlk.
  { unfold dot_ready_locked. rewrite lock_bind, (bind_Done get _ _ _ _ eq_refl) by exact Hl.
    cbn [set_held dot_lockable d_set_lock d_do_reconnect]. rewrite Hd.
    rewrite (bind_Done (mret ()) _ _ _ _ eq_refl), (bind_Done get _ _ _ _ eq_refl).
    cbn [d_is_ready d_is_conn_ready d_set_lock]. rewrite Hr.
    assert (∀ y, d_lock y = true → (d_recvbuf y, d_at y, d_have_more y) = (d_recvbuf s0, d_at s0, d_have_more s0) →
      match dot_handshake a y with
      | Done (r, y) => r = RestConnected ∧ readable y ∧
          (d_recvbuf y, d_at y, d_have_more y) = (d_recvbuf s0, d_at s0, d_have_more s0) ∨ ∃ z, r = RestReturn z ∧ z ≠ 1%Z
      | _ => True end) as Hh.
    { intros y Hy Ey. unfold dot_handshake, ask_reconnect, unlock_return, PERF_UNLOCK. run_unfold.
      destruct (da_connect a) as [| |[]]; cbn [held dot_lockable d_lock d_set_flags]; rewrite Hy;
        try (right; eexists; split; [reflexivity|done]). left. by split_and!. }
    destruct (d_is_conn_ready s0); [by apply Hh|].
    destruct (da_wait a); try (right; eexists; split; [reflexivity|done]).
    destruct (da_error a); [|rewrite (bind_Done (modify _) _ _ () _ eq_refl); by apply Hh].
    unfold ask_reconnect; run_unfold; destruct (decide _); (right; eexists; split; [reflexivity|done]). }
  destruct (dot_ready_locked a s0) as [[r y]| | | |]; try done. destruct Hlk as [(-> & [Hly Hry] & Ey)|(z & -> & Hz)].
  - unfold dot_sockready_rest. cbn [dot_rest_step]. unfold dot_connected. run_unfold. intros [= _ <-].
    refine (conj (conj Hly Hry) (conj _ _)); [by apply (rinv_same s0)|].
    injection Ey as E1 E2 E3. unfold view in *. cbn in *. by rewrite E1, E2.
  - unfold dot_sockready_rest. cbn. by intros [= ? _].
Qed.

(** C18: Receiving over TLS does not depend on how the records cut the stream: after the handshake the
    messages delivered are those of the complete frames of the stream, in order, exactly as
    from a TCP socket with the same bytes. *)
Theorem dot_framing openssl3 c a c' s0 s len chunks :
  dot_opensocket c = Done s0 → dot_sockready a s0 = Done (1%Z, s) →
  Forall (λ c, Forall byte_ok c ∧ c ≠ []) chunks →
  let stream := concat chunks in
  let fuel := S (length chunks + length stream) in
  chunks_fit fuel len chunks (as_tcp s) →
  ∃ s', dot_receive openssl3 c' fuel len chunks s =
          Done (map (λ m, (length m, take len m)) (parse (S (length stream)) stream).1, s') ∧
        view (as_tcp s') = (parse (S (length stream)) stream).2.
Proof.
  intros E Ea Hch stream fuel Hfit. destruct (dot_open_ready _ _ _ _ E Ea) as (Hrd & Hinv & Hv).
  destruct (tcp_receive_spec fuel len chunks (as_tcp s) (S (length stream)) Hinv Hch Hfit) as (t & Er & _ & Hv').
  - rewrite Hv. unfold fuel, stream. simpl. lia.
  - rewrite Hv. unfold stream. simpl. lia.
  - rewrite Hv in Er, Hv'. rewrite dot_receive_tcp, Er by done. eexists. split; [reflexivity|exact Hv'].
Qed.

Lemma dot_framing_witness :
  ∃ s0 s s', dot_opensocket (Connecting 5 0 ConnOk) = Done s0 ∧
    dot_receive true (Connecting 6 9 ConnOk) 11 4096 [[0; 3; 1]; [2; 3; 0; 1; 9]]%Z s =
      Done ([(3, [1; 2; 3]%Z); (1, [9]%Z)], s').
Proof.
  destruct (dot_opensocket (Connecting 5 0 ConnOk)) as [s0| | | |] eqn:E; try discriminate E.
  pose (a := DotAnswers (Connecting 5 1 ConnOk) (SslWrote 0) PERF_R_SUCCESS None SslConnected 2 2 2).
  destruct (dot_sockready a s0) as [[z s]| | | |] eqn:Ea; try (injection E as <-; discriminate Ea).
  assert (z = 1%Z) as -> by (injection E as <-; injection Ea as <- _; reflexivity).
  destruct (dot_framing true _ _ (Connecting 6 9 ConnOk) _ _ 4096 [[0; 3; 1]; [2; 3; 0; 1; 9]]%Z E Ea) as (s' & Er & _).
  - by apply (bool_decide_unpack _).
  - destruct (dot_open_ready _ _ _ _ E Ea) as (_ & Hinv & Hv). apply chunks_fit_short; [exact Hinv| |].
    + by apply (bool_decide_unpack _).
    + rewrite Hv. pose proof TCP_RECV_BUF_SIZE_val. simpl. lia.
  - exists s0, s, s'. split; [reflexivity|]. etrans; [exact Er|]. reflexivity.
Defined.

(** When [SSL_write] fails with anything but a failed system call or a request to wait,
    [perf__dot_sendto] returns with the lock held: whoever locks next waits for ever. *)
Theorem dot_sendto_keeps_lock id buf c s :
  d_lock s = false → d_is_ready s = true →
  ∃ s', dot_sendto id buf (SslWriteErr SSL_ERROR_SSL) c s = Done (inl E_BADF, s') ∧ d_lock s' = true ∧
        ∀ a, dot_sockready a s' = Undef.
Proof.
  intros Hl Hr. unfold dot_sendto. unfold mbind at 1, M_bind at 1. unfold dot_write. cbv zeta.
  rewrite lock_bind, (bind_Done (modify _) _ _ () _ eq_refl), (bind_Done get _ _ _ _ eq_refl) by exact Hl.
  cbn [d_is_ready d_set_send set_held dot_lockable d_set_lock]. rewrite Hr. eexists. by split.
Qed.
