(* ===== verification/DohRequest.v ===== *)
(** * Requests of DNS over HTTPS (net_doh.c)

    A query is sent in the path of a GET request, in base64url without padding (RFC 8484), or in
    the body of a POST request.  [EVP_EncodeBlock] of OpenSSL is a parameter. *)

From S2P Require Import Prelude ParseUri Edns.

(** ** The options *)

Inductive perf_doh_method : Set := doh_method_get | doh_method_post.

#[export] Instance perf_doh_method_eq_dec : EqDecision perf_doh_method.
Proof. solve_decision. Defined.

Definition perf_net_doh_parse_method (method : list Z) : run perf_doh_method :=
  if strcmp_eq method (bytes "GET") then Done doh_method_get
  else if strcmp_eq method (bytes "POST") then Done doh_method_post
  else Exit 1.

Definition perf_net_doh_parse_uri (uri : list Z) : run URI :=
  match parse_uri uri with Some u => Done u | None => Exit 1 end.

(** ** GET *)

(** [EVP_EncodeBlock(t, f, n)]: the characters it writes to [t] before a final zero. *)
Class Base64 : Type := { EVP_EncodeBlock : list Z → list Z }.

Definition DNS_GET_REQUEST_VAR : list Z := bytes "?dns=".

(** [memcpy] to an array. *)
Definition mem_store (off : nat) (bs mem : list Z) : run (list Z) :=
  if decide (off + length bs ≤ length mem) then Done (list_inserts off bs mem) else Undef.

(** The loop of [_submit_dns_query_get] that turns base64 into base64url, lines 440-454. *)
Fixpoint url_loop (fuel : nat) (mem : list Z) (p : nat) : run (list Z * nat) :=
  match fuel with
  | 0 => NoFuel
  | S fuel' =>
      match mem !! p with
      | None => Undef
      | Some c =>
          if decide (c = 0)%Z then Done (mem, p)
          else if decide (c = 43)%Z then url_loop fuel' (<[p := 45%Z]> mem) (S p)
          else if decide (c = 47)%Z then url_loop fuel' (<[p := 95%Z]> mem) (S p)
          else if decide (c = 61)%Z then url_loop fuel' (<[p := 0%Z]> mem) p
          else url_loop fuel' mem (S p)
      end
  end.

(** The path of the request, lines 424-454 and 460; [stack] is what the array holds at first. *)
Definition get_full_path `{Base64} (stack : nat → Z) (path msg : list Z) : run (list Z) :=
  let path_len := length path + length DNS_GET_REQUEST_VAR + 4 * ((length msg + 2) / 3) + 1 in
  mem ← mem_store 0 path (map stack (seq 0 path_len));
  let p := length path in
  mem ← mem_store p DNS_GET_REQUEST_VAR mem;
  let p := p + length DNS_GET_REQUEST_VAR in
  mem ← mem_store p (EVP_EncodeBlock msg ++ [0%Z]) mem;
  '(mem, p) ← url_loop (S (S path_len)) mem p;
  Done (take p mem).

(** ** POST *)

(** [http2_data_provider_t]: the buffer (its length is [buf_len]), [bufp] as an offset, [len]. *)
Record payload : Type := Payload { pl_buf : list Z; pl_pos : nat; pl_len : nat }.

(** Lines 529-541 of [_submit_dns_query_post]; [heap] is what memory from [realloc] holds. *)
Definition set_payload (heap : nat → Z) (msg : list Z) (pl : payload) : run payload :=
  let buf :=
    if decide (length (pl_buf pl) < length msg) then
      let buf_len := (length msg / Z.to_nat MAX_EDNS_PACKET + 1) * Z.to_nat MAX_EDNS_PACKET in
      take buf_len (pl_buf pl) ++ map heap (seq (length (pl_buf pl)) (buf_len - length (pl_buf pl)))
    else pl_buf pl in
  mem ← mem_store 0 msg buf;
  Done (Payload mem 0 (length msg)).

(** [_payload_read_cb(..., buf, length, data_flags, ...)]: what is copied, and whether
    [NGHTTP2_DATA_FLAG_EOF] is set. *)
Definition payload_read_cb (len : nat) (pl : payload) : run (list Z * bool * payload) :=
  let n := if decide (len < pl_len pl) then len else pl_len pl in
  if decide (pl_pos pl + n ≤ length (pl_buf pl)) then
    let pl' := Payload (pl_buf pl) (pl_pos pl + n) (pl_len pl - n) in
    Done (take n (drop (pl_pos pl) (pl_buf pl)), bool_decide (pl_len pl' = 0), pl')
  else Undef.

(** [content-length]. *)
Definition content_length (msg : list Z) : list Z := dec 20 (Z.of_nat (length msg)).

(** ** Headers

    [nghttp2_nv]: a name and a value.  [hostport] is that of the URI, and [agent] the value with
    the versions of dnsperf and nghttp2. *)
Definition header : Type := list Z * list Z.

Definition dns_message : list Z := bytes "application/dns-message".
(** The headers that both kinds of requests start with. *)
Definition pseudo_headers (method hostport path : list Z) : list header :=
  [(bytes ":method", method); (bytes ":scheme", bytes "https"); (bytes ":authority", hostport); (bytes ":path", path)].
(** The array [hdrs] of [_submit_dns_query_get] and of [_submit_dns_query_post]. *)
Definition get_headers (hostport agent full_path : list Z) : list header :=
  pseudo_headers (bytes "GET") hostport full_path ++ [(bytes "accept", dns_message); (bytes "user-agent", agent)].
Definition post_headers (hostport agent path msg : list Z) : list header :=
  pseudo_headers (bytes "POST") hostport path ++
  [(bytes "accept", dns_message); (bytes "content-type", dns_message); (bytes "content-length", content_length msg);
   (bytes "user-agent", agent)].

(** The value of a header. *)
Definition header_value (name : list Z) (hs : list header) : option (list Z) :=
  snd <$> List.find (λ h, bool_decide (h.1 = name)) hs.
(** What HTTP/2 asks of the headers of a request: no name twice, and the names with a colon
    before the others. *)
Definition is_pseudo (h : header) : bool := match h.1 with 58%Z :: _ => true | _ => false end.
Definition headers_ok (hs : list header) : Prop :=
  NoDup (map fst hs) ∧ ∃ a b, hs = a ++ b ∧ forallb is_pseudo a = true ∧ forallb (λ h, negb (is_pseudo h)) b = true.

(** ** Reference: base64 and base64url *)

Definition base64_alphabet : list Z :=
  bytes "ABCDEFGHIJKLMNOPQRSTUVWXYZabcdefghijklmnopqrstuvwxyz0123456789+/".
Definition base64url_alphabet : list Z :=
  bytes "ABCDEFGHIJKLMNOPQRSTUVWXYZabcdefghijklmnopqrstuvwxyz0123456789-_".

Definition digit64 (alphabet : list Z) (v : Z) : Z := default 0%Z (alphabet !! Z.to_nat v).

(** The 6 bit digits of a message. *)
Fixpoint sextets (msg : list Z) : list Z :=
  match msg with
  | [] => []
  | [a] => [a / 4; a mod 4 * 16]%Z
  | [a; b] => [a / 4; a mod 4 * 16 + b / 16; b mod 16 * 4]%Z
  | a :: b :: c :: msg' => ([a / 4; a mod 4 * 16 + b / 16; b mod 16 * 4 + c / 64; c mod 64]%Z ++ sextets msg')
  end.

(** The padding. *)
Definition padding (n : nat) : list Z :=
  match n mod 3 with 1 => [61; 61]%Z | 2 => [61]%Z | _ => [] end.

Definition base64 (msg : list Z) : list Z :=
  map (digit64 base64_alphabet) (sextets msg) ++ padding (length msg).
Definition base64url (msg : list Z) : list Z := map (digit64 base64url_alphabet) (sextets msg).

(** A decoder of base64url. *)
Fixpoint index_of (c : Z) (l : list Z) : option Z :=
  match l with
  | [] => None
  | d :: l' => if decide (c = d) then Some 0%Z else i ← index_of c l'; Some (i + 1)%Z
  end.

Fixpoint join_sextets (ds : list Z) : option (list Z) :=
  match ds with
  | [] => Some []
  | [_] => None
  | [p; q] => Some [p * 4 + q / 16]%Z
  | [p; q; r] => Some [p * 4 + q / 16; q mod 16 * 16 + r / 4]%Z
  | p :: q :: r :: s :: ds' =>
      m ← join_sextets ds'; Some ([p * 4 + q / 16; q mod 16 * 16 + r / 4; r mod 4 * 64 + s]%Z ++ m)
  end.

Definition decode64url (cs : list Z) : option (list Z) :=
  ds ← mapM (λ c, index_of c base64url_alphabet) cs; join_sextets ds.

(** What OpenSSL documents of [EVP_EncodeBlock]. *)
Class Base64Laws (B : Base64) : Prop := {
  encode_base64 msg : Forall byte_ok msg → EVP_EncodeBlock msg = base64 msg;
}.

(** Induction over a message three bytes at a time. *)
Lemma three_ind (P : list Z → Prop) :
  P [] → (∀ a, P [a]) → (∀ a b, P [a; b]) → (∀ a b c m, P m → P (a :: b :: c :: m)) → ∀ m, P m.
Proof.
  intros H0 H1 H2 H3 m. remember (length m) as n eqn:Hn. revert m Hn.
  induction n as [n IH] using (well_founded_induction Nat.lt_wf_0). intros m ->.
  destruct m as [|a [|b [|c m]]]; auto. apply H3. apply (IH (length m)); [simpl; lia|done].
Qed.

Definition sextet_ok (v : Z) : Prop := (0 ≤ v < 64)%Z.

Lemma sextets_ok msg : Forall byte_ok msg → Forall sextet_ok (sextets msg).
Proof.
  induction msg as [|a|a b|a b c m IH] using three_ind; rewrite ?Forall_cons; unfold byte_ok; intros Hm.
  - constructor.
  - destruct Hm as [Ha _]. repeat constructor; unfold sextet_ok; Z.div_mod_to_equations; lia.
  - destruct Hm as (Ha & Hb & _). repeat constructor; unfold sextet_ok; Z.div_mod_to_equations; lia.
  - destruct Hm as (Ha & Hb & Hc & Hm). simpl. repeat (constructor; [unfold sextet_ok; Z.div_mod_to_equations; lia|]).
    by apply IH.
Qed.

Lemma join_split msg : Forall byte_ok msg → join_sextets (sextets msg) = Some msg.
Proof.
  induction msg as [|a|a b|a b c m IH] using three_ind; rewrite ?Forall_cons; unfold byte_ok; intros Hm.
  - done.
  - destruct Hm as [Ha _]. simpl. do 2 f_equal. Z.div_mod_to_equations; lia.
  - destruct Hm as (Ha & Hb & _). simpl. f_equal. f_equal; [|f_equal]; Z.div_mod_to_equations; lia.
  - destruct Hm as (Ha & Hb & Hc & Hm). simpl. rewrite (IH Hm). simpl. f_equal.
    f_equal; [|f_equal; [|f_equal]]; Z.div_mod_to_equations; lia.
Qed.

Lemma sextets_length msg : length (sextets msg) + length (padding (length msg)) = 4 * ((length msg + 2) / 3).
Proof.
  induction msg as [|a|a b|a b c m IH] using three_ind; try done.
  cbn [sextets length]. rewrite length_app. cbn [length].
  replace (S (S (S (length m))) + 2) with (length m + 2 + 1 * 3) by lia. rewrite Nat.div_add by lia.
  assert (padding (S (S (S (length m)))) = padding (length m)) as ->; [|lia].
  unfold padding. replace (S (S (S (length m)))) with (length m + 1 * 3) by lia. by rewrite Nat.Div0.mod_add.
Qed.

(** Each digit of one alphabet is turned into that of the other, and is found again. *)
Definition to_url (c : Z) : Z := if decide (c = 43)%Z then 45%Z else if decide (c = 47)%Z then 95%Z else c.

Definition digit_good (v : nat) : bool :=
  let c := digit64 base64_alphabet (Z.of_nat v) in
  let u := digit64 base64url_alphabet (Z.of_nat v) in
  bool_decide (c ≠ 0 ∧ c ≠ 61 ∧ to_url c = u ∧ index_of u base64url_alphabet = Some (Z.of_nat v))%Z.

Lemma digits_good v : sextet_ok v →
  let c := digit64 base64_alphabet v in let u := digit64 base64url_alphabet v in
  (c ≠ 0 ∧ c ≠ 61)%Z ∧ to_url c = u ∧ index_of u base64url_alphabet = Some v.
Proof.
  intros Hv c u. assert (Forall (λ n, digit_good n = true) (seq 0 64)) as Hall by (by apply (bool_decide_unpack _)).
  rewrite Forall_seq in Hall. unfold sextet_ok in Hv. specialize (Hall (Z.to_nat v) ltac:(lia)).
  unfold digit_good in Hall. rewrite Z2Nat.id in Hall by lia. apply bool_decide_eq_true in Hall. tauto.
Qed.

Lemma decode_base64url msg : Forall byte_ok msg → decode64url (base64url msg) = Some msg.
Proof.
  intros Hm. pose proof (sextets_ok msg Hm) as Hs. unfold decode64url, base64url.
  assert (mapM (λ c, index_of c base64url_alphabet) (map (digit64 base64url_alphabet) (sextets msg)) = Some (sextets msg)) as ->.
  { apply mapM_Some_2. induction Hs as [|v vs Hv Hs IH]; simpl; constructor; [|done]. by apply digits_good. }
  by apply join_split.
Qed.

(** *** The loop *)
Lemma url_loop_spec cs pads pre post fuel :
  Forall (λ c, c ≠ 0 ∧ c ≠ 61)%Z cs → Forall (λ c, c = 61)%Z pads → length cs + 1 < fuel →
  ∃ mem, url_loop fuel (pre ++ cs ++ pads ++ 0%Z :: post) (length pre) = Done (mem, length pre + length cs) ∧
         take (length pre + length cs) mem = pre ++ map to_url cs.
Proof.
  intros Hcs Hp. revert pre fuel. induction Hcs as [|c cs [H0 H61] Hcs IH]; intros pre fuel Hf.
  - destruct fuel as [|[|fuel]]; [simpl in *; lia|simpl in *; lia|]. cbn [url_loop app length map]. rewrite Nat.add_0_r, app_nil_r.
    destruct Hp as [|x pads -> Hp].
    + simpl. rewrite list_lookup_middle by done. simpl. eexists. split; [done|]. by rewrite take_app_length.
    + simpl. rewrite list_lookup_middle by done. simpl. rewrite insert_app_r_alt by lia. rewrite Nat.sub_diag. simpl.
      rewrite list_lookup_middle by done. simpl. eexists. split; [done|]. by rewrite take_app_length.
  - destruct fuel as [|fuel]; [lia|]. cbn [length] in Hf. cbn [url_loop app length map]. rewrite list_lookup_middle by done.
    rewrite decide_False by done.
    assert (∀ d, d = to_url c → ∃ mem,
      url_loop fuel (pre ++ d :: cs ++ pads ++ 0%Z :: post) (S (length pre)) = Done (mem, length pre + S (length cs)) ∧
      take (length pre + S (length cs)) mem = pre ++ to_url c :: map to_url cs) as Hgo.
    { intros d ->. destruct (IH (pre ++ [to_url c]) fuel ltac:(lia)) as (mem & E & Ht).
      rewrite length_app in *. cbn [length] in *. rewrite <- !app_assoc in *. cbn [app] in *.
      replace (length pre + 1) with (S (length pre)) in * by lia. exists mem.
      replace (length pre + S (length cs)) with (S (length pre) + length cs) by lia. done. }
    rewrite (decide_False (P := c = 61%Z)) by done.
    destruct (decide (c = 43%Z)) as [E43|N43]; [|destruct (decide (c = 47%Z)) as [E47|N47]];
      rewrite ?insert_app_r_alt, ?Nat.sub_diag by lia; cbn [insert list_insert];
      apply Hgo; unfold to_url; [by rewrite decide_True|by rewrite decide_False, decide_True|by rewrite !decide_False].
Qed.

Lemma mem_store_app pre bs old :
  length bs ≤ length old →
  mem_store (length pre) bs (pre ++ old) = Done (pre ++ bs ++ drop (length bs) old).
Proof.
  intros Hl. unfold mem_store. rewrite decide_True by (rewrite length_app; lia). f_equal.
  rewrite <- (Nat.add_0_r (length pre)), list_inserts_app_r. f_equal.
  rewrite <- (take_drop (length bs) (list_inserts 0 bs old)).
  pose proof (take_list_inserts 0 bs old Hl) as Ht. simpl in Ht. rewrite Ht. f_equal. apply list_eq. intros i.
  rewrite !lookup_drop. by rewrite list_lookup_inserts_ge by lia.
Qed.

Lemma get_full_path_spec `{Base64Laws} stack path msg :
  Forall byte_ok msg →
  get_full_path stack path msg = Done (path ++ DNS_GET_REQUEST_VAR ++ base64url msg).
Proof.
  intros Hm. unfold get_full_path. rewrite encode_base64 by done.
  set (n := 4 * ((length msg + 2) / 3)). set (path_len := _ + _ + n + 1).
  assert (length (base64 msg) = n) as Hb.
  { unfold base64. rewrite length_app, length_map. apply sextets_length. }
  set (mem0 := map stack (seq 0 path_len)). assert (length mem0 = path_len) as H0 by (unfold mem0; by rewrite length_map, length_seq).
  clearbody mem0. assert (length DNS_GET_REQUEST_VAR = 5) as Hv by done. unfold path_len in H0.
  pose proof (mem_store_app [] path mem0 ltac:(lia)) as E1. simpl in E1. rewrite E1. cbn [mbind run_bind].
  rewrite mem_store_app by (rewrite length_drop; lia). cbn [mbind run_bind].
  rewrite drop_drop, app_assoc, <- (length_app path).
  rewrite mem_store_app by (rewrite length_drop, !length_app, Hb; simpl length; lia). cbn [mbind run_bind].
  rewrite drop_ge by (rewrite length_drop, !length_app, Hb; simpl; lia). rewrite app_nil_r.
  unfold base64. rewrite <- (app_assoc (map _ _)).
  pose proof (sextets_ok msg Hm) as Hs.
  destruct (url_loop_spec (map (digit64 base64_alphabet) (sextets msg)) (padding (length msg))
    (path ++ DNS_GET_REQUEST_VAR) [] (S (S path_len))) as (mem & E & Ht).
  - apply Forall_map. eapply Forall_impl; [exact Hs|]. intros v Hvv. by apply digits_good.
  - unfold padding. destruct (_ mod 3) as [|[|[|]]]; repeat constructor.
  - rewrite length_map. pose proof (sextets_length msg). unfold path_len. fold n in H1. lia.
  - rewrite E.
    cbn [mbind run_bind]. f_equal. rewrite Ht, <- app_assoc. do 2 f_equal. unfold base64url. rewrite map_map.
    clear -Hs. induction Hs as [|v vs Hv _ IH]; simpl; [done|]. f_equal; [by apply digits_good|done].
Qed.

(** *** The body of a POST request *)

(** nghttp2 asks for the body piece by piece. *)
Fixpoint read_payload (lens : list nat) (pl : payload) : run (list (list Z * bool) * payload) :=
  match lens with
  | [] => Done ([], pl)
  | n :: lens' =>
      '(bs, eof, pl) ← payload_read_cb n pl;
      '(rest, pl) ← read_payload lens' pl;
      Done ((bs, eof) :: rest, pl)
  end.

(** What is left to be read. *)
Definition pl_view (pl : payload) : list Z := take (pl_len pl) (drop (pl_pos pl) (pl_buf pl)).
Definition pl_ok (pl : payload) : Prop := pl_pos pl + pl_len pl ≤ length (pl_buf pl).

Lemma payload_read_spec n pl :
  pl_ok pl →
  ∃ pl', payload_read_cb n pl = Done (take n (pl_view pl), bool_decide (length (pl_view pl) ≤ n), pl') ∧
         pl_ok pl' ∧ pl_view pl' = drop n (pl_view pl).
Proof.
  unfold pl_ok, payload_read_cb, pl_view. intros Hok.
  set (k := if decide (n < pl_len pl) then n else pl_len pl).
  assert (k = Nat.min n (pl_len pl)) as Hk by (unfold k; destruct (decide _); lia). clearbody k. subst k.
  rewrite decide_True by lia. eexists. split; [|split].
  - rewrite take_take, length_take, length_drop. do 3 f_equal. apply bool_decide_ext. simpl. lia.
  - simpl. lia.
  - simpl. rewrite skipn_firstn_comm, drop_drop. destruct (decide (n ≤ pl_len pl)).
    + f_equal; [lia|]. f_equal. lia.
    + rewrite !(proj2 (Nat.sub_0_le _ _)) by lia. by rewrite !take_0.
Qed.

Lemma set_payload_spec heap msg pl : ∃ pl', set_payload heap msg pl = Done pl' ∧ pl_ok pl' ∧ pl_view pl' = msg.
Proof.
  unfold set_payload. set (buf := if decide _ then _ else _).
  assert (length msg ≤ length buf) as Hl.
  { unfold buf. destruct (decide _); [|lia]. rewrite length_app, length_take, length_map, length_seq.
    set (m := Z.to_nat MAX_EDNS_PACKET). assert (m ≠ 0) as Hm by (unfold m, MAX_EDNS_PACKET; lia). clearbody m.
    pose proof (Nat.div_mod_eq (length msg) m). pose proof (Nat.mod_upper_bound (length msg) m Hm). nia. }
  clearbody buf. pose proof (mem_store_app [] msg buf Hl) as E. simpl in E. rewrite E. cbn [mbind run_bind].
  eexists. split; [reflexivity|]. unfold pl_ok, pl_view. simpl. rewrite length_app. split; [lia|].
  by rewrite drop_0, take_app_length.
Qed.

Lemma read_payload_spec lens pl :
  pl_ok pl →
  ∃ rs pl', read_payload lens pl = Done (rs, pl') ∧ pl_ok pl' ∧
    concat (map fst rs) ++ pl_view pl' = pl_view pl ∧
    Forall (λ r, r.2 = true → pl_view pl' = []) rs ∧ (lens ≠ [] → pl_view pl' = [] → ∃ r, last rs = Some r ∧ r.2 = true).
Proof.
  revert pl. induction lens as [|n lens IH]; intros pl Hok.
  { exists [], pl. by split_and!. }
  destruct (payload_read_spec n pl Hok) as (pl1 & E1 & Hok1 & Hv1).
  destruct (IH pl1 Hok1) as (rs & pl' & E & Hok' & Hc & He & Hlast). cbn [read_payload]. rewrite E1. cbn [mbind run_bind].
  rewrite E. cbn [mbind run_bind]. eexists _, pl'. split; [reflexivity|]. split; [done|]. split; [|split].
  - simpl. rewrite <- app_assoc, Hc, Hv1. by rewrite take_drop.
  - constructor; [|done]. simpl. intros Hb%bool_decide_eq_true. rewrite Hv1, drop_ge in Hc by done.
    by apply app_nil in Hc as [_ ->].
  - intros _ Hnil. destruct lens as [|n' lens].
    + injection E as <- <-. eexists. split; [reflexivity|]. simpl. apply bool_decide_eq_true.
      rewrite Hv1 in Hnil. apply (f_equal length) in Hnil. rewrite length_drop in Hnil. simpl in Hnil. lia.
    + destruct (Hlast ltac:(done) Hnil) as (r & Hr & ?). exists r. split; [|done]. by destruct rs.
Qed.

Lemma headers_split a b :
  NoDup (map fst (a ++ b)) → forallb is_pseudo a = true → forallb (λ h, negb (is_pseudo h)) b = true →
  headers_ok (a ++ b).
Proof. intros Hn Ha Hb. split; [done|]. by exists a, b. Qed.

Lemma post_headers_ok hostport agent path msg : headers_ok (post_headers hostport agent path msg).
Proof. apply headers_split; [by apply (bool_decide_unpack _)|done|done]. Qed.

(** ** Theorems *)

(** C40: A GET request carries the query: its headers are those of HTTP/2, and [:path] is the path
    of the URI, ["?dns="] and the query in base64url without padding, from which a decoder gets
    the query back; the array on the stack is large enough, whatever it held. *)
Theorem doh_get_roundtrip `{Base64Laws} stack hostport agent path msg :
  Forall byte_ok msg →
  ∃ full, get_full_path stack path msg = Done full ∧ full = path ++ bytes "?dns=" ++ base64url msg ∧
    decode64url (drop (length path + 5) full) = Some msg ∧
    header_value (bytes ":path") (get_headers hostport agent full) = Some full ∧
    header_value (bytes ":method") (get_headers hostport agent full) = Some (bytes "GET") ∧
    headers_ok (get_headers hostport agent full).
Proof.
  intros Hm. eexists. split; [by apply get_full_path_spec|]. split; [done|]. split; [|split; [done|split; [done|]]].
  - rewrite drop_app_add. change 5 with (length (bytes "?dns=")). rewrite drop_app_length. by apply decode_base64url.
  - apply headers_split; [by apply (bool_decide_unpack _)|done|done].
Qed.

#[export] Instance base64_reference : Base64 := {| EVP_EncodeBlock := base64 |}.
#[export] Instance base64_reference_laws : Base64Laws base64_reference.
Proof. split. done. Qed.

Lemma doh_get_roundtrip_witness :
  ∃ full, get_full_path (λ _, 7%Z) (bytes "/dns-query") [0; 251; 255; 62]%Z = Done full ∧
    full = bytes "/dns-query?dns=APv_Pg" ∧ headers_ok (get_headers (bytes "localhost:443") (bytes "dnsperf") full).
Proof.
  destruct (doh_get_roundtrip (λ _, 7%Z) (bytes "localhost:443") (bytes "dnsperf") (bytes "/dns-query") [0; 251; 255; 62]%Z)
    as (full & E & Hf & _ & _ & _ & Hh); [by apply (bool_decide_unpack _)|].
  exists full. split; [exact E|]. split; [exact Hf|exact Hh].
Defined.

(** The body of a POST request is the query: however nghttp2 asks for it, the pieces are the
    query in order, and the end is signalled exactly with the piece that completes it.  The
    buffer is enlarged when the query does not fit. *)
Theorem doh_post_payload heap msg pl lens :
  ∃ pl0, set_payload heap msg pl = Done pl0 ∧
  ∃ rs pl', read_payload lens pl0 = Done (rs, pl') ∧
    concat (map fst rs) ++ pl_view pl' = msg ∧
    Forall (λ r, r.2 = true → pl_view pl' = []) rs ∧
    (lens ≠ [] → pl_view pl' = [] → ∃ r, last rs = Some r ∧ r.2 = true).
Proof.
  destruct (set_payload_spec heap msg pl) as (pl0 & E & Hok & Hv). exists pl0. split; [done|].
  destruct (read_payload_spec lens pl0 Hok) as (rs & pl' & Er & _ & Hc & He & Hl). exists rs, pl'.
  rewrite Hv in Hc. done.
Qed.
