(* ===== verification/NetDoh.v ===== *)
(** * DNS over HTTPS (net_doh.c)

    A DoH socket speaks HTTP/2 through nghttp2 over TLS.  nghttp2 is driven by the socket's
    operations and calls back into net_doh.c; which callbacks it makes, with which data, is an
    argument of the operation that drives it.  As documented, it makes no further callback in a
    call once one returned an error or [NGHTTP2_ERR_PAUSE].  An operation is one step: after the
    lock is released the code only counts the query for the limit per connection, and calls the
    socket's callbacks, which is taken to belong to the step. *)

From S2P Require Import Prelude Dnsperf ParseUri NetTcp Lock NetDot DohRequest.

Definition DNS_MSG_MAX_SIZE : nat := Z.to_nat 65535.
Lemma DNS_MSG_MAX_SIZE_val : Z.of_nat DNS_MSG_MAX_SIZE = 65535%Z.
Proof. unfold DNS_MSG_MAX_SIZE. lia. Qed.
#[global] Opaque DNS_MSG_MAX_SIZE.

(** ** State *)

(** The response being received: members [dnsmsg], [dnsmsg_at] and [dnsmsg_completed] of
    [http2_session_t], and [http2_code] and [http2_is_dns]. *)
Record response : Type := Response {
  dnsmsg : list Z; dnsmsg_at : nat; dnsmsg_completed : bool; http2_code : Z; http2_is_dns : bool;
}.

Record doh_flags : Type := DohFlags {
  h_is_ready : bool; h_is_conn_ready : bool; h_is_ssl_ready : bool; h_is_sending : bool; h_is_post_sending : bool;
  h_do_reconnect : bool; h_do_connect : bool; h_settings_sent : bool;
}.

Record doh_nqpc : Type := DohNqpc { q_max : Z; q_timeout : Z; q_sent : Z; q_recv : Z; q_ts : Z }.

(** [struct _doh_stats]. *)
Record doh_stats : Type := DohStats { st_code : list Z; st_unknown : Z }.

(** A request given to nghttp2: its path; or its content-length and as much of its body as nghttp2
    has got from [_payload_read_cb]. *)
Inductive request : Type := GetRequest (path : list Z) | PostRequest (clen body : list Z).

(** More of the body of the newest request: those before it are at their end, or their session has
    been given up. *)
Definition add_body (bs : list Z) (r : request) : request :=
  match r with GetRequest p => GetRequest p | PostRequest clen body => PostRequest clen (body ++ bs) end.
Definition append_body (bs : list Z) (reqs : list request) : list request := alter (add_body bs) (length reqs - 1) reqs.

(** [struct perf__doh_socket]; [h_requests], [h_sent_cb] and [h_events] are for the
    specification: the requests submitted in the current session, the ids [sock->sent] was
    called with, and the events [sock->event] was called with. *)
Record doh : Type := Doh {
  h_lock : bool; h_fd : Z;
  h_rsp : response; h_payload : payload; h_flags : doh_flags; h_nqpc : doh_nqpc; h_stats : doh_stats;
  h_recvbuf : list Z; h_recv_at : nat;
  h_qid : Z; h_conn_ts : Z; h_conn_event : perf_socket_event; h_conning_event : perf_socket_event;
  h_requests : list request; h_sent_cb : list Z; h_events : list (perf_socket_event * Z);
}.

Definition h_set_lock (b : bool) (s : doh) : doh :=
  Doh b (h_fd s) (h_rsp s) (h_payload s) (h_flags s) (h_nqpc s) (h_stats s) (h_recvbuf s) (h_recv_at s) (h_qid s)
    (h_conn_ts s) (h_conn_event s) (h_conning_event s) (h_requests s) (h_sent_cb s) (h_events s).
#[export] Instance doh_lockable : Lockable doh :=
  Build_Lockable doh h_lock h_set_lock (λ _ _, eq_refl) (λ _ _ _, eq_refl).

Definition h_set_rsp (s : doh) (r : response) : doh :=
  Doh (h_lock s) (h_fd s) r (h_payload s) (h_flags s) (h_nqpc s) (h_stats s) (h_recvbuf s) (h_recv_at s) (h_qid s)
    (h_conn_ts s) (h_conn_event s) (h_conning_event s) (h_requests s) (h_sent_cb s) (h_events s).
Definition h_set_payload (s : doh) (p : payload) : doh :=
  Doh (h_lock s) (h_fd s) (h_rsp s) p (h_flags s) (h_nqpc s) (h_stats s) (h_recvbuf s) (h_recv_at s) (h_qid s)
    (h_conn_ts s) (h_conn_event s) (h_conning_event s) (h_requests s) (h_sent_cb s) (h_events s).
Definition h_set_flags (s : doh) (f : doh_flags) : doh :=
  Doh (h_lock s) (h_fd s) (h_rsp s) (h_payload s) f (h_nqpc s) (h_stats s) (h_recvbuf s) (h_recv_at s) (h_qid s)
    (h_conn_ts s) (h_conn_event s) (h_conning_event s) (h_requests s) (h_sent_cb s) (h_events s).
Definition h_set_nqpc (s : doh) (q : doh_nqpc) : doh :=
  Doh (h_lock s) (h_fd s) (h_rsp s) (h_payload s) (h_flags s) q (h_stats s) (h_recvbuf s) (h_recv_at s) (h_qid s)
    (h_conn_ts s) (h_conn_event s) (h_conning_event s) (h_requests s) (h_sent_cb s) (h_events s).
Definition h_set_stats (s : doh) (st : doh_stats) : doh :=
  Doh (h_lock s) (h_fd s) (h_rsp s) (h_payload s) (h_flags s) (h_nqpc s) st (h_recvbuf s) (h_recv_at s) (h_qid s)
    (h_conn_ts s) (h_conn_event s) (h_conning_event s) (h_requests s) (h_sent_cb s) (h_events s).
Definition h_set_recv (s : doh) (buf : list Z) (n : nat) : doh :=
  Doh (h_lock s) (h_fd s) (h_rsp s) (h_payload s) (h_flags s) (h_nqpc s) (h_stats s) buf n (h_qid s)
    (h_conn_ts s) (h_conn_event s) (h_conning_event s) (h_requests s) (h_sent_cb s) (h_events s).
Definition h_set_send (s : doh) (id : Z) (reqs : list request) (cb : list Z) : doh :=
  Doh (h_lock s) (h_fd s) (h_rsp s) (h_payload s) (h_flags s) (h_nqpc s) (h_stats s) (h_recvbuf s) (h_recv_at s) id
    (h_conn_ts s) (h_conn_event s) (h_conning_event s) reqs cb (h_events s).
Definition h_set_conn (s : doh) (newfd ts : Z) (cev cgev : perf_socket_event) (evs : list (perf_socket_event * Z)) : doh :=
  Doh (h_lock s) newfd (h_rsp s) (h_payload s) (h_flags s) (h_nqpc s) (h_stats s) (h_recvbuf s) (h_recv_at s) (h_qid s)
    ts cev cgev (h_requests s) (h_sent_cb s) evs.

(** Changes of single flags. *)
Definition ask (s : doh) : doh :=
  let f := h_flags s in
  h_set_flags s (DohFlags (h_is_ready f) (h_is_conn_ready f) (h_is_ssl_ready f) (h_is_sending f) (h_is_post_sending f)
                   true (h_do_connect f) (h_settings_sent f)).
Definition h_set_sending (s : doh) (sending post : bool) : doh :=
  let f := h_flags s in
  h_set_flags s (DohFlags (h_is_ready f) (h_is_conn_ready f) (h_is_ssl_ready f) sending post
                   (h_do_reconnect f) (h_do_connect f) (h_settings_sent f)).
Definition h_set_progress (s : doh) (ready conn ssl settings : bool) : doh :=
  let f := h_flags s in
  h_set_flags s (DohFlags ready conn ssl (h_is_sending f) (h_is_post_sending f) (h_do_reconnect f) (h_do_connect f)
                   settings).
Definition h_set_todo (s : doh) (reconn conn : bool) : doh :=
  let f := h_flags s in
  h_set_flags s (DohFlags (h_is_ready f) (h_is_conn_ready f) (h_is_ssl_ready f) (h_is_sending f) (h_is_post_sending f)
                   reconn conn (h_settings_sent f)).

Definition clear_response (r : response) (code : Z) (is_dns : bool) : response :=
  Response (dnsmsg r) 0 false code is_dns.

(** ** Connecting *)

(** [perf__doh_connect(sock)].  A failure of nghttp2 to make a session is [ConnFailed]. *)
Definition doh_connect (c : connecting) : M doh unit :=
  modify (λ s, h_set_nqpc s (DohNqpc (q_max (h_nqpc s)) (q_timeout (h_nqpc s)) 0 0 0));;
  if decide (c_fd c = -1)%Z then perf_log_fatal
  else
    modify (λ s, h_set_send (h_set_conn s (c_fd c) (c_now c) (h_conn_event s) perf_socket_event_reconnecting
                   (h_events s ++ [(h_conning_event s, c_now c)])) (h_qid s) [] (h_sent_cb s));;
    match c_res c with
    | ConnOk =>
        modify (λ s, let f := h_flags s in h_set_progress s (h_is_ready f) true (h_is_ssl_ready f) (h_settings_sent f))
    | ConnInProgress => mret ()
    | ConnFailed => perf_log_fatal
    end.

(** [perf__doh_reconnect(sock)]. *)
Definition doh_reconnect : M doh unit :=
  modify (λ s, h_set_flags s (DohFlags false false false false false (h_do_reconnect (h_flags s)) true false));;
  modify (λ s, h_set_rsp s (clear_response (h_rsp s) 0 false)).

(** ** Callbacks of nghttp2 *)

Inductive cb_result : Set := CbOk | CbPause | CbFailure | CbWouldBlock.

(** The start of the callbacks: the lock has to be held. *)
Definition check_locked : M doh unit :=
  b ← PERF_TRYLOCK; if b : bool then mret () else perf_log_fatal.

(** [_http2_data_chunk_recv_cb(session, flags, stream_id, data, len, sock)]. *)
Definition http2_data_chunk_recv_cb (data : list Z) : M doh cb_result :=
  check_locked;;
  s ← get;
  let r := h_rsp s in
  if dnsmsg_completed r then mret CbPause
  else if decide (DNS_MSG_MAX_SIZE < dnsmsg_at r + length data) then mret CbFailure
  else
    mem ← lift (mem_store (dnsmsg_at r) data (dnsmsg r));
    put (h_set_rsp s (Response mem (dnsmsg_at r + length data) false (http2_code r) (http2_is_dns r)));;
    mret CbOk.

(** The frames [_http2_frame_recv_cb] tells apart. *)
Inductive frame_kind : Set := FrameData (end_stream : bool) | FrameRstStream | FrameGoaway | FrameOther.

(** [_http2_frame_recv_cb(session, frame, sock)]. *)
Definition http2_frame_recv_cb (k : frame_kind) : M doh cb_result :=
  check_locked;;
  s ← get;
  let r := h_rsp s in
  match k with
  | FrameData true =>
      if dnsmsg_completed r then perf_log_fatal
      else put (h_set_rsp s (Response (dnsmsg r) (dnsmsg_at r) true (http2_code r) (http2_is_dns r)));; mret CbOk
  | FrameRstStream | FrameGoaway => doh_reconnect;; mret CbOk
  | FrameData false | FrameOther => mret CbOk
  end.

(** [atoi]. *)
Definition atoi (str : list Z) : Z :=
  let str := skip_space str in
  let neg := bool_decide (char0 str = 45%Z) in
  let digits := if decide (char0 str = 45 ∨ char0 str = 43)%Z then drop 1 str else str in
  let v := fst (strto_digits 10 digits 0 0) in
  s32 (Z.max (- 2 ^ 63) (Z.min (2 ^ 63 - 1) (if neg then - v else v)))%Z.

(** [_http2_on_header_callback(session, frame, name, namelen, value, valuelen, flags, sock)] for
    a header of a HEADERS frame. *)
Definition http2_on_header_callback (name value : list Z) : M doh cb_result :=
  s ← get;
  let r := h_rsp s in
  (if strncasecmp_eq (bytes ":status:") name (length name) then
     put (h_set_rsp s (Response (dnsmsg r) (dnsmsg_at r) (dnsmsg_completed r) (atoi value) (http2_is_dns r)))
   else if strncasecmp_eq (bytes "content-type:") name (length name) then
     if strncasecmp_eq (bytes "application/dns-message") value (length value)
     then put (h_set_rsp s (Response (dnsmsg r) (dnsmsg_at r) (dnsmsg_completed r) (http2_code r) true))
     else mret ()
   else mret ());;
  mret CbOk.

(** [_http2_send_cb(session, data, length, flags, sock)]; [r] is what [SSL_write] returned. *)
Definition http2_send_cb (r : ssl_write) : M doh (cb_result + nat) :=
  check_locked;;
  s ← get;
  if h_is_ready (h_flags s) then
    match r with
    | SslWrote n => mret (inr n)
    | SslWriteErr (SSL_ERROR_SYSCALL en) =>
        if send_lost en then doh_reconnect;; mret (inl CbFailure) else mret (inl CbFailure)
    | SslWriteErr SSL_ERROR_WANT_READ | SslWriteErr SSL_ERROR_WANT_WRITE => mret (inl CbWouldBlock)
    | SslWriteErr SSL_ERROR_SSL | SslWriteErr SSL_ERROR_other => mret (inl CbFailure)
    end
  else mret (inl CbFailure).

(** [_payload_read_cb]. *)
Definition doh_payload_read_cb (len : nat) : M doh (list Z) :=
  s ← get;
  '(bs, eof, pl) ← lift (payload_read_cb len (h_payload s));
  put (h_set_send (h_set_payload s pl) (h_qid s) (append_body bs (h_requests s)) (h_sent_cb s));;
  (if eof : bool then modify (λ s, h_set_sending s (h_is_sending (h_flags s)) false) else mret ());;
  mret bs.

(** What nghttp2 calls while it is given received bytes, and while it sends. *)
Inductive recv_event : Type :=
| EvHeader (name value : list Z) | EvChunk (data : list Z) | EvFrame (k : frame_kind).
Inductive send_event : Type := EvWrite (r : ssl_write) | EvRead (len : nat).

Definition recv_callback (e : recv_event) : M doh cb_result :=
  match e with
  | EvHeader n v => http2_on_header_callback n v
  | EvChunk d => http2_data_chunk_recv_cb d
  | EvFrame k => http2_frame_recv_cb k
  end.

(** [nghttp2_session_mem_recv]: the callbacks in order, up to one that pauses or fails.
    [false] when a callback failed. *)
Fixpoint session_mem_recv (evs : list recv_event) : M doh bool :=
  match evs with
  | [] => mret true
  | e :: evs' =>
      r ← recv_callback e;
      match r with CbOk => session_mem_recv evs' | CbPause => mret true | _ => mret false end
  end.

(** [nghttp2_session_send]: the callbacks in order, until nothing more can be written.
    [false] when a callback failed. *)
Fixpoint session_send (evs : list send_event) : M doh bool :=
  match evs with
  | [] => mret true
  | EvWrite r :: evs' =>
      x ← http2_send_cb r;
      match x with inr _ => session_send evs' | inl CbWouldBlock => mret true | inl _ => mret false end
  | EvRead n :: evs' => doh_payload_read_cb n;; session_send evs'
  end.

(** ** Receiving *)

(** What [perf__doh_recv] returns: -1 with [errno], -1 with [errno] left alone, or a message. *)
Inductive doh_recv_result : Type := DohErr (e : errno) | DohFail | DohMsg (copied : list Z).

(** What the libraries do in one call: what [SSL_read] returns, the callbacks nghttp2 makes, and
    how many bytes it takes ([None]: it fails itself). *)
Record doh_input : Type := DohInput { in_read : ssl_read; in_events : list recv_event; in_taken : option nat }.

(** Lines 377-381. *)
Definition count_code (st : doh_stats) (code : Z) : run doh_stats :=
  if decide (99 < code ∧ code < 600)%Z then
    let i := Z.to_nat (code - 100) in
    match st_code st !! i with
    | Some n => Done (DohStats (<[i := u64 (n + 1)]> (st_code st)) (st_unknown st))
    | None => Undef
    end
  else Done (DohStats (st_code st) (u64 (st_unknown st + 1))).

(** Lines 376-419: after nghttp2 has processed what was received. *)
Definition doh_deliver (len : nat) : M doh doh_recv_result :=
  s ← get;
  let r := h_rsp s in
  if dnsmsg_completed r then
    st ← lift (count_code (h_stats s) (http2_code r));
    put (h_set_stats s st);;
    if http2_is_dns r then
      if decide (http2_code r < 200 ∨ 299 < http2_code r)%Z then
        modify (λ s, h_set_rsp s (clear_response r 0 (http2_is_dns r)));;
        unlock_return (DohErr E_AGAIN)
      else
        let len := if decide (dnsmsg_at r < len) then dnsmsg_at r else len in
        modify (λ s, h_set_rsp s (clear_response r (http2_code r) (http2_is_dns r)));;
        PERF_UNLOCK;;
        modify (λ s, let q := h_nqpc s in
          if decide (q_max q ≠ 0)%Z
          then h_set_nqpc s (DohNqpc (q_max q) (q_timeout q) (q_sent q) (u32 (q_recv q + 1)) (q_ts q)) else s);;
        mret (DohMsg (take len (dnsmsg r)))
    else
      modify (λ s, h_set_rsp s (clear_response r 0 false));;
      unlock_return (DohErr E_AGAIN)
  else unlock_return (DohErr E_AGAIN).

(** Lines 353-366: nghttp2 is given what was received. *)
Definition doh_process (i : doh_input) (len : nat) : M doh doh_recv_result :=
  ok ← session_mem_recv (in_events i);
  match (if ok : bool then in_taken i else None) with
  | None => unlock_return DohFail
  | Some ret =>
      s ← get;
      if decide (h_recv_at s < ret) then lift Undef
      else
        put (if decide (ret ≠ h_recv_at s)
             then h_set_recv s (list_inserts 0 (take (h_recv_at s - ret) (drop ret (h_recvbuf s))) (h_recvbuf s))
                    (h_recv_at s - ret)
             else h_set_recv s (h_recvbuf s) 0);;
        doh_deliver len
  end.

(** [perf__doh_recv(sock, buf, len, flags)]. *)
Definition doh_recv (len : nat) (i : doh_input) : M doh doh_recv_result :=
  PERF_LOCK;;
  s ← get;
  if h_is_ready (h_flags s) then
    if decide (h_recv_at s < length (h_recvbuf s)) then
      match in_read i with
      | SslReadZero => doh_reconnect;; unlock_return (DohErr E_AGAIN)
      | SslReadErr SSL_ERROR_WANT_READ =>
          if decide (h_recv_at s ≠ 0) then doh_process i len else unlock_return (DohErr E_AGAIN)
      | SslReadErr (SSL_ERROR_SYSCALL en) =>
          if recv_lost en then doh_reconnect;; unlock_return (DohErr E_AGAIN) else unlock_return (DohErr en)
      | SslReadErr _ => unlock_return (DohErr E_BADF)
      | SslRead bs =>
          mem ← lift (mem_store (h_recv_at s) bs (h_recvbuf s));
          put (h_set_recv s mem (h_recv_at s + length bs));;
          doh_process i len
      end
    else doh_process i len
  else unlock_return (DohErr E_AGAIN).

(** ** Sending *)

Section send.
Context `{Base64} (uri_path : list Z) (method : perf_doh_method).

(** [_submit_dns_query_get] and [_submit_dns_query_post]; [mem] is what fresh memory holds, and
    [submitted] whether nghttp2 took the request. *)
Definition submit_dns_query_get (mem : nat → Z) (submitted : bool) (msg : list Z) : M doh unit :=
  p ← lift (get_full_path mem uri_path msg);
  if submitted then modify (λ s, h_set_send s (h_qid s) (h_requests s ++ [GetRequest p]) (h_sent_cb s))
  else perf_log_fatal.

Definition submit_dns_query_post (mem : nat → Z) (submitted : bool) (msg : list Z) : M doh unit :=
  s ← get;
  pl ← lift (set_payload mem msg (h_payload s));
  put (h_set_sending (h_set_payload s pl) (h_is_sending (h_flags s)) true);;
  if submitted
  then modify (λ s, h_set_send s (h_qid s) (h_requests s ++ [PostRequest (content_length msg) []]) (h_sent_cb s))
  else perf_log_fatal.

(** What nghttp2 does in [perf__doh_sendto]: whether it takes the request, the callbacks it
    makes, whether [nghttp2_session_send] succeeds otherwise, and whether it has more to write. *)
Record doh_sending : Type := DohSending {
  sn_mem : nat → Z; sn_submitted : bool; sn_events : list send_event; sn_ok : bool; sn_more : bool;
}.

(** [perf__doh_sendto(sock, qid, buf, len, ...)]: [inl] is -1 with [errno]. *)
Definition doh_sendto (id : Z) (msg : list Z) (a : doh_sending) : M doh (errno + nat) :=
  PERF_LOCK;;
  s ← get;
  if h_is_ready (h_flags s) then
    if h_is_sending (h_flags s) then perf_log_fatal
    else
      put (h_set_send s id (h_requests s) (h_sent_cb s));;
      (match method with
       | doh_method_get => submit_dns_query_get (sn_mem a) (sn_submitted a) msg
       | doh_method_post => submit_dns_query_post (sn_mem a) (sn_submitted a) msg
       end);;
      ok ← session_send (sn_events a);
      if ok && sn_ok a then
        s ← get;
        if h_is_post_sending (h_flags s) || sn_more a then
          put (h_set_sending s true (h_is_post_sending (h_flags s)));; unlock_return (inl E_INPROGRESS)
        else
          PERF_UNLOCK;;
          modify (λ s, let q := h_nqpc s in
            h_set_nqpc s (DohNqpc (q_max q) (q_timeout q) (u32 (q_sent q + 1)) (q_recv q) (q_ts q)));;
          mret (inr (length msg))
      else modify ask;; unlock_return (inl E_INPROGRESS)
  else unlock_return (inl E_INPROGRESS).

End send.

(** ** Readiness *)

(** What one call of [perf__doh_sockready] needs from outside. *)
Record doh_answers : Type := DohAnswers {
  ha_conn : connecting;
  ha_events : list send_event; ha_ok : bool; ha_more : bool;
  ha_wait : perf_result; ha_error : option errno;
  ha_connect : ssl_connect; ha_alpn_h2 : bool; ha_settings : bool;
  ha_now_ts : Z; ha_now_check : Z; ha_now_event : Z;
}.

(** Lines 664 and 670: [sock->sent] for a query that was sent later. *)
Definition doh_sent_cb (sent : bool) : M doh unit :=
  if sent then modify (λ s, h_set_send s (h_qid s) (h_requests s) (h_sent_cb s ++ [h_qid s])) else mret ().

(** Lines 655-673: the limit on queries per connection. *)
Definition doh_per_conn (a : doh_answers) (sent : bool) : M doh Z :=
  s ← get;
  let q := h_nqpc s in
  if decide (q_max q ≠ 0 ∧ q_max q ≤ q_sent q)%Z then
    let ts := if decide (q_ts q = 0)%Z then u64 (ha_now_ts a + q_timeout q) else q_ts q in
    put (h_set_nqpc s (DohNqpc (q_max q) (q_timeout q) (q_sent q) (q_recv q) ts));;
    (if decide (q_sent q ≤ q_recv q ∨ ts < ha_now_check a)%Z then modify ask else mret ());;
    PERF_UNLOCK;; doh_sent_cb sent;; mret 0%Z
  else PERF_UNLOCK;; doh_sent_cb sent;; mret 1%Z.

(** Lines 634-674: the connection is ready. *)
Definition doh_when_ready (a : doh_answers) : M doh Z :=
  ok ← session_send (ha_events a);
  if ok && ha_ok a then
    s ← get;
    if h_is_sending (h_flags s) then
      if h_is_post_sending (h_flags s) || ha_more a then unlock_return 0%Z
      else
        modify (λ s, h_set_sending s false (h_is_post_sending (h_flags s)));;
        modify (λ s, let q := h_nqpc s in
          h_set_nqpc s (DohNqpc (q_max q) (q_timeout q) (u32 (q_sent q + 1)) (q_recv q) (q_ts q)));;
        doh_per_conn a true
    else doh_per_conn a false
  else modify ask;; unlock_return 0%Z.

Definition retry_later : M doh Z := modify ask;; unlock_return 0%Z.

(** Lines 752-779: the settings, and the connection is ready. *)
Definition doh_settings (a : doh_answers) : M doh Z :=
  s ← get;
  let f := h_flags s in
  if negb (h_settings_sent f) && negb (ha_settings a) then retry_later
  else
    put (h_set_progress s true (h_is_conn_ready f) (h_is_ssl_ready f) true);;
    PERF_UNLOCK;;
    modify (λ s, h_set_conn s (h_fd s) (h_conn_ts s) perf_socket_event_reconnected (h_conning_event s)
                   (h_events s ++ [(h_conn_event s, u64 (ha_now_event a - h_conn_ts s))]));;
    mret 1%Z.

(** Lines 709-750: the TLS handshake. *)
Definition doh_handshake (a : doh_answers) : M doh Z :=
  s ← get;
  let f := h_flags s in
  if h_is_ssl_ready f then doh_settings a
  else
    match ha_connect a with
    | SslConnectZero => retry_later
    | SslConnectErr SSL_ERROR_WANT_READ | SslConnectErr SSL_ERROR_WANT_WRITE => unlock_return 0%Z
    | SslConnectErr _ => retry_later
    | SslConnected =>
        if ha_alpn_h2 a then
          put (h_set_progress s (h_is_ready f) (h_is_conn_ready f) true (h_settings_sent f));; doh_settings a
        else retry_later
    end.

(** [perf__doh_sockready(sock, pipe_fd, timeout)]. *)
Definition doh_sockready (a : doh_answers) : M doh Z :=
  PERF_LOCK;;
  s ← get;
  (if h_do_reconnect (h_flags s)
   then doh_reconnect;; modify (λ s, h_set_todo s false (h_do_connect (h_flags s))) else mret ());;
  s ← get;
  (if h_do_connect (h_flags s)
   then doh_connect (ha_conn a);; modify (λ s, h_set_todo s (h_do_reconnect (h_flags s)) false) else mret ());;
  s ← get;
  let f := h_flags s in
  if h_is_ready f then doh_when_ready a
  else if h_is_conn_ready f then doh_handshake a
  else
    match ha_wait a with
    | PERF_R_SUCCESS =>
        match ha_error a with
        | Some e => if decide (e = E_INPROGRESS ∨ e = E_AGAIN) then unlock_return 0%Z else retry_later
        | None => put (h_set_progress s (h_is_ready f) true (h_is_ssl_ready f) (h_settings_sent f));; doh_handshake a
        end
    | _ => unlock_return (-1)%Z
    end.

(** [perf_net_doh_opensocket(...)], with [heap] the contents of the payload's buffer, and
    [perf__doh_num_queries_per_conn]. *)
Definition doh_init (heap : nat → Z) : doh :=
  Doh false 0 (Response (replicate DNS_MSG_MAX_SIZE 0%Z) 0 false 0 false)
    (Payload (map heap (seq 0 (Z.to_nat Edns.MAX_EDNS_PACKET))) 0 0)
    (DohFlags false false false false false false false false) (DohNqpc 0 0 0 0 0)
    (DohStats (replicate 500 0%Z) 0) (replicate TCP_RECV_BUF_SIZE 0%Z) 0
    0 0 perf_socket_event_connected perf_socket_event_connecting [] [] [].

Definition doh_opensocket (heap : nat → Z) (c : connecting) : run doh :=
  '(_, s) ← doh_connect c (doh_init heap); Done s.

Definition doh_num_queries_per_conn (n timeout : Z) (s : doh) : doh :=
  h_set_nqpc s (DohNqpc n timeout (q_sent (h_nqpc s)) (q_recv (h_nqpc s)) (q_ts (h_nqpc s))).

(** [perf_net_doh_stats_init] and [perf_net_doh_stats_compile(sock)]. *)
Definition doh_stats_init : doh_stats := DohStats (replicate 500 0%Z) 0.
Definition doh_stats_compile (total : doh_stats) (s : doh) : doh_stats :=
  DohStats (zip_with (λ a b, u64 (a + b)) (st_code total) (st_code (h_stats s)))
    (u64 (st_unknown total + st_unknown (h_stats s))).

(** ** The invariant *)

(** A query is being sent only on a connection that is ready, and no other is to be made then. *)
Definition flags_ok (f : doh_flags) : Prop :=
  (h_is_sending f = true → h_is_ready f = true) ∧ (h_is_ready f = true → h_do_connect f = false).

Record hok (s : doh) : Prop := {
  hok_msg : length (dnsmsg (h_rsp s)) = DNS_MSG_MAX_SIZE;
  hok_at : dnsmsg_at (h_rsp s) ≤ DNS_MSG_MAX_SIZE;
  hok_stats : length (st_code (h_stats s)) = 500;
  hok_payload : pl_ok (h_payload s);
  hok_recv : length (h_recvbuf s) = TCP_RECV_BUF_SIZE;
  hok_recv_at : h_recv_at s ≤ TCP_RECV_BUF_SIZE;
  hok_flags : flags_ok (h_flags s);
}.

Definition hinv (b : bool) (s : doh) : Prop := h_lock s = b ∧ hok s.

(** Operations under the lock keep the invariant. *)
Definition keeps_inv {A} (m : M doh A) : Prop := triple (hinv true) m (λ _, hinv true).
(** Operations that end with the lock released. *)
Definition releases {A} (m : M doh A) : Prop := triple (hinv true) m (λ _, hinv false).

(** What decides whether a query can be sent. *)
Definition flow (s : doh) : bool * bool := (h_is_ready (h_flags s), h_is_sending (h_flags s)).

Lemma hinv_ext b b' s s' :
  h_lock s' = b' → (h_rsp s', h_stats s', h_payload s', h_recvbuf s', h_recv_at s', flow s', h_do_connect (h_flags s')) =
    (h_rsp s, h_stats s, h_payload s, h_recvbuf s, h_recv_at s, flow s, h_do_connect (h_flags s)) → hinv b s → hinv b' s'.
Proof.
  intros Hl [= E1 E2 E3 E4 E5 E6 E7 E8] [_ [H1 H2 H3 H4 H5 H6 H7]]. split; [done|]. split; try congruence.
  unfold flags_ok. by rewrite E6, E7, E8.
Qed.

Lemma hinv_flags b s f :
  hinv b s → flags_ok f → hinv b (h_set_flags s f).
Proof. intros [Hl [H1 H2 H3 H4 H5 H6 H7]] Hf. split; [done|]. by split. Qed.

Lemma hinv_rsp b s r :
  hinv b s → length (dnsmsg r) = DNS_MSG_MAX_SIZE → dnsmsg_at r ≤ DNS_MSG_MAX_SIZE → hinv b (h_set_rsp s r).
Proof. intros [Hl [H1 H2 H3 H4 H5 H6 H7]] Hm Ha. split; [done|]. by split. Qed.

Lemma releases_unlock {A} (a : A) : releases (unlock_return a).
Proof.
  intros s [Hl Hk]. rewrite unlock_return_held by exact Hl. by apply (hinv_ext true false s).
Qed.

Lemma hkeeps_bind {A B} (m : M doh A) (k : A → M doh B) Q :
  keeps_inv m → (∀ a, triple (hinv true) (k a) Q) → triple (hinv true) (m ≫= k) Q.
Proof. intros Hm Hk. exact (triple_bind _ _ _ _ _ Hm Hk). Qed.

Lemma hkeeps_modify {A} f (k : M doh A) Q :
  (∀ s, hinv true s → hinv true (f s)) → triple (hinv true) k Q → triple (hinv true) (modify f;; k) Q.
Proof. intros Hf Hk. exact (triple_modify_bind _ _ _ _ _ Hf Hk). Qed.

Lemma keeps_unlock {A} (k : M doh A) Q :
  triple (hinv false) k Q → triple (hinv true) (PERF_UNLOCK;; k) Q.
Proof.
  intros Hk s Hs. pose proof Hs as [Hl _]. rewrite unlock_bind by exact Hl. apply Hk. by apply (hinv_ext true false s).
Qed.

Lemma lock_triple {A} (k : M doh A) Q : triple (hinv true) k Q → triple (hinv false) (PERF_LOCK;; k) Q.
Proof.
  intros Hk s Hs. pose proof Hs as [Hl _]. rewrite lock_bind by exact Hl. apply Hk. by apply (hinv_ext false true s).
Qed.

Lemma check_locked_keeps : keeps_inv check_locked.
Proof. intros s [Hl Hk]. unfold check_locked, PERF_TRYLOCK. run_unfold. cbn. rewrite Hl. done. Qed.

Lemma reconnect_keeps : keeps_inv doh_reconnect.
Proof.
  unfold doh_reconnect. apply hkeeps_modify; [intros s Hs; by apply hinv_flags|].
  apply triple_modify. intros s Hs. pose proof Hs as [_ [H1 _ _ _ _ _ _]]. apply hinv_rsp; [done|done|simpl; lia].
Qed.

(** *** Callbacks *)
Lemma data_chunk_keeps data : keeps_inv (http2_data_chunk_recv_cb data).
Proof.
  unfold http2_data_chunk_recv_cb. apply hkeeps_bind; [apply check_locked_keeps|]. intros _.
  apply triple_get_bind. intros s Hs. pose proof Hs as [_ [H1 H2 _ _ _ _ _]]. cbv zeta.
  destruct (dnsmsg_completed (h_rsp s)); [apply triple_ret; by intros ? <-|].
  destruct (decide _) as [|Hsz]; [apply triple_ret; by intros ? <-|].
  unfold mem_store. rewrite decide_True by lia. apply (triple_lift_bind _ _ _ _ _ eq_refl).
  apply (triple_put_bind _ (hinv true)); [|by apply triple_ret].
  apply hinv_rsp; [done|simpl; by rewrite length_inserts|simpl; lia].
Qed.

Lemma frame_recv_keeps k : keeps_inv (http2_frame_recv_cb k).
Proof.
  unfold http2_frame_recv_cb. apply hkeeps_bind; [apply check_locked_keeps|]. intros _.
  apply triple_get_bind. intros s Hs. pose proof Hs as [_ [H1 H2 _ _ _ _ _]]. cbv zeta.
  destruct k as [[]| | |]; try (apply triple_ret; by intros ? <-).
  - destruct (dnsmsg_completed (h_rsp s)); [apply triple_fatal|].
    apply (triple_put_bind _ (hinv true)); [by apply hinv_rsp|by apply triple_ret].
  - apply (triple_eq (hinv true)); [done|]. apply hkeeps_bind; [apply reconnect_keeps|]. intros _. by apply triple_ret.
  - apply (triple_eq (hinv true)); [done|]. apply hkeeps_bind; [apply reconnect_keeps|]. intros _. by apply triple_ret.
Qed.

Lemma header_keeps n v : keeps_inv (http2_on_header_callback n v).
Proof.
  unfold http2_on_header_callback. apply triple_get_bind. intros s Hs. pose proof Hs as [_ [H1 H2 _ _ _ _ _]]. cbv zeta.
  assert (∀ m : M doh unit, triple (eq s) m (λ _, hinv true) → triple (eq s) (m;; mret CbOk) (λ _, hinv true)) as Hm.
  { intros m Hm. eapply triple_bind; [exact Hm|]. intros ?. by apply triple_ret. }
  apply Hm. destruct (strncasecmp_eq _ _ _); [intros ? _; by apply hinv_rsp|].
  destruct (strncasecmp_eq _ _ _); [|apply triple_ret; by intros ? <-].
  destruct (strncasecmp_eq _ _ _); [intros ? _; by apply hinv_rsp|apply triple_ret; by intros ? <-].
Qed.

Lemma send_cb_keeps r : keeps_inv (http2_send_cb r).
Proof.
  unfold http2_send_cb. apply hkeeps_bind; [apply check_locked_keeps|]. intros _. apply triple_get_bind. intros s Hs.
  destruct (h_is_ready _); [|apply triple_ret; by intros ? <-].
  destruct r as [n|[| |en| |]]; try (apply triple_ret; by intros ? <-).
  destruct (send_lost en); [|apply triple_ret; by intros ? <-].
  apply (triple_eq (hinv true)); [done|]. apply hkeeps_bind; [apply reconnect_keeps|]. intros _. by apply triple_ret.
Qed.

Lemma payload_read_keeps n : keeps_inv (doh_payload_read_cb n).
Proof.
  unfold doh_payload_read_cb. apply triple_get_bind. intros s Hs. pose proof Hs as [Hl [H1 H2 H3 H4 H5 H6 H7]].
  destruct (payload_read_spec n (h_payload s) H4) as (pl & E & Hpl & _). eapply triple_lift_bind; [exact E|]. cbn beta iota.
  apply (triple_put_bind _ (hinv true)); [split; [done|by split]|].
  assert (∀ m : M doh unit, keeps_inv m → ∀ bs : list Z, keeps_inv (m;; mret bs)) as Hm.
  { intros m Hm bs. apply hkeeps_bind; [done|]. intros _. by apply triple_ret. }
  apply Hm. destruct (bool_decide _); [|by apply triple_ret].
  apply triple_modify. intros x Hx. apply (hinv_ext true true x); [apply Hx|done|done].
Qed.

Lemma mem_recv_keeps evs : keeps_inv (session_mem_recv evs).
Proof.
  induction evs as [|e evs IH]; [by apply triple_ret|]. cbn [session_mem_recv]. apply hkeeps_bind.
  - destruct e; [apply header_keeps|apply data_chunk_keeps|apply frame_recv_keeps].
  - intros []; [exact IH|by apply triple_ret..].
Qed.

(** *** Receiving *)
Lemma count_code_spec st code :
  length (st_code st) = 500 → ∃ st', count_code st code = Done st' ∧ length (st_code st') = 500.
Proof.
  intros Hl. unfold count_code. destruct (decide _) as [Hc|]; [|by eexists].
  destruct (lookup_lt_is_Some_2 (st_code st) (Z.to_nat (code - 100))) as [n ->]; [lia|].
  eexists. split; [done|]. simpl. by rewrite length_insert.
Qed.

Lemma hinv_clear b s r code d :
  hinv b s → length (dnsmsg r) = DNS_MSG_MAX_SIZE → hinv b (h_set_rsp s (clear_response r code d)).
Proof. intros Hs Hr. apply hinv_rsp; [done|done|simpl; lia]. Qed.

Lemma deliver_releases len : releases (doh_deliver len).
Proof.
  unfold doh_deliver. apply triple_get_bind. intros s Hs. pose proof Hs as [Hl [H1 H2 H3 H4 H5 H6 H7]]. cbv zeta.
  destruct (dnsmsg_completed _); [|apply (triple_eq (hinv true)); [done|apply releases_unlock]].
  destruct (count_code_spec (h_stats s) (http2_code (h_rsp s)) H3) as (st & E & Hst).
  eapply triple_lift_bind; [exact E|]. apply (triple_put_bind _ (hinv true)); [split; [done|by split]|].
  destruct (http2_is_dns _); [destruct (decide _)|];
    (apply hkeeps_modify; [intros x Hx; by apply hinv_clear|]); try apply releases_unlock.
  apply keeps_unlock. apply (triple_modify_bind _ (hinv false)); [|by apply triple_ret].
  intros x Hx. destruct (decide _); [|done]. apply (hinv_ext false false x); [apply Hx|done|done].
Qed.

(** What nghttp2 can take of [n] bytes. *)
Definition taken_ok (i : doh_input) (n : nat) : Prop := ∀ k, in_taken i = Some k → k ≤ n.

(** Callbacks leave the received bytes alone. *)
Definition recv_part (s : doh) : list Z * nat := (h_recvbuf s, h_recv_at s).

Lemma mem_recv_part evs s :
  match session_mem_recv evs s with Done (_, s') => recv_part s' = recv_part s | _ => True end.
Proof.
  revert s. induction evs as [|e evs IH]; intros s; [done|]. cbn [session_mem_recv]. unfold mbind at 1, M_bind at 1.
  assert (match recv_callback e s with Done (_, s') => recv_part s' = recv_part s | _ => True end) as He.
  { unfold recv_callback, http2_on_header_callback, http2_data_chunk_recv_cb, http2_frame_recv_cb, check_locked,
      PERF_TRYLOCK, doh_reconnect. run_unfold. unfold mem_store. cbn. by repeat (case_match; try done); simplify_eq. }
  destruct (recv_callback e s) as [[r s1]| | | |]; try done. destruct r; try done. specialize (IH s1).
  destruct (session_mem_recv evs s1) as [[b s2]| | | |]; try done. congruence.
Qed.

Lemma process_releases i len s :
  hinv true s → taken_ok i (h_recv_at s) →
  match doh_process i len s with Done (_, s') => hinv false s' | Exit c => c = 1%Z | _ => False end.
Proof.
  intros Hs Ht. unfold doh_process. pose proof (mem_recv_keeps (in_events i) s Hs) as Hk.
  pose proof (mem_recv_part (in_events i) s) as Hp. unfold mbind at 1, M_bind at 1.
  destruct (session_mem_recv (in_events i) s) as [[ok s1]| | | |]; try done.
  destruct (if ok then in_taken i else None) as [ret|] eqn:Er; [|exact (releases_unlock _ s1 Hk)].
  assert (in_taken i = Some ret) as Et by (by destruct ok). specialize (Ht ret Et).
  unfold recv_part in Hp. injection Hp as Hb Ha. rewrite (bind_Done get _ _ _ _ eq_refl).
  rewrite decide_False by lia. rewrite (bind_Done (put _) _ _ () _ eq_refl). apply deliver_releases.
  destruct Hk as [Hl [H1 H2 H3 H4 H5 H6 H7]]. split; [by destruct (decide _)|].
  destruct (decide _); split; simpl; try done; [by rewrite length_inserts|lia|lia].
Qed.

(** What OpenSSL and nghttp2 can do in a call of [perf__doh_recv]. *)
Definition input_ok (s : doh) (i : doh_input) : Prop :=
  match in_read i with
  | SslRead bs => h_recv_at s + length bs ≤ TCP_RECV_BUF_SIZE ∧
      taken_ok i (if decide (h_recv_at s < TCP_RECV_BUF_SIZE) then h_recv_at s + length bs else h_recv_at s)
  | _ => taken_ok i (h_recv_at s)
  end.

Lemma doh_recv_inv len i s :
  hinv false s → input_ok s i →
  match doh_recv len i s with Done (_, s') => hinv false s' | Exit c => c = 1%Z | _ => False end.
Proof.
  intros Hs Hi. unfold doh_recv. pose proof Hs as [Hl [H1 H2 H3 H4 H5 H6 H7]].
  rewrite lock_bind, (bind_Done get _ _ _ _ eq_refl) by exact Hl. cbn [set_held doh_lockable].
  set (s1 := h_set_lock true s). assert (hinv true s1) as Hs1 by (by apply (hinv_ext false true s)).
  assert (∀ r : doh_recv_result, match (doh_reconnect;; unlock_return r) s1 with
               | Done (_, s') => hinv false s' | Exit c => c = 1%Z | _ => False end) as Hrec.
  { intros r. exact (hkeeps_bind doh_reconnect _ _ reconnect_keeps (λ _, releases_unlock r) s1 Hs1). }
  assert (∀ r : doh_recv_result, match unlock_return r s1 with
               | Done (_, s') => hinv false s' | Exit c => c = 1%Z | _ => False end) as Hun.
  { intros r. exact (releases_unlock r s1 Hs1). }
  change (h_flags s1) with (h_flags s). change (h_recv_at s1) with (h_recv_at s). change (h_recvbuf s1) with (h_recvbuf s).
  unfold input_ok in Hi. destruct (h_is_ready (h_flags s)) eqn:Hr; [|apply Hun]. rewrite H5.
  destruct (decide (h_recv_at s < TCP_RECV_BUF_SIZE)).
  2: { apply process_releases; [done|]. destruct (in_read i) as [bs| |]; [apply Hi|exact Hi..]. }
  destruct (in_read i) as [bs| |e].
  - destruct Hi as [Hsz Ht]. unfold mem_store. rewrite decide_True by lia.
    rewrite (bind_Done (lift (Done _)) _ _ _ s1 eq_refl). rewrite (bind_Done (put _) _ _ () _ eq_refl).
    apply process_releases; [|exact Ht]. split; [done|]. split; simpl; try done. by rewrite length_inserts.
  - apply Hrec.
  - destruct e as [| |en| |]; try apply Hun.
    + destruct (decide _); [by apply process_releases|apply Hun].
    + destruct (recv_lost en); [apply Hrec|apply Hun].
Qed.

(** *** Sending *)

Lemma append_body_post bs reqs clen body :
  append_body bs (reqs ++ [PostRequest clen body]) = reqs ++ [PostRequest clen (body ++ bs)].
Proof.
  unfold append_body. rewrite length_app. simpl. replace (length reqs + 1 - 1) with (length reqs + 0) by lia.
  by rewrite alter_app_r.
Qed.

Lemma append_body_get bs reqs p : append_body bs (reqs ++ [GetRequest p]) = reqs ++ [GetRequest p].
Proof.
  unfold append_body. rewrite length_app. simpl. replace (length reqs + 1 - 1) with (length reqs + 0) by lia.
  by rewrite alter_app_r.
Qed.

Lemma append_body_nil reqs : append_body [] reqs = reqs.
Proof.
  destruct reqs as [|r reqs _] using rev_ind; [done|]. destruct r as [p|clen body]; [apply append_body_get|].
  by rewrite append_body_post, app_nil_r.
Qed.

Lemma append_body_app bs bs' reqs : append_body bs' (append_body bs reqs) = append_body (bs ++ bs') reqs.
Proof.
  destruct reqs as [|r reqs _] using rev_ind; [done|]. destruct r as [p|clen body]; [by rewrite !append_body_get|].
  by rewrite !append_body_post, app_assoc.
Qed.

(** What nghttp2's callbacks do to the state [s] while it sends: what is read of the payload goes
    into the body of the request, and the end is told when nothing is left. *)
Record sent_from (s s' : doh) : Prop := {
  sf_same : (h_qid s', h_sent_cb s') = (h_qid s, h_sent_cb s);
  sf_sending : h_is_sending (h_flags s) = false → h_is_sending (h_flags s') = false;
  sf_ready : h_is_ready (h_flags s') = true → h_is_ready (h_flags s) = true;
  sf_body : ∃ bs, bs ++ pl_view (h_payload s') = pl_view (h_payload s) ∧ h_requests s' = append_body bs (h_requests s);
  sf_eof : h_is_ready (h_flags s') = true → h_is_post_sending (h_flags s') = false →
    h_is_post_sending (h_flags s) = false ∨ pl_view (h_payload s') = [];
}.

Lemma sent_from_same s s' :
  (h_qid s', h_sent_cb s', h_payload s', h_requests s') = (h_qid s, h_sent_cb s, h_payload s, h_requests s) →
  h_flags s' = h_flags s ∨ h_is_ready (h_flags s') = false ∧ h_is_sending (h_flags s') = false →
  sent_from s s'.
Proof.
  intros [= E1 E2 E3 E4] Hf. split; [congruence|destruct Hf as [->|[? ?]]; done|destruct Hf as [->|[? ?]]; congruence| |].
  - exists []. by rewrite append_body_nil, E3.
  - destruct Hf as [->|[? ?]]; [by left|congruence].
Qed.

Lemma sent_from_trans s s1 s2 : sent_from s s1 → sent_from s1 s2 → sent_from s s2.
Proof.
  intros [A1 A2 A3 (bs & A4 & A5) A6] [B1 B2 B3 (bs' & B4 & B5) B6]. split; [congruence|auto|auto| |].
  - exists (bs ++ bs'). rewrite <- app_assoc, B4. split; [done|]. by rewrite B5, A5, append_body_app.
  - intros Hr Hp. destruct (B6 Hr Hp) as [Hp1|]; [|by right]. destruct (A6 (B3 Hr) Hp1) as [|Hv]; [by left|right].
    rewrite Hv in B4. by apply app_eq_nil in B4 as [_ ?].
Qed.

Lemma send_cb_done r s :
  hinv true s → ∃ x s', http2_send_cb r s = Done (x, s') ∧ hinv true s' ∧ sent_from s s' ∧
    (x ≠ inl CbFailure → flow s' = flow s).
Proof.
  intros Hs. pose proof (send_cb_keeps r s Hs) as Hk. pose proof Hs as [Hl _].
  assert (match http2_send_cb r s with
          | Done (x, s') => ((h_qid s', h_sent_cb s', h_payload s', h_requests s') = (h_qid s, h_sent_cb s, h_payload s, h_requests s) ∧
              (h_flags s' = h_flags s ∨ h_is_ready (h_flags s') = false ∧ h_is_sending (h_flags s') = false)) ∧
              (x ≠ inl CbFailure → flow s' = flow s) | _ => False end) as Hx.
  { unfold http2_send_cb, check_locked, PERF_TRYLOCK, doh_reconnect. run_unfold. cbn. rewrite Hl.
    repeat (case_match; try done); simplify_eq; (split; [split; [done|]|done]); by (left + right). }
  destruct (http2_send_cb r s) as [[x s']| | | |]; try done. destruct Hx as [[H1 H2] H3].
  exists x, s'. split; [done|]. split; [done|]. split; [by apply sent_from_same|done].
Qed.

Lemma payload_read_done n s :
  hinv true s → ∃ bs s', doh_payload_read_cb n s = Done (bs, s') ∧ hinv true s' ∧ sent_from s s' ∧ flow s' = flow s.
Proof.
  intros Hs. pose proof (payload_read_keeps n s Hs) as Hk. pose proof Hs as [_ [_ _ _ Hpl _ _ _]]. revert Hk.
  unfold doh_payload_read_cb. run_unfold. destruct (payload_read_spec n (h_payload s) Hpl) as (pl & -> & _ & Hv).
  pose proof (take_drop n (pl_view (h_payload s))) as Htd.
  destruct (bool_decide _) eqn:Hb; intros Hk; (eexists _, _; split; [reflexivity|]; split; [exact Hk|]); (split; [|done]).
  - apply bool_decide_eq_true in Hb. split; cbn; [done|done|done| |].
    + eexists. split; [|reflexivity]. by rewrite Hv.
    + right. by rewrite Hv, drop_ge.
  - split; cbn; [done|done|done| |by left]. eexists. split; [|reflexivity]. by rewrite Hv.
Qed.

Lemma session_send_spec evs s :
  hinv true s → ∃ ok s', session_send evs s = Done (ok, s') ∧ hinv true s' ∧ sent_from s s' ∧ (ok = true → flow s' = flow s).
Proof.
  revert s. induction evs as [|[r|n] evs IH]; intros s Hs; cbn [session_send].
  - exists true, s. split; [done|]. split; [done|]. split; [apply sent_from_same; [done|by left]|done].
  - destruct (send_cb_done r s Hs) as (x & s1 & E & Hs1 & Hf & Hp). rewrite (bind_Done _ _ _ _ _ E).
    destruct x as [[]|k]; try (by eexists _, s1; split; [reflexivity|]; split; [exact Hs1|]; split; [exact Hf|]).
    + exists true, s1. split; [done|]. split; [done|]. split; [done|]. intros _. by apply Hp.
    + destruct (IH s1 Hs1) as (ok & s2 & -> & Hs2 & Hf2 & Hp2). exists ok, s2. split; [done|]. split; [done|].
      split; [by eapply sent_from_trans|]. intros Hok. rewrite Hp2 by done. by apply Hp.
  - destruct (payload_read_done n s Hs) as (bs & s1 & E & Hs1 & Hf & Hp). rewrite (bind_Done _ _ _ _ _ E).
    destruct (IH s1 Hs1) as (ok & s2 & -> & Hs2 & Hf2 & Hp2). exists ok, s2. split; [done|]. split; [done|].
    split; [by eapply sent_from_trans|]. intros Hok. rewrite Hp2 by done. done.
Qed.

(** The request for a query. *)
Definition request_of (path : list Z) (method : perf_doh_method) (msg : list Z) : request :=
  match method with
  | doh_method_get => GetRequest (path ++ DNS_GET_REQUEST_VAR ++ base64url msg)
  | doh_method_post => PostRequest (content_length msg) msg
  end.

(** The newest request is the one for [msg], after [reqs]: what nghttp2 has of its body and what is
    left of the payload make up [msg], and nothing is left when the body's end has been told. *)
Definition carries (path : list Z) (method : perf_doh_method) (msg : list Z) (reqs : list request) (s : doh) : Prop :=
  match method with
  | doh_method_get => h_requests s = reqs ++ [request_of path doh_method_get msg]
  | doh_method_post =>
      ∃ body, h_requests s = reqs ++ [PostRequest (content_length msg) body] ∧ body ++ pl_view (h_payload s) = msg ∧
        (h_is_post_sending (h_flags s) = false → pl_view (h_payload s) = [])
  end.

Lemma carries_sent path method msg reqs s s' :
  h_is_ready (h_flags s') = true → carries path method msg reqs s → sent_from s s' → carries path method msg reqs s'.
Proof.
  intros Hr Hc [_ _ _ (bs & Hv & Hq) He]. destruct method; simpl in *.
  - by rewrite Hq, Hc, append_body_get.
  - destruct Hc as (body & E & Hb & Hp). exists (body ++ bs). split; [by rewrite Hq, E, append_body_post|].
    split; [by rewrite <- app_assoc, Hv|]. intros Hp'. destruct (He Hr Hp') as [Hp0|]; [|done].
    rewrite (Hp Hp0) in Hv. by apply app_eq_nil in Hv as [_ ?].
Qed.

Lemma carries_all path method msg reqs s :
  carries path method msg reqs s → h_is_post_sending (h_flags s) = false →
  h_requests s = reqs ++ [request_of path method msg].
Proof.
  destruct method; simpl; [done|]. intros (body & -> & Hb & Hp) Hps. by rewrite <- Hb, (Hp Hps), app_nil_r.
Qed.

Lemma carries_ext path method msg reqs s s' :
  (h_requests s', h_payload s', h_is_post_sending (h_flags s')) = (h_requests s, h_payload s, h_is_post_sending (h_flags s)) →
  carries path method msg reqs s → carries path method msg reqs s'.
Proof. intros [= E1 E2 E3]. destruct method; simpl; by rewrite ?E1, ?E2, ?E3. Qed.

Lemma submit_spec `{Base64Laws} path method mem submitted msg s :
  hinv true s → Forall byte_ok msg →
  match (match method with
         | doh_method_get => submit_dns_query_get path mem submitted msg
         | doh_method_post => submit_dns_query_post mem submitted msg
         end : M doh unit) s with
  | Done (_, s') => hinv true s' ∧ flow s' = flow s ∧ h_sent_cb s' = h_sent_cb s ∧ h_qid s' = h_qid s ∧
      carries path method msg (h_requests s) s'
  | Exit c => c = 1%Z ∧ submitted = false
  | _ => False
  end.
Proof.
  intros Hs Hm. pose proof Hs as [Hl [H1 H2 H3 H4 H5 H6 H7]]. destruct method.
  - unfold submit_dns_query_get. rewrite get_full_path_spec by done.
    rewrite (bind_Done (lift (Done _)) _ _ _ s eq_refl). destruct submitted; [|done].
    split; [by apply (hinv_ext true true s)|done].
  - unfold submit_dns_query_post. rewrite (bind_Done get _ _ _ _ eq_refl).
    destruct (set_payload_spec mem msg (h_payload s)) as (pl & -> & Hpl & Hv).
    rewrite (bind_Done (lift (Done _)) _ _ _ s eq_refl), (bind_Done (put _) _ _ () _ eq_refl).
    destruct submitted; [|done]. split; [split; [done|]; by split|]. split; [done|]. split; [done|]. split; [done|].
    by exists [].
Qed.

Lemma sendto_inv `{Base64Laws} path method id msg a s :
  hinv false s → Forall byte_ok msg →
  match doh_sendto path method id msg a s with
  | Done (inr n, s') =>
      hinv false s' ∧ n = length msg ∧ flow s' = (true, false) ∧ h_sent_cb s' = h_sent_cb s ∧
      h_requests s' = h_requests s ++ [request_of path method msg]
  | Done (inl e, s') =>
      hinv false s' ∧ e = E_INPROGRESS ∧ h_sent_cb s' = h_sent_cb s ∧
      (flow s' = (true, true) → h_qid s' = id ∧ carries path method msg (h_requests s) s')
  | Exit c => c = 1%Z ∧ (h_is_sending (h_flags s) = true ∨ sn_submitted a = false)
  | _ => False
  end.
Proof.
  intros Hs Hm. pose proof Hs as [Hl Hok]. unfold doh_sendto. rewrite lock_bind by exact Hl.
  rewrite (bind_Done get _ _ _ _ eq_refl). cbn [set_held doh_lockable]. set (s1 := h_set_lock true s).
  assert (hinv true s1) as Hs1 by (by apply (hinv_ext false true s)). change (h_flags s1) with (h_flags s).
  destruct (h_is_ready (h_flags s)) eqn:Hr.
  2: { rewrite unlock_return_held by exact (proj1 Hs1). refine (conj _ (conj eq_refl (conj eq_refl _))).
       - by apply (hinv_ext false false s).
       - unfold flow. cbn. rewrite Hr. intros [=]. }
  destruct (h_is_sending (h_flags s)) eqn:Hse; [split; [done|by left]|].
  rewrite (bind_Done (put _) _ _ () _ eq_refl). set (s2 := h_set_send s1 _ _ _).
  assert (hinv true s2) as Hs2 by (by apply (hinv_ext true true s1)).
  assert (flow s2 = (true, false) ∧ h_sent_cb s2 = h_sent_cb s ∧ h_requests s2 = h_requests s ∧ h_qid s2 = id)
    as (F2 & C2 & R2 & Q2) by (unfold flow; cbn; by rewrite Hr, Hse).
  clearbody s2. pose proof (submit_spec path method (sn_mem a) (sn_submitted a) msg s2 Hs2 Hm) as Hsub.
  unfold mbind at 1, M_bind at 1.
  match type of Hsub with match ?m with _ => _ end => destruct m as [[[] s3]| | | |] end; try done; [|naive_solver].
  destruct Hsub as (Hs3 & F3 & C3 & Q3 & R3).
  destruct (session_send_spec (sn_events a) s3 Hs3) as (ok & s4 & E4 & Hs4 & S4 & P4). rewrite (bind_Done _ _ _ _ _ E4).
  pose proof S4 as [[= Q4 C4] Se4 _ _ _]. rewrite R2 in R3.
  destruct (ok && sn_ok a) eqn:Hok4.
  - apply andb_true_iff in Hok4 as [-> _]. specialize (P4 eq_refl).
    assert (flow s4 = (true, false)) as F4 by congruence. pose proof F4 as [= F41 F42].
    pose proof (carries_sent _ _ _ _ _ _ F41 R3 S4) as R4.
    rewrite (bind_Done get _ _ _ _ eq_refl). destruct (h_is_post_sending (h_flags s4) || sn_more a) eqn:Hmore.
    + rewrite (bind_Done (put _) _ _ () _ eq_refl). rewrite unlock_return_held by exact (proj1 Hs4).
      assert (hinv true (h_set_sending s4 true (h_is_post_sending (h_flags s4)))) as Hs5.
      { apply hinv_flags; [done|]. destruct Hs4 as [_ [_ _ _ _ _ _ [_ Hc4]]]. by split; cbn. }
      split; [|split; [done|]; split; [cbn; congruence|]; intros _; split; [cbn; congruence|]].
      * by apply (hinv_ext true false (h_set_sending s4 true (h_is_post_sending (h_flags s4)))).
      * by apply (carries_ext _ _ _ _ s4).
    + apply orb_false_iff in Hmore as [Hps _].
      rewrite unlock_bind, (bind_Done (modify _) _ _ () _ eq_refl) by exact (proj1 Hs4).
      split; [by apply (hinv_ext true false s4)|]. split; [done|]. split; [exact F4|]. split; [cbn; congruence|].
      exact (carries_all _ _ _ _ _ R4 Hps).
  - rewrite (bind_Done (modify _) _ _ () _ eq_refl). rewrite unlock_return_held by exact (proj1 Hs4).
    split; [by apply (hinv_ext true false s4)|]. split; [done|]. split; [cbn; congruence|].
    assert (h_is_sending (h_flags s4) = false) as F4 by (apply Se4; unfold flow in *; congruence).
    unfold flow. cbn. rewrite F4. intros [=].
Qed.

(** *** Readiness *)

(** The request for the query being sent in [s0]: when its sending is reported it is complete, and
    as long as it goes on it is the newest one. *)
Definition followed `{Base64} (s0 s : doh) : Prop := ∀ path method msg reqs,
  carries path method msg reqs s0 →
  (h_sent_cb s ≠ h_sent_cb s0 → h_requests s = reqs ++ [request_of path method msg]) ∧
  (h_is_sending (h_flags s) = true → h_qid s = h_qid s0 ∧ carries path method msg reqs s).

(** What holds after [perf__doh_sockready], started with [s0]: when it returns 1 a query can be
    sent; [sock->sent] was called at most for the query that was being sent and now is not. *)
Definition hready `{Base64} (s0 : doh) (m : run (Z * doh)) : Prop :=
  match m with
  | Done (z, s) =>
      hinv false s ∧ (z = 1%Z → flow s = (true, false)) ∧
      (h_sent_cb s = h_sent_cb s0 ∨
       h_is_sending (h_flags s0) = true ∧ h_is_sending (h_flags s) = false ∧ h_sent_cb s = h_sent_cb s0 ++ [h_qid s0]) ∧
      followed s0 s
  | Exit c => c = 1%Z
  | _ => False
  end.

Section ready.
Context `{Base64}.

Lemma followed_quiet s0 s : h_is_sending (h_flags s) = false → h_sent_cb s = h_sent_cb s0 → followed s0 s.
Proof. intros Hf Hc path method msg reqs _. split; [done|congruence]. Qed.

Lemma unlock_hready z s0 s :
  hinv true s → z ≠ 1%Z → h_sent_cb s = h_sent_cb s0 → followed s0 s → hready s0 (unlock_return z s).
Proof.
  intros Hs Hz Hc Hfol. rewrite unlock_return_held by exact (proj1 Hs). split; [by apply (hinv_ext true false s)|].
  split; [done|]. split; [by left|exact Hfol].
Qed.

Lemma ask_inv b s : hinv b s → hinv b (ask s).
Proof. intros Hs. pose proof Hs as [? ?]. by apply (hinv_ext b b s). Qed.

Lemma retry_hready s0 s : hinv true s → h_sent_cb s = h_sent_cb s0 → h_is_sending (h_flags s) = false → hready s0 (retry_later s).
Proof.
  intros Hs Hc Hf. unfold retry_later. rewrite (bind_Done (modify _) _ _ () _ eq_refl).
  apply unlock_hready; [by apply ask_inv|done|done|by apply followed_quiet].
Qed.

Lemma per_conn_hready a sent s :
  hinv true s → flow s = (true, false) →
  match doh_per_conn a sent s with
  | Done (_, s') =>
      hinv false s' ∧ flow s' = (true, false) ∧ h_sent_cb s' = h_sent_cb s ++ (if sent then [h_qid s] else []) ∧
      h_requests s' = h_requests s
  | _ => False
  end.
Proof.
  intros Hs Hf. pose proof Hs as [Hl _]. unfold doh_per_conn. rewrite (bind_Done get _ _ _ _ eq_refl). cbv zeta.
  assert (∀ (z : Z) x, hinv true x → flow x = flow s → h_sent_cb x = h_sent_cb s → h_qid x = h_qid s → h_requests x = h_requests s →
    match (PERF_UNLOCK;; doh_sent_cb sent;; mret z) x with
    | Done (_, s') =>
        hinv false s' ∧ flow s' = (true, false) ∧ h_sent_cb s' = h_sent_cb s ++ (if sent then [h_qid s] else []) ∧
        h_requests s' = h_requests s
    | _ => False
    end) as Hend.
  { intros z x Hx F C Q R. rewrite unlock_bind by exact (proj1 Hx). unfold doh_sent_cb.
    destruct sent; run_unfold; (split; [by apply (hinv_ext true false x)|]); cbn; rewrite ?app_nil_r, <- ?C, <- ?Q;
      (split; [exact (eq_trans F Hf)|done]). }
  destruct (decide _); [|by apply Hend]. set (ts := if decide (q_ts _ = 0)%Z then _ else _). clearbody ts.
  rewrite (bind_Done (put _) _ _ () _ eq_refl). set (s1 := h_set_nqpc s _).
  assert (hinv true s1) as Hs1 by (by apply (hinv_ext true true s)).
  destruct (decide _).
  - rewrite (bind_Done (modify _) _ _ () _ eq_refl). apply Hend; [by apply ask_inv|done..].
  - rewrite (bind_Done (mret _) _ _ () _ eq_refl). by apply Hend.
Qed.

(** While the sending goes on. *)
Lemma followed_sent s0 s s' :
  hinv true s → sent_from s0 s → (h_requests s', h_payload s', h_qid s', h_sent_cb s', h_flags s') =
    (h_requests s, h_payload s, h_qid s, h_sent_cb s, h_flags s) ∨ s' = ask s → followed s0 s'.
Proof.
  intros [_ [_ _ _ _ _ _ [Hk _]]] Hf E path method msg reqs Hc. pose proof Hf as [[= F1 F2] _ _ _ _].
  assert ((h_requests s', h_payload s', h_qid s', h_sent_cb s', h_is_sending (h_flags s'), h_is_post_sending (h_flags s')) =
    (h_requests s, h_payload s, h_qid s, h_sent_cb s, h_is_sending (h_flags s), h_is_post_sending (h_flags s))) as E'.
  { destruct E as [E| ->]; [|done]. injection E as -> -> -> -> ->. done. }
  injection E' as E1 E2 E3 E4 E5 E6. split; [congruence|]. rewrite E5. intros Hse. split; [congruence|].
  apply (carries_ext _ _ _ _ s); [by rewrite E1, E2, E6|]. apply (carries_sent _ _ _ _ s0); [by apply Hk|done|done].
Qed.

Lemma when_ready_hready a s :
  hinv true s → h_is_ready (h_flags s) = true → hready s (doh_when_ready a s).
Proof.
  intros Hs Hr. unfold doh_when_ready. destruct (session_send_spec (ha_events a) s Hs) as (ok & s1 & E & Hs1 & S1 & P1).
  rewrite (bind_Done _ _ _ _ _ E). pose proof S1 as [[= Q1 C1] Se1 _ _ _]. destruct (ok && ha_ok a) eqn:Hok.
  2: { rewrite (bind_Done (modify _) _ _ () _ eq_refl). apply unlock_hready; [by apply ask_inv|done|done|].
       apply (followed_sent _ s1); [done|done|by right]. }
  apply andb_true_iff in Hok as [-> _]. specialize (P1 eq_refl). injection P1 as F11 F12.
  rewrite (bind_Done get _ _ _ _ eq_refl). rewrite F12. destruct (h_is_sending (h_flags s)) eqn:Hse.
  - destruct (h_is_post_sending (h_flags s1) || ha_more a) eqn:Hmore.
    { apply unlock_hready; [done|done|done|]. apply (followed_sent _ s1); [done|done|by left]. }
    apply orb_false_iff in Hmore as [Hps _]. rewrite !(bind_Done (modify _) _ _ () _ eq_refl).
    set (s2 := h_set_nqpc _ _). assert (hinv true s2 ∧ flow s2 = (true, false) ∧ h_sent_cb s2 = h_sent_cb s ∧ h_qid s2 = h_qid s ∧
      h_requests s2 = h_requests s1) as (Hs2 & F2 & C2 & Q2 & R2).
    { unfold flow. cbn. rewrite F11, Hr. refine (conj _ (conj eq_refl (conj C1 (conj Q1 eq_refl)))).
      apply (hinv_ext true true (h_set_sending s1 false (h_is_post_sending (h_flags s1)))); [apply Hs1|done|].
      apply hinv_flags; [done|]. destruct Hs1 as [_ [_ _ _ _ _ _ [_ Hc1]]]. by split. }
    clearbody s2. pose proof (per_conn_hready a true s2 Hs2 F2) as Hp. destruct (doh_per_conn a true s2) as [[z s3]| | | |]; try done.
    destruct Hp as (H3 & F3 & C3 & R3). pose proof F3 as [= _ F32]. split; [done|]. split; [done|].
    split; [right; split; [done|]; split; [done|congruence]|].
    intros path method msg reqs Hc. split; [|congruence]. intros _. rewrite R3, R2.
    apply carries_all; [|done]. apply (carries_sent _ _ _ _ s); [congruence|done|done].
  - assert (flow s1 = (true, false)) as F1 by (unfold flow; congruence).
    pose proof (per_conn_hready a false s1 Hs1 F1) as Hp. destruct (doh_per_conn a false s1) as [[z s3]| | | |]; try done.
    destruct Hp as (H3 & F3 & C3 & _). rewrite app_nil_r in C3. pose proof F3 as [= _ F32]. split; [done|]. split; [done|].
    split; [left; congruence|]. apply followed_quiet; congruence.
Qed.

Lemma settings_hready a s0 s :
  hinv true s → h_is_sending (h_flags s) = false → h_do_connect (h_flags s) = false → h_sent_cb s = h_sent_cb s0 →
  hready s0 (doh_settings a s).
Proof.
  intros Hs Hf Hd Hc. unfold doh_settings. rewrite (bind_Done get _ _ _ _ eq_refl). cbv zeta.
  destruct (_ && _); [by apply retry_hready|]. rewrite (bind_Done (put _) _ _ () _ eq_refl).
  rewrite unlock_bind, (bind_Done (modify _) _ _ () _ eq_refl) by exact (proj1 Hs).
  destruct Hs as [_ [H1 H2 H3 H4 H5 H6 H7]]. split; [split; [done|]; by split; try done; split|].
  split; [intros _; unfold flow; cbn; by rewrite Hf|]. split; [by left|]. by apply followed_quiet.
Qed.

Lemma handshake_hready a s0 s :
  hinv true s → h_is_sending (h_flags s) = false → h_do_connect (h_flags s) = false → h_sent_cb s = h_sent_cb s0 →
  hready s0 (doh_handshake a s).
Proof.
  intros Hs Hf Hd Hc. unfold doh_handshake. rewrite (bind_Done get _ _ _ _ eq_refl). cbv zeta.
  destruct (h_is_ssl_ready _); [by apply settings_hready|].
  assert (followed s0 s) as Hfol by (by apply followed_quiet).
  destruct (ha_connect a) as [| |[]]; try (by apply unlock_hready); try (by apply retry_hready).
  destruct (ha_alpn_h2 a); [|by apply retry_hready]. rewrite (bind_Done (put _) _ _ () _ eq_refl).
  apply settings_hready; [|done|done|done]. apply hinv_flags; [done|]. by split; cbn; rewrite ?Hf, ?Hd.
Qed.

Lemma hready_lock s m : hready (h_set_lock true s) m → hready s m.
Proof. by destruct m as [[]| | | |]. Qed.

(** The first steps of [perf__doh_sockready]: reconnecting, and connecting. *)
Definition restarted (s0 s : doh) : Prop :=
  hinv true s ∧ (h_qid s, h_sent_cb s) = (h_qid s0, h_sent_cb s0) ∧ (s = h_set_lock true s0 ∨ flow s = (false, false)).

Lemma reconnect_restarted s0 :
  triple (restarted s0) (doh_reconnect;; modify (λ s, h_set_todo s false (h_do_connect (h_flags s)))) (λ _, restarted s0).
Proof.
  intros s (Hs & E & _). unfold doh_reconnect. run_unfold. split; [|split; [exact E|by right]].
  apply hinv_flags; [|done]. apply hinv_clear; [by apply hinv_flags|]. by destruct Hs as [_ [? _ _ _ _ _ _]].
Qed.

(** Another connection is made only when there is none. *)
Lemma do_connect_flow s : hinv true s → h_do_connect (h_flags s) = true → flow s = (false, false).
Proof.
  intros [_ [_ _ _ _ _ _ [H1 H2]]] Hd. unfold flow. destruct (h_is_ready (h_flags s)); [by rewrite H2 in Hd|].
  destruct (h_is_sending (h_flags s)); [by specialize (H1 eq_refl)|done].
Qed.

Lemma connect_restarted c s0 s :
  restarted s0 s → h_do_connect (h_flags s) = true →
  match (doh_connect c;; modify (λ s, h_set_todo s (h_do_reconnect (h_flags s)) false)) s with
  | Done (_, s') => restarted s0 s' ∧ h_do_connect (h_flags s') = false
  | Exit c => c = 1%Z | _ => False end.
Proof.
  intros (Hs & E & _) Hd. pose proof (do_connect_flow s Hs Hd) as F. pose proof F as [= F1 F2].
  unfold doh_connect. run_unfold. destruct (decide _); [done|].
  assert (∀ s', h_lock s' = true → (h_qid s', h_sent_cb s') = (h_qid s, h_sent_cb s) →
    (h_rsp s', h_stats s', h_payload s', h_recvbuf s', h_recv_at s', flow s') =
    (h_rsp s, h_stats s, h_payload s, h_recvbuf s, h_recv_at s, flow s) → h_do_connect (h_flags s') = false →
    restarted s0 s' ∧ h_do_connect (h_flags s') = false) as Hsame.
  { intros s' Hl E' E'' Hd'. split; [|done]. injection E'' as E1 E2 E3 E4 E5 E6 E7.
    split; [|split; [by rewrite E'|right; unfold flow in *; congruence]]. destruct Hs as [_ [H1 H2 H3 H4 H5 H6 H7]].
    split; [done|]. split; try congruence. split; [intros; congruence|done]. }
  destruct Hs. destruct (c_res c); [by apply Hsame|by apply Hsame|done].
Qed.

Lemma sockready_hready a s : hinv false s → hready s (doh_sockready a s).
Proof.
  intros Hs. pose proof Hs as [Hl _]. unfold doh_sockready. rewrite lock_bind by exact Hl.
  rewrite (bind_Done get _ _ _ _ eq_refl). cbn [set_held doh_lockable].
  assert (restarted s (h_set_lock true s)) as R1 by (split; [by apply (hinv_ext false true s)|split; [done|by left]]).
  set (s1 := h_set_lock true s) in *.
  set (m1 := (if h_do_reconnect (h_flags s1) then _ else _) : M doh unit).
  assert (triple (restarted s) m1 (λ _, restarted s)) as T1.
  { unfold m1. destruct (h_do_reconnect _); [apply reconnect_restarted|by apply triple_ret]. }
  specialize (T1 s1 R1). clearbody m1. unfold mbind at 1, M_bind at 1. destruct (m1 s1) as [[[] s2]| | | |]; try done.
  rewrite (bind_Done get _ _ _ _ eq_refl). set (m2 := (if h_do_connect (h_flags s2) then _ else _) : M doh unit).
  assert (match m2 s2 with Done (_, s3) => restarted s s3 ∧ h_do_connect (h_flags s3) = false
    | Exit c => c = 1%Z | _ => False end) as T2.
  { unfold m2. destruct (h_do_connect _) eqn:Hd; [by apply connect_restarted|by split]. }
  clearbody m2. unfold mbind at 1, M_bind at 1. destruct (m2 s2) as [[[] s3]| | | |]; try done.
  destruct T2 as ((Hs3 & [= Q3 C3] & F3) & D3). rewrite (bind_Done get _ _ _ _ eq_refl). cbv zeta.
  destruct (h_is_ready (h_flags s3)) eqn:Hr3.
  { destruct F3 as [->|[= F3 _]]; [|congruence]. apply hready_lock. by apply when_ready_hready. }
  assert (h_is_sending (h_flags s3) = false) as Hf3.
  { destruct (h_is_sending (h_flags s3)) eqn:Hse; [|done]. destruct Hs3 as [_ [_ _ _ _ _ _ [H73 _]]]. by rewrite H73 in Hr3. }
  assert (followed s s3) as Hfol by (by apply followed_quiet).
  destruct (h_is_conn_ready _); [by apply handshake_hready|].
  destruct (ha_wait a); try (by apply unlock_hready). destruct (ha_error a) as [e|].
  - destruct (decide _); [by apply unlock_hready|by apply retry_hready].
  - rewrite (bind_Done (put _) _ _ () _ eq_refl). apply handshake_hready; [|done|done|done].
    apply hinv_flags; [done|]. by split; cbn; rewrite ?Hf3, ?D3.
Qed.

End ready.

(** *** Receiving leaves a query that is being sent alone *)

Definition send_side (s : doh) : list request * payload * Z * list Z := (h_requests s, h_payload s, h_qid s, h_sent_cb s).
Definition undisturbed (s s' : doh) : Prop :=
  send_side s' = send_side s ∧
  (h_is_sending (h_flags s') = true →
   (h_is_sending (h_flags s'), h_is_post_sending (h_flags s')) = (h_is_sending (h_flags s), h_is_post_sending (h_flags s))).

Lemma undisturbed_trans s s1 s2 : undisturbed s s1 → undisturbed s1 s2 → undisturbed s s2.
Proof.
  intros [A1 A2] [B1 B2]. split; [congruence|]. intros Hs. rewrite B2 by done. apply A2. specialize (B2 Hs). congruence.
Qed.

Lemma mem_recv_undisturbed evs s :
  match session_mem_recv evs s with Done (_, s') => undisturbed s s' | _ => True end.
Proof.
  revert s. induction evs as [|e evs IH]; intros s; [done|]. cbn [session_mem_recv]. unfold mbind at 1, M_bind at 1.
  assert (match recv_callback e s with Done (_, s') => undisturbed s s' | _ => True end) as He.
  { unfold recv_callback, http2_on_header_callback, http2_data_chunk_recv_cb, http2_frame_recv_cb, check_locked,
      PERF_TRYLOCK, doh_reconnect. run_unfold. unfold mem_store. cbn. by repeat (case_match; try done); simplify_eq. }
  destruct (recv_callback e s) as [[r s1]| | | |]; try done. destruct r; try done. specialize (IH s1).
  destruct (session_mem_recv evs s1) as [[b s2]| | | |]; try done. by eapply undisturbed_trans.
Qed.

Lemma deliver_undisturbed len s : match doh_deliver len s with Done (_, s') => undisturbed s s' | _ => True end.
Proof.
  unfold doh_deliver, unlock_return, PERF_UNLOCK. run_unfold. cbn. by repeat (case_match; try done); simplify_eq.
Qed.

Lemma process_undisturbed i len s : match doh_process i len s with Done (_, s') => undisturbed s s' | _ => True end.
Proof.
  unfold doh_process. pose proof (mem_recv_undisturbed (in_events i) s) as Hm. unfold mbind at 1, M_bind at 1.
  destruct (session_mem_recv (in_events i) s) as [[ok s1]| | | |]; try done.
  destruct (if ok then in_taken i else None) as [ret|].
  2: { unfold unlock_return, PERF_UNLOCK. run_unfold. by destruct (held s1). }
  rewrite (bind_Done get _ _ _ _ eq_refl). destruct (decide (h_recv_at s1 < ret)); [done|].
  rewrite (bind_Done (put _) _ _ () _ eq_refl). set (s2 := if decide (ret ≠ h_recv_at s1) then _ else _).
  assert (undisturbed s s2) as H2 by (unfold s2; destruct (decide _); exact Hm). clearbody s2.
  pose proof (deliver_undisturbed len s2) as Hd. destruct (doh_deliver len s2) as [[r s3]| | | |]; try done.
  by eapply undisturbed_trans.
Qed.

Lemma recv_undisturbed len i s : match doh_recv len i s with Done (_, s') => undisturbed s s' | _ => True end.
Proof.
  unfold doh_recv, PERF_LOCK. unfold mbind at 1, M_bind at 1. destruct (held s); [done|].
  rewrite (bind_Done get _ _ _ _ eq_refl). set (s1 := set_held true s). assert (undisturbed s s1) as H1 by done. clearbody s1.
  assert (∀ m : M doh doh_recv_result, match m s1 with Done (_, s') => undisturbed s1 s' | _ => True end →
    match m s1 with Done (_, s') => undisturbed s s' | _ => True end) as Hs1.
  { intros m Hm. destruct (m s1) as [[r s2]| | | |]; try done. by eapply undisturbed_trans. }
  apply Hs1. clear Hs1 H1.
  assert (∀ r : doh_recv_result, match (doh_reconnect;; unlock_return r) s1 with Done (_, s') => undisturbed s1 s' | _ => True end) as Hrec.
  { intros r. unfold doh_reconnect, unlock_return, PERF_UNLOCK. run_unfold. by destruct (held _). }
  assert (∀ r : doh_recv_result, match unlock_return r s1 with Done (_, s') => undisturbed s1 s' | _ => True end) as Hun.
  { intros r. unfold unlock_return, PERF_UNLOCK. run_unfold. by destruct (held _). }
  destruct (h_is_ready _); [|apply Hun]. destruct (decide _); [|apply process_undisturbed].
  destruct (in_read i) as [bs| |e].
  - unfold mem_store. destruct (decide _); [|done]. rewrite (bind_Done (lift (Done _)) _ _ _ s1 eq_refl).
    rewrite (bind_Done (put _) _ _ () _ eq_refl). set (s2 := h_set_recv _ _ _).
    pose proof (process_undisturbed i len s2) as Hp. destruct (doh_process i len s2) as [[r s3]| | | |]; try done.
  - apply Hrec.
  - destruct e as [| |en| |]; try apply Hun; [destruct (decide _); [apply process_undisturbed|apply Hun]|].
    destruct (recv_lost en); [apply Hrec|apply Hun].
Qed.

(** *** Sequences of operations of both threads *)

Inductive doh_op : Type :=
| DohSend (id : Z) (msg : list Z) (a : doh_sending)
| DohReady (a : doh_answers)
| DohRecv (len : nat) (i : doh_input).

Definition doh_op_ok (s : doh) (op : doh_op) : Prop :=
  match op with
  | DohSend _ msg _ => Forall byte_ok msg
  | DohReady _ => True
  | DohRecv _ i => input_ok s i
  end.

Section ops.
Context `{Base64} (path : list Z) (method : perf_doh_method).

Definition doh_do (op : doh_op) (s : doh) : run doh :=
  match op with
  | DohSend id msg a => '(_, s') ← doh_sendto path method id msg a s; Done s'
  | DohReady a => '(_, s') ← doh_sockready a s; Done s'
  | DohRecv len i => '(_, s') ← doh_recv len i s; Done s'
  end.

Fixpoint doh_run (ops : list doh_op) (s : doh) : run doh :=
  match ops with [] => Done s | op :: ops' => s' ← doh_do op s; doh_run ops' s' end.
Fixpoint doh_ops_ok (ops : list doh_op) (s : doh) : Prop :=
  match ops with
  | [] => True
  | op :: ops' => doh_op_ok s op ∧ match doh_do op s with Done s' => doh_ops_ok ops' s' | _ => True end
  end.
End ops.

Lemma doh_do_inv `{Base64Laws} path method op s :
  hinv false s → doh_op_ok s op →
  match doh_do path method op s with Done s' => hinv false s' | Exit c => c = 1%Z | _ => False end.
Proof.
  intros Hs Hop. destruct op as [id msg a|a|len i]; simpl in *.
  - pose proof (sendto_inv path method id msg a s Hs Hop) as Hp.
    destruct (doh_sendto path method id msg a s) as [[[] s']| | | |]; try done; by destruct Hp.
  - pose proof (sockready_hready a s Hs) as Hp. destruct (doh_sockready a s) as [[z s']| | | |]; try done. by destruct Hp.
  - pose proof (doh_recv_inv len i s Hs Hop) as Hp. by destruct (doh_recv len i s) as [[z s']| | | |].
Qed.

Lemma doh_run_inv `{Base64Laws} path method ops s :
  hinv false s → doh_ops_ok path method ops s →
  match doh_run path method ops s with Done s' => hinv false s' | Exit c => c = 1%Z | _ => False end.
Proof.
  revert s. induction ops as [|op ops IH]; intros s Hs Hok; simpl in *; [done|]. destruct Hok as [Hop Hok].
  pose proof (doh_do_inv path method op s Hs Hop) as Hd. destruct (doh_do path method op s) as [s'| | | |]; simpl; try done.
  by apply IH.
Qed.

Lemma doh_open_inv heap c s : doh_opensocket heap c = Done s → hinv false s.
Proof.
  unfold doh_opensocket. assert (hinv false (doh_init heap)) as Hi.
  { split; [done|]. split; cbn [doh_init h_rsp dnsmsg dnsmsg_at h_stats st_code h_payload h_recvbuf h_recv_at h_flags
      h_is_sending]; rewrite ?length_replicate; try done; try lia. unfold pl_ok. simpl. lia. }
  unfold doh_connect. run_unfold. destruct (decide _); [done|].
  destruct (c_res c); try done; intros [= <-]; by apply (hinv_ext false false (doh_init heap)).
Qed.

(** *** Responses *)

(** What a callback does to the response, when it accepts its event. *)
Definition status_header (name : list Z) : bool := strncasecmp_eq (bytes ":status:") name (length name).
Definition type_header (name : list Z) : bool := strncasecmp_eq (bytes "content-type:") name (length name).
Definition dns_type (value : list Z) : bool := strncasecmp_eq (bytes "application/dns-message") value (length value).

Definition rsp_event (r : response) (e : recv_event) : response :=
  match e with
  | EvHeader n v =>
      if status_header n then Response (dnsmsg r) (dnsmsg_at r) (dnsmsg_completed r) (atoi v) (http2_is_dns r)
      else if type_header n then
        Response (dnsmsg r) (dnsmsg_at r) (dnsmsg_completed r) (http2_code r) (http2_is_dns r || dns_type v)
      else r
  | EvChunk d =>
      Response (list_inserts (dnsmsg_at r) d (dnsmsg r)) (dnsmsg_at r + length d) (dnsmsg_completed r) (http2_code r)
        (http2_is_dns r)
  | EvFrame (FrameData true) => Response (dnsmsg r) (dnsmsg_at r) true (http2_code r) (http2_is_dns r)
  | EvFrame _ => r
  end.

(** Whether it accepts it. *)
Definition event_ok (r : response) (e : recv_event) : Prop :=
  match e with
  | EvHeader _ _ => True
  | EvChunk d => dnsmsg_completed r = false ∧ dnsmsg_at r + length d ≤ DNS_MSG_MAX_SIZE
  | EvFrame (FrameData true) => dnsmsg_completed r = false
  | EvFrame (FrameData false) | EvFrame FrameOther => True
  | EvFrame FrameRstStream | EvFrame FrameGoaway => False
  end.
Fixpoint events_ok (r : response) (evs : list recv_event) : Prop :=
  match evs with [] => True | e :: evs' => event_ok r e ∧ events_ok (rsp_event r e) evs' end.

Lemma set_rsp_same s : h_set_rsp s (h_rsp s) = s.
Proof. by destruct s. Qed.

Lemma recv_callback_ok e s :
  hinv true s → event_ok (h_rsp s) e → recv_callback e s = Done (CbOk, h_set_rsp s (rsp_event (h_rsp s) e)).
Proof.
  intros [Hl [H1 H2 _ _ _ _ _]] He. pose proof (set_rsp_same s) as Hsame. destruct e as [n v|d|k]; simpl in *.
  - unfold http2_on_header_callback, status_header, type_header, dns_type. run_unfold.
    destruct (strncasecmp_eq (bytes ":status:") _ _); [done|].
    destruct (strncasecmp_eq (bytes "content-type:") _ _); [|by rewrite Hsame].
    destruct (strncasecmp_eq _ v _); [by rewrite orb_true_r|]. rewrite orb_false_r. by destruct s as [??[]].
  - destruct He as [Hc Hsz]. unfold http2_data_chunk_recv_cb, check_locked, PERF_TRYLOCK. run_unfold. cbn [held doh_lockable].
    rewrite Hl, Hc. rewrite decide_False by lia. unfold mem_store. by rewrite decide_True by lia.
  - unfold http2_frame_recv_cb, check_locked, PERF_TRYLOCK. run_unfold. cbn [held doh_lockable].
    rewrite Hl. destruct k as [[]| | |]; try done; rewrite ?He, ?Hsame; done.
Qed.

Lemma rsp_event_inv e s :
  hinv true s → event_ok (h_rsp s) e → hinv true (h_set_rsp s (rsp_event (h_rsp s) e)).
Proof.
  intros Hs He. pose proof (mem_recv_keeps [e] s Hs) as Hk. cbn [session_mem_recv] in Hk.
  by rewrite (bind_Done _ _ _ _ _ (recv_callback_ok e s Hs He)) in Hk.
Qed.

Lemma session_mem_recv_ok evs s :
  hinv true s → events_ok (h_rsp s) evs →
  session_mem_recv evs s = Done (true, h_set_rsp s (foldl rsp_event (h_rsp s) evs)).
Proof.
  revert s. induction evs as [|e evs IH]; intros s Hs Hok; cbn [session_mem_recv foldl]; [by rewrite set_rsp_same|].
  destruct Hok as [He Hok]. rewrite (bind_Done _ _ _ _ _ (recv_callback_ok e s Hs He)).
  by rewrite (IH (h_set_rsp s (rsp_event (h_rsp s) e)) (rsp_event_inv e s Hs He) Hok).
Qed.

(** How a response ends: what is delivered, and the state it leaves. *)
Definition good_code (code : Z) : bool := bool_decide (200 ≤ code ≤ 299)%Z.
Definition rsp_result (len : nat) (r : response) : doh_recv_result :=
  if dnsmsg_completed r && http2_is_dns r && good_code (http2_code r)
  then DohMsg (take len (take (dnsmsg_at r) (dnsmsg r))) else DohErr E_AGAIN.
Definition rsp_after (r : response) : response :=
  if dnsmsg_completed r
  then clear_response r (if http2_is_dns r && good_code (http2_code r) then http2_code r else 0%Z) (http2_is_dns r) else r.
(** The counters of the codes. *)
Definition bump (st : doh_stats) (code : Z) : doh_stats :=
  if decide (99 < code ∧ code < 600)%Z
  then DohStats (alter (λ n, u64 (n + 1)) (Z.to_nat (code - 100)) (st_code st)) (st_unknown st)
  else DohStats (st_code st) (u64 (st_unknown st + 1)).

Lemma count_code_bump st code : length (st_code st) = 500 → count_code st code = Done (bump st code).
Proof.
  intros Hl. unfold count_code, bump. destruct (decide _) as [Hc|]; [|done].
  destruct (lookup_lt_is_Some_2 (st_code st) (Z.to_nat (code - 100))) as [n En]; [lia|]. rewrite En. do 2 f_equal.
  apply list_eq. intros j. destruct (decide (j = Z.to_nat (code - 100))) as [->|Hj].
  - rewrite list_lookup_alter_eq, En. simpl. rewrite list_lookup_insert_eq; [done|lia].
  - by rewrite list_lookup_alter_ne, list_lookup_insert_ne by done.
Qed.

(** A connection whose received bytes have all been processed. *)
Record calm (s : doh) : Prop := {
  calm_inv : hinv false s; calm_ready : h_is_ready (h_flags s) = true; calm_recv : h_recv_at s = 0;
}.

(** A read of which nghttp2 processes every byte, as it does unless a callback pauses it. *)
Definition whole_read (i : doh_input) : Prop :=
  ∃ bs, in_read i = SslRead bs ∧ length bs ≤ TCP_RECV_BUF_SIZE ∧ in_taken i = Some (length bs).

Lemma deliver_spec len s :
  hinv true s →
  ∃ s', doh_deliver len s = Done (rsp_result len (h_rsp s), s') ∧ h_rsp s' = rsp_after (h_rsp s) ∧
    (h_flags s', h_recv_at s') = (h_flags s, h_recv_at s) ∧
    h_stats s' = (if dnsmsg_completed (h_rsp s) then bump (h_stats s) (http2_code (h_rsp s)) else h_stats s).
Proof.
  intros [Hl [_ H2 H3 _ _ _ _]]. unfold doh_deliver, rsp_result, rsp_after. rewrite (bind_Done get _ _ _ _ eq_refl). cbv zeta.
  destruct (dnsmsg_completed (h_rsp s)); simpl.
  2: { rewrite unlock_return_held by exact Hl. by eexists. }
  rewrite count_code_bump by done. rewrite (bind_Done (lift (Done _)) _ _ _ s eq_refl), (bind_Done (put _) _ _ () _ eq_refl).
  destruct (http2_is_dns (h_rsp s)); simpl.
  2: { rewrite (bind_Done (modify _) _ _ () _ eq_refl), unlock_return_held by exact Hl. by eexists. }
  unfold good_code. destruct (decide (_ ∨ _)).
  - rewrite bool_decide_false by lia. rewrite (bind_Done (modify _) _ _ () _ eq_refl), unlock_return_held by exact Hl.
    by eexists.
  - rewrite bool_decide_true by lia. rewrite (bind_Done (modify _) _ _ () _ eq_refl), unlock_bind by exact Hl.
    rewrite (bind_Done (modify _) _ _ () _ eq_refl). rewrite take_take.
    set (k := if decide (_ < len) then _ else len). assert (k = len `min` dnsmsg_at (h_rsp s)) as ->.
    { unfold k. destruct (decide _); lia. }
    eexists. split; [reflexivity|]. by destruct (decide _).
Qed.

Lemma recv_step len i s :
  calm s → whole_read i → events_ok (h_rsp s) (in_events i) →
  let r := foldl rsp_event (h_rsp s) (in_events i) in
  ∃ s', doh_recv len i s = Done (rsp_result len r, s') ∧ calm s' ∧ h_rsp s' = rsp_after r ∧
    h_stats s' = (if dnsmsg_completed r then bump (h_stats s) (http2_code r) else h_stats s).
Proof.
  intros [Hs Hr Ha] (bs & Ei & Hsz & Et) Hev r. assert (0 < TCP_RECV_BUF_SIZE) as Hbig by (pose proof TCP_RECV_BUF_SIZE_val; lia).
  assert (input_ok s i) as Hin.
  { unfold input_ok. rewrite Ei, Ha. split; [lia|]. destruct (decide _); [|lia]. intros k. rewrite Et. intros [= <-]. lia. }
  pose proof (doh_recv_inv len i s Hs Hin) as Hinv. pose proof Hs as [Hl [H1 H2 H3 H4 H5 H6 H7]].
  assert (∃ s', doh_recv len i s = Done (rsp_result len r, s') ∧ h_rsp s' = rsp_after r ∧
    (h_flags s', h_recv_at s') = (h_flags s, 0) ∧
    h_stats s' = (if dnsmsg_completed r then bump (h_stats s) (http2_code r) else h_stats s)) as (s' & E & Er & Ef & Est).
  2: { rewrite E in Hinv. exists s'. injection Ef as Ef Er'. split; [exact E|].
       split; [split; [exact Hinv|by rewrite Ef|exact Er']|by split]. }
  clear Hinv. unfold doh_recv. rewrite lock_bind, (bind_Done get _ _ _ _ eq_refl) by exact Hl.
  cbn [set_held doh_lockable h_set_lock h_flags h_recv_at h_recvbuf]. rewrite Hr, Ha, decide_True by lia. rewrite Ei.
  unfold mem_store. rewrite decide_True by lia. rewrite (bind_Done (lift (Done _)) _ _ _ (h_set_lock true s) eq_refl).
  rewrite (bind_Done (put _) _ _ () _ eq_refl). set (s2 := h_set_recv _ _ _).
  assert (hinv true s2) as Hs2 by (split; [done|]; split; simpl; try done; by rewrite length_inserts).
  assert (h_rsp s2 = h_rsp s ∧ h_flags s2 = h_flags s ∧ h_stats s2 = h_stats s ∧ h_recv_at s2 = length bs) as (E1 & E2 & E3 & E4)
    by done.
  clearbody s2. unfold doh_process. rewrite <- E1 in Hev.
  rewrite (bind_Done _ _ _ _ _ (session_mem_recv_ok (in_events i) s2 Hs2 Hev)), Et, (bind_Done get _ _ _ _ eq_refl), E1.
  fold r. cbn [h_recv_at h_set_rsp]. rewrite E4, decide_False by lia. rewrite (decide_False (P := length bs ≠ length bs)) by lia.
  rewrite (bind_Done (put _) _ _ () _ eq_refl). set (s3 := h_set_recv _ _ _).
  assert (hinv true s3) as Hs3.
  { pose proof (mem_recv_keeps (in_events i) s2 Hs2) as Hk. rewrite (session_mem_recv_ok (in_events i) s2 Hs2 Hev), E1 in Hk.
    fold r in Hk. destruct Hk as [K [K1 K2 K3 K4 K5 K6 K7]]. split; [done|]. split; simpl in *; try done. lia. }
  destruct (deliver_spec len s3 Hs3) as (s' & E & Er & Ef & Est). exists s'. split; [exact E|]. split; [exact Er|].
  split; [by rewrite Ef, <- E2|]. by rewrite Est, <- E3.
Qed.

(** Events that say nothing of a response. *)
Definition relevant (e : recv_event) : bool :=
  match e with
  | EvHeader n _ => status_header n || type_header n
  | EvFrame (FrameData false) | EvFrame FrameOther => false
  | _ => true
  end.

Lemma irrelevant_event e r : relevant e = false → rsp_event r e = r ∧ event_ok r e.
Proof.
  destruct e as [n v| |[[]| | |]]; simpl; try done. by intros [-> ->]%orb_false_iff.
Qed.

Lemma events_filter evs r :
  events_ok r (filter relevant evs) →
  events_ok r evs ∧ foldl rsp_event r evs = foldl rsp_event r (filter relevant evs).
Proof.
  revert r. induction evs as [|e evs IH]; intros r; [done|]. rewrite filter_cons.
  destruct (relevant e) eqn:Hrel; simpl.
  - intros [He Hok]. by destruct (IH _ Hok).
  - intros Hok. destruct (irrelevant_event e r Hrel) as [-> He]. by destruct (IH _ Hok).
Qed.

Lemma events_ok_app evs evs' r :
  events_ok r (evs ++ evs') ↔ events_ok r evs ∧ events_ok (foldl rsp_event r evs) evs'.
Proof. revert r. induction evs as [|e evs IH]; intros r; simpl; [tauto|]. rewrite IH. tauto. Qed.

Lemma not_completed evs r :
  EvFrame (FrameData true) ∉ evs → dnsmsg_completed r = false → dnsmsg_completed (foldl rsp_event r evs) = false.
Proof.
  revert r. induction evs as [|e evs IH]; intros r Hn Hr; [done|]. simpl. apply not_elem_of_cons in Hn as [He Hn].
  apply IH; [done|]. destruct e as [n v| |[[]| | |]]; simpl; try done. destruct (status_header n), (type_header n); done.
Qed.

Lemma chunk_events cs r :
  length (dnsmsg r) = DNS_MSG_MAX_SIZE → dnsmsg_completed r = false → dnsmsg_at r + length (concat cs) ≤ DNS_MSG_MAX_SIZE →
  let r' := foldl rsp_event r (map EvChunk cs) in
  events_ok r (map EvChunk cs) ∧ dnsmsg_at r' = dnsmsg_at r + length (concat cs) ∧
  take (dnsmsg_at r') (dnsmsg r') = take (dnsmsg_at r) (dnsmsg r) ++ concat cs ∧
  dnsmsg_completed r' = false ∧ http2_code r' = http2_code r ∧ http2_is_dns r' = http2_is_dns r.
Proof.
  revert r. induction cs as [|c cs IH]; intros r Hl Hc Hsz; simpl in *.
  { rewrite app_nil_r, Nat.add_0_r. done. }
  rewrite length_app in Hsz.
  destruct (IH (rsp_event r (EvChunk c))) as (I1 & I2 & I3 & I4 & I5 & I6); simpl;
    [by rewrite length_inserts|done|lia|]. simpl in *.
  split; [split; [split; [done|lia]|exact I1]|]. rewrite I2, length_app. split; [lia|]. rewrite <- I2, I3.
  rewrite take_list_inserts by lia. by rewrite <- app_assoc.
Qed.

(** ** Responses of a server *)

Record http_response : Type := HttpResponse { hr_status : list Z; hr_type : list Z; hr_chunks : list (list Z) }.

Definition response_events (h : http_response) : list recv_event :=
  EvHeader (bytes ":status") (hr_status h) :: EvHeader (bytes "content-type") (hr_type h) ::
  map EvChunk (hr_chunks h) ++ [EvFrame (FrameData true)].

(** What is received of it: a DNS message from a successful response.  [dns] says that an earlier
    response on the connection was a DNS message. *)
Definition outcome (len : nat) (dns : bool) (h : http_response) : doh_recv_result :=
  if (dns || dns_type (hr_type h)) && good_code (atoi (hr_status h))
  then DohMsg (take len (concat (hr_chunks h))) else DohErr E_AGAIN.

Lemma response_spec h r :
  length (dnsmsg r) = DNS_MSG_MAX_SIZE → dnsmsg_at r = 0 → dnsmsg_completed r = false →
  length (concat (hr_chunks h)) ≤ DNS_MSG_MAX_SIZE →
  let r' := foldl rsp_event r (response_events h) in
  events_ok r (response_events h) ∧ dnsmsg_completed r' = true ∧ http2_code r' = atoi (hr_status h) ∧
  http2_is_dns r' = http2_is_dns r || dns_type (hr_type h) ∧ ∀ len, rsp_result len r' = outcome len (http2_is_dns r) h.
Proof.
  intros Hl Ha Hc Hsz. unfold response_events. set (r1 := rsp_event r (EvHeader (bytes ":status") (hr_status h))).
  set (r2 := rsp_event r1 (EvHeader (bytes "content-type") (hr_type h))).
  assert (r2 = Response (dnsmsg r) 0 false (atoi (hr_status h)) (http2_is_dns r || dns_type (hr_type h))) as E2.
  { unfold r2, r1. cbn [rsp_event]. change (status_header (bytes ":status")) with true.
    change (status_header (bytes "content-type")) with false. change (type_header (bytes "content-type")) with true.
    simpl. by rewrite Ha, Hc. }
  destruct (chunk_events (hr_chunks h) r2) as (K1 & K2 & K3 & K4 & K5 & K6); [by rewrite E2|by rewrite E2|by rewrite E2|].
  cbn [foldl events_ok event_ok]. fold r1. fold r2. rewrite foldl_app, events_ok_app. cbn [foldl events_ok event_ok].
  set (r3 := foldl rsp_event r2 (map EvChunk (hr_chunks h))) in *.
  rewrite E2 in K2, K3, K5, K6. simpl in K2, K3, K5, K6. split; [by rewrite K4|]. simpl. rewrite K5, K6.
  split; [done|]. split; [done|]. split; [done|]. intros len. unfold rsp_result, outcome. simpl. by rewrite K3.
Qed.

(** The reads that carry a response; the end of the stream comes in the last. *)
Record delivery : Type := Delivery { dl_rsp : http_response; dl_front : list doh_input; dl_last : doh_input }.

Definition delivery_ok (d : delivery) : Prop :=
  Forall whole_read (dl_front d) ∧ whole_read (dl_last d) ∧
  length (concat (hr_chunks (dl_rsp d))) ≤ DNS_MSG_MAX_SIZE ∧
  filter relevant (concat (map in_events (dl_front d)) ++ in_events (dl_last d)) = response_events (dl_rsp d) ∧
  EvFrame (FrameData true) ∉ concat (map in_events (dl_front d)).

(** Calls of [perf__doh_recv]. *)
Fixpoint doh_receive (len : nat) (ins : list doh_input) : M doh (list doh_recv_result) :=
  match ins with
  | [] => mret []
  | i :: ins' => r ← doh_recv len i; rs ← doh_receive len ins'; mret (r :: rs)
  end.

Lemma receive_app len ins js s :
  doh_receive len (ins ++ js) s =
  ('(rs, s1) ← doh_receive len ins s; '(rs', s2) ← doh_receive len js s1; Done (rs ++ rs', s2)).
Proof.
  revert s. induction ins as [|i ins IH]; intros s; cbn [app doh_receive]; run_unfold.
  { destruct (doh_receive len js s) as [[??]| | | |]; done. }
  destruct (doh_recv len i s) as [[r s1]| | | |]; try done. rewrite IH. run_unfold.
  destruct (doh_receive len ins s1) as [[rs s2]| | | |]; try done.
  by destruct (doh_receive len js s2) as [[??]| | | |].
Qed.

Lemma front_spec len ins s :
  calm s → dnsmsg_completed (h_rsp s) = false → Forall whole_read ins →
  events_ok (h_rsp s) (concat (map in_events ins)) → EvFrame (FrameData true) ∉ concat (map in_events ins) →
  ∃ s', doh_receive len ins s = Done (replicate (length ins) (DohErr E_AGAIN), s') ∧ calm s' ∧
    h_rsp s' = foldl rsp_event (h_rsp s) (concat (map in_events ins)) ∧ h_stats s' = h_stats s.
Proof.
  revert s. induction ins as [|i ins IH]; intros s Hs Hc Hw Hok Hn; cbn [doh_receive map concat length replicate] in *.
  { by exists s. }
  apply Forall_cons in Hw as [Hi Hw]. apply events_ok_app in Hok as [Hok1 Hok2]. apply not_elem_of_app in Hn as [Hn1 Hn2].
  destruct (recv_step len i s Hs Hi Hok1) as (s1 & E & Hs1 & R1 & T1).
  set (r := foldl rsp_event (h_rsp s) (in_events i)) in *.
  assert (dnsmsg_completed r = false) as Hr by (by apply not_completed). unfold rsp_after in R1. rewrite Hr in R1, T1.
  rewrite <- R1 in Hok2. destruct (IH s1 Hs1) as (s2 & E2 & Hs2 & R2 & T2); [congruence|done|done|done|].
  exists s2. rewrite (bind_Done _ _ _ _ _ E), (bind_Done _ _ _ _ _ E2). unfold rsp_result. rewrite Hr.
  split; [done|]. split; [done|]. rewrite foldl_app. fold r. split; congruence.
Qed.

(** Between responses. *)
Definition idle (s : doh) : Prop := calm s ∧ dnsmsg_at (h_rsp s) = 0 ∧ dnsmsg_completed (h_rsp s) = false.

Definition reads (d : delivery) : list doh_input := dl_front d ++ [dl_last d].
Definition results (len : nat) (dns : bool) (d : delivery) : list doh_recv_result :=
  replicate (length (dl_front d)) (DohErr E_AGAIN) ++ [outcome len dns (dl_rsp d)].

Lemma delivery_spec len d s :
  idle s → delivery_ok d →
  ∃ s', doh_receive len (reads d) s = Done (results len (http2_is_dns (h_rsp s)) d, s') ∧ idle s' ∧
    http2_is_dns (h_rsp s') = http2_is_dns (h_rsp s) || dns_type (hr_type (dl_rsp d)) ∧
    h_stats s' = bump (h_stats s) (atoi (hr_status (dl_rsp d))).
Proof.
  intros (Hs & Ha & Hc) (Hf & Hl & Hsz & Hev & Hn). pose proof Hs as [[_ [Hm _ _ _ _ _ _]] _ _].
  destruct (response_spec (dl_rsp d) (h_rsp s) Hm Ha Hc Hsz) as (Hok & Hcomp & Hcode & Hdns & Hres).
  rewrite <- Hev in Hok. apply events_filter in Hok as [Hok Hfold]. rewrite Hev in Hfold.
  apply events_ok_app in Hok as [Hok1 Hok2].
  destruct (front_spec len (dl_front d) s Hs Hc Hf Hok1 Hn) as (s1 & E1 & Hs1 & R1 & T1). rewrite <- R1 in Hok2.
  destruct (recv_step len (dl_last d) s1 Hs1 Hl Hok2) as (s2 & E2 & Hs2 & R2 & T2).
  rewrite R1, <- foldl_app, Hfold in E2, R2, T2. set (r := foldl rsp_event (h_rsp s) (response_events (dl_rsp d))) in *.
  rewrite Hres in E2. unfold rsp_after in R2. rewrite Hcomp in R2, T2. exists s2. unfold reads, results.
  rewrite receive_app, E1. cbn [mbind run_bind doh_receive]. rewrite (bind_Done _ _ _ _ _ E2). split; [done|].
  split; [split; [done|by rewrite R2]|]. rewrite R2. split; [exact Hdns|]. by rewrite T2, T1, Hcode.
Qed.

Fixpoint all_results (len : nat) (dns : bool) (ds : list delivery) : list doh_recv_result :=
  match ds with
  | [] => []
  | d :: ds' => results len dns d ++ all_results len (dns || dns_type (hr_type (dl_rsp d))) ds'
  end.

Lemma deliveries_spec len ds s :
  idle s → Forall delivery_ok ds →
  ∃ s', doh_receive len (concat (map reads ds)) s = Done (all_results len (http2_is_dns (h_rsp s)) ds, s') ∧ idle s' ∧
    h_stats s' = foldl bump (h_stats s) (map (λ d, atoi (hr_status (dl_rsp d))) ds).
Proof.
  revert s. induction ds as [|d ds IH]; intros s Hs Hd; cbn [map concat all_results foldl]; [by exists s|].
  apply Forall_cons in Hd as [Hd Hds]. destruct (delivery_spec len d s Hs Hd) as (s1 & E1 & Hs1 & D1 & T1).
  destruct (IH s1 Hs1 Hds) as (s2 & E2 & Hs2 & T2). exists s2. rewrite receive_app, E1. cbn [mbind run_bind].
  rewrite E2, D1. cbn. split; [done|]. split; [done|]. by rewrite T2, T1.
Qed.

Lemma opened_flags heap c s :
  doh_opensocket heap c = Done s →
  (h_is_ready (h_flags s), h_do_reconnect (h_flags s), h_do_connect (h_flags s)) = (false, false, false) ∧
  (h_rsp s, h_stats s, h_recv_at s) = (h_rsp (doh_init heap), doh_stats_init, 0).
Proof.
  unfold doh_opensocket, doh_connect. run_unfold. destruct (decide _); [done|]. destruct (c_res c); try done; by intros [= <-].
Qed.

(** A new socket after its handshake. *)
Lemma doh_open_idle heap c a s0 s :
  doh_opensocket heap c = Done s0 → doh_sockready a s0 = Done (1%Z, s) →
  idle s ∧ http2_is_dns (h_rsp s) = false ∧ h_stats s = doh_stats_init.
Proof.
  intros E0 Es. pose proof (doh_open_inv _ _ _ E0) as H0. destruct (opened_flags _ _ _ E0) as [[= F1 F2 F3] P0].
  pose proof (sockready_hready a s0 H0) as Hr. rewrite Es in Hr. destruct Hr as (Hs & Hf & _). specialize (Hf eq_refl).
  assert ((h_rsp s, h_stats s, h_recv_at s) = (h_rsp s0, h_stats s0, h_recv_at s0)) as P1.
  2: { injection P1 as R1 R2 R3. injection P0 as Q1 Q2 Q3. injection Hf as Hf1 Hf2.
       unfold idle. rewrite R1, R2, Q1, Q2. split; [|done]. split; [|done]. split; [done|done|congruence]. }
  revert Es. unfold doh_sockready. destruct H0 as [Hl _]. rewrite lock_bind, (bind_Done get _ _ _ _ eq_refl) by exact Hl.
  cbn [set_held doh_lockable h_set_lock h_flags]. rewrite F2. rewrite (bind_Done (mret _) _ _ () _ eq_refl).
  rewrite (bind_Done get _ _ _ _ eq_refl). cbn [h_set_lock h_flags]. rewrite F3. rewrite (bind_Done (mret _) _ _ () _ eq_refl).
  rewrite (bind_Done get _ _ _ _ eq_refl). cbn [h_set_lock h_flags]. cbv zeta. rewrite F1.
  assert (∀ x, h_lock x = true → doh_handshake a x = Done (1%Z, s) →
    (h_rsp s, h_stats s, h_recv_at s) = (h_rsp x, h_stats x, h_recv_at x)) as Hh.
  { intros x Hx. unfold doh_handshake, doh_settings, retry_later, unlock_return, PERF_UNLOCK. run_unfold. cbn. rewrite Hx.
    repeat (case_match; try done); simplify_eq; by intros [= <-]. }
  destruct (h_is_conn_ready (h_flags s0)); [exact (Hh (h_set_lock true s0) eq_refl)|].
  destruct (ha_wait a); try (intros Ex; by injection Ex).
  destruct (ha_error a); [unfold retry_later; run_unfold; destruct (decide _); intros Ex; by injection Ex|].
  rewrite (bind_Done (put _) _ _ () _ eq_refl). exact (Hh (h_set_progress (h_set_lock true s0) _ _ _ _) eq_refl).
Qed.

(** ** Theorems *)

(** C20: Each operation on a DoH socket gives the lock back, none uses it wrongly or reads or writes
    outside a buffer, whatever OpenSSL, nghttp2 and the server do.  When [perf__doh_sockready]
    returns 1 a query can be sent, and it reports at most the query whose sending has just ended.
    When [perf__doh_sendto] returns the length of a query, nghttp2 has been given the request for
    it: the path with the query in base64url, or its content-length and, through
    [_payload_read_cb], all of its bytes.  When the sending goes on, what nghttp2 has got of the
    body and what is left of the payload make up the query; receiving does not change that, and
    when the sending is reported the body is complete.  (A POST body is followed only if the one before it had been
    read to its end: after a [nghttp2_session_send] that failed the connection is given up.) *)
Theorem doh_safe `{Base64Laws} path method heap c ops s0 :
  doh_opensocket heap c = Done s0 → doh_ops_ok path method ops s0 →
  match doh_run path method ops s0 with
  | Done s =>
      h_lock s = false ∧ dnsmsg_at (h_rsp s) ≤ DNS_MSG_MAX_SIZE ∧
      (∀ a z s', doh_sockready a s = Done (z, s') →
         (z = 1%Z → h_is_ready (h_flags s') = true ∧ h_is_sending (h_flags s') = false) ∧
         (h_sent_cb s' = h_sent_cb s ∨
          h_is_sending (h_flags s) = true ∧ h_is_sending (h_flags s') = false ∧ h_sent_cb s' = h_sent_cb s ++ [h_qid s])) ∧
      (∀ id msg a, Forall byte_ok msg → h_is_sending (h_flags s) = false → h_is_post_sending (h_flags s) = false →
         sn_submitted a = true →
         ∃ r s', doh_sendto path method id msg a s = Done (r, s') ∧
           match r with
           | inr n => n = length msg ∧ h_requests s' = h_requests s ++ [request_of path method msg]
           | inl e => e = E_INPROGRESS ∧
               (h_is_sending (h_flags s') = true → h_qid s' = id ∧ carries path method msg (h_requests s) s')
           end) ∧
      (∀ msg reqs, carries path method msg reqs s →
         (∀ a z s', doh_sockready a s = Done (z, s') →
            (h_sent_cb s' ≠ h_sent_cb s → h_requests s' = reqs ++ [request_of path method msg]) ∧
            (h_is_sending (h_flags s') = true → h_qid s' = h_qid s ∧ carries path method msg reqs s')) ∧
         (∀ len i r s', doh_recv len i s = Done (r, s') →
            h_sent_cb s' = h_sent_cb s ∧
            (h_is_sending (h_flags s') = true → h_qid s' = h_qid s ∧ carries path method msg reqs s')))
  | Exit c => c = 1%Z
  | _ => False
  end.
Proof.
  intros E Hok. pose proof (doh_run_inv path method ops s0 (doh_open_inv _ _ _ E) Hok) as Hr.
  destruct (doh_run path method ops s0) as [s| | | |]; try done. pose proof Hr as [Hl [_ Hat _ _ _ _ _]].
  split; [done|]. split; [done|]. split; [|split].
  - intros a z s' Es. pose proof (sockready_hready a s Hr) as Hp. rewrite Es in Hp. destruct Hp as (_ & Hf & Hc & _).
    split; [|done]. intros Hz. specialize (Hf Hz). by injection Hf.
  - intros id msg a Hm Hse _ Hsub. pose proof (sendto_inv path method id msg a s Hr Hm) as Hp.
    destruct (doh_sendto path method id msg a s) as [[[e|n] s']|c'| | |]; try done.
    + exists (inl e), s'. split; [done|]. destruct Hp as ([_ [_ _ _ _ _ _ [Hk _]]] & -> & _ & Hq). split; [done|].
      intros Hs'. apply Hq. unfold flow. by rewrite Hs', Hk.
    + exists (inr n), s'. split; [done|]. by destruct Hp as (_ & -> & _ & _ & ->).
    + destruct Hp as [_ [?|?]]; congruence.
  - intros msg reqs Hc. split.
    + intros a z s' Es. pose proof (sockready_hready a s Hr) as Hp. rewrite Es in Hp. destruct Hp as (_ & _ & _ & Hf).
      exact (Hf path method msg reqs Hc).
    + intros len i r s' Es. pose proof (recv_undisturbed len i s) as Hu. rewrite Es in Hu.
      destruct Hu as [[= U1 U2 U3 U4] U5]. split; [done|]. intros Hs'. specialize (U5 Hs') as [= _ U6]. split; [done|].
      apply (carries_ext _ _ _ _ s); [by rewrite U1, U2, U6|done].
Qed.


(** A DNS message in two chunks that arrive in two reads, and an error page in one. *)
Definition example_deliveries : list delivery :=
  [Delivery (HttpResponse (bytes "200") (bytes "application/dns-message") [[1; 2]; [3]]%Z)
     [DohInput (SslRead [7; 7]%Z)
        [EvHeader (bytes ":status") (bytes "200"); EvHeader (bytes "content-type") (bytes "application/dns-message");
         EvFrame FrameOther; EvChunk [1; 2]%Z; EvFrame (FrameData false)] (Some 2)]
     (DohInput (SslRead [7; 7; 7]%Z) [EvChunk [3]%Z; EvFrame (FrameData true)] (Some 3));
   Delivery (HttpResponse (bytes "404") (bytes "text/html") [[60]%Z]) []
     (DohInput (SslRead [8]%Z)
        [EvHeader (bytes ":status") (bytes "404"); EvHeader (bytes "server") (bytes "x");
         EvHeader (bytes "content-type") (bytes "text/html"); EvFrame FrameOther; EvChunk [60]%Z; EvFrame (FrameData true)]
        (Some 1))].

Definition example_answers : doh_answers :=
  DohAnswers (Connecting 5 1 ConnOk) [] true false PERF_R_SUCCESS None SslConnected true true 2 2 2.

(** The handshake in one round. *)
Lemma example_ready heap :
  ∃ s0 s, doh_opensocket heap (Connecting 5 0 ConnOk) = Done s0 ∧ doh_sockready example_answers s0 = Done (1%Z, s).
Proof.
  set (x := h_set_send (h_set_conn (h_set_nqpc (doh_init heap) (DohNqpc 0 0 0 0 0)) 5 0 perf_socket_event_connected
    perf_socket_event_reconnecting [(perf_socket_event_connecting, 0%Z)]) 0 [] []).
  exists (h_set_progress x false true false false).
  assert (doh_opensocket heap (Connecting 5 0 ConnOk) = Done (h_set_progress x false true false false)) as -> by reflexivity.
  assert (h_lock x = false ∧ h_flags x = DohFlags false false false false false false false false) as [Hl Hf] by done.
  clearbody x. eexists. split; [reflexivity|]. 
  unfold doh_sockready, PERF_LOCK, doh_handshake, doh_settings, PERF_UNLOCK. run_unfold. cbn. rewrite Hl. cbn. rewrite Hf. cbn.
  rewrite Hf. reflexivity.
Qed.


(** A query of two bytes sent with POST, of which nghttp2 first gets one; then the other, and the
    sending is reported; and the end of the connection. *)
Definition example_sending (evs : list send_event) : doh_answers :=
  DohAnswers (Connecting 5 1 ConnOk) evs true false PERF_R_SUCCESS None SslConnected true true 2 2 2.
Definition example_doh_ops : list doh_op :=
  [DohReady example_answers;
   DohSend 7 [1; 2]%Z (DohSending (λ _, 0%Z) true [EvRead 1; EvWrite (SslWrote 40)] true false);
   DohReady (example_sending [EvRead 100; EvWrite (SslWrote 1)]);
   DohRecv 4096 (DohInput SslReadZero [] None)].

Example example_doh_sending :
  match (s0 ← doh_opensocket (λ _, 0%Z) (Connecting 5 0 ConnOk); doh_run (bytes "/dns-query") doh_method_post (take 2 example_doh_ops) s0) with
  | Done s => (h_requests s, h_is_sending (h_flags s)) = ([PostRequest (bytes "2") [1]%Z], true) | _ => False end ∧
  match (s0 ← doh_opensocket (λ _, 0%Z) (Connecting 5 0 ConnOk); doh_run (bytes "/dns-query") doh_method_post (take 3 example_doh_ops) s0) with
  | Done s => (h_requests s, h_sent_cb s) = ([PostRequest (bytes "2") [1; 2]%Z], [7%Z]) | _ => False end.
Proof. split; vm_compute; reflexivity. Qed.

Lemma doh_safe_witness :
  ∃ s0, doh_opensocket (λ _, 0%Z) (Connecting 5 0 ConnOk) = Done s0 ∧
        match doh_run (bytes "/dns-query") doh_method_post example_doh_ops s0 with
        | Done s => h_lock s = false | Exit c => c = 1%Z | _ => False end.
Proof.
  destruct (example_ready (λ _, 0%Z)) as (s0 & s & E & _). exists s0. split; [exact E|].
  pose proof (doh_safe (bytes "/dns-query") doh_method_post (λ _, 0%Z) _ example_doh_ops s0 E) as Hs.
  assert (doh_ops_ok (bytes "/dns-query") doh_method_post example_doh_ops s0) as Hok.
  { cbn [doh_ops_ok example_doh_ops doh_op_ok]. split; [exact I|]. destruct (doh_do _ _ _ _) as [s1| | | |]; try exact I.
    split; [repeat constructor; done|]. destruct (doh_do _ _ _ _) as [s2| | | |]; try exact I.
    split; [exact I|]. destruct (doh_do _ _ _ _) as [s3| | | |]; try exact I.
    split; [intros k [=]|]. by destruct (doh_do _ _ _ _). }
  specialize (Hs Hok). destruct (doh_run _ _ _ _) as [s1| | | |]; [exact (proj1 Hs)|exact Hs..].
Defined.

(** *** Behaviours that lose or confuse responses *)

(** When the headers of the next response are in the read that ends a response, their status is
    taken for that of the response: a good response before a failed one is lost. *)
Theorem doh_next_headers len h i s :
  idle s → length (concat (hr_chunks h)) ≤ DNS_MSG_MAX_SIZE → whole_read i →
  in_events i = response_events h ++ [EvHeader (bytes ":status") (bytes "404")] →
  ∃ s', doh_recv len i s = Done (DohErr E_AGAIN, s') ∧ dnsmsg_at (h_rsp s') = 0.
Proof.
  intros (Hs & Ha & Hc) Hsz Hw Ei. pose proof Hs as [[_ [Hm _ _ _ _ _ _]] _ _].
  destruct (response_spec h (h_rsp s) Hm Ha Hc Hsz) as (Hok & Hcomp & _).
  destruct (recv_step len i s Hs Hw) as (s' & E & _ & R & _); [rewrite Ei; by apply events_ok_app|].
  rewrite Ei, foldl_app in E, R. cbn [foldl] in E, R. set (r := foldl rsp_event (h_rsp s) (response_events h)) in *.
  exists s'. rewrite E, R. unfold rsp_result, rsp_after. cbn [rsp_event].
  change (status_header (bytes ":status")) with true. simpl. rewrite Hcomp. change (atoi (bytes "404")) with 404%Z.
  change (good_code 404) with false. by rewrite !andb_false_r.
Qed.

(** Bytes of a connection that nghttp2 has not processed stay in front of those of the next. *)
Theorem doh_reconnect_keeps_bytes c s s1 s2 :
  doh_reconnect s = Done ((), s1) → doh_connect c s1 = Done ((), s2) →
  h_recv_at s2 = h_recv_at s ∧ h_recvbuf s2 = h_recvbuf s.
Proof.
  unfold doh_reconnect, doh_connect. run_unfold. intros [= <-]. destruct (decide _); [done|].
  destruct (c_res c); try done; by intros [= <-].
Qed.
