(* ===== verification/NetSocket.v ===== *)
(** * The interface of sockets (net.h)

    [struct perf_net_socket] is a record of functions that each transport fills in; here it is
    the class [NetSocket] with an instance per transport.  [NetSocketLaws] is what net.h promises
    the callers about readiness and about the callback [sent]; each transport keeps it, and what
    the callers rely on is proved from it for all of them. *)

From S2P Require Import Prelude Net NetTcp Lock NetDot DohRequest NetDoh NetUdp.

(** What [perf_net_recv] returns: -1 with [errno], -1 with [errno] left alone, or a count with
    the bytes copied, 0 when the connection was closed. *)
Inductive net_recvd : Type := NetErr (e : errno) | NetFail | NetRead (n : nat) (copied : list Z).

Class NetSocket (S : Type) : Type := {
  (** what the outside answers during a call *)
  send_answer : Type;
  ready_answer : Type;
  recv_answer : Type;
  perf_net_mode_of : perf_net_mode;
  perf_net_fd : S → Z;
  perf_net_recv : nat → recv_answer → M S net_recvd;
  perf_net_sendto : Z → list Z → send_answer → M S (errno + nat);
  perf_net_sockready : ready_answer → M S Z;
  perf_net_have_more : S → bool;
  (** for the specification: the ids the callback [sent] was called with, and the id of the query
      that is to be sent later *)
  reported : S → list Z;
  pending : S → option Z;
}.

(** [perf_net_sockeq(a, b)] on sockets of one mode. *)
Definition perf_net_sockeq {S} `{NetSocket S} (a b : S) : bool := bool_decide (perf_net_fd a = perf_net_fd b).

(** A socket of any transport, and [perf_net_sockeq] with its assertion. *)
Definition any_socket : Type := { S : Type & (NetSocket S * S)%type }.
Definition any_mode (s : any_socket) : perf_net_mode := let '(existT _ (i, _)) := s in @perf_net_mode_of _ i.
Definition any_fd (s : any_socket) : Z := let '(existT _ (i, x)) := s in @perf_net_fd _ i x.
Definition any_sockeq (a b : any_socket) : run bool :=
  if decide (any_mode a = any_mode b) then Done (bool_decide (any_fd a = any_fd b)) else Abort.

(** ** What the callers are promised *)

(** A call that reports the query that was to be sent later, or reports none. *)
Definition moved {S} `{NetSocket S} (s s' : S) : Prop :=
  reported s' = reported s ∧ (pending s' = pending s ∨ pending s' = None) ∨
  ∃ id, pending s = Some id ∧ pending s' = None ∧ reported s' = reported s ++ [id].

Class NetSocketLaws (S : Type) `{NetSocket S} : Type := {
  ns_ok : S → Prop;
  (** what is assumed of the outside *)
  send_ok : list Z → send_answer → Prop;
  recv_ok : S → recv_answer → Prop;
  ready_ok : S → ready_answer → Prop;
  (** "MUST NOT be called from sendto()" *)
  sendto_law id buf r s :
    ns_ok s → send_ok buf r → pending s = None →
    match perf_net_sendto id buf r s with
    | Done (x, s') => ns_ok s' ∧ reported s' = reported s ∧
                      (pending s' = None ∨ pending s' = Some id ∧ x = inl E_INPROGRESS)
    | Exit c => c = 1%Z
    | _ => False
    end;
  (** "-1: timed out, 0: not ready, 1: ready and can be used for sending" *)
  sockready_law a s :
    ns_ok s → ready_ok s a →
    match perf_net_sockready a s with
    | Done (z, s') => ns_ok s' ∧ (z = -1 ∨ z = 0 ∨ z = 1)%Z ∧ (z = 1%Z → pending s' = None) ∧ moved s s'
    | Exit c => c = 1%Z
    | _ => False
    end;
  recv_law len r s :
    ns_ok s → recv_ok s r →
    match perf_net_recv len r s with
    | Done (_, s') => ns_ok s' ∧ reported s' = reported s ∧ (pending s' = pending s ∨ pending s' = None)
    | Exit c => c = 1%Z
    | _ => False
    end;
}.

(** ** How the threads use a socket *)
Section callers.
Context {S : Type} `{NetSocketLaws S}.

(** The sender asks whether the socket is ready and, if it is, sends a query; the receiver may
    read in between.  It also asks without sending.  The receiver reads. *)
Inductive ns_op : Type :=
| NTry (a : ready_answer) (reads : list (nat * recv_answer)) (id : Z) (buf : list Z) (r : send_answer)
| NFlush (a : ready_answer)
| NRecv (len : nat) (r : recv_answer).

Fixpoint ns_reads (reads : list (nat * recv_answer)) : M S unit :=
  match reads with [] => mret () | (len, r) :: rs => _ ← perf_net_recv len r; ns_reads rs end.

(** The ids whose sending was put off: [sendto] failed with [EINPROGRESS]. *)
Definition ns_do (op : ns_op) : M S (list Z) :=
  match op with
  | NTry a reads id buf r =>
      z ← perf_net_sockready a;
      ns_reads reads;;
      if decide (z = 1)%Z then
        x ← perf_net_sendto id buf r;
        mret (if decide (x = inl E_INPROGRESS) then [id] else [])
      else mret []
  | NFlush a => _ ← perf_net_sockready a; mret []
  | NRecv len r => _ ← perf_net_recv len r; mret []
  end.
Fixpoint ns_run (ops : list ns_op) : M S (list Z) :=
  match ops with [] => mret [] | op :: ops' => d ← ns_do op; ds ← ns_run ops'; mret (d ++ ds) end.

(** The outside behaves during the operations. *)
Fixpoint reads_ok (reads : list (nat * recv_answer)) (s : S) : Prop :=
  match reads with
  | [] => True
  | (len, r) :: rs => recv_ok s r ∧ match perf_net_recv len r s with Done (_, s') => reads_ok rs s' | _ => True end
  end.
Definition op_ok (op : ns_op) (s : S) : Prop :=
  match op with
  | NTry a reads id buf r =>
      ready_ok s a ∧ send_ok buf r ∧
      match perf_net_sockready a s with Done (_, s') => reads_ok reads s' | _ => True end
  | NFlush a => ready_ok s a
  | NRecv len r => recv_ok s r
  end.
Fixpoint ops_ok (ops : list ns_op) (s : S) : Prop :=
  match ops with
  | [] => True
  | op :: ops' => op_ok op s ∧ match ns_do op s with Done (_, s') => ops_ok ops' s' | _ => True end
  end.

(** The queries put off from a state on are those already put off and those of [ds]; what was
    reported since is a part of them, in order, and what is not reported may still be. *)
Definition reports (s : S) (ds : list Z) (s' : S) : Prop :=
  ∃ l, reported s' = reported s ++ l ∧ sublist (l ++ option_list (pending s')) (option_list (pending s) ++ ds).

Lemma moved_reports s s' : moved s s' → reports s [] s'.
Proof.
  intros [[Hr Hp]|(id & Hp & Hn & Hr)].
  - exists []. rewrite Hr, !app_nil_r. split; [done|]. simpl. destruct Hp as [->| ->]; [done|apply sublist_nil_l].
  - exists [id]. rewrite Hp, Hn. by split.
Qed.

Lemma quiet_reports s s' :
  reported s' = reported s → pending s' = pending s ∨ pending s' = None → reports s [] s'.
Proof. intros Hr Hp. apply moved_reports. by left. Qed.

Lemma reports_trans s ds s1 ds1 s2 : reports s ds s1 → reports s1 ds1 s2 → reports s (ds ++ ds1) s2.
Proof.
  intros (l & Hl & Hs) (l1 & Hl1 & Hs1). exists (l ++ l1). split; [by rewrite Hl1, Hl, app_assoc|].
  rewrite <- app_assoc. etrans; [by apply sublist_app|]. rewrite !app_assoc. by apply sublist_app.
Qed.

Lemma reads_spec reads s :
  ns_ok s → reads_ok reads s →
  match ns_reads reads s with
  | Done (_, s') => ns_ok s' ∧ reported s' = reported s ∧ (pending s' = pending s ∨ pending s' = None)
  | Exit c => c = 1%Z
  | _ => False
  end.
Proof.
  revert s. induction reads as [|[len r] reads IH]; intros s Hs Hok; [split_and!; auto|].
  destruct Hok as [Hr Hok]. cbn [ns_reads]. pose proof (recv_law len r s Hs Hr) as Hl.
  unfold mbind, M_bind. destruct (perf_net_recv len r s) as [[x s1]| | | |]; try done. destruct Hl as (Hs1 & Hr1 & Hp1).
  specialize (IH s1 Hs1 Hok). destruct (ns_reads reads s1) as [[[] s2]| | | |]; try done.
  destruct IH as (Hs2 & Hr2 & Hp2). split_and!; [done|congruence|]. destruct Hp2 as [->|?]; auto.
Qed.

Lemma do_spec op s :
  ns_ok s → op_ok op s →
  match ns_do op s with Done (d, s') => ns_ok s' ∧ reports s d s' | Exit c => c = 1%Z | _ => False end.
Proof.
  intros Hs Hok. destruct op as [a reads id buf r|a|len r]; cbn [ns_do op_ok] in *; unfold mbind, M_bind.
  - destruct Hok as (Ha & Hsend & Hreads). pose proof (sockready_law a s Hs Ha) as Hl.
    destruct (perf_net_sockready a s) as [[z s1]| | | |]; try done. destruct Hl as (Hs1 & _ & Hz & Hm).
    pose proof (reads_spec reads s1 Hs1 Hreads) as Hrd.
    destruct (ns_reads reads s1) as [[[] s2]| | | |]; try done. destruct Hrd as (Hs2 & Hr2 & Hp2).
    pose proof (reports_trans _ _ _ _ _ (moved_reports _ _ Hm) (quiet_reports _ _ Hr2 Hp2)) as H2. simpl in H2.
    destruct (decide (z = 1)%Z) as [->|]; [|done].
    assert (pending s2 = None) as Hp by (destruct Hp2 as [->|?]; auto).
    pose proof (sendto_law id buf r s2 Hs2 Hsend Hp) as Hl.
    destruct (perf_net_sendto id buf r s2) as [[x s3]| | | |]; try done. destruct Hl as (Hs3 & Hr3 & Hp3).
    split; [done|]. eapply (reports_trans _ [] _ _ _ H2). exists []. rewrite Hr3, app_nil_r, Hp. split; [done|]. simpl.
    destruct Hp3 as [->|[-> ->]]; [apply sublist_nil_l|]. by rewrite decide_True.
  - pose proof (sockready_law a s Hs Hok) as Hl. destruct (perf_net_sockready a s) as [[z s1]| | | |]; try done.
    destruct Hl as (Hs1 & _ & _ & Hm). split; [done|]. by apply moved_reports.
  - pose proof (recv_law len r s Hs Hok) as Hl. destruct (perf_net_recv len r s) as [[x s1]| | | |]; try done.
    destruct Hl as (Hs1 & Hr & Hp). split; [done|]. by apply quiet_reports.
Qed.

Lemma run_spec ops s :
  ns_ok s → ops_ok ops s →
  match ns_run ops s with Done (ds, s') => ns_ok s' ∧ reports s ds s' | Exit c => c = 1%Z | _ => False end.
Proof.
  revert s. induction ops as [|op ops IH]; intros s Hs Hok; cbn [ns_run].
  { split; [done|]. apply quiet_reports; auto. }
  destruct Hok as [Hop Hok]. pose proof (do_spec op s Hs Hop) as Hd. unfold mbind, M_bind.
  destruct (ns_do op s) as [[d s1]| | | |]; try done. destruct Hd as [Hs1 Hr1].
  specialize (IH s1 Hs1 Hok). destruct (ns_run ops s1) as [[ds s2]| | | |]; try done.
  destruct IH as [Hs2 Hr2]. split; [done|]. by eapply reports_trans.
Qed.

(** C11: for every transport that keeps the contract of net.h (UDP, TCP, DoT and DoH do): as the
    threads use a socket (ask, and send only when it is ready, while the receiver reads between
    any two calls), every call returns or ends the process with status 1, and the callback
    [sent] is called only for queries whose [sendto] failed with [EINPROGRESS], in the order
    they were sent in and at most once for each.  The network and OpenSSL may answer whatever
    the transport admits ([send_ok], [ready_ok], [recv_ok]): never more bytes than they were
    asked for, and on DoT no [SSL_write] of [sendto] that fails for good, after which the lock
    stays held and the next call does not return ([dot_sendto_keeps_lock]). *)
Theorem net_sent_contract ops s :
  ns_ok s → ops_ok ops s → pending s = None → reported s = [] →
  match ns_run ops s with
  | Done (delayed, s') => ns_ok s' ∧ sublist (reported s' ++ option_list (pending s')) delayed
  | Exit c => c = 1%Z
  | _ => False
  end.
Proof.
  intros Hs Hok Hp Hr. pose proof (run_spec ops s Hs Hok) as Hrun.
  destruct (ns_run ops s) as [[ds s']| | | |]; try done. destruct Hrun as [Hs' (l & Hl & Hsub)].
  split; [done|]. rewrite Hp in Hsub. rewrite Hl, Hr. exact Hsub.
Qed.
End callers.

(** ** The transports *)

Definition from_tcp_recv (r : tcp_recv_result) : net_recvd :=
  match r with TcpErr e => NetErr e | TcpEof => NetRead 0 [] | TcpMsg n c => NetRead n c end.
Definition from_dot_recv (r : dot_recv_result) : net_recvd :=
  match r with DotErr e => NetErr e | DotMsg n c => NetRead n c end.
Definition from_doh_recv (r : doh_recv_result) : net_recvd :=
  match r with DohErr e => NetErr e | DohFail => NetFail | DohMsg c => NetRead (length c) c end.

#[export] Instance udp_socket : NetSocket udp := {
  send_answer := sys_send;
  ready_answer := unit;
  recv_answer := sys_recv;
  perf_net_mode_of := sock_udp;
  perf_net_fd := u_fd;
  perf_net_recv len r := x ← udp_recv len r; mret (from_tcp_recv x);
  perf_net_sendto _ buf r := udp_sendto buf r;
  perf_net_sockready _ := udp_sockready;
  perf_net_have_more _ := false;
  reported _ := [];
  pending _ := None;
}.

#[export] Instance tcp_socket : NetSocket tcp := {
  send_answer := sys_send;
  ready_answer := answers;
  recv_answer := sys_recv;
  perf_net_mode_of := sock_tcp;
  perf_net_fd := fd;
  perf_net_recv len r := x ← tcp_recv len r; mret (from_tcp_recv x);
  perf_net_sendto := tcp_sendto;
  perf_net_sockready := tcp_sockready;
  perf_net_have_more := have_more;
  reported := sent_cb;
  pending s := if is_sending s then Some (qid s) else None;
}.

#[export] Instance dot_socket : NetSocket dot := {
  send_answer := ssl_write * connecting;
  ready_answer := dot_answers;
  recv_answer := bool * ssl_read * connecting;
  perf_net_mode_of := sock_dot;
  perf_net_fd := d_fd;
  perf_net_recv len r := x ← dot_recv r.1.1 len r.1.2 r.2; mret (from_dot_recv x);
  perf_net_sendto id buf r := dot_sendto id buf r.1 r.2;
  perf_net_sockready := dot_sockready;
  perf_net_have_more := d_have_more;
  reported := d_sent_cb;
  pending s := if d_is_sending s then Some (d_qid s) else None;
}.

(** The path and the method of DoH are global in net_doh.c. *)
Definition doh_socket `{Base64} (path : list Z) (method : perf_doh_method) : NetSocket doh := {|
  send_answer := doh_sending;
  ready_answer := doh_answers;
  recv_answer := doh_input;
  perf_net_mode_of := sock_doh;
  perf_net_fd := h_fd;
  perf_net_recv len r := x ← doh_recv len r; mret (from_doh_recv x);
  perf_net_sendto := doh_sendto path method;
  perf_net_sockready := doh_sockready;
  perf_net_have_more _ := false;
  reported := h_sent_cb;
  pending s := if h_is_sending (h_flags s) then Some (h_qid s) else None;
|}.

(** *** UDP *)

#[export] Instance udp_laws : NetSocketLaws udp.
Proof.
  refine {| ns_ok _ := True; send_ok _ _ := True; recv_ok _ _ := True; ready_ok _ _ := True |}.
  - intros id buf [n|e] s _ _ _; simpl; auto.
  - intros [] s _ _. simpl. split_and!; auto. left. auto.
  - intros len [e| |bs] s _ _; simpl; auto.
Defined.

(** *** TCP *)

(** What the callers see of a socket. *)
Definition tcp_seen (s : tcp) : list Z * bool * Z := (sent_cb s, is_sending s, qid s).

Lemma tcp_seen_moved s s' : tcp_seen s' = tcp_seen s → moved s s'.
Proof. unfold tcp_seen, moved. simpl. intros [= -> -> ->]. auto. Qed.

Lemma tcp_recv_seen len r s x s' : tcp_recv len r s = Done (x, s') → tcp_seen s' = tcp_seen s.
Proof.
  unfold tcp_recv, tcp_deliver. run_unfold.
  set (s1 := if decide (fd s ≠ recvfd s) then _ else s).
  assert (tcp_seen s1 = tcp_seen s) as Hs1 by (unfold s1; by destruct (decide _)). rewrite <- Hs1. clearbody s1.
  repeat case_match; try done; intros; simplify_eq; done.
Qed.

Lemma tcp_connect_seen newfd now res s f s' : tcp_connect newfd now res s = Done (f, s') → tcp_seen s' = tcp_seen s.
Proof. unfold tcp_connect. run_unfold. repeat case_match; try done; intros; by simplify_eq. Qed.

Lemma tcp_per_conn_seen a s z s' :
  tcp_per_conn a s = Done (z, s') → tcp_seen s' = tcp_seen s ∧ (z = 0 ∨ z = 1)%Z.
Proof. unfold tcp_per_conn. run_unfold. repeat case_match; intros; simplify_eq; auto. Qed.

(** After bytes of the pending query were sent. *)
Lemma tcp_continue_moved n s b s' :
  is_sending s = true → tcp_continue n s = Done (b, s') →
  (b = false → tcp_seen s' = tcp_seen s) ∧
  (b = true → is_sending s' = false ∧ sent_cb s' = sent_cb s ++ [qid s]).
Proof. intros Hs. unfold tcp_continue. run_unfold. destruct (decide _); intros [= <- <-]; by split. Qed.

Definition tcp_ready_post (s0 : tcp) (z : Z) (s : tcp) : Prop :=
  (z = -1 ∨ z = 0 ∨ z = 1)%Z ∧ (z = 1%Z → is_sending s = false) ∧ moved s0 s.

Lemma moved_pre s s1 s2 : tcp_seen s1 = tcp_seen s → moved s1 s2 → moved s s2.
Proof. unfold tcp_seen, moved. simpl. by intros [= -> -> ->]. Qed.
Lemma moved_post s s1 s2 : tcp_seen s2 = tcp_seen s1 → moved s s1 → moved s s2.
Proof. unfold tcp_seen, moved. simpl. by intros [= -> -> ->]. Qed.

(** A query that is dropped is not reported any more. *)
Lemma moved_dropped {S} `{NetSocket S} (s y z : S) :
  reported y = reported s → pending y = None → moved y z → moved s z.
Proof.
  intros Hr Hp [[Hr' Hp']|(id & Hp' & _)]; [|congruence]. left. split; [congruence|]. right. rewrite Hp in Hp'. by destruct Hp'.
Qed.

Lemma tcp_sent_moved n s b s' : is_sending s = true → tcp_continue n s = Done (b, s') → moved s s'.
Proof.
  intros Hs E. destruct (tcp_continue_moved n s b s' Hs E) as [Hf Ht]. destruct b.
  - destruct Ht as [H1 H2]; [done|]. right. exists (qid s). simpl. by rewrite Hs, H1, H2.
  - by apply tcp_seen_moved, Hf.
Qed.

Lemma tcp_conn_cont_post a s z s' : tcp_conn_cont a s = Done (z, s') → tcp_ready_post s z s'.
Proof.
  unfold tcp_conn_cont. run_unfold.
  destruct (a_wait a); try (intros [= <- <-]; split_and!; [auto|done|by apply tcp_seen_moved]).
  destruct (a_error a) as [e|].
  { destruct (decide _); intros [= <- <-]; (split_and!; [auto|done|by apply tcp_seen_moved]). }
  set (s1 := set_conn s _ _ _ _ _ _ _ _ _ _). destruct (is_sending s1) eqn:Es1.
  - destruct (a_send2 a) as [n|e].
    + destruct (tcp_continue n s1) as [[b s2]| | | |] eqn:Ec; try done. intros [= <- <-].
      pose proof (moved_pre s s1 s2 eq_refl (tcp_sent_moved _ _ _ _ Es1 Ec)) as Hm.
      destruct (tcp_continue_moved n s1 b s2 Es1 Ec) as [_ Ht].
      destruct b; (split_and!; [auto| |exact Hm]); [intros _; by apply Ht|done].
    + destruct (decide _); intros [= <- <-]; (split_and!; [auto|done|by apply tcp_seen_moved]).
  - intros [= <- <-]. split_and!; [auto|done|by apply tcp_seen_moved].
Qed.

Lemma tcp_reconnect_seen newfd now res (k : tcp → tcp) s u s' :
  (∀ s, tcp_seen (k s) = tcp_seen s) →
  (f ← tcp_connect newfd now res; swap_fd f;; modify k) s = Done (u, s') → tcp_seen s' = tcp_seen s.
Proof.
  intros Hk. unfold swap_fd. run_unfold. destruct (tcp_connect newfd now res s) as [[f s1]| | | |] eqn:E; try done.
  intros [= <- <-]. rewrite Hk. by rewrite <- (tcp_connect_seen _ _ _ _ _ _ E).
Qed.

Definition returns {A} (m : run A) : Prop := match m with Done _ => True | Exit c => c = 1%Z | _ => False end.

Lemma tcp_connect_returns newfd now res s : returns (tcp_connect newfd now res s).
Proof. unfold tcp_connect. run_unfold. by repeat case_match. Qed.
Lemma tcp_conn_cont_returns a s : returns (tcp_conn_cont a s).
Proof. unfold tcp_conn_cont, tcp_continue. run_unfold. by repeat case_match. Qed.

Lemma tcp_sockready_moved a s :
  match tcp_sockready a s with
  | Done (z, s') => tcp_ready_post s z s'
  | Exit c => c = 1%Z
  | _ => False
  end.
Proof.
  unfold tcp_sockready. rewrite (bind_Done get _ _ _ _ eq_refl). set (first := if decide _ then _ else _).
  assert (match first s with Done (_, s1) => tcp_seen s1 = tcp_seen s | Exit c => c = 1%Z | _ => False end) as Hfirst.
  { unfold first. destruct (decide _); [|done]. unfold swap_fd. run_unfold.
    pose proof (tcp_connect_returns (a_fd1 a) (a_now a) (a_conn1 a) s) as Hr.
    destruct (tcp_connect _ _ _ s) as [[f s1]| | | |] eqn:E; try done. by rewrite <- (tcp_connect_seen _ _ _ _ _ _ E). }
  clearbody first. unfold mbind at 1, M_bind at 1. destruct (first s) as [[[] s1]| | | |]; try done.
  rewrite (bind_Done get _ _ _ _ eq_refl).
  assert (∀ y, tcp_seen y = tcp_seen s1 ∨ sent_cb y = sent_cb s1 ∧ is_sending y = false →
    match tcp_conn_cont a y with Done (z, s') => tcp_ready_post s z s' | Exit c => c = 1%Z | _ => False end) as Hcont.
  { intros y Hy. pose proof (tcp_conn_cont_returns a y) as Hr.
    destruct (tcp_conn_cont a y) as [[z s2]| | | |] eqn:E; try done.
    destruct (tcp_conn_cont_post _ _ _ _ E) as (Hz & H1 & Hm). split_and!; [done|done|].
    destruct Hy as [Hy|[Hc Hy]]; [by apply (moved_pre s y); [congruence|]|].
    injection Hfirst as Hc1 _ _. apply (moved_dropped s y); [simpl; congruence|simpl; by rewrite Hy|done]. }
  assert (∀ y, moved s y → is_sending y = false →
    match tcp_per_conn a y with Done (z, s') => tcp_ready_post s z s' | Exit c => c = 1%Z | _ => False end) as Hper.
  { intros y Hm Hy. assert (returns (tcp_per_conn a y)) as Hr by (unfold tcp_per_conn; run_unfold; by repeat case_match).
    destruct (tcp_per_conn a y) as [[z s2]| | | |] eqn:E; try done.
    destruct (tcp_per_conn_seen _ _ _ _ E) as [Hs Hz]. split_and!; [by right| |by apply (moved_post s y)].
    intros _. by injection Hs as _ -> _. }
  destruct (is_ready s1); [|by apply Hcont; left]. destruct (is_sending s1) eqn:Es; [|apply Hper; [by apply tcp_seen_moved|done]].
  destruct (a_send1 a) as [n|e].
  - assert (returns (tcp_continue n s1)) as Hr by (unfold tcp_continue; run_unfold; by destruct (decide _)).
    unfold mbind at 1, M_bind at 1. destruct (tcp_continue n s1) as [[b s2]| | | |] eqn:E; try done.
    pose proof (moved_pre s s1 s2 Hfirst (tcp_sent_moved _ _ _ _ Es E)) as Hm.
    destruct (tcp_continue_moved n s1 b s2 Es E) as [_ Ht]. destruct b.
    + apply Hper; [done|]. by apply Ht.
    + split_and!; [auto|done|done].
  - destruct (decide _); [split_and!; [auto|done|by apply tcp_seen_moved]|].
    pose proof (tcp_connect_returns (a_fd2 a) (a_now a) (a_conn2 a) s1) as Hr.
    unfold mbind at 1, M_bind at 1. destruct (tcp_connect _ _ _ s1) as [[f s2]| | | |] eqn:E; try done.
    unfold swap_fd. rewrite (bind_Done (modify _) _ _ () _ eq_refl), (bind_Done (modify _) _ _ () _ eq_refl).
    apply Hcont. pose proof (tcp_connect_seen _ _ _ _ _ _ E) as Hc. cbv beta. case_match; [right|by left].
    injection Hc as Hc _ _. by split.
Qed.

(** The system returns no more bytes than it was asked for. *)
Definition tcp_recv_ok (s : tcp) (r : sys_recv) : Prop :=
  ∀ bs, r = SysRecvData bs → at_ s + length bs ≤ TCP_RECV_BUF_SIZE.

#[export] Instance tcp_laws : NetSocketLaws tcp.
Proof.
  apply (Build_NetSocketLaws tcp tcp_socket (λ _, True) (λ _ _, True) tcp_recv_ok (λ _ _, True)).
  - intros id buf r s _ _. simpl. destruct (is_sending s) eqn:Hs; [done|]. intros _.
    unfold tcp_sendto. run_unfold. set (send := if decide (length buf < _) then _ else _). cbv zeta.
    set (s1 := set_send s _ _ _ _ _ _ _ _).
    assert (is_sending s1 = false ∧ sent_cb s1 = sent_cb s ∧ qid s1 = id) as (H1 & H2 & H3) by done. clearbody s1.
    destruct (decide (recv_need_reconn s1 = fd s1)); [|destruct r as [k|e]; [destruct (decide (k < send + 2))|
      destruct (decide (e = E_CONNREFUSED ∨ e = E_CONNRESET ∨ e = E_NOTCONN ∨ e = E_PIPE))]];
      cbn [sent_cb is_sending qid set_send]; rewrite ?H1, ?H2, ?H3;
      (split_and!; [done|done|auto]).
  - intros a s _ _. simpl. pose proof (tcp_sockready_moved a s) as H.
    destruct (tcp_sockready a s) as [[z s']| | | |]; try done. destruct H as (Hz & H1 & Hm).
    split_and!; [done|done| |done]. intros Hz1. simpl. by rewrite (H1 Hz1).
  - intros len r s _ Hr. simpl. pose proof (tcp_recv_part len r s Hr) as H. unfold mbind, M_bind.
    destruct (tcp_recv len r s) as [[x s']| | | |] eqn:E; try done. cbn [mret M_ret].
    pose proof (tcp_recv_seen _ _ _ _ _ E) as Hseen. unfold tcp_seen in Hseen. injection Hseen as -> -> ->. auto.
Defined.

(** *** What operations do to what the callers see *)

(** From [s], which is [R]-related to [s0], the operation ends [R]-related to [s0] if it returns. *)
Definition leads {S A} (R : S → S → Prop) (s0 : S) (m : M S A) (s : S) : Prop :=
  R s0 s → ∀ a s', m s = Done (a, s') → R s0 s'.

Section leads.
Context {S : Type} (R : S → S → Prop) (s0 : S).

Lemma leads_ret {A} (a : A) s : leads R s0 (mret a) s.
Proof. intros Hs b s'. by intros [= _ <-]. Qed.
Lemma leads_fatal {A} s : leads R s0 (perf_log_fatal : M S A) s.
Proof. done. Qed.
Lemma leads_lift {A} (m : run A) s : leads R s0 (lift m) s.
Proof. intros Hs b s'. unfold lift. destruct m; try done. by intros [= _ <-]. Qed.
Lemma leads_put x s : (R s0 s → R s0 x) → leads R s0 (put x) s.
Proof. intros Hx Hs b s'. intros [= _ <-]. auto. Qed.
Lemma leads_modify f s : (R s0 s → R s0 (f s)) → leads R s0 (modify f) s.
Proof. intros Hx Hs b s'. intros [= _ <-]. auto. Qed.
Lemma leads_get_bind {A} (k : S → M S A) s : leads R s0 (k s) s → leads R s0 (get ≫= k) s.
Proof. done. Qed.
Lemma leads_put_bind {A} x (k : unit → M S A) s :
  (R s0 s → R s0 x) → leads R s0 (k ()) x → leads R s0 (put x ≫= k) s.
Proof. intros Hx Hk Hs. by apply Hk, Hx. Qed.
Lemma leads_modify_bind {A} f (k : unit → M S A) s :
  (R s0 s → R s0 (f s)) → leads R s0 (k ()) (f s) → leads R s0 (modify f ≫= k) s.
Proof. intros Hx Hk Hs. by apply Hk, Hx. Qed.
Lemma leads_lift_bind {A B} (m : run A) (k : A → M S B) s :
  (∀ a, leads R s0 (k a) s) → leads R s0 (lift m ≫= k) s.
Proof. intros Hk Hs b s'. unfold mbind, M_bind, lift. destruct m; try done. by apply Hk. Qed.
Lemma leads_bind {A B} (m : M S A) (k : A → M S B) s :
  leads R s0 m s → (∀ a s1, leads R s0 (k a) s1) → leads R s0 (m ≫= k) s.
Proof.
  intros Hm Hk Hs b s'. unfold mbind, M_bind. destruct (m s) as [[a s1]| | | |] eqn:E; try done.
  apply Hk. by apply (Hm Hs a).
Qed.
End leads.

Create HintDb leads.
Ltac leads :=
  repeat first
    [ solve [eauto with leads nocore]
    | lazymatch goal with
      | |- leads _ _ (get ≫= _) _ => apply leads_get_bind
      | |- leads _ _ (put _ ≫= _) _ => apply leads_put_bind
      | |- leads _ _ (modify _ ≫= _) _ => apply leads_modify_bind
      | |- leads _ _ (lift _ ≫= _) _ => apply leads_lift_bind; intros ?
      | |- leads _ _ (_ ≫= _) _ => apply leads_bind; [|intros ??]
      | |- leads _ _ (mret _) _ => apply leads_ret
      | |- leads _ _ (put _) _ => apply leads_put
      | |- leads _ _ (modify _) _ => apply leads_modify
      | |- leads _ _ (lift _) _ => apply leads_lift
      | |- leads _ _ perf_log_fatal _ => apply leads_fatal
      | |- leads _ _ (match ?x with _ => _ end) _ => destruct x
      end ].

(** Whatever state it starts in, the operation returns only values with the property. *)
Definition yields {S A} (P : A → Prop) (m : M S A) : Prop := ∀ s a s', m s = Done (a, s') → P a.

Lemma yields_ret {S A} (P : A → Prop) (a : A) : P a → yields P (mret a : M S A).
Proof. intros Ha s b s'. by intros [= <- _]. Qed.
Lemma yields_fatal {S A} (P : A → Prop) : yields P (perf_log_fatal : M S A).
Proof. done. Qed.
Lemma yields_bind {S A B} (P : B → Prop) (m : M S A) (k : A → M S B) : (∀ a, yields P (k a)) → yields P (m ≫= k).
Proof.
  intros Hk s b s'. unfold mbind, M_bind. destruct (m s) as [[a s1]| | | |]; try done. apply Hk.
Qed.
Lemma yields_then {S A B} (Q : A → Prop) (P : B → Prop) (m : M S A) (k : A → M S B) :
  yields Q m → (∀ a, Q a → yields P (k a)) → yields P (m ≫= k).
Proof.
  intros Hm Hk s b s'. unfold mbind, M_bind. destruct (m s) as [[a s1]| | | |] eqn:E; try done. by apply Hk, (Hm s a s1).
Qed.

Ltac yields :=
  repeat lazymatch goal with
  | |- yields _ (_ ≫= _) => apply yields_bind; intros ?
  | |- yields _ (mret _) => apply yields_ret
  | |- yields _ perf_log_fatal => apply yields_fatal
  | |- yields _ (match ?x with _ => _ end) => destruct x
  end.

(** *** DoT *)

(** The query to be sent later may be dropped; nothing is reported. *)
Definition calm (s s' : dot) : Prop :=
  d_sent_cb s' = d_sent_cb s ∧ d_qid s' = d_qid s ∧ (d_is_sending s' = d_is_sending s ∨ d_is_sending s' = false).

Lemma calm_refl s : calm s s.
Proof. split_and!; auto. Qed.

Ltac calm := intros (?H1 & ?H2 & ?H3); unfold calm in *; repeat case_match; simpl; split_and!; auto.

Lemma calm_moved s s' : calm s s' → moved s s'.
Proof. intros (H1 & H2 & H3). left. simpl. split; [done|]. rewrite H2. destruct H3 as [->| ->]; auto. Qed.

Lemma calm_dropped s y z : calm s y → d_is_sending y = false → moved y z → moved s z.
Proof. intros (H1 & _) Hs. apply moved_dropped; simpl; [done|by rewrite Hs]. Qed.

Lemma lock_calm s0 s : leads calm s0 PERF_LOCK s.
Proof. intros Hs a s'. unfold PERF_LOCK. destruct (held s); [done|]. intros [= _ <-]. revert Hs. calm. Qed.
Lemma unlock_calm s0 s : leads calm s0 PERF_UNLOCK s.
Proof. intros Hs a s'. unfold PERF_UNLOCK. destruct (held s); [|done]. intros [= _ <-]. revert Hs. calm. Qed.
#[local] Hint Resolve lock_calm unlock_calm : leads.

Lemma unlock_return_calm {A} (a : A) s0 s : leads calm s0 (unlock_return a) s.
Proof. unfold unlock_return. leads. Qed.
Lemma reconnect_calm c s0 s : leads calm s0 (dot_reconnect c) s.
Proof. unfold dot_reconnect, dot_connect. leads; calm. Qed.
Lemma deliver_calm len s0 s : leads calm s0 (dot_deliver len) s.
Proof. unfold dot_deliver. leads; calm. Qed.
#[local] Hint Resolve unlock_return_calm reconnect_calm deliver_calm : leads.

Lemma dot_recv_calm v3 len r c s0 s : leads calm s0 (dot_recv v3 len r c) s.
Proof. unfold dot_recv, dot_read, dot_read_error, dot_recv_rest. leads; calm. Qed.

Lemma locked_calm a s0 s : leads calm s0 (dot_ready_locked a) s.
Proof. unfold dot_ready_locked, dot_when_ready, dot_handshake, ask_reconnect. leads; calm. Qed.

(** What [dot_sendto] leaves: nothing is reported, and a query is put off only as [EINPROGRESS]. *)
Definition put_off (id : Z) (cb : list Z) (x : errno + nat) (s : dot) : Prop :=
  d_sent_cb s = cb ∧ (d_is_sending s = false ∨ d_qid s = id ∧ x = inl E_INPROGRESS).

Lemma send_later_off n id cb s x s' :
  d_sent_cb s = cb → d_qid s = id → send_later n s = Done (x, s') → put_off id cb x s'.
Proof.
  intros Hc Hq. unfold send_later, unlock_return, PERF_UNLOCK. run_unfold.
  destruct (held _); [|done]. intros [= <- <-]. split; [done|]. by right.
Qed.

Lemma dot_write_off id buf r c s x s' :
  d_is_sending s = false → dot_write id buf r c s = Done (x, s') → put_off id (d_sent_cb s) x s'.
Proof.
  intros Hs. unfold dot_write. set (send := if decide _ then _ else _). cbv zeta.
  unfold mbind at 1, M_bind at 1. unfold PERF_LOCK. destruct (held s); [done|].
  rewrite (bind_Done (modify _) _ _ () _ eq_refl), (bind_Done get _ _ _ _ eq_refl).
  set (s1 := d_set_send _ _ _ _ _ _ _ _).
  assert (d_is_sending s1 = false ∧ d_sent_cb s1 = d_sent_cb s ∧ d_qid s1 = id) as (H1 & H2 & H3) by done.
  clearbody s1. rewrite <- H2. assert (∀ y x, d_sent_cb y = d_sent_cb s1 → d_is_sending y = false → put_off id (d_sent_cb s1) x y)
    as Hdone by (intros y z Hy Hf; split; auto).
  destruct (d_is_ready s1); [|by apply send_later_off]. destruct r as [n|[| |en| |]].
  - rewrite (bind_Done (put _) _ _ () _ eq_refl). destruct (decide (n < send + 2)); [by apply send_later_off|].
    unfold unlock_return, PERF_UNLOCK. run_unfold. destruct (held _); [|done]. intros [= <- <-]. by apply Hdone.
  - by apply send_later_off.
  - by apply send_later_off.
  - destruct (send_lost en).
    + unfold mbind, M_bind. destruct (dot_reconnect c s1) as [[[] s2]| | | |] eqn:E; try done.
      destruct (reconnect_calm c s1 s1 (calm_refl s1) _ _ E) as (C1 & C2 & C3). apply send_later_off; congruence.
    + unfold unlock_return, PERF_UNLOCK. run_unfold. destruct (held s1); [|done]. intros [= <- <-]. by apply Hdone.
  - intros [= <- <-]. by apply Hdone.
  - intros [= <- <-]. by apply Hdone.
Qed.

Lemma dot_continue_moved n s b s' :
  d_is_sending s = true → dot_continue n s = Done (b, s') → moved s s'.
Proof.
  intros Hs. unfold dot_continue. run_unfold. destruct (decide _); intros [= <- <-].
  - apply calm_moved. split_and!; auto.
  - right. exists (d_qid s). simpl. by rewrite Hs.
Qed.

Lemma dot_sendto_off id buf r c s x s' :
  d_is_sending s = false → dot_sendto id buf r c s = Done (x, s') → put_off id (d_sent_cb s) x s'.
Proof.
  intros Hs. unfold dot_sendto, mbind at 1, M_bind at 1.
  destruct (dot_write id buf r c s) as [[y s1]| | | |] eqn:E; try done. apply (dot_write_off _ _ _ _ _ _ _ Hs) in E.
  destruct E as [H1 H2]. unfold dot_sent. destruct y; run_unfold; intros [= <- <-]; by split.
Qed.

Lemma calm_pre s s1 s2 : calm s s1 → moved s1 s2 → moved s s2.
Proof.
  intros Hc Hm. pose proof Hc as (H1 & H2 & [H3|H3]); [|by apply (calm_dropped s s1)].
  unfold moved in *. simpl in *. by rewrite H1, H2, H3 in Hm.
Qed.

Lemma moved_calm s s1 s2 : moved s s1 → calm s1 s2 → moved s s2.
Proof.
  intros Hm (H1 & H2 & H3). destruct Hm as [[Hr Hp]|(id & Hp & Hn & Hr)]; simpl in *.
  - left. simpl. split; [congruence|]. rewrite H2. destruct H3 as [-> | ->]; auto.
  - right. exists id. simpl. rewrite H1. destruct H3 as [-> | ->]; [|done]. destruct (d_is_sending s1); done.
Qed.

(** A step of what is left is quiet, unless it counts bytes that were written. *)
Lemma rest_calm a r s0 s : (∀ n, r ≠ RestWritten n) → leads calm s0 (dot_rest_step a r) s.
Proof.
  intros Hr. destruct r as [z|n| | |]; [|by destruct (Hr n)|..]; cbn [dot_rest_step];
    unfold dot_check, dot_used_up, dot_connected; leads; calm.
Qed.

Lemma rest_step_moved a r s r' s' :
  rest_inv r s → dot_rest_step a r s = Done (r', s') → moved s s' ∧ ∀ n, r' ≠ RestWritten n.
Proof.
  intros Hi E. split; cycle 1.
  { pose proof (dot_rest_step_post a r s Hi) as Hp. rewrite E in Hp. destruct Hp as (_ & Hl & _).
    intros n ->. destruct r; simpl in Hl; lia. }
  destruct (decide (rest_left r = 3)) as [H3|H3].
  - destruct r as [z|n| | |]; try done. cbn [dot_rest_step] in E. destruct Hi as (_ & Hs & _). revert E. unfold mbind, M_bind.
    destruct (dot_continue n s) as [[b s1]| | | |] eqn:Ec; try done. intros [= _ <-]. by eapply dot_continue_moved.
  - apply calm_moved. apply (rest_calm a r s s ltac:(intros n ->; by apply H3) (calm_refl s) r' s' E).
Qed.

Lemma sockready_rest_moved a r s z s' :
  rest_inv r s → dot_sockready_rest a r s = Done (z, s') → moved s s'.
Proof.
  intros Hi. unfold dot_sockready_rest, mbind at 1, M_bind at 1. destruct (dot_rest_step a r s) as [[r2 s2]| | | |] eqn:E2; try done.
  destruct (rest_step_moved _ _ _ _ _ Hi E2) as [Hm2 Hn2]. unfold mbind at 1, M_bind at 1.
  destruct (dot_rest_step a r2 s2) as [[r1 s1]| | | |] eqn:E1; try done.
  pose proof (dot_rest_step_post a r s Hi) as Hp2. rewrite E2 in Hp2. destruct Hp2 as (Hi2 & _).
  pose proof (rest_calm a r2 s2 s2 Hn2 (calm_refl s2) _ _ E1) as Hc1.
  destruct (rest_step_moved _ _ _ _ _ Hi2 E1) as [_ Hn1]. unfold mbind at 1, M_bind at 1.
  destruct (dot_rest_step a r1 s1) as [[r0 s0]| | | |] eqn:E0; try done.
  pose proof (rest_calm a r1 s1 s1 Hn1 (calm_refl s1) _ _ E0) as Hc0. destruct r0; try done. intros [= _ <-].
  exact (moved_calm _ _ _ (moved_calm _ _ _ Hm2 Hc1) Hc0).
Qed.

Lemma dot_sockready_moved a s z s' :
  dinv false s → (∀ n, da_write a = SslWrote n → n ≤ buf_dnslen (d_sendbuf s) + 2 - d_sending s) →
  dot_sockready a s = Done (z, s') → moved s s'.
Proof.
  intros Hi Hn. pose proof (dot_ready_locked_post a s Hi Hn) as Hp. unfold dot_sockready, mbind at 1, M_bind at 1.
  destruct (dot_ready_locked a s) as [[r s1]| | | |] eqn:E; try done. destruct Hp as [Hi1 _].
  apply (locked_calm a s s (calm_refl s)) in E. intros E1. apply (calm_pre s s1); [exact E|].
  exact (sockready_rest_moved _ _ _ _ _ Hi1 E1).
Qed.

(** What OpenSSL does: it writes and reads no more than it is given room for, and no write
    fails for good ([dot_sendto_keeps_lock]). *)
Definition dot_send_ok (buf : list Z) (r : ssl_write * connecting) : Prop :=
  Forall byte_ok buf ∧ ¬ write_fatal r.1 ∧ ∀ n, r.1 = SslWrote n → n ≤ send_length buf + 2.
Definition dot_recv_ok (s : dot) (r : bool * ssl_read * connecting) : Prop :=
  ∀ bs, r.1.2 = SslRead bs → d_at s + length bs ≤ TCP_RECV_BUF_SIZE.
Definition dot_ready_ok (s : dot) (a : dot_answers) : Prop :=
  ∀ n, da_write a = SslWrote n → n ≤ buf_dnslen (d_sendbuf s) + 2 - d_sending s.

(** The values [sockready] returns. *)
Definition answer (z : Z) : Prop := (z = -1 ∨ z = 0 ∨ z = 1)%Z.

Definition rest_answer (r : dot_rest) : Prop := match r with RestReturn z => answer z | _ => True end.

Lemma locked_answer a : yields rest_answer (dot_ready_locked a).
Proof.
  unfold dot_ready_locked, dot_when_ready, dot_handshake, ask_reconnect, unlock_return.
  yields; unfold rest_answer, answer; repeat case_match; auto.
Qed.
Lemma rest_step_answer a r : rest_answer r → yields rest_answer (dot_rest_step a r).
Proof.
  intros Hr. destruct r; cbn [dot_rest_step]; unfold dot_check, dot_used_up, dot_connected, unlock_return; yields;
    unfold rest_answer, answer in *; repeat (case_match; simplify_eq); auto.
Qed.

Lemma dot_sockready_value a : yields answer (dot_sockready a).
Proof.
  unfold dot_sockready, dot_sockready_rest. apply (yields_then rest_answer); [apply locked_answer|]. intros r3 H3.
  apply (yields_then rest_answer); [by apply rest_step_answer|]. intros r2 H2.
  apply (yields_then rest_answer); [by apply rest_step_answer|]. intros r1 H1.
  apply (yields_then rest_answer); [by apply rest_step_answer|]. intros r0 H0.
  destruct r0; [by apply yields_ret|done..].
Qed.

#[export] Instance dot_laws : NetSocketLaws dot.
Proof.
  apply (Build_NetSocketLaws dot dot_socket (dinv false) dot_send_ok dot_recv_ok dot_ready_ok).
  - intros id buf [r c] s Hs (H1 & H2 & H3). simpl. destruct (d_is_sending s) eqn:Hsend; [done|]. intros _.
    pose proof (dot_sendto_inv id buf r c s Hs Hsend H1 H2 H3) as Hi.
    destruct (dot_sendto id buf r c s) as [[x s']| | | |] eqn:E; try done. destruct Hi as [Hi _].
    destruct (dot_sendto_off _ _ _ _ _ _ _ Hsend E) as [Hc Ho]. split_and!; [done|done|].
    destruct Ho as [->|[-> ->]]; [by left|]. destruct (d_is_sending s'); auto.
  - intros a s Hs Ha. simpl. pose proof (dot_sockready_post a s Hs Ha) as Hp.
    destruct (dot_sockready a s) as [[z s']| | | |] eqn:E; try done. destruct Hp as [Hi Hz].
    split_and!; [done|by apply (dot_sockready_value a s z s')| |by apply (dot_sockready_moved a s z)].
    intros Hz1. simpl. by destruct (Hz Hz1) as [_ ->].
  - intros len [[v3 r] c] s Hs Hr. simpl. pose proof (dot_recv_inv v3 len r c s Hs Hr) as Hi.
    unfold mbind, M_bind. destruct (dot_recv v3 len r c s) as [[x s']| | | |] eqn:E; try done. cbn [mret M_ret].
    split; [done|].
    destruct (dot_recv_calm v3 len r c s s (calm_refl s) _ _ E) as (C1 & C2 & C3). split; [done|].
    rewrite C2. destruct C3 as [->| ->]; auto.
Defined.

(** *** DoH *)

(** The query to be sent later may be dropped or sent, none is put off. *)
Definition flowing (s s' : doh) : Prop :=
  h_qid s' = h_qid s ∧ (h_is_sending (h_flags s') = h_is_sending (h_flags s) ∨ h_is_sending (h_flags s') = false).
(** Nothing is reported either. *)
Definition hcalm (s s' : doh) : Prop := h_sent_cb s' = h_sent_cb s ∧ flowing s s'.

Lemma flowing_refl s : flowing s s.
Proof. split; auto. Qed.
Lemma hcalm_refl s : hcalm s s.
Proof. split; [done|apply flowing_refl]. Qed.

Ltac flowing :=
  solve [ unfold hcalm, flowing in *; intros (?Hc1 & ?Hc2 & ?Hc3) || intros (?Hc1 & ?Hc2); repeat case_match; simpl in *; split_and!; auto ].

Section doh_calm.
Context (s0 : doh).

Lemma lock_hcalm s : leads hcalm s0 PERF_LOCK s.
Proof. intros Hs a s'. unfold PERF_LOCK. destruct (held s); [done|]. intros [= _ <-]. revert Hs. flowing. Qed.
Lemma unlock_hcalm s : leads hcalm s0 PERF_UNLOCK s.
Proof. intros Hs a s'. unfold PERF_UNLOCK. destruct (held s); [|done]. intros [= _ <-]. revert Hs. flowing. Qed.
Lemma trylock_hcalm s : leads hcalm s0 PERF_TRYLOCK s.
Proof. intros Hs a s'. unfold PERF_TRYLOCK. destruct (held s); intros [= _ <-]; [done|]. revert Hs. flowing. Qed.
Hint Resolve lock_hcalm unlock_hcalm trylock_hcalm : leads.
Lemma unlock_return_hcalm {A} (a : A) s : leads hcalm s0 (unlock_return a) s.
Proof. unfold unlock_return. leads. Qed.
Lemma doh_reconnect_hcalm s : leads hcalm s0 doh_reconnect s.
Proof. unfold doh_reconnect. leads; flowing. Qed.
Lemma check_locked_hcalm s : leads hcalm s0 check_locked s.
Proof. unfold check_locked. leads. Qed.
Hint Resolve unlock_return_hcalm doh_reconnect_hcalm check_locked_hcalm : leads.

Lemma recv_callback_hcalm e s : leads hcalm s0 (recv_callback e) s.
Proof.
  destruct e; simpl; unfold http2_on_header_callback, http2_data_chunk_recv_cb, http2_frame_recv_cb; leads; flowing.
Qed.
Hint Resolve recv_callback_hcalm : leads.
Lemma mem_recv_hcalm evs s : leads hcalm s0 (session_mem_recv evs) s.
Proof. revert s. induction evs as [|e evs IH]; intros s; cbn [session_mem_recv]; leads. Qed.
Lemma deliver_hcalm len s : leads hcalm s0 (doh_deliver len) s.
Proof. unfold doh_deliver. leads; flowing. Qed.
Hint Resolve mem_recv_hcalm deliver_hcalm : leads.
Lemma process_hcalm i len s : leads hcalm s0 (doh_process i len) s.
Proof. unfold doh_process. leads; flowing. Qed.
Hint Resolve process_hcalm : leads.
Lemma doh_recv_hcalm len i s : leads hcalm s0 (doh_recv len i) s.
Proof. unfold doh_recv. leads; flowing. Qed.

Lemma session_send_hcalm evs s : leads hcalm s0 (session_send evs) s.
Proof.
  revert s. induction evs as [|[r|n] evs IH]; intros s; cbn [session_send]; unfold http2_send_cb, doh_payload_read_cb;
    leads; flowing.
Qed.
End doh_calm.

Lemma flowing_trans s1 s2 s3 : flowing s1 s2 → flowing s2 s3 → flowing s1 s3.
Proof. intros (A1 & A2) (B1 & B2). split; [congruence|]. destruct B2 as [->|?]; auto. Qed.

Lemma leads_flowing {A} (m : M doh A) s0 s : leads hcalm s m s → leads flowing s0 m s.
Proof.
  intros Hm Hs a s' E. apply (flowing_trans _ s); [done|]. by apply (Hm (hcalm_refl s) a).
Qed.

Section doh_flowing.
Context (s0 : doh).

Lemma lock_flowing s : leads flowing s0 PERF_LOCK s.
Proof. apply leads_flowing, lock_hcalm. Qed.
Lemma unlock_flowing s : leads flowing s0 PERF_UNLOCK s.
Proof. apply leads_flowing, unlock_hcalm. Qed.
Lemma unlock_return_flowing {A} (a : A) s : leads flowing s0 (unlock_return a) s.
Proof. apply leads_flowing, unlock_return_hcalm. Qed.
Lemma reconnect_flowing s : leads flowing s0 doh_reconnect s.
Proof. apply leads_flowing, doh_reconnect_hcalm. Qed.
Lemma session_send_flowing evs s : leads flowing s0 (session_send evs) s.
Proof. apply leads_flowing, session_send_hcalm. Qed.
Hint Resolve lock_flowing unlock_flowing unlock_return_flowing reconnect_flowing session_send_flowing : leads.

Lemma connect_flowing c s : leads flowing s0 (doh_connect c) s.
Proof. unfold doh_connect. leads; flowing. Qed.
Lemma doh_per_conn_flowing a sent s : leads flowing s0 (doh_per_conn a sent) s.
Proof. unfold doh_per_conn, doh_sent_cb. leads; flowing. Qed.
Hint Resolve connect_flowing doh_per_conn_flowing : leads.
Lemma doh_when_ready_flowing a s : leads flowing s0 (doh_when_ready a) s.
Proof. unfold doh_when_ready. leads; flowing. Qed.
Lemma doh_handshake_flowing a s : leads flowing s0 (doh_handshake a) s.
Proof. unfold doh_handshake, doh_settings, retry_later. leads; flowing. Qed.
Hint Resolve doh_when_ready_flowing doh_handshake_flowing : leads.
Lemma doh_sockready_flowing a s : leads flowing s0 (doh_sockready a) s.
Proof. unfold doh_sockready, retry_later. leads; flowing. Qed.
End doh_flowing.

Lemma doh_sockready_value a : yields answer (doh_sockready a).
Proof.
  unfold doh_sockready, doh_when_ready, doh_handshake, doh_settings, retry_later, doh_per_conn, unlock_return.
  yields; unfold answer; repeat case_match; auto.
Qed.

#[export] Instance doh_laws `{Base64Laws} path method : @NetSocketLaws doh (doh_socket path method).
Proof.
  apply (Build_NetSocketLaws doh (doh_socket path method) (hinv false) (λ buf _, Forall byte_ok buf) input_ok (λ _ _, True)).
  - intros id buf a s Hs Hb. simpl. intros _. pose proof (sendto_inv path method id buf a s Hs Hb) as Hi.
    destruct (doh_sendto path method id buf a s) as [[[e|n] s']| | | |] eqn:E; try done.
    + destruct Hi as (Hi & -> & Hc & Hf). split_and!; [done|done|]. pose proof Hi as [_ Hok].
      destruct (h_is_sending (h_flags s')) eqn:Es; [right|by left].
      destruct Hf as [-> _]; [|done]. unfold flow. by rewrite Es, (proj1 (hok_flags _ Hok) Es).
    + destruct Hi as (Hi & _ & Hf & Hc & _). split_and!; [done|done|left]. unfold flow in Hf. injection Hf as _ ->. done.
    + by destruct Hi.
  - intros a s Hs _. simpl. pose proof (sockready_hready a s Hs) as Hp.
    destruct (doh_sockready a s) as [[z s']| | | |] eqn:E; try done. destruct Hp as (Hi & Hz & Hc & _).
    destruct (doh_sockready_flowing s a s (flowing_refl s) _ _ E) as [Hq Hf].
    split_and!; [done|by apply (doh_sockready_value a s z s')| |].
    + intros Hz1. specialize (Hz Hz1). unfold flow in Hz. injection Hz as _ ->. done.
    + destruct Hc as [Hc|(H1 & H2 & H3)].
      * left. simpl. split; [done|]. rewrite Hq. destruct Hf as [->| ->]; auto.
      * right. exists (h_qid s). simpl. by rewrite H1, H2, H3.
  - intros len r s Hs Hr. simpl. pose proof (doh_recv_inv len r s Hs Hr) as Hi.
    unfold mbind, M_bind. destruct (doh_recv len r s) as [[x s']| | | |] eqn:E; try done. cbn [mret M_ret].
    destruct (doh_recv_hcalm s len r s (hcalm_refl s) _ _ E) as (C1 & C2 & C3). split_and!; [done|done|].
    rewrite C2. destruct C3 as [->| ->]; auto.
Defined.

(** *** Sockets that were opened *)

(** A new socket keeps the contract, and nothing was sent on it. *)
Lemma tcp_opened newfd now res s : tcp_opensocket newfd now res = Done s → ns_ok s ∧ pending s = None ∧ reported s = [].
Proof. unfold tcp_opensocket, tcp_connect. run_unfold. destruct (decide _); [done|]. by destruct res; try done; intros [= <-]. Qed.
Lemma dot_opened c s : dot_opensocket c = Done s → ns_ok s ∧ pending s = None ∧ reported s = [].
Proof.
  intros E. split; [by apply (dot_open_inv c)|]. revert E. unfold dot_opensocket, dot_connect. run_unfold.
  destruct (decide _); [done|]. by destruct (c_res c); try done; intros [= <-].
Qed.
Lemma doh_opened heap c s :
  doh_opensocket heap c = Done s → hinv false s ∧ h_is_sending (h_flags s) = false ∧ h_sent_cb s = [].
Proof.
  intros E. split; [by apply (doh_open_inv heap c)|]. revert E. unfold doh_opensocket, doh_connect. run_unfold.
  destruct (decide _); [done|]. by destruct (c_res c); try done; intros [= <-].
Qed.

(** A query of three bytes on a connected socket, of which the first byte is sent at once and the
    rest when the socket is flushed. *)
Definition example_answers (r : sys_send) : answers := Answers 8 ConnOk r 8 ConnOk PERF_R_SUCCESS None r 100.
Definition example_ops : list (ns_op (S := tcp)) :=
  [ @NTry tcp tcp_socket (example_answers (SysSent 0)) [] 7 [1; 2; 3]%Z (SysSent 1);
    @NFlush tcp tcp_socket (example_answers (SysSent 4)) ].

Lemma net_sent_contract_witness :
  ∃ s : tcp, tcp_opensocket 5 0 ConnOk = Done s ∧
    match ns_run example_ops s with
    | Done (delayed, s') => ns_ok s' ∧ sublist (reported s' ++ option_list (pending s')) delayed
    | Exit c => c = 1%Z
    | _ => False
    end.
Proof.
  destruct (tcp_opensocket 5 0 ConnOk) as [s| | | |] eqn:E; [|discriminate E..]. exists s. split; [reflexivity|].
  destruct (tcp_opened 5 0 ConnOk s E) as (Hok & Hp & Hr).
  apply (net_sent_contract example_ops s Hok); [|exact Hp|exact Hr].
  clear. split.
  - split; [exact I|]. split; [exact I|]. by destruct (perf_net_sockready _ s) as [[z s1]| | | |].
  - destruct (ns_do _ s) as [[d s1]| | | |]; try done. split; [done|].
    by destruct (ns_do _ s1) as [[d1 s2]| | | |].
Defined.

(** There the query is put off and then reported. *)
Lemma example_reported :
  match tcp_opensocket 5 0 ConnOk with
  | Done s => match ns_run example_ops s with Done (delayed, s') => (delayed, reported s') = ([7], [7])%Z | _ => False end
  | _ => False
  end.
Proof. vm_compute. reflexivity. Qed.
