(* ===== verification/Sockets.v ===== *)
(** * Opening a socket (net.c and the [perf_net_*_opensocket] functions)

    [perf_net_opensocket] chooses the address and calls the transport's function, which
    allocates the socket, makes and sets up a descriptor, and connects it.  Every call that
    fails, other than setting an option of the descriptor, ends the process.  What the system
    and the libraries answer is an argument. *)

From S2P Require Import Prelude Net NetTcp NetUdp NetDot NetDoh.

(** The answers while one socket is opened: whether there is memory, and the objects of
    OpenSSL and nghttp2 can be made; what [socket] returns, whether [bind] succeeds, the flags
    [fcntl] gets, negative when it fails, and whether it sets them; the time, and what [connect]
    does; and what the memory for the payload of a DoH socket holds. *)
Record opening : Type := Opening {
  op_memory : bool; op_libraries : bool; op_fd : Z; op_bind : bool; op_flags : Z; op_setfl : bool;
  op_now : Z; op_connect : conn_res; op_heap : nat → Z;
}.

(** A socket; of a stream also the calls made on its descriptor before [connect]. *)
Inductive net_socket : Type :=
| SockUdp (s : udp) | SockTcp (calls : list udp_call) (s : tcp) | SockDot (calls : list udp_call) (s : dot)
| SockDoh (calls : list udp_call) (s : doh).

(** A stream's descriptor is made and set up as a datagram socket's is, lines 98-134 of
    net_tcp.c. *)
Definition answers_of (a : opening) : udp_answers := UdpAnswers (op_fd a) (op_bind a) (op_flags a) (op_setfl a).
Definition prepare_fd (server local : perf_sockaddr) (bufsize : Z) (a : opening) : run (list udp_call) :=
  s ← udp_opensocket server local bufsize (answers_of a); Done (u_calls s).

(** [perf_net_udp_opensocket], [perf_net_tcp_opensocket], [perf_net_dot_opensocket] and
    [perf_net_doh_opensocket]. *)
Definition open_transport (mode : perf_net_mode) (server local : perf_sockaddr) (bufsize : Z) (a : opening) : run net_socket :=
  if op_memory a then
    match mode with
    | sock_udp => s ← udp_opensocket server local bufsize (answers_of a); Done (SockUdp s)
    | sock_tcp =>
        calls ← prepare_fd server local bufsize a;
        s ← tcp_opensocket (op_fd a) (op_now a) (op_connect a); Done (SockTcp calls s)
    | sock_dot =>
        if op_libraries a then
          calls ← prepare_fd server local bufsize a;
          s ← dot_opensocket (Connecting (op_fd a) (op_now a) (op_connect a)); Done (SockDot calls s)
        else Exit 1
    | sock_doh =>
        if op_libraries a then
          calls ← prepare_fd server local bufsize a;
          s ← doh_opensocket (op_heap a) (Connecting (op_fd a) (op_now a) (op_connect a)); Done (SockDoh calls s)
        else Exit 1
    | _ => Exit 1
    end
  else Exit 1.

(** The whole of [perf_net_opensocket]: the address the socket is bound to, and the socket. *)
Definition opensocket_full (mode : perf_net_mode) (server local : perf_sockaddr) (offset bufsize : Z) (a : opening)
    : run (perf_sockaddr * net_socket) :=
  '(m, tmp) ← perf_net_opensocket mode server local offset;
  s ← open_transport m server tmp bufsize a;
  Done (tmp, s).

(** [sock->num_queries_per_conn(sock, n, timeout)], where the transport has it. *)
Definition limit_per_conn (n timeout : Z) (s : net_socket) : net_socket :=
  match s with
  | SockUdp s => SockUdp s
  | SockTcp calls s => SockTcp calls (tcp_num_queries_per_conn n timeout s)
  | SockDot calls s => SockDot calls (dot_num_queries_per_conn n timeout s)
  | SockDoh calls s => SockDoh calls (doh_num_queries_per_conn n timeout s)
  end.

(** ** What is known of a socket *)

Definition sk_mode (s : net_socket) : perf_net_mode :=
  match s with SockUdp _ => sock_udp | SockTcp _ _ => sock_tcp | SockDot _ _ => sock_dot | SockDoh _ _ => sock_doh end.
Definition sk_fd (s : net_socket) : Z :=
  match s with SockUdp s => u_fd s | SockTcp _ s => fd s | SockDot _ s => d_fd s | SockDoh _ s => h_fd s end.
Definition sk_calls (s : net_socket) : list udp_call :=
  match s with SockUdp s => u_calls s | SockTcp calls _ | SockDot calls _ | SockDoh calls _ => calls end.
(** The limit on the queries of a connection, and its timeout. *)
Definition sk_limit (s : net_socket) : Z * Z :=
  match s with
  | SockUdp _ => (0, 0)%Z
  | SockTcp _ s => (num_queries_per_conn s, nqpc_timeout s)
  | SockDot _ s => (d_num_queries_per_conn s, d_nqpc_timeout s)
  | SockDoh _ s => (q_max (h_nqpc s), q_timeout (h_nqpc s))
  end.
(** Whether the transport has a [num_queries_per_conn] function. *)
Definition has_limit (m : perf_net_mode) : bool := match m with sock_tcp | sock_dot | sock_doh => true | _ => false end.

(** The answers with which a socket can be opened. *)
Definition opens (mode : perf_net_mode) (a : opening) : Prop :=
  op_memory a = true ∧ op_fd a ≠ (-1)%Z ∧ op_bind a = true ∧ (0 ≤ op_flags a)%Z ∧ op_setfl a = true ∧
  (mode = sock_dot ∨ mode = sock_doh → op_libraries a = true) ∧ (mode ≠ sock_udp → op_connect a ≠ ConnFailed).

(** A socket that was opened: bound to its address, and not blocking. *)
Record opened (mode : perf_net_mode) (local : perf_sockaddr) (a : opening) (s : net_socket) : Prop := {
  opened_mode : sk_mode s = mode;
  opened_fd : sk_fd s = op_fd a;
  opened_bound : CallBind local ∈ sk_calls s;
  opened_nonblock : list.last (sk_calls s) = Some (CallSetFlags (Z.lor (op_flags a) O_NONBLOCK));
}.

Lemma udp_open_cases server local bufsize a :
  match udp_opensocket server local bufsize a with
  | Done _ => ua_fd a ≠ (-1)%Z ∧ ua_bind a = true ∧ (0 ≤ ua_flags a)%Z ∧ ua_setfl a = true
  | Exit c => c = 1%Z ∧ ¬ (ua_fd a ≠ (-1)%Z ∧ ua_bind a = true ∧ (0 ≤ ua_flags a)%Z ∧ ua_setfl a = true)
  | _ => False
  end.
Proof.
  unfold udp_opensocket, call. run_unfold. destruct (decide (ua_fd a = -1)%Z); [split; [done|tauto]|].
  destruct (decide (sa_family server = AF_INET6)); destruct (ua_bind a); try (split; [done|intros (_ & ? & _); discriminate]);
    destruct (decide (0 < bufsize)%Z); destruct (decide (ua_flags a < 0)%Z); try (split; [done|lia]);
    destruct (ua_setfl a); try (split; [done|intros (_ & _ & _ & ?); discriminate]); (split_and!; first [done|lia]).
Qed.

Lemma prepare_cases server local bufsize a :
  match prepare_fd server local bufsize a with
  | Done calls =>
      (op_fd a ≠ (-1)%Z ∧ op_bind a = true ∧ (0 ≤ op_flags a)%Z ∧ op_setfl a = true) ∧
      CallBind local ∈ calls ∧ list.last calls = Some (CallSetFlags (Z.lor (op_flags a) O_NONBLOCK))
  | Exit c => c = 1%Z ∧ ¬ (op_fd a ≠ (-1)%Z ∧ op_bind a = true ∧ (0 ≤ op_flags a)%Z ∧ op_setfl a = true)
  | _ => False
  end.
Proof.
  unfold prepare_fd. pose proof (udp_open_cases server local bufsize (answers_of a)) as Hc.
  destruct (udp_opensocket server local bufsize (answers_of a)) as [s| | | |] eqn:E; try done.
  cbn [mbind run_bind]. destruct (udp_open_spec _ _ _ _ _ E) as (_ & _ & Hb & Hl). done.
Qed.

Lemma tcp_open_cases newfd now res :
  newfd ≠ (-1)%Z →
  match tcp_opensocket newfd now res with
  | Done s => res ≠ ConnFailed ∧ fd s = newfd ∧ num_queries_per_conn s = 0%Z ∧ nqpc_timeout s = 0%Z
  | Exit c => c = 1%Z ∧ res = ConnFailed
  | _ => False
  end.
Proof. intros Hf. unfold tcp_opensocket, tcp_connect. run_unfold. rewrite decide_False by done. by destruct res. Qed.

Lemma dot_open_cases newfd now res :
  newfd ≠ (-1)%Z →
  match dot_opensocket (Connecting newfd now res) with
  | Done s => res ≠ ConnFailed ∧ d_fd s = newfd ∧ d_num_queries_per_conn s = 0%Z ∧ d_nqpc_timeout s = 0%Z
  | Exit c => c = 1%Z ∧ res = ConnFailed
  | _ => False
  end.
Proof.
  intros Hf. unfold dot_opensocket, dot_connect. run_unfold. cbn [c_fd c_res]. rewrite decide_False by done.
  by destruct res.
Qed.

Lemma doh_open_cases heap newfd now res :
  newfd ≠ (-1)%Z →
  match doh_opensocket heap (Connecting newfd now res) with
  | Done s => res ≠ ConnFailed ∧ h_fd s = newfd ∧ q_max (h_nqpc s) = 0%Z ∧ q_timeout (h_nqpc s) = 0%Z
  | Exit c => c = 1%Z ∧ res = ConnFailed
  | _ => False
  end.
Proof.
  intros Hf. unfold doh_opensocket, doh_connect. run_unfold. cbn [c_fd c_res]. rewrite decide_False by done.
  by destruct res.
Qed.

(** Opening succeeds exactly when every call that has to succeed does. *)
Lemma open_transport_spec mode server local bufsize a :
  mode ∈ [sock_udp; sock_tcp; sock_dot; sock_doh] →
  match open_transport mode server local bufsize a with
  | Done s => opens mode a ∧ opened mode local a s ∧ sk_limit s = (0, 0)%Z
  | Exit c => c = 1%Z ∧ ¬ opens mode a
  | _ => False
  end.
Proof.
  intros Hm. rewrite !elem_of_cons, elem_of_nil in Hm. unfold open_transport, opens.
  destruct (op_memory a); [|split; [done|by intros []]].
  pose proof (prepare_cases server local bufsize a) as Hp. destruct Hm as [->|[->|[->|[->|[]]]]].
  - unfold prepare_fd in Hp. destruct (udp_opensocket server local bufsize (answers_of a)) as [s| | | |] eqn:E; try done.
    + cbn [mbind run_bind] in *. destruct Hp as (H & Hb & Hl). destruct (udp_open_spec _ _ _ _ _ E) as (Hfd & _).
      split; [|split; [by split|done]]. split_and!; try tauto; try done. by intros [].
    + destruct Hp as [-> Hp]. split; [done|]. tauto.
  - destruct (prepare_fd server local bufsize a) as [calls| | | |]; try done; cbn [mbind run_bind].
    + destruct Hp as (H & Hb & Hl). pose proof (tcp_open_cases (op_fd a) (op_now a) (op_connect a) ltac:(tauto)) as Ho.
      destruct (tcp_opensocket _ _ _) as [s| | | |]; try done; cbn [mbind run_bind].
      * destruct Ho as (Hc & Hfd & L1 & L2). split; [|split; [by split|simpl; by rewrite L1, L2]].
        split_and!; try tauto; try done. by intros [].
      * destruct Ho as [-> ->]. split; [done|]. intros (_ & _ & _ & _ & _ & _ & Hc). by apply Hc.
    + destruct Hp as [-> Hp]. split; [done|]. tauto.
  - destruct (op_libraries a); [|split; [done|]; intros (_ & _ & _ & _ & _ & Hl & _); by specialize (Hl ltac:(auto))].
    destruct (prepare_fd server local bufsize a) as [calls| | | |]; try done; cbn [mbind run_bind].
    + destruct Hp as (H & Hb & Hl). pose proof (dot_open_cases (op_fd a) (op_now a) (op_connect a) ltac:(tauto)) as Ho.
      destruct (dot_opensocket _) as [s| | | |]; try done; cbn [mbind run_bind].
      * destruct Ho as (Hc & Hfd & L1 & L2). split; [|split; [by split|simpl; by rewrite L1, L2]]. split_and!; tauto || done.
      * destruct Ho as [-> ->]. split; [done|]. intros (_ & _ & _ & _ & _ & _ & Hc). by apply Hc.
    + destruct Hp as [-> Hp]. split; [done|]. tauto.
  - destruct (op_libraries a); [|split; [done|]; intros (_ & _ & _ & _ & _ & Hl & _); by specialize (Hl ltac:(auto))].
    destruct (prepare_fd server local bufsize a) as [calls| | | |]; try done; cbn [mbind run_bind].
    + destruct Hp as (H & Hb & Hl).
      pose proof (doh_open_cases (op_heap a) (op_fd a) (op_now a) (op_connect a) ltac:(tauto)) as Ho.
      destruct (doh_opensocket _ _) as [s| | | |]; try done; cbn [mbind run_bind].
      * destruct Ho as (Hc & Hfd & L1 & L2). split; [|split; [by split|simpl; by rewrite L1, L2]]. split_and!; tauto || done.
      * destruct Ho as [-> ->]. split; [done|]. intros (_ & _ & _ & _ & _ & _ & Hc). by apply Hc.
    + destruct Hp as [-> Hp]. split; [done|]. tauto.
Qed.

Lemma limit_opened n timeout mode local a s : opened mode local a s → opened mode local a (limit_per_conn n timeout s).
Proof. by destruct s; intros []. Qed.

Lemma limit_set n timeout s :
  sk_limit s = (0, 0)%Z → sk_limit (limit_per_conn n timeout s) = (if has_limit (sk_mode s) then (n, timeout) else (0, 0)%Z).
Proof. by destruct s. Qed.

(** A socket for which every call succeeds. *)
Definition plain_opening (newfd : Z) : opening := Opening true true newfd true 0 true 0 ConnOk (λ _, 0%Z).

(** Ports in use, and a server that refuses connections, end the process. *)
Example open_failures :
  open_transport sock_udp (perf_sockaddr_fromin [127; 0; 0; 1]%Z 53) (perf_sockaddr_fromin INADDR_ANY 53) 0
    (Opening true true 5 false 0 true 0 ConnOk (λ _, 0%Z)) = Exit 1 ∧
  open_transport sock_tcp (perf_sockaddr_fromin [127; 0; 0; 1]%Z 53) (perf_sockaddr_fromin INADDR_ANY 0) 0
    (Opening true true 5 true 0 true 0 ConnFailed (λ _, 0%Z)) = Exit 1.
Proof. split; reflexivity. Qed.
