(* ===== verification/Setup.v ===== *)
(** * The options of dnsperf and the start of its threads (dnsperf.c)

    [setup] registers the options, parses the command line and derives the configuration; [main]
    starts the threads from it, each with its share of the limits and its own sockets.  What
    the resolver, the file system and the clock answer is an argument. *)

From S2P Require Import Prelude Edns Tsig ParseUri DohRequest Datafile Net NetTcp Sockets Opt CommandLine Stats Queries Dnsperf.

(** ** Typed places *)

(** The variables of a program that options write to. *)
Class Variables (V : Type) : Type := {
  place : V → nat;
  place_type : V → perf_opttype;
  place_pos v : 0 < place v;
  place_inj :: Inj (=) (=) place;
}.

Definition option_table (A V : Type) : Type := list (A * option (list Z) * list Z * option (list Z) * V).

Section variables.
Context {V : Type} `{!Variables V} {F : Type} (atof : list Z → F) (micros : F → Z).

Notation store_t := (optstate (F := F)).

(** The options of a program, in the order of registration: the character or the name, the
    description of its argument, the help, the default that is shown, and the variable. *)
Definition add_short (l : option_table Z V) : M store_t unit :=
  foldr (λ '(ch, desc, help, d, v) m, perf_opt_add ch (place_type v) desc help d (place v);; m) (mret ()) l.
Definition add_long (l : option_table (list Z) V) : M store_t unit :=
  foldr (λ '(nm, desc, help, d, v) m, perf_long_opt_add nm (place_type v) desc help d (place v);; m) (mret ()) l.

(** The values of the variables after parsing; a variable that was not written has the value
    it was initialised with. *)
Definition str_var (st : store_t) (v : V) (init : option (list Z)) : option (list Z) :=
  match store st !! place v with Some (VString s) => Some s | _ => init end.
Definition bool_var (st : store_t) (v : V) : bool :=
  match store st !! place v with Some (VBool b) => b | _ => false end.
Definition uint_var (st : store_t) (v : V) (init : Z) : Z :=
  match store st !! place v with Some (VUint n) => n | _ => init end.
Definition time_var (st : store_t) (v : V) (init : Z) : Z :=
  match store st !! place v with Some (VUint64 n) => n | _ => init end.
Definition port_var (st : store_t) (v : V) (init : Z) : Z :=
  match store st !! place v with Some (VPort n) => n | _ => init end.
Definition double_var (st : store_t) (v : V) (init : F) : F :=
  match store st !! place v with Some (VDouble d) => d | _ => init end.

(** Every written variable has a value of its type. *)
Definition typed (st : store_t) : Prop :=
  ∀ v x, store st !! place v = Some x → val_ok (place_type v) x.

Definition defaults_fit {A} (l : option_table A V) : Prop :=
  Forall (λ '(_, d, _), strlen (default [] d) ≤ DEFVAL_SIZE - 1) l.

Lemma defaults_check {A} (l : option_table A V) :
  forallb (λ x, bool_decide (strlen (default [] x.1.2) ≤ 511)) l = true → defaults_fit l.
Proof.
  intros Hl. apply Forall_forall. intros [[a d] v] Hx. rewrite forallb_forall in Hl.
  exact (bool_decide_eq_true_1 _ (Hl _ (proj1 (list_elem_of_In _ _) Hx))).
Qed.

(** The options as they are registered. *)
Definition short_entry : Z * option (list Z) * list Z * option (list Z) * V → opt :=
  λ '(ch, desc, help, d, v), Opt ch (place_type v) desc help (copy_defval <$> d) (place v).
Definition long_entry : list Z * option (list Z) * list Z * option (list Z) * V → long_opt :=
  λ '(nm, desc, help, d, v), LongOpt nm (place_type v) desc help (copy_defval <$> d) (place v).

Lemma add_short_spec l st :
  length (opts st) + length l ≤ MAX_OPTS → defaults_fit l → optstr_ok st →
  ∃ st', add_short l st = Done ((), st') ∧ optstr_ok st' ∧
    opts st' = opts st ++ map short_entry l ∧ longopts st' = longopts st ∧ store st' = store st.
Proof.
  revert st. induction l as [|[[[[ch desc] help] d] v] l IH]; intros st Hl Hd Ho.
  { exists st. simpl. by rewrite app_nil_r. }
  apply Forall_cons in Hd as [Hd Hds]. cbn [length] in Hl.
  destruct (opt_add_spec ch (place_type v) desc help d (place v) st ltac:(lia) Hd Ho) as (s1 & E1 & O1 & P1 & L1 & S1).
  destruct (IH s1) as (s2 & E2 & O2 & P2 & L2 & S2); [rewrite P1, length_app; simpl; lia|done|done|].
  exists s2. cbn [add_short foldr]. rewrite (bind_Done _ _ _ _ _ E1). fold (add_short l).
  split_and!; [done|done| |congruence..]. rewrite P2, P1, <- app_assoc. reflexivity.
Qed.

Lemma add_long_spec l st :
  defaults_fit l →
  add_long l st = Done ((), OptState (opts st) (rev (map long_entry l) ++ longopts st) (optstr st) (store st)).
Proof.
  revert st. induction l as [|[[[[nm desc] help] d] v] l IH]; intros st Hd; [by destruct st|].
  apply Forall_cons in Hd as [Hd Hds]. cbn [add_long foldr].
  assert (perf_long_opt_add nm (place_type v) desc help d (place v) st =
    Done ((), OptState (opts st) (long_entry (nm, desc, help, d, v) :: longopts st) (optstr st) (store st))) as E.
  { unfold perf_long_opt_add. rewrite (bind_Done get _ _ _ _ eq_refl). by rewrite decide_False by lia. }
  rewrite (bind_Done _ _ _ _ _ E). fold (add_long l). rewrite IH by done. simpl. by rewrite <- app_assoc.
Qed.

(** Registration and parsing, as both programs do it. *)
Definition read_options (short : option_table Z V) (long : option_table (list Z) V) (getopt : getopt_t) : run store_t :=
  '(_, st) ← (add_short short;; add_long long;; perf_opt_parse atof micros getopt) (OptState [] [] [] ∅);
  Done st.

(** Everything is registered when parsing starts. *)
Definition all_registered (short : option_table Z V) (long : option_table (list Z) V) : store_t :=
  OptState (map short_entry short) (rev (map long_entry long)) (letters (map short_entry short)) ∅.

Lemma read_options_registered short long getopt :
  length short + 3 ≤ MAX_OPTS → defaults_fit short → defaults_fit long →
  read_options short long getopt =
    ('(_, st) ← perf_opt_parse atof micros getopt (all_registered short long); Done st).
Proof.
  intros Hl Hs Hg. unfold read_options.
  destruct (add_short_spec short (OptState [] [] [] ∅)) as (s1 & E1 & O1 & P1 & L1 & S1); [simpl; lia|done|done|].
  rewrite (bind_Done _ _ _ _ _ E1), (bind_Done _ _ _ _ _ (add_long_spec long _ Hg)). unfold all_registered.
  unfold optstr_ok in O1. rewrite P1, L1, S1, O1, P1. cbn [opts longopts store app]. by rewrite app_nil_r.
Qed.

Lemma read_options_typed short long getopt :
  length short + 3 ≤ MAX_OPTS → defaults_fit short → defaults_fit long →
  match read_options short long getopt with
  | Done st => typed st
  | Exit c => c = 0%Z ∨ c = 1%Z
  | _ => False
  end.
Proof.
  intros Hl Hs Hg. rewrite read_options_registered by done. set (st0 := all_registered short long).
  pose proof (opt_parse_good atof micros getopt st0 ltac:(simpl; rewrite length_map; lia) eq_refl) as Hp.
  destruct (perf_opt_parse atof micros getopt st0) as [[[] st]| | | |]; try done. intros v x Hx.
  destruct Hp as (_ & _ & Hw). destruct (Hw _ _ Hx) as [H0|(ty & Hr & Hok)]; [simpl in H0; by rewrite lookup_empty in H0|].
  enough (ty = place_type v) by congruence. pose proof (place_pos v).
  destruct Hr as [(o & Ho & Hp & <-)|(o & Ho & Hp & <-)]; cbn [with_help opts longopts st0 all_registered] in Ho.
  - unfold help_opts in Ho. rewrite elem_of_app, !elem_of_cons, elem_of_nil in Ho.
    destruct Ho as [Ho|[->|[->|[->|[]]]]]; [|simpl in Hp; lia..].
    apply list_elem_of_fmap in Ho as ([[[[ch desc] help] d] v'] & -> & _). simpl in *. by apply (inj place) in Hp as ->.
  - apply list_elem_of_In, in_rev, list_elem_of_In in Ho.
    apply list_elem_of_fmap in Ho as ([[[[nm desc] help] d] v'] & -> & _). simpl in *. by apply (inj place) in Hp as ->.
Qed.
End variables.

(** ** The options of dnsperf *)

Inductive var : Set :=
| v_family | v_mode | v_server_name | v_server_port | v_local_name | v_local_port | v_filename | v_clients | v_threads
| v_maxruns | v_timelimit | v_bufsize | v_timeout | v_edns | v_edns_option | v_dnssec | v_tsigkey | v_max_outstanding
| v_max_qps | v_stats_interval | v_updates | v_binary_input | v_verbose | v_doh_uri | v_doh_method | v_suppress
| v_num_queries_per_conn | v_verbose_interval_stats | v_latency_histogram | v_qps_threshold_wait | v_tls_sni
| v_log_stdout.

Definition all_vars : list var :=
  [v_family; v_mode; v_server_name; v_server_port; v_local_name; v_local_port; v_filename; v_clients; v_threads;
   v_maxruns; v_timelimit; v_bufsize; v_timeout; v_edns; v_edns_option; v_dnssec; v_tsigkey; v_max_outstanding;
   v_max_qps; v_stats_interval; v_updates; v_binary_input; v_verbose; v_doh_uri; v_doh_method; v_suppress;
   v_num_queries_per_conn; v_verbose_interval_stats; v_latency_histogram; v_qps_threshold_wait; v_tls_sni; v_log_stdout].

#[export] Instance var_eq_dec : EqDecision var.
Proof. solve_decision. Defined.

Definition var_place (v : var) : nat := match list_find (eq v) all_vars with Some (i, _) => S i | None => 0 end.

Definition var_type (v : var) : perf_opttype :=
  match v with
  | v_server_port | v_local_port => perf_opt_port
  | v_clients | v_threads | v_maxruns | v_bufsize | v_max_outstanding | v_max_qps | v_num_queries_per_conn => perf_opt_uint
  | v_timelimit | v_timeout | v_stats_interval => perf_opt_timeval
  | v_edns | v_dnssec | v_updates | v_binary_input | v_verbose | v_verbose_interval_stats | v_latency_histogram
  | v_log_stdout => perf_opt_boolean
  | v_qps_threshold_wait => perf_opt_zpint
  | _ => perf_opt_string
  end.

#[export, refine] Instance var_variables : Variables var := {| place := var_place; place_type := var_type |}.
Proof.
  - intros []; vm_compute; lia.
  - assert (∀ v, all_vars !! pred (var_place v) = Some v) as Hinv by (by intros []).
    intros v1 v2 E. apply (inj Some). by rewrite <- !Hinv, E.
Defined.

Definition DEFAULT_SERVER_NAME : list Z := bytes "127.0.0.1".
Definition DEFAULT_SERVER_PORTS : list Z := bytes "udp/tcp 53, DoT 853 or DoH 443".
Definition DEFAULT_LOCAL_PORT : Z := 0.
Definition DEFAULT_MAX_OUTSTANDING : Z := 100.
Definition DEFAULT_TIMEOUT : Z := 5.
Definition DEFAULT_DOH_URI : list Z := bytes "https://localhost/dns-query".
Definition DEFAULT_DOH_METHOD : list Z := bytes "GET".

(** [stringify(value)]. *)
Definition stringify (n : Z) : list Z := dec 20 n.

Definition short_options : option_table Z var :=
  [(102, Some (bytes "family"), bytes "address family of DNS transport, inet or inet6", Some (bytes "any"), v_family);
   (109, Some (bytes "mode"), bytes "set transport mode: udp, tcp, dot or doh", Some (bytes "udp"), v_mode);
   (115, Some (bytes "server_addr"), bytes "the server to query", Some DEFAULT_SERVER_NAME, v_server_name);
   (112, Some (bytes "port"),
      bytes "the port on which to query the server", Some DEFAULT_SERVER_PORTS, v_server_port);
   (97, Some (bytes "local_addr"), bytes "the local address from which to send queries", None, v_local_name);
   (120, Some (bytes "local_port"),
      bytes "the local port from which to send queries", Some (stringify DEFAULT_LOCAL_PORT), v_local_port);
   (100, Some (bytes "datafile"), bytes "the input data file", Some (bytes "stdin"), v_filename);
   (99, Some (bytes "clients"), bytes "the number of clients to act as", None, v_clients);
   (84, Some (bytes "threads"), bytes "the number of threads to run", None, v_threads);
   (110, Some (bytes "maxruns"), bytes "run through input at most N times", None, v_maxruns);
   (108, Some (bytes "timelimit"), bytes "run for at most this many seconds", None, v_timelimit);
   (98, Some (bytes "buffer_size"), bytes "socket send/receive buffer size in kilobytes", None, v_bufsize);
   (116, Some (bytes "timeout"),
      bytes "the timeout for query completion in seconds", Some (stringify DEFAULT_TIMEOUT), v_timeout);
   (101, None, bytes "enable EDNS 0", None, v_edns);
   (69, Some (bytes "code:value"), bytes "send EDNS option", None, v_edns_option);
   (68, None, bytes "set the DNSSEC OK bit (implies EDNS)", None, v_dnssec);
   (121, Some (bytes "[alg:]name:secret"), bytes "the TSIG algorithm, name and secret (base64)", None, v_tsigkey);
   (113, Some (bytes "num_queries"),
      bytes "the maximum number of queries outstanding", Some (stringify DEFAULT_MAX_OUTSTANDING), v_max_outstanding);
   (81, Some (bytes "max_qps"), bytes "limit the number of queries per second", None, v_max_qps);
   (83, Some (bytes "stats_interval"), bytes "print qps statistics every N seconds", None, v_stats_interval);
   (117, None, bytes "send dynamic updates instead of queries", None, v_updates);
   (66, None, bytes "read input file as TCP-stream binary format", None, v_binary_input);
   (118, None, bytes "verbose: report each query and additional information to stdout", None, v_verbose);
   (87, None, bytes "log warnings and errors to stdout instead of stderr", None, v_log_stdout)]%Z.

Definition long_options : option_table (list Z) var :=
  [(bytes "doh-uri", Some (bytes "doh_uri"),
      bytes "the URI to use for DNS-over-HTTPS", Some DEFAULT_DOH_URI, v_doh_uri);
   (bytes "doh-method", Some (bytes "doh_method"),
      bytes "the HTTP method to use for DNS-over-HTTPS: GET or POST", Some DEFAULT_DOH_METHOD, v_doh_method);
   (bytes "suppress", Some (bytes "message[,message,...]"),
      bytes "suppress messages/warnings, see man-page for list of message types", None, v_suppress);
   (bytes "num-queries-per-conn", Some (bytes "queries"),
      bytes "Number of queries to send per connection", None, v_num_queries_per_conn);
   (bytes "verbose-interval-stats", None,
      bytes "print detailed statistics for each stats_interval", None, v_verbose_interval_stats);
   (bytes "latency-histogram", None,
      bytes "collect and print detailed latency histograms", None, v_latency_histogram);
   (bytes "qps-threshold-wait", Some (bytes "microseconds"),
      bytes "minimum threshold for enabling wait in rate limiting", Some (stringify (u32 (-1))), v_qps_threshold_wait);
   (bytes "tls-sni", Some (bytes "tls_sni"), bytes "the TLS SNI to use for TLS connections", None, v_tls_sni)].

(** ** The configuration *)

(** [config_t] without the arguments themselves. *)
Record config : Type := Config {
  cf_clients : Z; cf_threads : Z; cf_maxruns : Z; cf_timelimit : Z;
  cf_server_addr : perf_sockaddr; cf_local_addr : perf_sockaddr;
  cf_timeout : Z; cf_bufsize : Z; cf_edns : bool; cf_dnssec : bool; cf_tsigkey : option (list Z);
  cf_edns_option : option perf_ednsoption; cf_max_outstanding : Z; cf_max_qps : Z; cf_stats_interval : Z;
  cf_verbose_interval_stats : bool; cf_updates : bool; cf_binary_input : bool; cf_input_format : perf_input_format;
  cf_verbose : bool; cf_mode : perf_net_mode; cf_suppress : perf_suppress; cf_num_queries_per_conn : Z;
  cf_latency_histogram : bool; cf_qps_threshold_wait : Z;
}.

(** The server's port when none is given. *)
Definition default_port (mode : perf_net_mode) : Z :=
  match mode with sock_doh => 443 | sock_dot => 853 | _ => 53 end%Z.

Definition choose_format (updates binary_input : bool) : perf_input_format :=
  if updates then input_format_text_update
  else if binary_input then input_format_tcp_wire_format else input_format_text_query.

(** Fewer threads when there are fewer queries per second or clients than threads. *)
Definition lower_threads (max_qps clients threads : Z) : Z :=
  let threads := if decide (0 < max_qps ∧ max_qps < threads)%Z then max_qps else threads in
  if decide (clients < threads)%Z then clients else threads.

(** [measure_nanosleep(config)]: from the seconds and nanoseconds before and after; [None] is
    an error of a system call. *)
Definition measure_nanosleep (clock : option (Z * Z * (Z * Z))) : option Z :=
  '(s0, n0, (s1, n1)) ← clock;
  let v := s32 (Z.quot (Z.quot ((s1 - s0) * 1000000000 + n1 - n0) 100 * 3) 1000) in
  Some (if decide (v < 0)%Z then 0%Z else v).

Section setup.
Context {FI : FileIO} {HM : Hmac} {F : Type} (atof : list Z → F) (micros : F → Z) (EVP_DecodeUpdate : list Z → Z * list Z).

(** What the system answers: [getaddrinfo] for a name, [inet_pton] for both families, [open] and
    [fstat] for a file, the clock around the sleeps of [measure_nanosleep]; and whether ldns was
    built in. *)
Record system : Type := System {
  sys_addresses : list Z → option (list (family * list Z));
  sys_pton4 : list Z → option (list Z);
  sys_pton6 : list Z → option (list Z);
  sys_stdin : fio;
  sys_file : list Z → option (fio * option nat);
  sys_clock : option (Z * Z * (Z * Z));
  sys_ldns : bool;
}.

(** What [setup] leaves behind: the configuration, the input and the globals of the transports
    and of the log. *)
Record started : Type := Started {
  s_config : config; s_input : perf_datafile; s_doh_uri : URI; s_doh_method : perf_doh_method;
  s_doh_max_concurr : Z; s_tls_sni : option (list Z); s_log_stdout : bool;
}.

(** The addresses, from line 697 to line 733; resperf does the same. *)
Definition choose_mode (m : option (list Z)) : run perf_net_mode :=
  match m with Some m => perf_net_parsemode m | None => Done sock_udp end.
Definition choose_addresses (sys : system) (fam : option (list Z)) (server : list Z) (server_port : Z) (mode : perf_net_mode)
    (local : option (list Z)) (local_port : Z) : run (perf_sockaddr * perf_sockaddr) :=
  fam ← match fam with Some f => perf_net_parsefamily (Some f) | None => Done AF_UNSPEC end;
  let port := if decide (server_port = 0)%Z then default_port mode else server_port in
  sa ← perf_net_parseserver fam (sys_addresses sys server) port;
  la ← perf_net_parselocal (sa_family sa) (bool_decide (is_Some local)) (local ≫= sys_pton4 sys) (local ≫= sys_pton6 sys) local_port;
  Done (sa, la).

(** The rest of [setup] once the options are parsed. *)
Definition configure (sys : system) (st : optstate (F := F)) : run started :=
  suppress ← perf_opt_parse_suppress (str_var st v_suppress None);
  mode ← choose_mode (str_var st v_mode None);
  uri ← perf_net_doh_parse_uri (default [] (str_var st v_doh_uri (Some DEFAULT_DOH_URI)));
  method ← perf_net_doh_parse_method (default [] (str_var st v_doh_method (Some DEFAULT_DOH_METHOD)));
  let max_outstanding := uint_var st v_max_outstanding DEFAULT_MAX_OUTSTANDING in
  '(sa, la) ← choose_addresses sys (str_var st v_family None)
    (default [] (str_var st v_server_name (Some DEFAULT_SERVER_NAME))) (port_var st v_server_port 0) mode
    (str_var st v_local_name None) (port_var st v_local_port DEFAULT_LOCAL_PORT);
  let edns := bool_var st v_edns in
  let dnssec := bool_var st v_dnssec in
  let updates := bool_var st v_updates in
  let binary := bool_var st v_binary_input in
  let tsigkey := str_var st v_tsigkey None in
  let edns_option_str := str_var st v_edns_option None in
  (* config->edns_option is still null here *)
  let config_edns_option : option perf_ednsoption := None in
  if decide (binary = true ∧ (edns = true ∨ is_Some config_edns_option ∨ dnssec = true ∨ is_Some tsigkey ∨ updates = true))
  then Exit 1
  else
    let fmt := choose_format updates binary in
    input ← perf_datafile_open (sys_stdin sys) (sys_file sys <$> str_var st v_filename None) fmt;
    let timelimit := time_var st v_timelimit 0 in
    let maxruns := uint_var st v_maxruns 0 in
    let maxruns := if decide (maxruns = 0 ∧ timelimit = 0)%Z then 1%Z else maxruns in
    let input := perf_datafile_setmaxruns input maxruns in
    let edns := edns || dnssec || bool_decide (is_Some edns_option_str) in
    _ ← match tsigkey with
        | Some k => _ ← perf_tsig_parsekey EVP_DecodeUpdate k; Done tt
        | None => Done tt
        end;
    edns_option ← match edns_option_str with
                  | Some e => o ← perf_edns_parseoption e; Done (Some o)
                  | None => Done None
                  end;
    let max_qps := uint_var st v_max_qps 0 in
    let clients := uint_var st v_clients 1 in
    let threads := lower_threads max_qps clients (uint_var st v_threads 1) in
    if updates && negb (sys_ldns sys) then Exit 1
    else
      let wait := s32 (uint_var st v_qps_threshold_wait (-1)) in
      match (if decide (wait < 0)%Z then measure_nanosleep (sys_clock sys) else Some wait) with
      | None => Exit 1
      | Some wait =>
          Done (Started
            (Config clients threads maxruns timelimit sa la (time_var st v_timeout (DEFAULT_TIMEOUT * MILLION)%Z)
               (uint_var st v_bufsize 0) edns dnssec tsigkey edns_option max_outstanding max_qps
               (time_var st v_stats_interval 0) (bool_var st v_verbose_interval_stats) updates binary fmt
               (bool_var st v_verbose) mode suppress (uint_var st v_num_queries_per_conn 0)
               (bool_var st v_latency_histogram) wait)
            input uri method max_outstanding (str_var st v_tls_sni None) (bool_var st v_log_stdout))
      end.

(** [setup(argc, argv, config)]; [getopt] is what the function of that name makes of the arguments. *)
Definition setup (sys : system) (getopt : getopt_t) : run started :=
  st ← read_options atof micros short_options long_options getopt; configure sys st.
End setup.

(** ** Values of the configuration *)

Lemma uint_var_range {V} `{!Variables V} {F} (st : optstate (F := F)) (v : V) init lo :
  typed (V := V) st → place_type v = perf_opt_uint ∨ place_type v = perf_opt_zpint → (lo ≤ 1)%Z →
  (place_type v = perf_opt_zpint → lo ≤ 0)%Z → (lo ≤ init ≤ UINT32_MAX)%Z → (lo ≤ uint_var st v init ≤ UINT32_MAX)%Z.
Proof.
  intros Ht Hty Hlo Hz Hi. unfold uint_var. destruct (store st !! place v) as [x|] eqn:E; [|done].
  apply Ht in E. destruct Hty as [Hty|Hty]; rewrite Hty in E, Hz; destruct x; try done; simpl in E; [lia|].
  specialize (Hz eq_refl). lia.
Qed.

Lemma uint_var_1 {V} `{!Variables V} {F} (st : optstate (F := F)) (v : V) init :
  typed (V := V) st → place_type v = perf_opt_uint → (1 ≤ init ≤ UINT32_MAX)%Z → (1 ≤ uint_var st v init ≤ UINT32_MAX)%Z.
Proof. intros Ht Hv Hi. apply uint_var_range; [done|by left|lia|by rewrite Hv|done]. Qed.

Lemma uint_var_0 {V} `{!Variables V} {F} (st : optstate (F := F)) (v : V) :
  typed (V := V) st → place_type v = perf_opt_uint → (0 ≤ uint_var st v 0 ≤ UINT32_MAX)%Z.
Proof. intros Ht Hv. apply uint_var_range; [done|by left|lia|lia|unfold UINT32_MAX; lia]. Qed.

Lemma time_var_range {V} `{!Variables V} {F} (st : optstate (F := F)) (v : V) init :
  typed (V := V) st → place_type v = perf_opt_timeval → (0 ≤ init < 2 ^ 64)%Z → (0 ≤ time_var st v init < 2 ^ 64)%Z.
Proof.
  intros Ht Hty Hi. unfold time_var. destruct (store st !! place v) as [x|] eqn:E; [|done].
  apply Ht in E. rewrite Hty in E. by destruct x.
Qed.

Lemma port_var_range {V} `{!Variables V} {F} (st : optstate (F := F)) (v : V) init :
  typed (V := V) st → place_type v = perf_opt_port → (0 ≤ init ≤ 65535)%Z → (0 ≤ port_var st v init ≤ 65535)%Z.
Proof.
  intros Ht Hty Hi. unfold port_var. destruct (store st !! place v) as [x|] eqn:E; [|done].
  apply Ht in E. rewrite Hty in E. by destruct x.
Qed.

Lemma lower_threads_spec max_qps clients threads :
  (0 ≤ max_qps)%Z → (1 ≤ clients)%Z → (1 ≤ threads)%Z →
  let n := lower_threads max_qps clients threads in
  (1 ≤ n ≤ clients)%Z ∧ (n ≤ threads)%Z ∧ (0 < max_qps → n ≤ max_qps)%Z ∧
  (threads ≤ clients → (max_qps = 0 ∨ threads ≤ max_qps) → n = threads)%Z.
Proof.
  intros Hq Hc Ht. unfold lower_threads. destruct (decide (0 < max_qps ∧ max_qps < threads)%Z) as [H|H];
    destruct (decide (clients < _)%Z); lia.
Qed.

Lemma measure_nonneg clock w : measure_nanosleep clock = Some w → (0 ≤ w)%Z.
Proof.
  unfold measure_nanosleep. destruct clock as [[[s0 n0] [s1 n1]]|]; [|done]. simpl. intros [= <-]. destruct (decide _); lia.
Qed.

(** A value, or the end of the process with status 1. *)
Definition value_or_exit {A} (P : A → Prop) (m : run A) : Prop :=
  match m with Done a => P a | Exit c => c = 1%Z | _ => False end.

Lemma voe_bind {A B} (P : A → Prop) (Q : B → Prop) (m : run A) (k : A → run B) :
  value_or_exit P m → (∀ a, P a → value_or_exit Q (k a)) → value_or_exit Q (m ≫= k).
Proof. intros Hm Hk. destruct m; simpl in *; try done. by apply Hk. Qed.

Lemma suppress_exits val : value_or_exit (λ _, True) (perf_opt_parse_suppress val).
Proof.
  assert (∀ v n s, value_or_exit (λ _, True) (suppress_item v n s)) as Hi.
  { intros v n s. unfold suppress_item. repeat case_match; done. }
  destruct val as [v|]; [|done]. cbn [perf_opt_parse_suppress]. generalize (Suppress false false false false false) as s.
  assert (length v < S (length v)) as Hf by lia. revert Hf. generalize (S (length v)) as fuel.
  intros fuel. revert v. induction fuel as [|fuel IH]; intros v Hf s; [lia|]. cbn [suppress_loop].
  destruct (decide _) as [|Hc]; [done|]. destruct (strchr v 44) as [n|]; [|apply Hi].
  apply (voe_bind (λ _, True)); [apply Hi|]. intros s' _. apply IH.
  destruct v as [|x v]; [by destruct Hc|]. rewrite length_drop. simpl in *. lia.
Qed.

Lemma mode_exits m : value_or_exit (λ m, m ∈ [sock_udp; sock_tcp; sock_dot; sock_doh]) (choose_mode m).
Proof.
  assert (∀ x, x ∈ [sock_udp; sock_tcp; sock_dot; sock_doh] ↔ x = sock_udp ∨ x = sock_tcp ∨ x = sock_dot ∨ x = sock_doh) as Hx.
  { intros x. rewrite !elem_of_cons, elem_of_nil. tauto. }
  destruct m as [m|]; simpl; [|rewrite Hx; tauto]. unfold perf_net_parsemode.
  repeat case_match; simpl; try done; rewrite Hx; tauto.
Qed.

Lemma tsig_exits {HM : Hmac} dec arg : value_or_exit (λ _, True) (perf_tsig_parsekey dec arg).
Proof. unfold perf_tsig_parsekey, value_or_exit. repeat case_match; first [done|congruence]. Qed.

Lemma edns_exits arg : value_or_exit (λ _, True) (perf_edns_parseoption arg).
Proof. pose proof (edns_parseoption_total arg) as H. unfold value_or_exit. by destruct (perf_edns_parseoption arg). Qed.

(** The addresses that are chosen. *)
Lemma addresses_exit {FI : FileIO} (sys : system) fam name port mode local local_port :
  (0 ≤ port ≤ 65535)%Z → (0 ≤ local_port ≤ 65535)%Z →
  value_or_exit (λ '(sa, la),
      perf_sockaddr_port sa = (if decide (port = 0)%Z then default_port mode else port) ∧ perf_sockaddr_port la = local_port ∧
      (sa_family la = AF_INET ∨ sa_family la = AF_INET6) ∧ (local = None → sa_family sa = sa_family la))
    (choose_addresses sys fam name port mode local local_port).
Proof.
  intros Hp Hl. unfold choose_addresses. apply (voe_bind (λ _, True)).
  { destruct fam as [f|]; [|done]. unfold perf_net_parsefamily. repeat case_match; done. }
  intros fa _. set (p := if decide (port = 0)%Z then default_port mode else port).
  assert (0 ≤ p ≤ 65535)%Z as Hpr by (unfold p; destruct (decide _); [destruct mode; simpl; lia|lia]). clearbody p.
  apply (voe_bind (λ sa, perf_sockaddr_port sa = p ∧ (sa_family sa = AF_INET ∨ sa_family sa = AF_INET6))).
  { unfold perf_net_parseserver. destruct (sys_addresses sys name) as [ais|]; [|done].
    induction ais as [|[f a] ais IH]; [done|]. cbn [server_loop]. destruct (decide _); [|exact IH].
    destruct (fromin_port a p ltac:(lia)) as [P4 P6]. destruct f; try exact IH; simpl; auto. }
  intros sa [Hsp Hsf]. apply (voe_bind (λ la, perf_sockaddr_port la = local_port ∧
    (sa_family la = AF_INET ∨ sa_family la = AF_INET6) ∧ (local = None → sa_family sa = sa_family la))); [|by intros la].
  unfold perf_net_parselocal.
  assert (∀ a, perf_sockaddr_port (perf_sockaddr_fromin a local_port) = local_port ∧
               perf_sockaddr_port (perf_sockaddr_fromin6 a local_port) = local_port) as Hport by (intros a; apply fromin_port; lia).
  destruct local as [l|]; simpl.
  - destruct (sys_pton4 sys l) as [a|]; [simpl; split; [apply Hport|split; [by auto|done]]|].
    destruct (sys_pton6 sys l) as [a|]; [simpl; split; [apply Hport|split; [by auto|done]]|done].
  - destruct (sa_family sa) eqn:Ef; simpl; try done; (split; [apply Hport|split; [by auto|done]]).
Qed.

(** What a configuration promises to the threads. *)
Record config_ok (cfg : config) : Prop := {
  ok_threads : (1 ≤ cf_threads cfg ≤ cf_clients cfg)%Z;
  ok_clients : (cf_clients cfg ≤ UINT32_MAX)%Z;
  ok_qps : (0 ≤ cf_max_qps cfg ≤ UINT32_MAX)%Z;
  ok_qps_threads : (0 < cf_max_qps cfg → cf_threads cfg ≤ cf_max_qps cfg)%Z;
  ok_outstanding : (1 ≤ cf_max_outstanding cfg ≤ UINT32_MAX)%Z;
  ok_ends : (0 < cf_maxruns cfg ∨ 0 < cf_timelimit cfg)%Z;
  ok_timelimit : (0 ≤ cf_timelimit cfg < 2 ^ 64)%Z;
  ok_timeout : (0 ≤ cf_timeout cfg < 2 ^ 64)%Z;
  ok_wait : (0 ≤ cf_qps_threshold_wait cfg)%Z;
  ok_edns : cf_dnssec cfg = true ∨ is_Some (cf_edns_option cfg) → cf_edns cfg = true;
  ok_binary : cf_binary_input cfg = true → cf_dnssec cfg = false ∧ cf_tsigkey cfg = None ∧ cf_updates cfg = false;
  ok_format : cf_input_format cfg = choose_format (cf_updates cfg) (cf_binary_input cfg);
  ok_mode : cf_mode cfg ∈ [sock_udp; sock_tcp; sock_dot; sock_doh];
  ok_server : (0 < perf_sockaddr_port (cf_server_addr cfg) ≤ 65535)%Z;
  ok_local : (0 ≤ perf_sockaddr_port (cf_local_addr cfg) ≤ 65535)%Z;
  ok_local_family : sa_family (cf_local_addr cfg) = AF_INET ∨ sa_family (cf_local_addr cfg) = AF_INET6;
}.

Lemma open_exits {FI : FileIO} stdin file fmt :
  value_or_exit (λ d, format d = fmt) (perf_datafile_open stdin file fmt).
Proof. unfold perf_datafile_open. destruct file as [[[f []]|]|]; done. Qed.

Section configured.
Context {FI : FileIO} {HM : Hmac} {F : Type} (EVP_DecodeUpdate : list Z → Z * list Z).

Definition started_ok (s : started) : Prop :=
  config_ok (s_config s) ∧ maxruns (s_input s) = cf_maxruns (s_config s) ∧
  format (s_input s) = cf_input_format (s_config s).

Lemma configure_ok sys (st : optstate (F := F)) :
  typed st → value_or_exit started_ok (configure EVP_DecodeUpdate sys st).
Proof.
  intros Ht. unfold configure. apply (voe_bind _ _ _ _ (suppress_exits _)). intros sup _.
  apply (voe_bind _ _ _ _ (mode_exits _)). intros mode Hmode. apply (voe_bind (λ _, True)).
  { unfold perf_net_doh_parse_uri. by destruct (parse_uri _). }
  intros uri _. apply (voe_bind (λ _, True)). { unfold perf_net_doh_parse_method. repeat case_match; done. }
  intros method _. cbv zeta. set (sp := port_var st v_server_port 0). set (lp := port_var st v_local_port _).
  assert (0 ≤ sp ≤ 65535)%Z as Hsp by (apply port_var_range; [done|done|lia]).
  assert (0 ≤ lp ≤ 65535)%Z as Hlp by (apply port_var_range; [done|done|unfold DEFAULT_LOCAL_PORT; lia]).
  apply (voe_bind _ _ _ _ (addresses_exit sys _ _ sp mode _ lp Hsp Hlp)). intros [sa la] (Psa & Pla & Fla & _).
  destruct (decide (bool_var st v_binary_input = true ∧ _)) as [|Hbin]; [done|]. apply (voe_bind _ _ _ _ (open_exits _ _ _)). intros input Hfmt.
  apply (voe_bind (λ _, True)).
  { destruct (str_var st v_tsigkey None); [|done]. by apply (voe_bind _ _ _ _ (tsig_exits _ _)). }
  intros _ _. apply (voe_bind (λ o, is_Some o → is_Some (str_var st v_edns_option None))).
  { destruct (str_var st v_edns_option None); [|by intros []].
    apply (voe_bind _ _ _ _ (edns_exits _)). intros o _ _. by eexists. }
  intros eo Heo. destruct (_ && _); [done|].
  set (w := if decide (s32 _ < 0)%Z then _ else _). assert (∀ x, w = Some x → 0 ≤ x)%Z as Hw.
  { unfold w. destruct (decide (s32 _ < 0)%Z); [apply measure_nonneg|]. intros x [= <-]. lia. }
  destruct w as [wait|]; [|done]. specialize (Hw wait eq_refl).
  pose proof (uint_var_1 st v_clients 1 Ht eq_refl ltac:(unfold UINT32_MAX; lia)) as Hc.
  pose proof (uint_var_1 st v_threads 1 Ht eq_refl ltac:(unfold UINT32_MAX; lia)) as Hth.
  pose proof (uint_var_1 st v_max_outstanding DEFAULT_MAX_OUTSTANDING Ht eq_refl
    ltac:(unfold UINT32_MAX, DEFAULT_MAX_OUTSTANDING; lia)) as Hmo.
  pose proof (uint_var_0 st v_max_qps Ht eq_refl) as Hq. pose proof (uint_var_0 st v_maxruns Ht eq_refl) as Hmr.
  pose proof (time_var_range st v_timelimit 0 Ht eq_refl ltac:(lia)) as Htl.
  destruct (lower_threads_spec _ _ (uint_var st v_threads 1) (proj1 Hq) (proj1 Hc) (proj1 Hth)) as (L1 & _ & L2 & _).
  split; [|done]. split; cbn [s_config cf_threads cf_clients cf_max_qps cf_max_outstanding cf_maxruns cf_timelimit cf_timeout
    cf_qps_threshold_wait cf_dnssec cf_edns cf_edns_option cf_binary_input cf_tsigkey cf_updates cf_input_format cf_mode
    cf_server_addr cf_local_addr]; try done; try lia.
  - destruct (decide (_ = 0 ∧ _ = 0)%Z); lia.
  - apply time_var_range; [done|done|unfold DEFAULT_TIMEOUT, MILLION; lia].
  - intros [->|Ho]; [by rewrite orb_true_r|]. rewrite bool_decide_true by auto. by rewrite orb_true_r.
  - intros Hb. assert (∀ P, (bool_var st v_binary_input = true ∧ P → False) → ¬ P) as Hno by (intros P HP Hx; by apply HP).
    apply Hno in Hbin. split; [apply not_true_is_false; tauto|].
    split; [apply eq_None_not_Some; tauto|apply not_true_is_false; tauto].
  - rewrite Psa. destruct (decide (sp = 0)%Z); [destruct mode; simpl; lia|lia].
Qed.
End configured.

(** ** The threads *)

(** A socket of a thread, and the address it is bound to. *)
Record client : Type := Client { cl_addr : perf_sockaddr; cl_sock : net_socket }.

(** What all sockets of a program share. *)
Record transport : Type := Transport {
  tr_mode : perf_net_mode; tr_server : perf_sockaddr; tr_local : perf_sockaddr; tr_bufsize : Z;
  tr_num_queries_per_conn : Z; tr_timeout : Z;
}.
Definition transport_of (cfg : config) : transport :=
  Transport (cf_mode cfg) (cf_server_addr cfg) (cf_local_addr cfg) (cf_bufsize cfg) (cf_num_queries_per_conn cfg)
    (cf_timeout cfg).

(** The loop of [threadinfo_init] that opens [n] sockets, from [socket_offset]; [net] has what the
    system answers for each socket of the program. *)
Fixpoint open_sockets (tr : transport) (net : nat → opening) (n : nat) (socket_offset : Z) : run (list client) :=
  match n with
  | 0 => Done []
  | S n' =>
      '(a, s) ← opensocket_full (tr_mode tr) (tr_server tr) (tr_local tr) socket_offset (tr_bufsize tr)
                  (net (Z.to_nat socket_offset));
      let s := if decide (tr_num_queries_per_conn tr ≠ 0)%Z
               then limit_per_conn (tr_num_queries_per_conn tr) (tr_timeout tr) s else s in
      rest ← open_sockets tr net n' (u32 (socket_offset + 1));
      Done (Client a s :: rest)
  end.

(** [threadinfo_init] for the thread after those in [before], with its sockets. *)
Definition start_thread (cfg : config) (net : nat → opening) (before : list (threadinfo * list client))
    : run (threadinfo * list client) :=
  ti ← threadinfo_init (cf_max_outstanding cfg) (cf_max_qps cfg) (cf_clients cfg) (cf_threads cfg) (Z.of_nat (length before));
  let socket_offset := foldl (λ o t, u32 (o + Z.of_nat (nsocks t.1))) 0%Z before in
  socks ← open_sockets (transport_of cfg) net (nsocks ti) socket_offset;
  Done (ti, socks).

(** The loop of [main]. *)
Fixpoint start_threads (cfg : config) (net : nat → opening) (n : nat) (before : list (threadinfo * list client))
    : run (list (threadinfo * list client)) :=
  match n with
  | 0 => Done before
  | S n' => t ← start_thread cfg net before; start_threads cfg net n' (before ++ [t])
  end.

(** [times.stop_time] and [times.stop_time_ns]. *)
Definition stop_time (cfg : config) (start : Z) : Z :=
  if decide (0 < cf_timelimit cfg)%Z then u64 (start + cf_timelimit cfg) else UINT64_MAX.
Definition stop_time_ns (t : Z) : Z * Z := (t / MILLION, t mod MILLION * 1000)%Z.

Record transport_ok (tr : transport) : Prop := {
  tr_ok_mode : tr_mode tr ∈ [sock_udp; sock_tcp; sock_dot; sock_doh];
  tr_ok_local : (0 ≤ perf_sockaddr_port (tr_local tr) ≤ 65535)%Z;
  tr_ok_family : sa_family (tr_local tr) = AF_INET ∨ sa_family (tr_local tr) = AF_INET6;
}.

Section sockets.
Context (tr : transport) (net : nat → opening) (Htr : transport_ok tr).

Notation base := (perf_sockaddr_port (tr_local tr)).

(** What is asked of client number [j]: its socket is bound to its own port, was opened with the
    answers for it, and knows the limit on the queries of a connection. *)
Definition client_ok (j : nat) (c : client) : Prop :=
  sa_addr (cl_addr c) = sa_addr (tr_local tr) ∧
  perf_sockaddr_port (cl_addr c) = (if decide (base = 0)%Z then 0 else base + Z.of_nat j)%Z ∧
  opens (tr_mode tr) (net j) ∧ opened (tr_mode tr) (cl_addr c) (net j) (cl_sock c) ∧
  sk_limit (cl_sock c) = (if decide (tr_num_queries_per_conn tr ≠ 0 ∧ has_limit (tr_mode tr) = true)%Z
                          then (tr_num_queries_per_conn tr, tr_timeout tr) else (0, 0)%Z).

(** Why a socket cannot be opened: the addresses are of different families, the ports run out, or
    a call that has to succeed fails. *)
Definition refused (j : nat) : Prop :=
  sa_family (tr_server tr) ≠ sa_family (tr_local tr) ∨ (base ≠ 0 ∧ 65535 ≤ base + Z.of_nat j)%Z ∨
  ¬ opens (tr_mode tr) (net j).

(** The [j]-th socket, after those before it could be opened. *)
Lemma open_socket_spec j :
  (base ≠ 0 → base + Z.of_nat j ≤ 65536)%Z →
  match perf_net_opensocket (tr_mode tr) (tr_server tr) (tr_local tr) (Z.of_nat j) with
  | Done (m, a) =>
      m = tr_mode tr ∧ sa_addr a = sa_addr (tr_local tr) ∧
      perf_sockaddr_port a = (if decide (base = 0)%Z then 0 else base + Z.of_nat j)%Z ∧
      (base ≠ 0 → base + Z.of_nat (S j) ≤ 65536)%Z
  | Exit c => c = 1%Z ∧ refused j
  | _ => False
  end.
Proof.
  intros Hj. destruct Htr as [Hm Hb Hf].
  destruct (decide (sa_family (tr_server tr) = sa_family (tr_local tr))) as [Hsf|Hsf].
  2: { unfold perf_net_opensocket. rewrite decide_True by done. split; [done|by left]. }
  destruct (decide (base = 0)%Z) as [E0|E0].
  - unfold perf_net_opensocket. rewrite decide_False by (by intros []). cbv zeta. rewrite E0.
    rewrite decide_False by tauto. cbn [mbind run_bind]. rewrite !elem_of_cons, elem_of_nil in Hm.
    destruct Hm as [->|[->|[->|[->|[]]]]]; (split_and!; [done|done|by rewrite E0|done]).
  - specialize (Hj E0). pose proof (net_client_ports (tr_mode tr) _ _ base (Z.of_nat j) Hsf Hf Hm eq_refl ltac:(lia) ltac:(lia)) as Hn.
    destruct (perf_net_opensocket _ _ _ _) as [[m a]| | | |]; try done.
    + destruct Hn as (-> & -> & -> & Hlt). rewrite decide_False by done. split_and!; [done|done|done|].
      intros _. destruct j as [|j]; [lia|]. specialize (Hlt E0 ltac:(lia)). lia.
    + destruct Hn as [-> [_ Hr]]. split; [done|]. right. by left.
Qed.

(** The limit a socket gets. *)
Lemma limited_client mode a b s :
  opened mode a b s → sk_limit s = (0, 0)%Z →
  let s' := if decide (tr_num_queries_per_conn tr ≠ 0)%Z then limit_per_conn (tr_num_queries_per_conn tr) (tr_timeout tr) s
            else s in
  opened mode a b s' ∧
  sk_limit s' = (if decide (tr_num_queries_per_conn tr ≠ 0 ∧ has_limit mode = true)%Z
                 then (tr_num_queries_per_conn tr, tr_timeout tr) else (0, 0)%Z).
Proof.
  intros Ho Hl. cbv zeta. destruct (decide (tr_num_queries_per_conn tr ≠ 0)%Z) as [Hn|Hn].
  - split; [by apply limit_opened|]. rewrite limit_set by done. destruct Ho as [-> _ _ _].
    destruct (has_limit mode); [by rewrite decide_True|]. rewrite decide_False; [done|]. by intros [].
  - split; [done|]. rewrite decide_False; [done|]. by intros [].
Qed.

Lemma opensocket_full_spec j :
  (base ≠ 0 → base + Z.of_nat j ≤ 65536)%Z →
  match opensocket_full (tr_mode tr) (tr_server tr) (tr_local tr) (Z.of_nat j) (tr_bufsize tr) (net j) with
  | Done (a, s) =>
      sa_addr a = sa_addr (tr_local tr) ∧ perf_sockaddr_port a = (if decide (base = 0)%Z then 0 else base + Z.of_nat j)%Z ∧
      (base ≠ 0 → base + Z.of_nat (S j) ≤ 65536)%Z ∧
      opens (tr_mode tr) (net j) ∧ opened (tr_mode tr) a (net j) s ∧ sk_limit s = (0, 0)%Z
  | Exit c => c = 1%Z ∧ refused j
  | _ => False
  end.
Proof.
  intros Hb. unfold opensocket_full. pose proof (open_socket_spec j Hb) as Ho.
  destruct (perf_net_opensocket _ _ _ _) as [[m a]| | | |]; cbn [mbind run_bind]; try done.
  destruct Ho as (-> & Ha & Hp & Hb').
  pose proof (open_transport_spec (tr_mode tr) (tr_server tr) a (tr_bufsize tr) (net j) (tr_ok_mode tr Htr)) as Ht.
  destruct (open_transport _ _ _ _ _) as [s| | | |]; cbn [mbind run_bind]; try done.
  destruct Ht as [-> Ht]. split; [done|]. right. by right.
Qed.

Lemma open_sockets_spec n j :
  (base ≠ 0 → base + Z.of_nat j ≤ 65536)%Z → (Z.of_nat (j + n) ≤ UINT32_MAX)%Z →
  match open_sockets tr net n (Z.of_nat j) with
  | Done cs =>
      length cs = n ∧ (∀ k c, cs !! k = Some c → client_ok (j + k) c) ∧ (base ≠ 0 → base + Z.of_nat (j + n) ≤ 65536)%Z
  | Exit c => c = 1%Z ∧ ∃ k, k < n ∧ refused (j + k)
  | _ => False
  end.
Proof.
  revert j. induction n as [|n IH]; intros j Hb Hn; cbn [open_sockets].
  { rewrite Nat.add_0_r. split; [done|]. split; [|done]. intros k c Hk. by rewrite lookup_nil in Hk. }
  rewrite Nat2Z.id. pose proof (opensocket_full_spec j Hb) as Ho.
  destruct (opensocket_full _ _ _ _ _ _) as [[a s]| | | |]; cbn [mbind run_bind]; try done.
  2: { destruct Ho as [-> Hr]. split; [done|]. exists 0. rewrite Nat.add_0_r. split; [lia|done]. }
  destruct Ho as (Ha & Hp & Hb' & Hops & Hop & Hlim). rewrite u32_small by (unfold UINT32_MAX in Hn; lia).
  replace (Z.of_nat j + 1)%Z with (Z.of_nat (S j)) by lia. specialize (IH (S j) Hb' ltac:(lia)).
  destruct (limited_client _ _ _ _ Hop Hlim) as [Hop' Hlim']. set (s' := if decide (_ ≠ 0)%Z then _ else s) in *. clearbody s'.
  destruct (open_sockets tr net n (Z.of_nat (S j))) as [cs| | | |]; cbn [mbind run_bind]; try done.
  - destruct IH as (Hl & Hc & Hb2). split; [simpl; by f_equal|]. split; [|by rewrite <- Nat.add_succ_comm].
    intros [|k] c Hk; simpl in Hk; [|rewrite <- Nat.add_succ_comm; by apply Hc]. injection Hk as <-. by rewrite Nat.add_0_r.
  - destruct IH as (-> & k & Hk & Hr). split; [done|]. exists (S k). rewrite <- Nat.add_succ_comm. split; [lia|done].
Qed.

End sockets.

Lemma config_transport cfg : config_ok cfg → transport_ok (transport_of cfg).
Proof. by intros [_ _ _ _ _ _ _ _ _ _ _ _ Hm _ Hb Hf]. Qed.

Section threads.
Context (cfg : config) (net : nat → opening) (Hcfg : config_ok cfg).

Notation base := (perf_sockaddr_port (cf_local_addr cfg)).
Notation share k := (per_thread (cf_clients cfg) (cf_threads cfg) (Z.of_nat k)).

Lemma share_value k :
  share k = (cf_clients cfg / cf_threads cfg + (if decide (Z.of_nat k < cf_clients cfg mod cf_threads cfg) then 1 else 0))%Z.
Proof. destruct Hcfg as [Ht Hc _ _ _ _ _ _ _ _ _ _ _ _ _ _]. unfold UINT32_MAX in Hc. apply per_thread_value; lia. Qed.

Lemma share_pos k : (1 ≤ share k)%Z.
Proof.
  rewrite share_value. destruct Hcfg as [Ht _ _ _ _ _ _ _ _ _ _ _ _ _ _ _].
  pose proof (Z.div_le_lower_bound (cf_clients cfg) (cf_threads cfg) 1 ltac:(lia) ltac:(lia)). destruct (decide _); lia.
Qed.

Lemma shares_bound m :
  (Z.of_nat m ≤ cf_threads cfg)%Z → (sumZ (map (λ k, share k) (seq 0 m)) ≤ cf_clients cfg)%Z.
Proof.
  intros Hm. destruct Hcfg as [Ht _ _ _ _ _ _ _ _ _ _ _ _ _ _ _].
  rewrite (map_ext _ _ (λ k, share_value k)). pose proof (Z.mod_pos_bound (cf_clients cfg) (cf_threads cfg) ltac:(lia)).
  rewrite sum_steps by lia. pose proof (Z.div_mod (cf_clients cfg) (cf_threads cfg) ltac:(lia)).
  pose proof (Z.div_pos (cf_clients cfg) (cf_threads cfg) ltac:(lia) ltac:(lia)). nia.
Qed.

Notation socks ths := (concat (map snd ths)).

(** The threads that have been started. *)
Record started_threads (ths : list (threadinfo * list client)) : Prop := {
  st_init k t : ths !! k = Some t →
    threadinfo_init (cf_max_outstanding cfg) (cf_max_qps cfg) (cf_clients cfg) (cf_threads cfg) (Z.of_nat k) = Done t.1 ∧
    length t.2 = nsocks t.1;
  st_clients j c : socks ths !! j = Some c → client_ok (transport_of cfg) net j c;
  st_offset : foldl (λ o t, u32 (o + Z.of_nat (nsocks t.1))) 0%Z ths = Z.of_nat (length (socks ths));
  st_total : (Z.of_nat (length (socks ths)) ≤ sumZ (map (λ k, share k) (seq 0 (length ths))))%Z;
  st_ports : (base ≠ 0 → base + Z.of_nat (length (socks ths)) ≤ 65536)%Z;
}.

Lemma start_thread_spec ths :
  started_threads ths → (Z.of_nat (length ths) < cf_threads cfg)%Z →
  match start_thread cfg net ths with
  | Done t => started_threads (ths ++ [t])
  | Exit c => c = 1%Z ∧ ∃ k, (Z.of_nat k < cf_clients cfg)%Z ∧ refused (transport_of cfg) net k
  | _ => False
  end.
Proof.
  intros [H1 H2 H3 H4 H5] Hn. unfold start_thread. set (off := Z.of_nat (length ths)).
  destruct (init_done (cf_max_outstanding cfg) (cf_max_qps cfg) (cf_clients cfg) (cf_threads cfg) off) as [ti Ei].
  rewrite Ei. cbn [mbind run_bind]. rewrite H3. destruct (init_fields _ _ _ _ _ _ Ei) as (_ & _ & _ & Hns).
  pose proof (share_pos (length ths)) as Hpos. fold off in Hpos.
  pose proof (shares_bound (S (length ths)) ltac:(lia)) as Hsb. rewrite seq_S, map_app, sumZ_app in Hsb. simpl in Hsb.
  fold off in Hsb. destruct Hcfg as [_ Hc _ _ _ _ _ _ _ _ _ _ _ _ _ _].
  assert (Z.of_nat (nsocks ti) ≤ share (length ths))%Z as Hle by (fold off; lia). fold off in Hle.
  pose proof (open_sockets_spec (transport_of cfg) net (config_transport cfg Hcfg) (nsocks ti) (length (socks ths)) H5 ltac:(lia)) as Ho.
  destruct (open_sockets (transport_of cfg) net (nsocks ti) _) as [cs| |c| |]; cbn [mbind run_bind]; [|exact Ho| |exact Ho|exact Ho].
  2: { destruct Ho as (-> & k & Hk & Hr). split; [reflexivity|]. exists (length (socks ths) + k). split; [lia|exact Hr]. }
  destruct Ho as (Hl & Hcl & Hb). split.
  - intros k t Hk. apply lookup_app_Some in Hk as [Hk|[Hge Hk]]; [exact (H1 k t Hk)|].
    apply list_lookup_singleton_Some in Hk as [Hk <-]. replace k with (length ths) by lia. exact (conj Ei Hl).
  - clear Ei. intros j c. rewrite map_app, concat_app. simpl. rewrite app_nil_r. intros Hj.
    apply lookup_app_Some in Hj as [Hj|[Hge Hj]]; [by apply H2|]. replace j with (length (socks ths) + (j - length (socks ths))) by lia.
    by apply Hcl.
  - clear Ei. rewrite foldl_app, H3, map_app, concat_app. simpl. rewrite app_nil_r, length_app, Hl, u32_small; [lia|].
    unfold UINT32_MAX in Hc. lia.
  - clear Ei. replace (length (ths ++ [(ti, cs)])) with (S (length ths)) by (rewrite length_app; simpl; lia).
    rewrite seq_S, !map_app, sumZ_app, concat_app, length_app.
    simpl. rewrite app_nil_r, Hl. fold off. lia.
  - clear Ei. intros Hb0. rewrite map_app, concat_app, length_app. simpl. rewrite app_nil_r, Hl. by apply Hb.
Qed.

Lemma start_threads_spec n ths :
  started_threads ths → (Z.of_nat (length ths + n) ≤ cf_threads cfg)%Z →
  match start_threads cfg net n ths with
  | Done ths' => started_threads ths' ∧ length ths' = length ths + n
  | Exit c => c = 1%Z ∧ ∃ k, (Z.of_nat k < cf_clients cfg)%Z ∧ refused (transport_of cfg) net k
  | _ => False
  end.
Proof.
  revert ths. induction n as [|n IH]; intros ths Hs Hn; cbn [start_threads]; [split; [done|lia]|].
  pose proof (start_thread_spec ths Hs ltac:(lia)) as Ht. destruct (start_thread cfg net ths) as [t| |c| |];
    cbn [mbind run_bind]; [|exact Ht..].
  specialize (IH (ths ++ [t]) Ht). rewrite length_app in IH. simpl in IH. specialize (IH ltac:(lia)).
  destruct (start_threads cfg net n (ths ++ [t])) as [ths'| |c| |]; [|exact IH..]. destruct IH as [? ?]. split; [assumption|lia].
Qed.

Lemma no_threads : started_threads [].
Proof. destruct Hcfg as [_ _ _ _ _ _ _ _ _ _ _ _ _ _ Hb _]. split; simpl; try done. lia. Qed.
End threads.

(** ** Theorems *)

Lemma setup_started {FI : FileIO} {HM : Hmac} {F} (atof : list Z → F) micros EVP_DecodeUpdate sys getopt :
  match setup atof micros EVP_DecodeUpdate sys getopt with
  | Done s => started_ok s
  | Exit c => c = 0%Z ∨ c = 1%Z
  | _ => False
  end.
Proof.
  unfold setup.
  pose proof (read_options_typed atof micros short_options long_options getopt) as Hr.
  assert (length short_options + 3 ≤ MAX_OPTS) as H1 by (by apply (bool_decide_unpack _)).
  assert (defaults_fit short_options ∧ defaults_fit long_options) as [H2 H3] by (split; by apply defaults_check).
  specialize (Hr H1 H2 H3). destruct (read_options _ _ _ _ _) as [st| | | |]; simpl; try done.
  pose proof (configure_ok EVP_DecodeUpdate sys st Hr) as Hc.
  destruct (configure EVP_DecodeUpdate sys st) as [s|c| | |]; simpl in *; try done. by right.
Qed.

(** C30: Every command line either ends the program with status 0 or 1 or gives a configuration the
    threads can work with: there are at least as many clients, and queries per second if they
    are limited, as threads, so each thread gets at least one; a run without a time limit reads
    its input a limited number of times; ports, modes and times are in their ranges; and the
    DNSSEC bit and EDNS options imply EDNS. *)
Theorem setup_configures {FI : FileIO} {HM : Hmac} {F} (atof : list Z → F) micros EVP_DecodeUpdate sys getopt :
  match setup atof micros EVP_DecodeUpdate sys getopt with
  | Done s =>
      config_ok (s_config s) ∧ maxruns (s_input s) = cf_maxruns (s_config s) ∧
      format (s_input s) = cf_input_format (s_config s) ∧
      ∀ k : nat, let cfg := s_config s in
        (1 ≤ per_thread (cf_clients cfg) (cf_threads cfg) (Z.of_nat k))%Z ∧
        (0 < cf_max_qps cfg → 1 ≤ per_thread (cf_max_qps cfg) (cf_threads cfg) (Z.of_nat k))%Z
  | Exit c => c = 0%Z ∨ c = 1%Z
  | _ => False
  end.
Proof.
  pose proof (setup_started atof micros EVP_DecodeUpdate sys getopt) as Hs.
  destruct (setup _ _ _ _ _) as [s|c| | |]; [|done..]. destruct Hs as (Hok & Hm & Hf).
  split; [done|]. split; [done|]. split; [done|]. intros k.
  split; [by apply share_pos|]. intros Hq. destruct Hok as [Ht Hcl Hqr Hqt _ _ _ _ _ _ _ _ _ _ _ _]. specialize (Hqt Hq).
  unfold UINT32_MAX in *. rewrite per_thread_value by lia.
  pose proof (Z.div_le_lower_bound (cf_max_qps (s_config s)) (cf_threads (s_config s)) 1 ltac:(lia) ltac:(lia)).
  destruct (decide _); lia.
Qed.

(** C32: The sockets of all threads: each thread gets its share of the clients, at least one and at
    most [MAX_SOCKETS]; the clients of all threads together are numbered without gaps, and with
    a local port given client [j] uses that port plus [j], so no two share one.  Each has a
    descriptor of its own that is bound to its address and does not block, and the limit on the
    queries of a connection.  Opening them ends the process with status 1, and only when the
    addresses are of different families, the ports run out, or one of the calls that have to
    succeed fails: the memory, [socket], [bind], [fcntl], [connect], OpenSSL or nghttp2. *)
Theorem threads_sockets cfg net :
  config_ok cfg →
  match start_threads cfg net (Z.to_nat (cf_threads cfg)) [] with
  | Done ths =>
      length ths = Z.to_nat (cf_threads cfg) ∧
      (∀ k t, ths !! k = Some t →
         Z.of_nat (length t.2) = Z.min 256 (per_thread (cf_clients cfg) (cf_threads cfg) (Z.of_nat k)) ∧
         nsocks t.1 = length t.2 ∧ 1 ≤ length t.2) ∧
      (∀ j c, concat (map snd ths) !! j = Some c → client_ok (transport_of cfg) net j c) ∧
      (perf_sockaddr_port (cf_local_addr cfg) ≠ 0%Z →
         NoDup (map (λ c, perf_sockaddr_port (cl_addr c)) (concat (map snd ths))))
  | Exit c => c = 1%Z ∧ ∃ j, (Z.of_nat j < cf_clients cfg)%Z ∧ refused (transport_of cfg) net j
  | _ => False
  end.
Proof.
  intros Hok. pose proof Hok as [Ht _ _ _ _ _ _ _ _ _ _ _ _ _ _ _].
  pose proof (start_threads_spec cfg net Hok (Z.to_nat (cf_threads cfg)) [] (no_threads cfg net Hok) ltac:(simpl; lia)) as Hs.
  destruct (start_threads cfg net _ []) as [ths| |c| |]; [|exact Hs..]. destruct Hs as [[H1 H2 _ _ _] Hl].
  split; [exact Hl|]. split.
  { intros k t Hk. destruct (H1 k t Hk) as [Ei Hlt]. destruct (init_fields _ _ _ _ _ _ Ei) as (_ & _ & _ & Hns). clear Ei.
    pose proof (share_pos cfg Hok k). unfold MAX_SOCKETS in Hns. rewrite Hlt. split; [|split; [reflexivity|]]; rewrite Hns; lia. }
  split; [exact H2|]. intros Hb. apply NoDup_alt. intros i j p Hi Hj.
  apply list_lookup_fmap_Some in Hi as (ci & -> & Hi). apply list_lookup_fmap_Some in Hj as (cj & E & Hj).
  destruct (H2 i ci Hi) as (_ & Pi & _). destruct (H2 j cj Hj) as (_ & Pj & _).
  rewrite decide_False in Pi, Pj by exact Hb. lia.
Qed.

(** Three clients in two threads, from port 5000 on. *)
Definition example_config : config :=
  Config 3 2 1 0 (perf_sockaddr_fromin [127; 0; 0; 1]%Z 53) (perf_sockaddr_fromin INADDR_ANY 5000) 5000000 0 false false None None
    100 0 0 false false false input_format_text_query false sock_tcp (Suppress false false false false false) 10 false 3.
(** The sockets get the descriptors from 5 on. *)
Definition example_net : nat → opening := λ j, plain_opening (5 + Z.of_nat j).

Lemma threads_sockets_witness :
  ∃ ths, start_threads example_config example_net 2 [] = Done ths ∧ length ths = 2 ∧
         (∀ j c, concat (map snd ths) !! j = Some c → sk_fd (cl_sock c) = (5 + Z.of_nat j)%Z ∧ sk_limit (cl_sock c) = (10, 5000000)%Z) ∧
         NoDup (map (λ c, perf_sockaddr_port (cl_addr c)) (concat (map snd ths))).
Proof.
  assert (config_ok example_config) as Hok.
  { split; cbn [example_config cf_threads cf_clients cf_max_qps cf_max_outstanding cf_maxruns cf_timelimit cf_timeout
      cf_qps_threshold_wait cf_dnssec cf_edns cf_edns_option cf_binary_input cf_tsigkey cf_updates cf_input_format cf_mode
      cf_server_addr cf_local_addr]; unfold UINT32_MAX; try lia; try done.
    - by intros [?|[? ?]].
    - apply (bool_decide_unpack _). reflexivity.
    - by left. }
  pose proof (threads_sockets example_config example_net Hok) as H. change (Z.to_nat (cf_threads example_config)) with 2 in H.
  destruct (start_threads example_config example_net 2 []) as [ths| |c| |]; [|destruct H| |destruct H..].
  - exists ths. destruct H as (Hl & _ & Hc & Hn). split; [reflexivity|]. split; [exact Hl|]. split; [|apply Hn; discriminate].
    intros j c Hj. destruct (Hc j c Hj) as (_ & _ & _ & [_ Hfd _ _] & Hlim). split; [exact Hfd|exact Hlim].
  - destruct H as (_ & j & Hj & [Hr|[[_ Hr]|Hr]]); [by destruct Hr| |].
    + change (perf_sockaddr_port (tr_local (transport_of example_config))) with 5000%Z in Hr. change (cf_clients example_config) with 3%Z in Hj. lia.
    + destruct Hr. unfold opens, example_net, plain_opening. cbn [op_memory op_fd op_bind op_flags op_setfl op_libraries op_connect].
      split_and!; try lia; done.
Defined.

(** ** Command lines *)

(** C31: dnsperf does what its command line says: the options may be written in any style, flags
    sharing a dash, arguments attached or as words of their own, short or long; when each gives
    some variable a value, [setup] goes on to configure the program with exactly these values,
    the last one where a variable was given several. *)
Theorem setup_reads_command_line {FI : FileIO} {HM : Hmac} {F} (atof : list Z → F) micros EVP_DecodeUpdate sys ws vs :
  let st := all_registered short_options long_options in
  Forall (word_ok (opts st ++ help_opts)) ws →
  Forall2 (sets atof micros st) (concat (map word_options ws)) vs →
  ∃ st', setup atof micros EVP_DecodeUpdate sys (argv (concat (map word_args ws))) = configure EVP_DecodeUpdate sys st' ∧
    store st' = apply_sets vs ∅.
Proof.
  intros st Hws Hvs. unfold setup.
  rewrite read_options_registered; [|by apply (bool_decide_unpack _)|by apply defaults_check..].
  fold st. rewrite (command_line_read atof micros st ws vs); [by eexists|by apply (bool_decide_unpack _)|done| |done|done].
  by apply (bool_decide_unpack _).
Qed.

Section command_lines.
Context {FI : FileIO} {HM : Hmac} {F : Type} (atof : list Z → F) (micros : F → Z) (EVP_DecodeUpdate : list Z → Z * list Z).
Context (stdin : fio) (files : list Z → option (fio * option nat)).

(** A system where every name is that of the local host. *)
Definition local_system : system :=
  System (λ _, Some [(AF_INET, [127; 0; 0; 1]%Z)]) (λ _, None) (λ _, None) stdin files (Some (0, 0, (0, 300000))%Z) true.

Notation dnsperf args := (setup atof micros EVP_DecodeUpdate local_system (argv args)).

(** Without options one client and one thread send the queries of the input once over UDP to
    port 53, with at most 100 outstanding and a timeout of 5 seconds. *)
Theorem setup_defaults :
  match dnsperf [] with
  | Done s =>
      let c := s_config s in
      (cf_clients c, cf_threads c, cf_maxruns c, cf_timelimit c, cf_timeout c) = (1, 1, 1, 0, 5000000)%Z ∧
      (cf_max_outstanding c, cf_max_qps c, cf_mode c, cf_edns c) = (100%Z, 0%Z, sock_udp, false) ∧
      perf_sockaddr_port (cf_server_addr c) = 53%Z ∧ cf_qps_threshold_wait c = 9%Z
  | _ => False
  end.
Proof. vm_compute. split_and!; reflexivity. Qed.

(** [-B] with [-E] is accepted, although the message says that they exclude each other. *)
Theorem setup_binary_with_option :
  match dnsperf [bytes "-B"; bytes "-E"; bytes "1:00"] with
  | Done s => cf_binary_input (s_config s) = true ∧ is_Some (cf_edns_option (s_config s))
  | _ => False
  end.
Proof. vm_compute. split; [reflexivity|by eexists]. Qed.

(** With two threads and one query outstanding ([-T 2 -c 2 -q 1]) the second thread may have none
    outstanding: it never takes a query, in any state it can be in. *)
Theorem setup_starves_thread :
  match dnsperf [bytes "-T2"; bytes "-c2"; bytes "-q1"] with
  | Done s =>
      let c := s_config s in
      cf_threads c = 2%Z ∧ per_thread (cf_max_outstanding c) (cf_threads c) 1 = 0%Z
  | _ => False
  end ∧
  ∀ ready ti, max_outstanding ti = 0%Z → take_query ready ti = Done (TakeBusy, ti).
Proof.
  split; [vm_compute; split; reflexivity|]. intros ready ti Hm. unfold take_query. rewrite (bind_Done get _ _ _ _ eq_refl).
  rewrite decide_True; [reflexivity|]. rewrite Hm. unfold num_outstanding. destruct (decide _); [lia|apply u64_range].
Qed.
End command_lines.

(** The options dnsperf lists with [-h]; the synopsis has no line of 80 characters. *)
Theorem dnsperf_usage :
  let os := opts (all_registered (F := Z) short_options long_options) ++ help_opts in
  let prefix := bytes "Usage: dnsperf" in
  ∃ g gs, os = g ++ concat gs ∧
    perf_opt_usage (bytes "dnsperf") os =
      (prefix ++ items g) ++ concat (map (λ g, nl ++ replicate (length prefix) 32%Z ++ items g) gs) ++ nl ++
      concat (map help_line os) ∧
    Forall (λ g, Z.of_nat (length prefix) + Z.of_nat (length (items g)) ≤ LINE_LENGTH - 1)%Z (g :: gs).
Proof. apply (usage_wraps (bytes "dnsperf")); by apply (bool_decide_unpack _). Qed.

(** [-vT4 -c 8 -O num-queries-per-conn=5 -T2]. *)
Definition small_system : @system chunked_io := local_system (CFile small_text 0 [] : @fio chunked_io) (λ _, None).

Lemma setup_reads_command_line_witness :
  ∃ st', setup (FI := chunked_io) (HM := plain_hmac) (F := Z) (λ _, 0%Z) id (λ s, (0%Z, s)) small_system
    (argv [bytes "-vT4"; bytes "-c"; bytes "8"; bytes "-O"; bytes "num-queries-per-conn=5"; bytes "-T2"]) =
    configure (FI := chunked_io) (HM := plain_hmac) (F := Z) (λ s, (0%Z, s)) small_system st' ∧
  store st' = apply_sets [(place v_verbose, VBool true); (place v_threads, VUint 4); (place v_clients, VUint 8);
                          (place v_num_queries_per_conn, VUint 5); (place v_threads, VUint 2)] ∅.
Proof.
  set (o0 := Opt 0 perf_opt_string None [] None 0). set (l0 := LongOpt [] perf_opt_string None [] None 0).
  set (st := all_registered (F := Z) short_options long_options).
  apply (setup_reads_command_line (FI := chunked_io) (HM := plain_hmac) (λ _, 0%Z) id (λ s, (0%Z, s)) small_system
    [Attached [118%Z] 84 (bytes "4"); Separate [] 99 (bytes "8"); Separate [] 79 (bytes "num-queries-per-conn=5");
     Attached [] 84 (bytes "2")]).
  - repeat (apply Forall_cons; split); try apply Forall_nil; repeat split; try done;
      try (eexists; split; [reflexivity|done]); repeat constructor; eexists; split; reflexivity.
  - repeat apply Forall2_cons_2; [..|apply Forall2_nil_2].
    + refine (sets_short _ _ st 118 [] (default o0 (find_opt 118 (opts st))) _ _ _ _); try done; by apply (bool_decide_unpack _).
    + refine (sets_short _ _ st 84 _ (default o0 (find_opt 84 (opts st))) _ _ _ _); try done; by apply (bool_decide_unpack _).
    + refine (sets_short _ _ st 99 _ (default o0 (find_opt 99 (opts st))) _ _ _ _); try done; by apply (bool_decide_unpack _).
    + refine (sets_long _ _ st (bytes "num-queries-per-conn") (bytes "5")
        (default l0 (find_long (bytes "num-queries-per-conn=5") 20 (longopts st))) _ _ _ _ _ _);
        try done; by apply (bool_decide_unpack _).
    + refine (sets_short _ _ st 84 _ (default o0 (find_opt 84 (opts st))) _ _ _ _); try done; by apply (bool_decide_unpack _).
Defined.
