(* ===== verification/Finish.v ===== *)
(** * The end of a dnsperf run (dnsperf.c, [main] from the wait on, [threadinfo_cleanup],
    [print_final_status]; net.c, [perf_net_stats_*])

    After the wait the main thread joins the threads, cancels what is outstanding when the run
    was interrupted, collects the statistics of the sockets and the time of the last response,
    and adds up the counters.  The theorems show that the totals account for every query that
    was sent, over all threads and all interleavings inside each of them. *)

From S2P Require Import Prelude LinkedList Net Datafile Stats Queries DoSend Dnsperf NetDoh Setup.

(** The wait of [main]: the time limit, as the unsigned difference that becomes an [int64_t];
    whether the run was interrupted. *)
Definition main_wait (start stop : Z) (poll : Z → poll_result) : run bool :=
  result ← perf_os_waituntilanyreadable [false] (s64 (u64 (stop - start))) poll;
  Done (bool_decide (result = PERF_R_CANCELED)).

(** [times->end_time] and the statistics of DoH, which [threadinfo_cleanup] updates. *)
Record ending : Type := Ending { end_time : Z; doh_total : doh_stats }.

(** [perf_net_stats_compile(mode, sock)]; the sockets of another mode have no statistics. *)
Definition perf_net_stats_compile (mode : perf_net_mode) (total : doh_stats) (sock : doh) : doh_stats :=
  match mode with sock_doh => doh_stats_compile total sock | _ => total end.

(** [threadinfo_cleanup(config, tinfo, times)]. *)
Definition threadinfo_cleanup (mode : perf_net_mode) (interrupted : bool) (t : threadinfo) (socks : list doh)
    (e : ending) : run (threadinfo * ending) :=
  '(_, t) ← (if interrupted : bool then cancel_queries (S NQIDS) else mret ()) t;
  let total := foldl (perf_net_stats_compile mode) (doh_total e) socks in
  Done (t, Ending (if decide (end_time e < last_recv t)%Z then last_recv t else end_time e) total).

(** The loop over the threads, from [perf_net_stats_init] on. *)
Fixpoint cleanup_threads (mode : perf_net_mode) (interrupted : bool) (ts : list (threadinfo * list doh))
    (e : ending) : run (list threadinfo * ending) :=
  match ts with
  | [] => Done ([], e)
  | (t, socks) :: ts' =>
      '(t, e) ← threadinfo_cleanup mode interrupted t socks e;
      '(ts', e) ← cleanup_threads mode interrupted ts' e;
      Done (t :: ts', e)
  end.

(** [print_final_status(config)]: the reason. *)
Inductive reason : Set := interruption | end_of_file | time_limit.
Definition final_reason (interrupted : bool) (cfg_maxruns nruns : Z) : reason :=
  if interrupted then interruption
  else if decide (0 < cfg_maxruns ∧ nruns = cfg_maxruns)%Z then end_of_file else time_limit.

(** [main] from the end of the wait on: the totals that are printed, and the times. *)
Definition finish_run (mode : perf_net_mode) (interrupted : bool) (now : Z) (ts : list (threadinfo * list doh))
    : run (stats_t * ending) :=
  '(ts, e) ← cleanup_threads mode interrupted ts (Ending now doh_stats_init);
  Done (sum_stats (map stats ts), e).

(** ** Queries that were taken and not sent *)

Definition unsent (t : query_table) (q : nat) : Prop :=
  ∃ qi, queries t !! q = Some qi ∧ qlist qi = outstanding_list ∧ timestamp qi = UINT64_MAX.

(** The id the sender has taken and not stamped. *)
Definition unstamped (sd : sender) (q : nat) : Prop :=
  match sd with SHolding q' _ | SStopped (Some q') => q' = q | _ => False end.

Lemma move_unused_unsent x q op x' q' :
  move q op x = Done ((), x') → op ≠ prepend_outstanding → unsent (table x') q' → q' ≠ q ∧ unsent (table x) q'.
Proof.
  unfold move. destruct (query_move _ _ _) as [t| | | |] eqn:E; try done. intros [= <-] Hop (qi' & Hq' & Hl & Ht).
  destruct (query_move_queries _ _ _ _ E) as (qi & Hqi & Hqs). simpl in Hq'. rewrite Hqs in Hq'.
  destruct (decide (q' = q)) as [->|Hne].
  - rewrite lookup_insert_eq in Hq'. simplify_eq. by destruct op.
  - rewrite lookup_insert_ne in Hq' by done. split; [done|]. by exists qi'.
Qed.

Lemma move_unsent x q op x' q' :
  move q op x = Done ((), x') → q' ≠ q → unsent (table x') q' → unsent (table x) q'.
Proof.
  unfold move. destruct (query_move _ _ _) as [t| | | |] eqn:E; try done. intros [= <-] Hne (qi' & Hq' & Hl & Ht).
  destruct (query_move_queries _ _ _ _ E) as (qi & Hqi & Hqs). simpl in Hq'. rewrite Hqs, lookup_insert_ne in Hq' by done.
  by exists qi'.
Qed.

Lemma update_unsent x q f x' q' :
  update_query q f x = Done ((), x') → unsent (table x') q' →
  (q' ≠ q ∧ unsent (table x) q') ∨
  (q' = q ∧ ∃ qi, queries (table x) !! q = Some qi ∧ qlist (f qi) = outstanding_list ∧ timestamp (f qi) = UINT64_MAX).
Proof.
  unfold update_query. destruct (queries (table x) !! q) as [qi|] eqn:Hqi; [|done]. intros [= <-] (qi' & Hq' & Hl & Ht).
  simpl in Hq'. destruct (decide (q' = q)) as [->|Hne].
  - rewrite lookup_insert_eq in Hq'. simplify_eq. right. split; [done|]. by exists qi.
  - rewrite lookup_insert_ne in Hq' by done. left. split; [done|]. by exists qi'.
Qed.

(** An assignment that keeps the list and the time of sending. *)
Lemma keep_unsent x q f x' q' :
  update_query q f x = Done ((), x') → (∀ qi, qlist (f qi) = qlist qi ∧ (timestamp (f qi) = UINT64_MAX → timestamp qi = UINT64_MAX)) →
  unsent (table x') q' → unsent (table x) q'.
Proof.
  intros E Hf Hu. destruct (update_unsent _ _ _ _ _ E Hu) as [[_ ?]|(-> & qi & Hqi & Hl & Ht)]; [done|].
  exists qi. destruct (Hf qi) as [Hfl Hft]. split_and!; [done|congruence|auto].
Qed.

Lemma take_unsent ready x r x' q :
  take_query ready x = Done (r, x') → unsent (table x') q → unsent (table x) q ∨ ∃ s, r = TakeGot q s.
Proof.
  unfold take_query. run_unfold. destruct (decide _); [intros [= <- <-]; by left|].
  destruct (pl_head _) as [q0|]; [|done]. destruct (pick_sock _ _ _ _ _ _) as [[s af] cur].
  destruct (move q0 prepend_outstanding x) as [[[] x1]| | | |] eqn:E1; try done.
  destruct (update_query q0 _ x1) as [[[] x2]| | | |] eqn:E2; try done.
  destruct (update_query q0 _ (set_current_sock x2 cur)) as [[[] x3]| | | |] eqn:E3; try done.
  assert (q ≠ q0 → unsent (table x3) q → unsent (table x) q) as Hother.
  { intros Hne Hu. apply (move_unsent _ _ _ _ _ E1 Hne).
    destruct (update_unsent _ _ _ _ _ E3 Hu) as [[_ Hu2]|[? _]]; [|done].
    by destruct (update_unsent _ _ _ _ _ E2 Hu2) as [[_ ?]|[? _]]. }
  destruct af; [done|]. destruct s as [s|].
  - intros [= <- <-] Hu. destruct (decide (q = q0)) as [->|Hne]; [right; eauto|left; auto].
  - destruct (move q0 prepend_unused x3) as [[[] x4]| | | |] eqn:E4; try done. intros [= <- <-] Hu.
    destruct (move_unused_unsent _ _ _ _ _ E4 ltac:(done) Hu). left. auto.
Qed.

Lemma timeouts_unsent fuel timeout now q0 x k x' q :
  timeouts_run fuel timeout now q0 x = Done (k, x') → unsent (table x') q → unsent (table x) q.
Proof.
  revert q0 x k. induction fuel as [|fuel IH]; intros q0 x k; [done|]. cbn [timeouts_run]. run_unfold.
  destruct (move q0 append_unused x) as [[[] x1]| | | |] eqn:E1; try done.
  assert (unsent (table x1) q → unsent (table x) q) as H1 by (intros Hu; by eapply move_unused_unsent in Hu as [_ ?]).
  set (x2 := set_stats x1 _). destruct (oldest x2) as [[[q2 qi]|]| | | |]; try done.
  - destruct (decide _); [|intros [= <- <-]; exact H1].
    destruct (timeouts_run fuel timeout now q2 x2) as [[k2 x3]| | | |] eqn:E3; try done. intros [= <- <-] Hu.
    apply H1. exact (IH _ _ _ E3 Hu).
  - intros [= <- <-]. exact H1.
Qed.

Lemma match_unsent rs x rs' x' q :
  match_batch rs x = Done (rs', x') → unsent (table x') q → unsent (table x) q.
Proof.
  revert x rs'. induction rs as [|r rs IH]; intros x rs'; cbn [match_batch]; [by intros [= <- <-]|]. run_unfold.
  destruct (match_response r x) as [[r' x1]| | | |] eqn:E1; try done.
  destruct (match_batch rs x1) as [[rs1 x2]| | | |] eqn:E2; try done. intros [= <- <-] Hu.
  specialize (IH _ _ E2 Hu). revert E1. unfold match_response. run_unfold.
  destruct (r_short r); [by intros [= <- <-]|]. destruct (get_query (table x) (r_qid r)) as [qi| | | |]; try done.
  destruct (decide _); [by intros [= <- <-]|]. destruct (sock qi) as [s|]; [|done].
  destruct (decide _); [by intros [= <- <-]|].
  destruct (move (r_qid r) append_unused x) as [[[] x3]| | | |] eqn:E3; try done.
  destruct (update_query _ _ x3) as [[[] x4]| | | |] eqn:E4; try done. intros [= <- <-].
  eapply move_unused_unsent; [exact E3|done|]. eapply keep_unsent; [exact E4|done|done].
Qed.

(** *** In all reachable states *)

(** The response codes add up to the queries completed. *)
Definition codes_add_up (s : stats_t) : Prop :=
  length (rcodecounts s) = DNSPERF_STATS_RCODECOUNTS ∧ num_completed s = u64 (sumZ (rcodecounts s)).

(** They do, and nothing is counted as interrupted while the threads run. *)
Definition running_stats (s : stats_t) : Prop := codes_add_up s ∧ num_interrupted s = 0%Z.

(** The codes of the responses that are to be counted. *)
Definition matched_codes (rc : receiver) : Prop :=
  match rc with RMatched rs => Forall (λ r, r_rcode r < DNSPERF_STATS_RCODECOUNTS) rs | _ => True end.

Record end_inv (s : sys) : Prop := {
  end_unsent : ∀ q, unsent (table (ti s)) q → unstamped (snd_at s) q;
  end_stats : running_stats (stats (ti s));
  end_codes : matched_codes (rcv_at s);
}.

Lemma running_response r s :
  r_rcode r < DNSPERF_STATS_RCODECOUNTS → running_stats s → running_stats (count_response s r).
Proof.
  intros Hr [[Hl Hc] Hi]. unfold count_response. destruct (accepted r); [|done]. split; [|done].
  unfold codes_add_up. cbn [rcodecounts num_completed]. rewrite length_alter. split; [done|].
  rewrite sumZ_alter, Hc by lia. unfold u64. by rewrite Zplus_mod_idemp_l.
Qed.
Lemma running_responses rs s :
  Forall (λ r, r_rcode r < DNSPERF_STATS_RCODECOUNTS) rs → running_stats s → running_stats (foldl count_response s rs).
Proof.
  intros Hrs. revert s. induction Hrs as [|r rs Hr Hrs IH]; intros s Hs; simpl; [done|]. apply IH. by apply running_response.
Qed.

(** Matching keeps the response codes. *)
Lemma match_codes rs x rs' x' : match_batch rs x = Done (rs', x') → map r_rcode rs' = map r_rcode rs.
Proof.
  revert x rs'. induction rs as [|r rs IH]; intros x rs'; cbn [match_batch]; [by intros [= <- <-]|]. run_unfold.
  destruct (match_response r x) as [[r' x1]| | | |] eqn:E1; try done.
  destruct (match_batch rs x1) as [[rs1 x2]| | | |] eqn:E2; try done. intros [= <- <-]. simpl. rewrite (IH _ _ E2).
  f_equal. revert E1. unfold match_response. run_unfold.
  destruct (r_short r); [by intros [= <- <-]|]. destruct (get_query (table x) (r_qid r)) as [qi| | | |]; try done.
  destruct (decide _); [by intros [= <- <-]|]. destruct (sock qi) as [s|]; [|done].
  destruct (decide _); [by intros [= <- <-]|]. destruct (move (r_qid r) append_unused x) as [[[] x3]| | | |]; try done.
  destruct (update_query _ _ x3) as [[[] x4]| | | |]; try done. by intros [= <- <-].
Qed.
Lemma running_timedout k s : running_stats s → running_stats (Nat.iter k count_timedout s).
Proof. intros Hs. induction k as [|k [IH1 IH2]]; [done|]. by split. Qed.

Lemma end_sender_step s s' p : sys_inv s p → end_inv s → sender_step s s' → end_inv s'.
Proof.
  intros Hsys [Hun Hst Hco] Hs; destruct Hs; cbn [ti snd_at rcv_at] in *.
  - (* take *)
    split; cbn [ti snd_at].
    + intros q Hu. destruct (take_unsent _ _ _ _ _ H Hu) as [Hu'|[s ->]]; [by destruct (Hun q Hu')|done].
    + pose proof (take_query_spec ready x p (inv_tinv _ _ Hsys)) as Ht. rewrite H in Ht. destruct r.
      * by subst.
      * by destruct Ht as (_ & _ & _ & -> & _).
      * by destruct Ht as (_ & _ & _ & ? & _ & _ & -> & _).
    + done.
  - (* end of file *) by split.
  - (* bad request *)
    split; cbn [ti snd_at]; [|by destruct (move_thread _ _ _ _ H) as [_ ->]|done].
    intros q' Hu. destruct (move_unused_unsent _ _ _ _ _ H ltac:(done) Hu) as [Hne Hu']. apply Hun in Hu'. simpl in Hu'. congruence.
  - (* stamp *)
    split; cbn [ti snd_at]; [|by destruct (update_query_thread _ _ _ _ H0) as [_ ->]|done].
    intros q' Hu. destruct (update_unsent _ _ _ _ _ H0 Hu) as [[Hne Hu']|(-> & qi & _ & _ & Ht)].
    + apply Hun in Hu'. simpl in Hu'. congruence.
    + simpl in Ht. congruence.
  - (* sent *)
    revert H. unfold finish_send. run_unfold. destruct (match r with SendN _ => _ | SendErr _ => _ end).
    + intros [= <-]. by split.
    + by destruct (move q prepend_unused x) as [[[] ?]| | | |].
  - (* send failed *)
    revert H. unfold finish_send. run_unfold. destruct (match r with SendN _ => _ | SendErr _ => _ end); [done|].
    destruct (move q prepend_unused x) as [[[] x1]| | | |] eqn:E; try done. intros [= <-].
    split; cbn [ti snd_at]; [|by destruct (move_thread _ _ _ _ E) as [_ ->]|done].
    intros q' Hu. destruct (move_unused_unsent _ _ _ _ _ E ltac:(done) Hu) as [_ Hu']. by destruct (Hun q' Hu').
  - (* stop *) split; [|done|done]. intros q Hu. by destruct (Hun q Hu).
  - (* done *) by split.
  - (* net_sent *)
    split; cbn [ti snd_at]; [|by destruct (update_query_thread _ _ _ _ H1) as [_ ->]|done].
    intros q' Hu. apply Hun. eapply keep_unsent; [exact H1| |done].
    intros qi. cbv beta. destruct (decide (timestamp qi ≠ UINT64_MAX)); [|done]. split; [done|]. simpl. congruence.
  - (* net_event *) split; [done| |done]. destruct Hst as [[? ?] ?]. by destruct ev.
Qed.

Lemma end_receiver_step timeout s s' p : sys_inv s p → end_inv s → receiver_step timeout s s' → end_inv s'.
Proof.
  intros Hsys [Hun Hst Hco] Hs; destruct Hs; cbn [ti snd_at rcv_at] in *.
  - by split.
  - (* timeouts *)
    split; cbn [ti snd_at]; [intros q' Hu; apply Hun; by eapply timeouts_unsent| |done].
    pose proof (timeouts_run_spec fuel timeout now q x p (inv_tinv _ _ Hsys) (inv_timeouts _ _ Hsys)) as Hr.
    rewrite H in Hr. destruct Hr as (? & _ & _ & _ & _ & -> & _). by apply running_timedout.
  - (* match *)
    split; cbn [ti snd_at]; [intros q' Hu; apply Hun; by eapply match_unsent| |].
    1: destruct (match_batch_spec rs x p (inv_tinv _ _ Hsys) H) as (? & ? & ? & E & _ & _ & Hst' & _).
    { rewrite H0 in E. injection E as <- <-. by rewrite Hst'. }
    simpl. apply match_codes in H0.
    assert (Forall (λ c, c < DNSPERF_STATS_RCODECOUNTS) (map r_rcode rs')) as Hc; [|by apply Forall_fmap in Hc].
    rewrite H0. apply Forall_fmap. eapply Forall_impl; [exact H|]. by intros r (_ & _ & ?).
  - (* count *)
    split; cbn [ti snd_at]; unfold count_batch; destruct (last rs); simpl; auto; by apply running_responses.
  - by split.
Qed.

Lemma end_step timeout s s' p : sys_inv s p → end_inv s → step timeout s s' → end_inv s'.
Proof. intros Hsys He [Hs|Hs]; [by eapply end_sender_step|by eapply end_receiver_step]. Qed.

Lemma init_unused mo mq c n off x q qi :
  threadinfo_init mo mq c n off = Done x → queries (table x) !! q = Some qi → qlist qi = outstanding_list → False.
Proof.
  unfold threadinfo_init. destruct (table_init_spec NQIDS) as (t & Et & _). rewrite Et.
  cbn [mbind run_bind]. intros [= <-] Hqi Hl. pose proof (table_init_entries NQIDS t Et q qi Hqi) as Hu. clear Et. congruence.
Qed.

Lemma reachable_end timeout s : reachable timeout s → end_inv s.
Proof.
  induction 1 as [mo mq c n off x H|s s' Hr IH Hs].
  - split; cbn [ti snd_at].
    + intros q (qi & Hqi & Hl & _). exfalso. eapply init_unused; eassumption.
    + destruct (init_fields _ _ _ _ _ _ H) as (-> & _). clear H. done.
    + exact I.
  - destruct (reachable_inv _ _ Hr) as [p Hp]. by eapply end_step.
Qed.

(** All outstanding queries but the one the sender has kept were sent. *)
Lemma sent_outstanding t os held :
  NoDup os → (∀ q, q ∈ os → was_sent t q = false → held = Some q) →
  sent_among t os ≤ length os ≤ sent_among t os + pending_send (SStopped held).
Proof.
  unfold sent_among. induction 1 as [|q os Hq Hnd IH]; intros Hu; simpl; [lia|].
  destruct (was_sent t q) eqn:Eq; simpl.
  { assert (∀ q', q' ∈ os → was_sent t q' = false → held = Some q') as Hu' by (intros ? ?; apply Hu; by right).
    specialize (IH Hu'). simpl in IH. lia. }
  pose proof (Hu q ltac:(by left) Eq) as Hheld.
  assert (List.filter (was_sent t) os = os) as ->; [|rewrite Hheld; lia].
  apply List.forallb_filter_id, List.forallb_forall. intros q' Hq'. apply list_elem_of_In in Hq'.
  destruct (was_sent t q') eqn:E'; [done|]. specialize (Hu q' ltac:(by right) E').
  assert (q' = q) as -> by congruence. done.
Qed.

Lemma kept_outstanding s held os us :
  tinv (ti s) (os, us) → end_inv s → snd_at s = SStopped held →
  sent_among (table (ti s)) os ≤ length os ≤ sent_among (table (ti s)) os + pending_send (snd_at s).
Proof.
  intros [Hrep _] [Hun _ _] Hsd. rewrite Hsd. pose proof (rep_outstanding _ _ _ Hrep) as (Hnd & _).
  apply sent_outstanding; [exact Hnd|]. intros q Hq Hws.
  pose proof (rep_entry_o _ _ _ Hrep) as Heo. rewrite Forall_forall in Heo. destruct (Heo q Hq) as (qi & Hqi & Hl).
  unfold was_sent in Hws. rewrite Hqi in Hws. apply bool_decide_eq_false in Hws.
  assert (unstamped (SStopped held) q) as Hu.
  { rewrite <- Hsd. apply Hun. exists qi. split_and!; [done|done|]. by destruct (decide (timestamp qi = UINT64_MAX)). }
  destruct held as [q'|]; [|done]. simpl in Hu. congruence.
Qed.

(** ** One thread *)

(** Both loops have ended: the sender's, and the receiver's because nothing is outstanding or
    because the run was interrupted. *)
Record ended (timeout : Z) (interrupted : bool) (s : sys) : Prop := {
  ended_reachable : reachable timeout s;
  ended_sender : ∃ held, snd_at s = SStopped held;
  ended_receiver : rcv_at s = RStopped ∨ interrupted = true ∧ rcv_at s = RIdle;
}.

Lemma interrupted_counts k s h :
  counts s h → running_stats s →
  counts (Nat.iter k count_interrupted s) h ∧ codes_add_up (Nat.iter k count_interrupted s) ∧
  num_interrupted (Nat.iter k count_interrupted s) = u64 (Z.of_nat k).
Proof.
  intros Hc [Hl Hi]. induction k as [|k (IH1 & IH2 & IH3)]; [by simpl; rewrite Hi|].
  split_and!; [done|done|]. simpl. by apply u64_succ.
Qed.

Lemma move_last_recv q op x x' : move q op x = Done ((), x') → last_recv x' = last_recv x.
Proof. unfold move. destruct (query_move _ _ _); try done. by intros [= <-]. Qed.
Lemma update_last_recv q f x x' : update_query q f x = Done ((), x') → last_recv x' = last_recv x.
Proof. unfold update_query. destruct (queries (table x) !! q); [|done]. by intros [= <-]. Qed.

Lemma cancel_last_recv fuel x x' : cancel_queries fuel x = Done ((), x') → last_recv x' = last_recv x.
Proof.
  revert x. induction fuel as [|fuel IH]; intros x; [done|]. cbn [cancel_queries]. run_unfold.
  destruct (pl_tail _) as [q|]; [|by intros [= <-]].
  destruct (move q append_unused x) as [[[] x1]| | | |] eqn:E1; try done.
  apply move_last_recv in E1. destruct (get_query (table x1) q) as [qi| | | |]; try done.
  destruct (decide _); [intros E; rewrite (IH _ E); congruence|].
  destruct (update_query _ _ _) as [[[] x2]| | | |] eqn:E2; try done. apply update_last_recv in E2.
  intros E. rewrite (IH _ E), E2. exact E1.
Qed.

(** What a thread's counters are after the cleaning up: [i] queries were interrupted. *)
Definition accounted (interrupted : bool) (s : sys) (t : threadinfo) (i : nat) : Prop :=
  counts (stats t) (hist s) ∧ codes_add_up (stats t) ∧
  num_interrupted (stats t) = u64 (Z.of_nat i) ∧ last_recv t = last_recv (ti s) ∧
  h_sent (hist s) ≤ h_completed (hist s) + h_timedout (hist s) + i
    ≤ h_sent (hist s) + pending_send (snd_at s) + h_lost (hist s) ∧
  (interrupted = false → i = 0).

Lemma cleanup_thread timeout mode interrupted s socks e :
  ended timeout interrupted s → (Z.of_nat (S (h_sent (hist s) + h_lost (hist s))) < 2 ^ 63)%Z →
  ∃ t i, threadinfo_cleanup mode interrupted (ti s) socks e
           = Done (t, Ending (Z.max (end_time e) (last_recv (ti s)))
                        (foldl (perf_net_stats_compile mode) (doh_total e) socks)) ∧
         accounted interrupted s t i.
Proof.
  intros [Hr [held Hsd] Hrc] Hb. destruct (reachable_inv _ _ Hr) as [[os us] [Hinv _ _ _ Hc Hbal]].
  destruct (reachable_end _ _ Hr) as [Hun Hst _].
  assert (pending_count (rcv_at s) = 0) as Hp0 by (by destruct Hrc as [->|[_ ->]]).
  assert (pending_send (snd_at s) ≤ 1) as Hp1 by (rewrite Hsd; destruct held; simpl; lia). simpl in Hbal.
  assert (∀ a b : Z, (if decide (a < b)%Z then b else a) = Z.max a b) as Hmax by (intros a b; destruct (decide _); lia).
  unfold threadinfo_cleanup. destruct interrupted.
  - pose proof (rep_lengths _ _ Hinv) as Hlen. simpl in Hlen.
    destruct (cancel_queries_spec (S NQIDS) os us (ti s) Hinv) as (x' & E & Hinv' & Hst'); [lia|].
    exists x', (sent_among (table (ti s)) os). rewrite E. pose proof (cancel_last_recv _ _ _ E) as Hlr. clear E.
    cbn [mbind run_bind]. rewrite Hmax, Hlr. split; [reflexivity|].
    destruct (interrupted_counts (sent_among (table (ti s)) os) _ _ Hc Hst) as (C1 & C2 & C3).
    rewrite <- Hst' in C1, C2, C3.
    pose proof (kept_outstanding s held os us Hinv (reachable_end _ _ Hr) Hsd) as Hk. unfold accounted.
    split_and!; [done|done|done|done|lia|lia|discriminate].
  - exists (ti s), 0. cbn [mret M_ret mbind run_bind]. rewrite Hmax. split; [reflexivity|].
    destruct Hrc as [Hrc|[? _]]; [|done]. destruct (reachable_stop _ _ Hr) as [_ H2]. destruct (H2 Hrc) as [_ Hz].
    rewrite (num_outstanding_exact _ _ Hc) in Hz by lia. destruct Hst as [Hl Hi].
    split_and!; [done|done|done|done|lia|lia|done].
Qed.

(** ** All threads *)

Definition over {A} (f : A → nat) (l : list A) : nat := sum_list_with f l.
Notation sent_of := (over (λ p : sys * list doh, h_sent (hist p.1))).
Notation completed_of := (over (λ p : sys * list doh, h_completed (hist p.1))).
Notation timedout_of := (over (λ p : sys * list doh, h_timedout (hist p.1))).
(** Ids that were counted as answered or timed out although their sending failed. *)
Notation lost_of := (over (λ p : sys * list doh, h_lost (hist p.1))).
(** Threads whose sender has stopped holding an id. *)
Notation kept_of := (over (λ p : sys * list doh, pending_send (snd_at p.1))).

(** The counters of the threads after the cleaning up add up to these. *)
Record totals (ts : list threadinfo) (sent completed timedout interrupted : nat) : Prop := {
  tot_rcodes : Forall (λ t, codes_add_up (stats t)) ts;
  tot_sent : sumZ (map (λ t, num_sent (stats t)) ts) = Z.of_nat sent;
  tot_completed : sumZ (map (λ t, num_completed (stats t)) ts) = Z.of_nat completed;
  tot_timedout : sumZ (map (λ t, num_timedout (stats t)) ts) = Z.of_nat timedout;
  tot_interrupted : sumZ (map (λ t, num_interrupted (stats t)) ts) = Z.of_nat interrupted;
}.

Lemma totals_cons timeout interrupted s t i ts a b c d :
  ended timeout interrupted s → accounted interrupted s t i → (Z.of_nat (S (h_sent (hist s) + h_lost (hist s))) < 2 ^ 63)%Z →
  totals ts a b c d →
  totals (t :: ts) (h_sent (hist s) + a) (h_completed (hist s) + b) (h_timedout (hist s) + c) (i + d).
Proof.
  intros [_ [held Hsd] _] ((C1 & C2 & C3) & Hl & Hi & _ & [_ Hle] & _) Hb [T1 T2 T3 T4 T5].
  assert (pending_send (snd_at s) ≤ 1) as Hp1 by (rewrite Hsd; destruct held; simpl; lia).
  rewrite u64_small in C1, C2, C3, Hi by lia.
  split; [by constructor|cbn [map sumZ foldr]; unfold sumZ in *; lia..].
Qed.

Lemma cleanup_all timeout mode interrupted ths e :
  Forall (λ p, ended timeout interrupted p.1) ths → (Z.of_nat (sent_of ths + lost_of ths + length ths) < 2 ^ 63)%Z →
  ∃ ts i, cleanup_threads mode interrupted (map (λ p, (ti p.1, p.2)) ths) e
            = Done (ts, Ending (foldl Z.max (end_time e) (map (λ p, last_recv (ti p.1)) ths))
                          (foldl (perf_net_stats_compile mode) (doh_total e) (concat (map snd ths)))) ∧
          totals ts (sent_of ths) (completed_of ths) (timedout_of ths) i ∧
          sent_of ths ≤ completed_of ths + timedout_of ths + i ≤ sent_of ths + kept_of ths + lost_of ths ∧
          (interrupted = false → i = 0).
Proof.
  intros Hth. revert e. unfold over. induction Hth as [|[s socks] ths Hs Hth IH]; intros e Hb.
  { exists [], 0. by destruct e. }
  cbn [sum_list_with length fst map] in *.
  destruct (cleanup_thread timeout mode interrupted s socks e Hs ltac:(lia)) as (t & i & E & Ha).
  cbn [cleanup_threads]. cbn [fst snd] in *. rewrite E. cbn [mbind run_bind].
  edestruct IH as (ts & j & Ej & Ht & Hr & Hz); [lia|]. rewrite Ej. cbn [mbind run_bind end_time doh_total].
  exists (t :: ts), (i + j). split; [|split; [|split]].
  - cbn [foldl concat map]. by rewrite foldl_app.
  - eapply totals_cons; [exact Hs|exact Ha|lia|exact Ht].
  - destruct Ha as (_ & _ & _ & _ & Ha & _). lia.
  - destruct Ha as (_ & _ & _ & _ & _ & Ha). intros Hi. rewrite (Ha Hi), (Hz Hi). done.
Qed.

Lemma nth_counters s :
  length (rcodecounts s) = DNSPERF_STATS_RCODECOUNTS →
  nth_counter 16 s = num_sent s ∧ nth_counter 17 s = num_interrupted s ∧
  nth_counter 18 s = num_timedout s ∧ nth_counter 19 s = num_completed s.
Proof.
  intros Hl. unfold nth_counter, counters. rewrite !lookup_app_r by (rewrite Hl; unfold DNSPERF_STATS_RCODECOUNTS; lia).
  by rewrite Hl.
Qed.

Lemma sum_field k (f : stats_t → Z) ts :
  k < 28 → (∀ s, length (rcodecounts s) = DNSPERF_STATS_RCODECOUNTS → nth_counter k s = f s) →
  Forall (λ t, length (rcodecounts (stats t)) = DNSPERF_STATS_RCODECOUNTS) ts →
  (0 ≤ sumZ (map (λ t, f (stats t)) ts) < 2 ^ 64)%Z → nth_counter k zero_stats = 0%Z →
  length (rcodecounts (sum_stats (map stats ts))) = DNSPERF_STATS_RCODECOUNTS →
  f (sum_stats (map stats ts)) = sumZ (map (λ t, f (stats t)) ts).
Proof.
  intros Hk Hf Hts Hr H0 Hlen. rewrite <- (Hf (sum_stats _)) by done. unfold sum_stats.
  rewrite sum_loop_spec; [|done|by apply Forall_fmap|done|by rewrite H0].
  rewrite H0, Z.add_0_l. assert (map (nth_counter k) (map stats ts) = map (λ t, f (stats t)) ts) as ->; [|by apply u64_small].
  rewrite map_map. clear Hr Hlen. induction Hts as [|t ts Ht Hts IH]; [done|]. simpl. rewrite IH. f_equal. by apply Hf.
Qed.

Lemma add_codes total first s : codes_add_up total → codes_add_up s → codes_add_up (add_stats total first s).
Proof.
  intros [Ht Hct] [Hs Hcs]. split; [by apply (add_nth total first s 0 Ht Hs)|].
  cbn [rcodecounts num_completed add_stats]. rewrite zip_sum by congruence. rewrite Hct, Hcs.
  unfold u64. by rewrite <- Zplus_mod.
Qed.
Lemma sum_codes ts total first :
  codes_add_up total → Forall codes_add_up ts → codes_add_up (sum_loop total first ts).
Proof.
  intros Ht Hs. revert total first Ht. induction Hs as [|s ts Hs Hss IH]; intros total first Ht; simpl; [done|].
  by apply IH, add_codes.
Qed.

(** ** Theorems *)

(** the end of a run, over all threads and whatever interleaving each of them has gone
    through: the counters that are printed are the numbers of queries the threads sent, got
    answers to and timed out, and together with the interrupted ones they account for every
    query sent; they exceed these by at most one per thread whose sender stopped holding an id
    and one for each id that was counted as answered or timed out although its sending failed;
    the response codes add up to the queries completed;
    nothing counts as interrupted unless the run was; the end of the run is the time of the
    end of the wait or of the last response, whichever is later; and the HTTP codes are
    those of all sockets. *)
Theorem finish_accounts timeout mode interrupted now (ths : list (sys * list doh)) :
  Forall (λ p, ended timeout interrupted p.1) ths → (Z.of_nat (sent_of ths + lost_of ths + length ths) < 2 ^ 63)%Z →
  ∃ total e, finish_run mode interrupted now (map (λ p, (ti p.1, p.2)) ths) = Done (total, e) ∧ codes_add_up total ∧
    num_sent total = Z.of_nat (sent_of ths) ∧ num_completed total = Z.of_nat (completed_of ths) ∧
    num_timedout total = Z.of_nat (timedout_of ths) ∧
    (num_sent total ≤ num_completed total + num_timedout total + num_interrupted total
       ≤ num_sent total + Z.of_nat (kept_of ths + lost_of ths))%Z ∧
    (interrupted = false → num_interrupted total = 0%Z) ∧
    end_time e = foldl Z.max now (map (λ p, last_recv (ti p.1)) ths) ∧
    doh_total e = (if decide (mode = sock_doh) then foldl doh_stats_compile doh_stats_init (concat (map snd ths))
                   else doh_stats_init).
Proof.
  intros Hth Hb. destruct (cleanup_all timeout mode interrupted ths (Ending now doh_stats_init) Hth Hb)
    as (ts & i & E & [T1 T2 T3 T4 T5] & Hr & Hz).
  unfold finish_run. rewrite E. cbn [mbind run_bind end_time doh_total]. eexists _, _. split; [reflexivity|].
  assert (kept_of ths ≤ length ths) as Hk.
  { clear -Hth. unfold over. induction Hth as [|[s socks] ths [_ [held Hsd] _] _ IH]; simpl; [lia|].
    cbn [fst] in Hsd. rewrite Hsd. destruct held; simpl; lia. }
  assert (codes_add_up (sum_stats (map stats ts))) as Hcodes by (apply sum_codes; [done|by apply Forall_fmap]).
  pose proof (proj1 Hcodes) as Hlen.
  assert (Forall (λ t, length (rcodecounts (stats t)) = DNSPERF_STATS_RCODECOUNTS) ts) as Hls
    by (eapply Forall_impl; [exact T1|]; by intros t []).
  split; [done|].
  rewrite (sum_field 16 num_sent ts), (sum_field 17 num_interrupted ts), (sum_field 18 num_timedout ts),
    (sum_field 19 num_completed ts); try done; try lia; try (intros; by apply nth_counters).
  rewrite T2, T3, T4, T5. split_and!; [done|done|done|lia|lia|intros Hi; by rewrite (Hz Hi)|done|].
  clear E. cbn [doh_total]. destruct (decide (mode = sock_doh)) as [->|Hm]; [done|].
  induction (concat (map snd ths)) as [|x l IH]; [done|]. simpl.
  assert (perf_net_stats_compile mode doh_stats_init x = doh_stats_init) as -> by (by destruct mode). exact IH.
Qed.

(** the wait of the main thread: without a time limit the unsigned difference is negative as
    an [int64_t] and [poll] waits forever; with one below 2^31 milliseconds it waits for the
    limit, rounded down to milliseconds but not to 0.  Only a signal ends it as an
    interruption. *)
Theorem main_wait_limit cfg start poll :
  (0 ≤ start < 2 ^ 62)%Z → (0 ≤ cf_timelimit cfg < 2 ^ 31 * 1000)%Z →
  main_wait start (stop_time cfg start) poll =
    (let ms := if decide (cf_timelimit cfg = 0)%Z then (-1)%Z else Z.max 1 (cf_timelimit cfg / 1000) in
     match poll ms with
     | PollErr true | PollReady true => Done true
     | PollErr false => Exit 1
     | PollNone | PollReady false => Done false
     end).
Proof.
  intros Hs Hl. unfold main_wait, perf_os_waituntilanyreadable, stop_time. cbn [existsb id orb].
  assert (poll_timeout (s64 (u64 ((if decide (0 < cf_timelimit cfg)%Z then u64 (start + cf_timelimit cfg)
    else UINT64_MAX) - start))) = if decide (cf_timelimit cfg = 0)%Z then (-1)%Z else Z.max 1 (cf_timelimit cfg / 1000)) as ->;
    [|cbv zeta; destruct (poll _) as [[]| |[]]; done].
  unfold poll_timeout. destruct (decide (0 < cf_timelimit cfg)%Z) as [Hp|Hp].
  - rewrite (decide_False (P := cf_timelimit cfg = 0%Z)) by lia.
    rewrite (u64_small (start + _)) by lia. replace (start + cf_timelimit cfg - start)%Z with (cf_timelimit cfg) by lia.
    rewrite u64_small by lia. assert (s64 (cf_timelimit cfg) = cf_timelimit cfg) as ->
      by (unfold s64, swrap; rewrite Z.mod_small; lia).
    rewrite decide_False by lia. rewrite Z.quot_div_nonneg by lia.
    assert (0 ≤ cf_timelimit cfg / 1000 < 2 ^ 31)%Z as Hd
      by (split; [apply Z.div_pos; lia|apply Z.div_lt_upper_bound; lia]).
    assert (s32 (cf_timelimit cfg / 1000) = cf_timelimit cfg / 1000)%Z as ->
      by (unfold s32, swrap; rewrite Z.mod_small; lia).
    destruct (decide _) as [[_ E]|E]; [lia|]. lia.
  - rewrite (decide_True (P := cf_timelimit cfg = 0%Z)) by lia. rewrite decide_True; [done|].
    rewrite u64_small by (unfold UINT64_MAX; lia). unfold s64, swrap, UINT64_MAX.
    replace (2 ^ 64 - 1 - start + 2 ^ (64 - 1))%Z with ((2 ^ 63 - 1 - start) + 1 * 2 ^ 64)%Z by lia.
    rewrite Z.mod_add, Z.mod_small; lia.
Qed.

(** [int to = timeout / 1000] truncates: with a limit of 2^32 milliseconds (50 days) the main
    thread waits for 1 millisecond, as with a limit of a microsecond. *)
Theorem main_wait_truncates poll : main_wait 0 (2 ^ 32 * 1000) poll = main_wait 0 1 poll.
Proof. reflexivity. Qed.

(** *** Witnesses *)

(** A thread that has sent one query which was answered, and one that has done nothing. *)
Lemma finish_accounts_witness :
  ∃ x y total e, finish_run sock_udp true 50 [(x, []); (y, [])] = Done (total, e) ∧
    num_sent total = 1%Z ∧ num_completed total = 1%Z ∧ num_timedout total = 0%Z ∧
    num_interrupted total = 0%Z.
Proof.
  destruct (one_query_answered 10) as [x R]. destruct one_thread as (y & Hy & _).
  pose proof (reach_init 10 100 0 1 1 0 y Hy) as R0. clear Hy. exists x, y.
  set (a := Sys x (SStopped None) RStopped (History 1 0 1 0)).
  set (b := Sys y (SStopped None) RIdle (History 0 0 0 0)).
  assert (reachable 10 b) as Rb by (eapply reach_step; [exact R0|]; left; constructor).
  destruct (finish_accounts 10 sock_udp true 50 [(a, []); (b, [])]) as (total & e & E & _ & H1 & H2 & H3 & H4 & _).
  - constructor; [split; [exact R|by exists None|by left]|].
    constructor; [split; [exact Rb|by exists None|by right]|constructor].
  - done.
  - exists total, e. split; [exact E|]. unfold over in *. cbn [sum_list_with fst snd hist snd_at h_sent h_completed h_timedout h_lost pending_send a b] in H1, H2, H3, H4.
    rewrite H1, H2, H3 in H4. split_and!; [done..|lia].
Defined.

Lemma main_wait_limit_witness :
  main_wait 1000 (stop_time example_config 1000)
    (λ ms, if decide (ms = -1)%Z then PollReady true else PollNone) = Done true.
Proof. rewrite (main_wait_limit example_config 1000); [reflexivity|lia|cbn; lia]. Defined.
