(* ===== verification/Report.v ===== *)
(** * The reports of dnsperf (dnsperf.c, [print_statistics], [print_histogram],
    [print_initial_status], [print_final_status]; net_doh.c, [perf_net_doh_stats_print])

    What is printed, as the bytes of the output.  How [printf] writes a [double] is a parameter;
    its argument is the formula that the code evaluates, whose value is that of [Doubles.eval].  The theorems show
    that the histogram is a partition of everything recorded and that times are printed exactly. *)

From Stdlib Require Import Sorted.
From S2P Require Import Prelude Doubles Net Datafile Hg64 Stats Dnsperf IntervalStats NetDoh Setup Finish.

(** ** Numbers *)


(** [%u] and [%PRIu64], and [%06u]. *)
Definition fmt_u (n : Z) : list Z := dec 20 n.
Definition fmt_06u (n : Z) : list Z := replicate (6 - length (fmt_u n)) 48%Z ++ fmt_u n.

(** [%PRIu64.%06PRIu64] of the seconds and microseconds of a time, and [%u.%06u] of them after
    the cast to [unsigned int]. *)
Definition fmt_time64 (t : Z) : list Z := fmt_u (t / MILLION) ++ bytes "." ++ fmt_06u (t mod MILLION).
Definition fmt_time (t : Z) : list Z := fmt_u (u32 (t / MILLION)) ++ bytes "." ++ fmt_06u (u32 (t mod MILLION)).

(** [PERF_SAFE_DIV(n, d)] on integers, and with [n] a double. *)
Definition safe_div (n d : Z) : Z := if decide (d = 0)%Z then 0%Z else (n / d)%Z.
Definition safe_divf (n : real) (d : Z) : real := if decide (d = 0)%Z then r_int 0 else r_div n (r_int d).
Definition percent (n d : Z) : real := safe_divf (r_mul (r_int 100) (r_int n)) d.

(** [stddev(sum_of_squares, sum, total)]. *)
Definition stddev (sum_of_squares sum total : Z) : real :=
  let squared := r_mul (r_int sum) (r_int sum) in
  r_sqrt (r_div (r_sub (r_int sum_of_squares) (r_div squared (r_int total))) (r_int (u64 (total - 1)))).

Definition perf_dns_rcode_strings : list (list Z) :=
  map bytes ["NOERROR"; "FORMERR"; "SERVFAIL"; "NXDOMAIN"; "NOTIMP"; "REFUSED"; "YXDOMAIN"; "YXRRSET";
             "NXRRSET"; "NOTAUTH"; "NOTZONE"; "rcode11"; "rcode12"; "rcode13"; "rcode14"; "rcode15"]%string.

(** ** Histograms *)

(** The line of a bucket. *)
Definition bucket_line (b : Z * Z * Z) : list Z :=
  let '(pmin, pmax, pcount) := b in
  bytes "  " ++ fmt_time64 pmin ++ bytes " - " ++ fmt_time64 pmax ++ bytes ":  " ++ fmt_u pcount ++ nl.

Definition hist_header (desc : list Z) : list Z := bytes "  Latency bucket (s):   " ++ desc ++ nl.

(** [print_histogram(histogram, desc)]. *)
Definition print_histogram (hg : hg64) (desc : list Z) : run (list Z) :=
  hg64_loop (loop_fuel hg) hg 0
    (λ key pcount out,
       if decide (pcount = 0)%Z then Done (out, true)
       else Done (out ++ bucket_line (key_to_minval (sigbits hg) key, key_to_maxval (sigbits hg) key, pcount), true))
    (hist_header desc).

(** ** Statistics *)
Section statistics.
(** [printf] of a double: the conversion and the value. *)
Context (fmt : list Z → real → list Z).

(** The response codes from number [i] on. *)
Fixpoint print_rcodes (i : nat) (first_rcode : bool) (counts : list Z) (completed : Z) : list Z :=
  match counts with
  | [] => []
  | c :: cs =>
      if decide (c = 0)%Z then print_rcodes (S i) first_rcode cs completed
      else (if first_rcode then [] else bytes ", ") ++
           default [] (perf_dns_rcode_strings !! i) ++ bytes " " ++ fmt_u c ++ bytes " (" ++
           fmt (bytes "%.2lf") (r_div (r_mul (r_int c) (r_int 100)) (r_int completed)) ++ bytes "%)" ++
           print_rcodes (S i) false cs completed
  end.

(** One of the three lines of queries with a percentage. *)
Definition count_line (label : list Z) (n sent : Z) : list Z :=
  label ++ fmt_u n ++ bytes " (" ++ fmt (bytes "%.2lf") (percent n sent) ++ bytes "%)" ++ nl.

(** The average of a latency, its extremes at the end of a run, and its deviation with the
    histogram. *)
Definition print_latency (now sum count lmin lmax : Z) : list Z :=
  bytes "  Average Latency (s):  " ++ fmt_time (safe_div sum count) ++
  if decide (now = 0)%Z then bytes " (min " ++ fmt_time lmin ++ bytes ", max " ++ fmt_time lmax ++ bytes ")" ++ nl
  else nl.
Definition print_deviation (hist : bool) (squares sum count : Z) (h : option hg64) (desc : list Z) : run (list Z) :=
  if decide (1 < count)%Z then
    let dev := bytes "  Latency StdDev (s):   " ++
               fmt (bytes "%f") (r_div (stddev squares sum count) (r_int MILLION)) ++ nl in
    if hist then
      match h with Some hg => t ← print_histogram hg desc; Done (dev ++ t) | None => Undef end
    else Done dev
  else Done [].

(** The lines that count queries, and the response codes. *)
Definition print_counts (units : list Z) (st : stats_t) : list Z :=
  bytes "  " ++ units ++ bytes " sent:         " ++ fmt_u (num_sent st) ++ nl ++
  count_line (bytes "  " ++ units ++ bytes " completed:    ") (num_completed st) (num_sent st) ++
  count_line (bytes "  " ++ units ++ bytes " lost:         ") (num_timedout st) (num_sent st) ++
  (if decide (0 < num_interrupted st)%Z
   then count_line (bytes "  " ++ units ++ bytes " interrupted:  ") (num_interrupted st) (num_sent st) else []) ++
  nl ++
  bytes "  Response codes:       " ++ print_rcodes 0 true (rcodecounts st) (num_completed st) ++ nl.

(** The part about queries, up to the connections. *)
Definition print_queries (units : list Z) (now run_time interval_time : Z) (st : stats_t) : list Z :=
  (if decide (now = 0)%Z then [] else bytes "Interval ") ++ bytes "Statistics:" ++ nl ++ nl ++ print_counts units st ++
  bytes "  Average packet size:  request " ++ fmt_u (u32 (safe_div (total_request_size st) (num_sent st))) ++
  bytes ", response " ++ fmt_u (u32 (safe_div (total_response_size st) (num_completed st))) ++ nl ++
  bytes "  Run time (s):         " ++ fmt_time run_time ++ nl ++
  bytes "  " ++ units ++ bytes " per second:   " ++
  fmt (bytes "%.6lf")
    (let t := if decide (now = 0)%Z then run_time else interval_time in
     if decide (t = 0)%Z then r_int 0 else r_div (r_int (num_completed st)) (r_div (r_int t) (r_int MILLION))) ++ nl ++
  nl ++
  print_latency now (latency_sum st) (num_completed st) (latency_min st) (latency_max st).

(** The part about connections, if there were any. *)
Definition print_connections (hist : bool) (now : Z) (s : hstats) : run (list Z) :=
  let st := hs_stats s in
  if decide (num_conn_completed st = 0 ∧ num_conn_attempts st = 0)%Z then Done []
  else
    d ← print_deviation hist (conn_latency_sum_squares st) (conn_latency_sum st) (num_conn_completed st)
          (hs_latency s) (bytes "connection count");
    Done (bytes "Connection Statistics:" ++ nl ++ nl ++
          bytes "  Connection attempts:  " ++ fmt_u (num_conn_attempts st) ++ bytes " (" ++
          fmt_u (num_conn_completed st) ++ bytes " successful, " ++
          fmt (bytes "%.2lf") (percent (num_conn_completed st) (num_conn_attempts st)) ++ bytes "%)" ++ nl ++ nl ++
          print_latency now (conn_latency_sum st) (num_conn_completed st) (conn_latency_min st) (conn_latency_max st) ++
          d ++ nl).

(** [print_statistics(config, times, stats, now, interval_time)]. *)
Definition print_statistics (updates hist : bool) (start_time end_time : Z) (s : hstats) (now interval_time : Z)
    : run (list Z) :=
  let st := hs_stats s in
  let units := if updates then bytes "Updates" else bytes "Queries" in
  let run_time := u64 ((if decide (now = 0)%Z then end_time else now) - start_time) in
  d ← print_deviation hist (latency_sum_squares st) (latency_sum st) (num_completed st) (hs_latency s)
        (bytes "answer count");
  c ← print_connections hist now s;
  Done (print_queries units now run_time interval_time st ++ d ++ nl ++ c).
End statistics.

(** ** Status lines *)

(** [print_final_status(config)]. *)
Definition print_final_status (r : reason) : list Z :=
  bytes "[Status] Testing complete (" ++
  (match r with interruption => bytes "interruption" | end_of_file => bytes "end of file"
              | time_limit => bytes "time limit" end) ++ bytes ")" ++ nl ++ nl.

(** The end of [print_initial_status(config)]: when the run stops. *)
Definition print_stopping (timelimit maxruns : Z) : list Z :=
  bytes "[Status] Stopping after " ++
  (if decide (timelimit = 0)%Z then [] else fmt_time timelimit ++ bytes " seconds") ++
  (if decide (timelimit ≠ 0 ∧ maxruns ≠ 0)%Z then bytes " or " else []) ++
  (if decide (maxruns = 0)%Z then []
   else fmt_u maxruns ++ bytes " run" ++ (if decide (maxruns = 1)%Z then [] else bytes "s") ++ bytes " through file") ++
  nl.

(** [print_initial_status(config)]: the command line, where the queries go to ([host] is the
    address as [inet_ntop] writes it), when it was started ([ctime] of the time) and when it stops. *)
Definition print_initial_status (progname : list Z) (args : list (list Z)) (updates : bool) (server : perf_sockaddr)
    (host started : list Z) (timelimit maxruns : Z) : list Z :=
  bytes "[Status] Command line: " ++ progname ++ concat (map (λ a, bytes " " ++ a) args) ++ nl ++
  bytes "[Status] Sending " ++ (if updates then bytes "updates" else bytes "queries") ++
  (if decide (sa_family server = AF_INET6) then bytes " (to [" ++ host ++ bytes "]:" else bytes " (to " ++ host ++ bytes ":") ++
  fmt_u (perf_sockaddr_port server) ++ bytes ")" ++ nl ++
  bytes "[Status] Started at: " ++ started ++
  print_stopping timelimit maxruns.

(** [perf_net_doh_stats_print()]: the loop over the codes from 100 + [i] on. *)
Fixpoint print_codes (i : nat) (first_code : bool) (codes : list Z) : list Z * bool :=
  match codes with
  | [] => ([], first_code)
  | c :: cs =>
      if decide (c = 0)%Z then print_codes (S i) first_code cs
      else
        let '(out, f) := print_codes (S i) false cs in
        ((if first_code then [] else bytes ", ") ++ fmt_u (Z.of_nat (i + 100)) ++ bytes ": " ++ fmt_u c ++ out, f)
  end.
Definition perf_net_doh_stats_print (s : doh_stats) : list Z :=
  let '(codes, first_code) := print_codes 0 true (st_code s) in
  bytes "DNS-over-HTTPS statistics:" ++ nl ++ nl ++ bytes "  HTTP/2 return codes:  " ++ codes ++
  (if decide (st_unknown s = 0)%Z then []
   else (if first_code then [] else bytes ", ") ++ bytes "unknown: " ++ fmt_u (st_unknown s)) ++
  (if decide (st_unknown s = 0 ∧ first_code = true)%Z then bytes "none" else []) ++ nl ++ nl.

(** [perf_net_stats_print(mode)], and what [main] prints from the end of the run on. *)
Definition perf_net_stats_print (mode : perf_net_mode) (s : doh_stats) : list Z :=
  match mode with sock_doh => perf_net_doh_stats_print s | _ => [] end.
Definition print_end (fmt : list Z → real → list Z) (cfg : config) (hist : bool) (interrupted : bool) (start nruns : Z)
    (total : hstats) (e : ending) : run (list Z) :=
  out ← print_statistics fmt (cf_updates cfg) hist start (end_time e) total 0 0;
  Done (print_final_status (final_reason interrupted (cf_maxruns cfg) nruns) ++ out ++
        perf_net_stats_print (cf_mode cfg) (doh_total e)).

(** ** The histogram that is printed *)

Definition bucket_of (hg : hg64) (key : Z) : Z * Z * Z :=
  (key_to_minval (sigbits hg) key, key_to_maxval (sigbits hg) key, count_of hg key).

(** The buckets with a count among those of [ks]. *)
Definition listed (hg : hg64) (ks : list Z) : list (Z * Z * Z) :=
  map (bucket_of hg) (filter (λ k, count_of hg k ≠ 0%Z) ks).

Lemma print_visit hg ks out :
  visit hg (λ key pcount out,
      if decide (pcount = 0)%Z then Done (out, true)
      else Done (out ++ bucket_line (key_to_minval (sigbits hg) key, key_to_maxval (sigbits hg) key, pcount), true))
    ks out = Done (out ++ concat (map bucket_line (listed hg ks))).
Proof.
  revert out. unfold listed. induction ks as [|k ks IH]; intros out; cbn [visit].
  { by rewrite app_nil_r. }
  rewrite filter_cons. destruct (decide (count_of hg k = 0)%Z) as [E|E]; cbn [mbind run_bind].
  - rewrite decide_False by tauto. apply IH.
  - rewrite decide_True by done. rewrite IH. cbn [map concat]. by rewrite <- app_assoc.
Qed.

Lemma print_listed hg desc :
  hg_ok hg →
  print_histogram hg desc =
    Done (hist_header desc ++ concat (map bucket_line (listed hg (seqZ 0 (KEYS (sigbits hg)))))).
Proof.
  intros Hok. unfold print_histogram. rewrite hg64_loop_all by done. apply print_visit.
Qed.

(** The buckets are listed in order and do not overlap. *)
Lemma listed_sorted hg k n :
  hg_ok hg → (0 ≤ k)%Z → (k + Z.of_nat n ≤ KEYS (sigbits hg))%Z →
  StronglySorted (λ b b', b.1.2 < b'.1.1)%Z (listed hg (seqZ k (Z.of_nat n))).
Proof.
  intros Hok. pose proof (ok_sigbits _ Hok) as Hs. unfold listed. revert k.
  induction n as [|n IH]; intros k H0 Hk; [constructor|].
  rewrite seqZ_step by lia. replace (Z.of_nat (S n) - 1)%Z with (Z.of_nat n) by lia.
  specialize (IH (k + 1)%Z ltac:(lia) ltac:(lia)). rewrite filter_cons. case_decide; [|done].
  cbn [map]. constructor; [done|]. apply Forall_fmap, Forall_forall. intros k' Hk'.
  apply list_elem_of_filter in Hk' as [_ Hk']. apply elem_of_seqZ in Hk'. simpl.
  apply buckets_sorted; [done|lia|lia].
Qed.

(** The sizes of all buckets together. *)
Lemma sum_indicator (ks : list Z) k f :
  NoDup ks → k ∈ ks → sumZ (map (λ j, f j + (if decide (j = k) then 1 else 0)) ks)%Z = (sumZ (map f ks) + 1)%Z.
Proof.
  assert (∀ l, k ∉ l → sumZ (map (λ j, f j + (if decide (j = k) then 1 else 0)) l)%Z = sumZ (map f l)) as Hno.
  { induction l as [|j l IH]; intros Hn; [done|]. apply not_elem_of_cons in Hn as [Hne Hn]. simpl.
    rewrite IH, decide_False by done. lia. }
  induction 1 as [|j ks Hj Hnd IH]; intros Hk; [by apply elem_of_nil in Hk|].
  simpl. apply elem_of_cons in Hk as [->|Hk].
  - rewrite decide_True, Hno by done. lia.
  - rewrite decide_False by (intros ->; done). rewrite IH by done. lia.
Qed.

Lemma bucket_size_cons s k v vs :
  (1 ≤ s ≤ 15)%Z → (0 ≤ v < 2 ^ 64)%Z → (0 ≤ k < KEYS s)%Z →
  bucket_size s k (v :: vs) = (bucket_size s k vs + (if decide (k = value_to_key s v) then 1 else 0))%Z.
Proof.
  intros Hs Hv Hk. unfold bucket_size. rewrite filter_cons. destruct (value_in_bucket s Hs v Hv) as [Hr Hin].
  destruct (decide (k = value_to_key s v)) as [->|Hne].
  - rewrite decide_True by done. cbn [length]. lia.
  - rewrite decide_False; [lia|]. intros Hb. apply Hne. symmetry. by apply bucket_value.
Qed.

Lemma bucket_sizes s vs :
  (1 ≤ s ≤ 15)%Z → Forall (λ v, 0 ≤ v < 2 ^ 64)%Z vs →
  sumZ (map (λ k, bucket_size s k vs) (seqZ 0 (KEYS s))) = Z.of_nat (length vs).
Proof.
  intros Hs. induction 1 as [|v vs Hv Hvs IH].
  { generalize (seqZ 0 (KEYS s)) as l. induction l as [|j l IH]; [done|]. cbn [map sumZ foldr]. exact IH. }
  assert (map (λ k, bucket_size s k (v :: vs)) (seqZ 0 (KEYS s)) =
          map (λ k, bucket_size s k vs + (if decide (k = value_to_key s v) then 1 else 0))%Z (seqZ 0 (KEYS s))) as ->.
  { apply map_ext_in. intros k Hk. apply list_elem_of_In, elem_of_seqZ in Hk. apply bucket_size_cons; [done|done|lia]. }
  rewrite (sum_indicator _ _ (λ k, bucket_size s k vs)); [rewrite IH; cbn [length]; lia|apply NoDup_seqZ|].
  apply elem_of_seqZ. destruct (value_in_bucket s Hs v Hv) as [Hr _]. lia.
Qed.

Lemma sum_filter_nonzero (f : Z → Z) ks : sumZ (map f (filter (λ k, f k ≠ 0%Z) ks)) = sumZ (map f ks).
Proof.
  induction ks as [|k ks IH]; [done|]. rewrite filter_cons. case_decide as H; simpl; rewrite IH; [done|].
  assert (f k = 0%Z) as -> by (destruct (decide (f k = 0%Z)); tauto). done.
Qed.

Lemma bucket_size_range s k vs : (0 ≤ bucket_size s k vs ≤ Z.of_nat (length vs))%Z.
Proof.
  unfold bucket_size. split; [lia|]. apply Nat2Z.inj_le. apply length_filter.
Qed.

Lemma bucket_size_pos s k v vs :
  v ∈ vs → (key_to_minval s k ≤ v ≤ key_to_maxval s k)%Z → (0 < bucket_size s k vs)%Z.
Proof.
  intros Hv Hin. unfold bucket_size. induction vs as [|w vs IH]; [by apply elem_of_nil in Hv|].
  rewrite filter_cons. apply elem_of_cons in Hv as [<-|Hv].
  - rewrite decide_True by done. cbn [length]. lia.
  - specialize (IH Hv). destruct (decide _); cbn [length]; lia.
Qed.

(** ** The report at the end of a run *)

(** With histograms, the threads have one each. *)
Definition hist_ok (hist : bool) (h : option hg64) : Prop := hist = true → ∃ hg, h = Some hg ∧ hg_ok hg.

Lemma print_deviation_returns fmt hist squares sum count h desc :
  hist_ok hist h → ∃ out, print_deviation fmt hist squares sum count h desc = Done out.
Proof.
  intros Hh. unfold print_deviation. destruct (decide _); [|by eexists]. destruct hist; [|by eexists].
  destruct (Hh eq_refl) as (hg & -> & Hok). rewrite print_listed by done. by eexists.
Qed.

Lemma print_connections_returns fmt hist now s :
  hist_ok hist (hs_latency s) → ∃ out, print_connections fmt hist now s = Done out.
Proof.
  intros Hl. unfold print_connections. destruct (decide _); [by eexists|].
  destruct (print_deviation_returns fmt hist (conn_latency_sum_squares (hs_stats s)) (conn_latency_sum (hs_stats s))
    (num_conn_completed (hs_stats s)) (hs_latency s) (bytes "connection count") Hl) as [d ->]. by eexists.
Qed.

Lemma print_statistics_counts fmt updates hist start finish s now interval :
  hist_ok hist (hs_latency s) → ∃ pre post,
    print_statistics fmt updates hist start finish s now interval =
      Done (pre ++ print_counts fmt (if updates then bytes "Updates" else bytes "Queries") (hs_stats s) ++ post).
Proof.
  intros Hl. unfold print_statistics.
  destruct (print_deviation_returns fmt hist (latency_sum_squares (hs_stats s)) (latency_sum (hs_stats s))
    (num_completed (hs_stats s)) (hs_latency s) (bytes "answer count") Hl) as [d ->].
  destruct (print_connections_returns fmt hist now s Hl) as [c E]. cbn [mbind run_bind]. rewrite E.
  cbn [mbind run_bind]. unfold print_queries.
  eexists ((if decide (now = 0)%Z then [] else bytes "Interval ") ++ bytes "Statistics:" ++ nl ++ nl), _.
  rewrite <- !app_assoc. reflexivity.
Qed.

(** ** Theorems *)

(** dnsperf's report adds up: at the end of a run, over all threads and whatever interleaving
    each of them has gone through, what [main] prints states how many queries were sent,
    completed, lost and interrupted; these are the numbers of queries the threads sent, got
    answers to and timed out, the last three account for every query sent (and for at most one
    more per thread whose sender stopped holding an id, and per id that was counted although
    its sending failed), and the response codes listed
    add up to the queries completed. *)
Theorem dnsperf_report_adds_up fmt cfg hist timeout interrupted start nruns now lat conn (ths : list (sys * list doh)) :
  Forall (λ p, ended timeout interrupted p.1) ths → (Z.of_nat (sent_of ths + lost_of ths + length ths) < 2 ^ 63)%Z →
  hist_ok hist lat →
  ∃ total e pre post, finish_run (cf_mode cfg) interrupted now (map (λ p, (ti p.1, p.2)) ths) = Done (total, e) ∧
    print_end fmt cfg hist interrupted start nruns (HStats total lat conn) e =
      Done (pre ++ print_counts fmt (if cf_updates cfg then bytes "Updates" else bytes "Queries") total ++ post) ∧
    num_sent total = Z.of_nat (sent_of ths) ∧ num_completed total = Z.of_nat (completed_of ths) ∧
    num_timedout total = Z.of_nat (timedout_of ths) ∧
    (num_sent total ≤ num_completed total + num_timedout total + num_interrupted total
       ≤ num_sent total + Z.of_nat (kept_of ths + lost_of ths))%Z ∧
    (interrupted = false → num_interrupted total = 0%Z) ∧
    num_completed total = u64 (sumZ (rcodecounts total)).
Proof.
  intros Hth Hb Hl.
  destruct (finish_accounts timeout (cf_mode cfg) interrupted now ths Hth Hb)
    as (total & e & E & [_ Hcodes] & H1 & H2 & H3 & H4 & H5 & _).
  destruct (print_statistics_counts fmt (cf_updates cfg) hist start (end_time e) (HStats total lat conn) 0 0 Hl)
    as (pre & post & Ep).
  exists total, e, (print_final_status (final_reason interrupted (cf_maxruns cfg) nruns) ++ pre),
    (post ++ perf_net_stats_print (cf_mode cfg) (doh_total e)).
  split; [exact E|]. split; [|exact (conj H1 (conj H2 (conj H3 (conj H4 (conj H5 Hcodes)))))].
  unfold print_end. rewrite Ep. cbn [mbind run_bind hs_stats]. by rewrite <- !app_assoc.
Qed.

(** C34: the histogram that is printed after any values were recorded lists ranges in ascending
    order that do not overlap, each with the number of the values that lie in it, which is
    not 0; every recorded value is in one of them, and the numbers add up to how many values
    were recorded. *)
Theorem histogram_report s hg vs desc :
  hg64_create s = Some hg → Forall (λ v, 0 ≤ v < 2 ^ 64)%Z vs → (Z.of_nat (length vs) < 2 ^ 64)%Z →
  ∃ hg' bs, hg64_incs hg vs = Done hg' ∧
    print_histogram hg' desc = Done (hist_header desc ++ concat (map bucket_line bs)) ∧
    StronglySorted (λ b b', b.1.2 < b'.1.1)%Z bs ∧
    Forall (λ b, (b.1.1 ≤ b.1.2 ∧ 0 < b.2)%Z ∧
                 b.2 = Z.of_nat (length (filter (λ v, b.1.1 ≤ v ≤ b.1.2)%Z vs))) bs ∧
    (∀ v, v ∈ vs → ∃ b, b ∈ bs ∧ (b.1.1 ≤ v ≤ b.1.2)%Z) ∧
    sumZ (map snd bs) = Z.of_nat (length vs).
Proof.
  intros Hc Hvs Hlen. destruct (create_ok s hg Hc) as (Hok & Hs & Hz).
  destruct (incs_spec vs hg Hok Hvs) as (hg' & E & Hok' & Hs' & Hc'). rewrite Hs in Hs'.
  pose proof (ok_sigbits _ Hok') as Hr. rewrite Hs' in Hr. pose proof (KEYS_bound s Hr) as HK.
  assert (∀ k, (0 ≤ k < KEYS s)%Z → count_of hg' k = bucket_size s k vs) as Hcount.
  { intros k Hk. rewrite Hc', Hz, Hs by (unfold in_range; by rewrite Hs). rewrite Z.add_0_l.
    pose proof (bucket_size_range s k vs). apply u64_small. lia. }
  exists hg', (listed hg' (seqZ 0 (KEYS (sigbits hg')))). split_and!; [done|by apply print_listed| | | |].
  - rewrite Hs'. pose proof (listed_sorted hg' 0 (Z.to_nat (KEYS s)) Hok' ltac:(lia)) as Hsort.
    rewrite Hs', Z2Nat.id in Hsort by lia. apply Hsort. lia.
  - apply Forall_fmap, Forall_forall. intros k Hk. apply list_elem_of_filter in Hk as [Hnz Hk].
    rewrite Hs' in Hk. apply elem_of_seqZ in Hk. unfold bucket_of. simpl. rewrite Hs'.
    pose proof (minval_le_maxval s Hr k ltac:(lia)). rewrite Hcount in Hnz |- * by lia.
    pose proof (bucket_size_range s k vs). split; [lia|done].
  - intros v Hv. assert (0 ≤ v < 2 ^ 64)%Z as Hvr by (by rewrite Forall_forall in Hvs; apply Hvs).
    destruct (value_in_bucket s Hr v Hvr) as [Hk Hin]. exists (bucket_of hg' (value_to_key s v)). split.
    + apply list_elem_of_fmap. eexists. split; [done|]. apply list_elem_of_filter. split.
      * rewrite Hcount by done. pose proof (bucket_size_pos s _ v vs Hv Hin). lia.
      * rewrite Hs'. apply elem_of_seqZ. lia.
    + unfold bucket_of. simpl. by rewrite Hs'.
  - unfold listed. rewrite map_map. change (map (λ x, (bucket_of hg' x).2)) with (map (count_of hg')).
    rewrite (sum_filter_nonzero (count_of hg')), <- (bucket_sizes s vs Hr Hvs), Hs'. f_equal. apply map_ext_in.
    intros k Hk. apply list_elem_of_In, elem_of_seqZ in Hk. apply Hcount. lia.
Qed.

Lemma histogram_report_witness :
  ∃ hg hg' bs, hg64_create 2 = Some hg ∧ hg64_incs hg [5; 9; 8; 100]%Z = Done hg' ∧
    print_histogram hg' (bytes "answer count") = Done (hist_header (bytes "answer count") ++ concat (map bucket_line bs)) ∧
    sumZ (map snd bs) = 4%Z.
Proof.
  destruct (histogram_report 2 (Hg64 2 (replicate 64 None)) [5; 9; 8; 100]%Z (bytes "answer count"))
    as (hg' & bs & E & P & _ & _ & _ & S).
  - reflexivity.
  - repeat constructor; lia.
  - reflexivity.
  - exists (Hg64 2 (replicate 64 None)), hg', bs. split_and!; [reflexivity|exact E|exact P|exact S].
Defined.

(** *** Times *)

Lemma dec_digits_le fuel n m :
  (0 ≤ n < 10 ^ Z.of_nat (S m))%Z → length (dec fuel n) ≤ S m.
Proof.
  revert fuel n. induction m as [|m IH]; intros fuel n Hn; (destruct fuel as [|fuel]; [simpl; lia|]); cbn [dec].
  - rewrite decide_True by lia. simpl. lia.
  - case_decide; [simpl; lia|]. rewrite length_app. cbn [length].
    rewrite (Nat2Z.inj_succ (S m)), Z.pow_succ_r in Hn by lia.
    specialize (IH fuel (n / 10)%Z). assert (0 ≤ n / 10 < 10 ^ Z.of_nat (S m))%Z; [|specialize (IH ltac:(done)); lia].
    split; [apply Z.div_pos|apply Z.div_lt_upper_bound]; lia.
Qed.

Lemma strto_digits_zeros m rest acc k :
  strto_digits 10 (replicate m 48%Z ++ rest) acc k = strto_digits 10 rest (acc * 10 ^ Z.of_nat m)%Z (k + m).
Proof.
  revert acc k. induction m as [|m IH]; intros acc k; [by rewrite Z.mul_1_r, Nat.add_0_r|].
  cbn [replicate app strto_digits].
  change (digit_val 48) with (Some 0%Z). cbv iota beta. case_decide; [|lia]. rewrite IH.
  rewrite Nat2Z.inj_succ, Z.pow_succ_r by lia. f_equal; lia.
Qed.

(** The six digits of the microseconds are read back. *)
Lemma fmt_06u_digits n rest acc k :
  (0 ≤ n < MILLION)%Z →
  length (fmt_06u n) = 6 ∧
  strto_digits 10 (fmt_06u n ++ rest) acc k = strto_digits 10 rest (acc * MILLION + n)%Z (k + 6).
Proof.
  intros Hn. unfold fmt_06u, fmt_u. pose proof (dec_digits_le 20 n 5 Hn) as Hl. split.
  { rewrite length_app, length_replicate. lia. }
  rewrite <- app_assoc, strto_digits_zeros, strto_digits_dec by (unfold MILLION in *; lia).
  f_equal; [|lia]. rewrite <- Z.mul_assoc, <- Z.pow_add_r by lia. do 2 f_equal.
  replace (Z.of_nat _ + Z.of_nat _)%Z with 6%Z by lia. done.
Qed.

(** a time of up to 2^32 seconds is printed exactly: the digits of the seconds and of the
    microseconds, without the point, are the decimal number of microseconds. *)
Theorem time_exact t rest acc :
  (0 ≤ t < 2 ^ 32 * MILLION)%Z →
  ∃ secs micros, fmt_time t = secs ++ bytes "." ++ micros ∧ length micros = 6 ∧
    fst (strto_digits 10 (secs ++ micros ++ rest) 0 0) = fst (strto_digits 10 rest t 0) ∧
    strto_digits 10 (micros ++ rest) acc 0 = strto_digits 10 rest (acc * MILLION + t mod MILLION)%Z 6.
Proof.
  intros Ht. exists (fmt_u (t / MILLION)), (fmt_06u (t mod MILLION)).
  assert (0 ≤ t / MILLION < 2 ^ 32)%Z as Hs
    by (split; [apply Z.div_pos; unfold MILLION; lia|apply Z.div_lt_upper_bound; unfold MILLION in *; lia]).
  assert (0 ≤ t mod MILLION < MILLION)%Z as Hm by (apply Z.mod_pos_bound; unfold MILLION; lia).
  unfold fmt_time. rewrite !u32_small by (unfold MILLION in *; lia).
  destruct (fmt_06u_digits (t mod MILLION) rest acc 0 Hm) as [Hl Hd]. split_and!; [done|done| |exact Hd].
  unfold fmt_u at 1. rewrite strto_digits_dec by lia.
  destruct (fmt_06u_digits (t mod MILLION) rest (0 * 10 ^ Z.of_nat (length (dec 20 (t / MILLION))) + t / MILLION)
    (0 + length (dec 20 (t / MILLION))) Hm) as [_ ->].
  assert (∀ s a k k', fst (strto_digits 10 s a k) = fst (strto_digits 10 s a k')) as Hk.
  { induction s as [|c s IH]; intros a k k'; [done|]. simpl. destruct (digit_val c); [|done]. by case_decide. }
  rewrite (Hk rest _ _ 0). do 2 f_equal. pose proof (Z.div_mod t MILLION). unfold MILLION in *. lia.
Qed.

(** The run of [finish_accounts_witness]: one query was sent and answered. *)
Lemma dnsperf_report_adds_up_witness :
  ∃ x y total e pre post, finish_run (cf_mode example_config) true 50 [(x, []); (y, [])] = Done (total, e) ∧
    print_end (λ _ _, bytes "?") example_config false true 0 1 (HStats total None None) e =
      Done (pre ++ print_counts (λ _ _, bytes "?") (bytes "Queries") total ++ post) ∧
    num_sent total = 1%Z ∧ num_completed total = 1%Z ∧ num_completed total = u64 (sumZ (rcodecounts total)).
Proof.
  destruct (one_query_answered 10) as [x R]. destruct one_thread as (y & Hy & _).
  pose proof (reach_init 10 100 0 1 1 0 y Hy) as R0. clear Hy. exists x, y.
  set (a := Sys x (SStopped None) RStopped (History 1 0 1 0)).
  set (b := Sys y (SStopped None) RIdle (History 0 0 0 0)).
  assert (reachable 10 b) as Rb by (eapply reach_step; [exact R0|]; left; constructor).
  destruct (dnsperf_report_adds_up (λ _ _, bytes "?") example_config false 10 true 0 1 50 None None [(a, []); (b, [])])
    as (total & e & pre & post & E & P & H1 & H2 & _ & _ & _ & H3).
  - constructor; [split; [exact R|by exists None|by left]|].
    constructor; [split; [exact Rb|by exists None|by right]|constructor].
  - done.
  - discriminate.
  - exists total, e, pre, post. split; [exact E|]. split; [exact P|]. split; [exact H1|]. split; [exact H2|exact H3].
Defined.
