(* ===== verification/DnsperfMain.v ===== *)
(** * dnsperf from its command line to its report (dnsperf.c, [main])

    [main] in two parts, before and after the threads have run.  The theorem follows a run from
    the command line to the report through all components: the options, the start of the
    threads, every interleaving of their steps, the wait, the cleaning up and what is printed. *)

From S2P Require Import Prelude Doubles Edns Tsig ParseUri DohRequest Datafile Net Opt CommandLine Hg64 Stats Queries.
From S2P Require Import Dnsperf IntervalStats NetTcp NetDoh Sockets Setup Finish Report.

Section main.
Context {FI : FileIO} {HM : Hmac} {F : Type} (atof : list Z → F) (micros : F → Z) (EVP_DecodeUpdate : list Z → Z * list Z).
Context (fmt : list Z → real → list Z).

(** What the C library and the build give: [PACKAGE_VERSION], what [inet_ntop] writes for
    an address, and the time of the start as [ctime_r] writes it. *)
Context (version : list Z) (inet_ntop : family → list Z → list Z) (ctime : list Z).

Definition banner : list Z := bytes "DNS Performance Testing Tool" ++ nl ++ bytes "Version " ++ version ++ nl ++ nl.

(** [main] until the threads have been started: what is printed, what [setup] leaves and the
    threads with their sockets; [net] has what the system answers when these are opened. *)
Definition main_begin (sys : system) (net : nat → opening) (args : list (list Z))
    : run (list Z * started * list (threadinfo * list client)) :=
  s ← setup atof micros EVP_DecodeUpdate sys (argv args);
  let cfg := s_config s in
  ths ← start_threads cfg net (Z.to_nat (cf_threads cfg)) [];
  Done (banner ++ print_initial_status (bytes "dnsperf") args (cf_updates cfg) (cf_server_addr cfg)
          (perf_sockaddr_format inet_ntop (cf_server_addr cfg)) ctime (cf_timelimit cfg) (cf_maxruns cfg), s, ths).

(** [main] from the wait on: [poll] is what the wait meets, [now] the time of its end, [nruns]
    how often the input was read, [ts] the threads as they have ended, with the sockets'
    statistics, [lat] and [conn] the histograms of all threads. *)
Definition main_end (cfg : config) (start : Z) (poll : Z → poll_result) (now nruns : Z) (ts : list (threadinfo * list doh))
    (lat conn : option hg64) : run (list Z) :=
  interrupted ← main_wait start (stop_time cfg start) poll;
  '(total, e) ← finish_run (cf_mode cfg) interrupted now ts;
  print_end fmt cfg (cf_latency_histogram cfg) interrupted start nruns (HStats total lat conn) e.

(** A thread has run from where [main] started it to its end: its sender has stopped, and its
    receiver too unless the run was interrupted. *)
Record thread_ran (timeout : Z) (interrupted : bool) (t : threadinfo * list client) (p : sys * list doh) : Prop := {
  ran_steps : runs timeout t.1 p.1;
  ran_sender : ∃ held, snd_at p.1 = SStopped held;
  ran_receiver : rcv_at p.1 = RStopped ∨ interrupted = true ∧ rcv_at p.1 = RIdle;
}.

(** The threads were started by [threadinfo_init], so whatever they have gone through is a run
    in the sense of Dnsperf.v. *)
Lemma threads_ended cfg net ths interrupted ps :
  config_ok cfg → start_threads cfg net (Z.to_nat (cf_threads cfg)) [] = Done ths →
  Forall2 (thread_ran (cf_timeout cfg) interrupted) ths ps →
  Forall (λ p, ended (cf_timeout cfg) interrupted p.1) ps.
Proof.
  intros Hok E Hran. pose proof Hok as [Ht _ _ _ _ _ _ _ _ _ _ _ _ _ _ _].
  pose proof (start_threads_spec cfg net Hok (Z.to_nat (cf_threads cfg)) [] (no_threads cfg net Hok) ltac:(simpl; lia)) as Hs.
  rewrite E in Hs. destruct Hs as [[Hinit _ _ _ _] _]. apply Forall_lookup. intros k p Hp.
  destruct (Forall2_lookup_r _ _ _ _ _ Hran Hp) as (t & Hk & [Hr Hsd Hrc]). split; [|exact Hsd|exact Hrc].
  exact (runs_reachable _ _ _ _ _ _ _ (proj1 (Hinit k t Hk)) _ Hr).
Qed.

Lemma main_begin_started sys net args out s ths :
  main_begin sys net args = Done (out, s, ths) →
  config_ok (s_config s) ∧ start_threads (s_config s) net (Z.to_nat (cf_threads (s_config s))) [] = Done ths.
Proof.
  unfold main_begin. intros Hb. apply bound in Hb as (s' & Es & Hb). apply bound in Hb as (ths' & Et & Hb).
  assert (config_ok (s_config s')) as H0.
  { pose proof (setup_started atof micros EVP_DecodeUpdate sys (argv args)) as Hs. rewrite Es in Hs. exact (proj1 Hs). }
  apply done_triple in Hb. destruct Hb as [H1 H2]. rewrite <- H1, <- H2. exact (conj H0 Et).
Qed.

(** ** Theorem *)

(** C4: A run of dnsperf, from the command line to the report: when [setup] and the start of the
    threads went well, each thread has gone through any interleaving of its sender's and its
    receiver's steps until both ended, and the wait is over, then [main] prints a report; what it
    gives as queries sent, completed and lost are the numbers of queries the threads sent, got
    answers to and timed out, and nothing is interrupted unless the run was.  Completed, lost and
    interrupted ones account for every query sent; they exceed these by at most one per thread
    whose sender stopped holding an id ([kept_of]) and one for each query that was counted as
    answered or timed out while it was being sent and whose sending then failed ([lost_of]).  The
    response codes listed add up to the queries completed. *)
Theorem dnsperf_run sys net args out s ths start poll interrupted now nruns ps lat conn :
  let cfg := s_config s in
  main_begin sys net args = Done (out, s, ths) →
  main_wait start (stop_time cfg start) poll = Done interrupted →
  Forall2 (thread_ran (cf_timeout cfg) interrupted) ths ps →
  (Z.of_nat (sent_of ps + lost_of ps + length ps) < 2 ^ 63)%Z → hist_ok (cf_latency_histogram cfg) lat →
  ∃ total pre post,
    main_end cfg start poll now nruns (map (λ p, (ti p.1, p.2)) ps) lat conn =
      Done (pre ++ print_counts fmt (if cf_updates cfg then bytes "Updates" else bytes "Queries") total ++ post) ∧
    num_sent total = Z.of_nat (sent_of ps) ∧ num_completed total = Z.of_nat (completed_of ps) ∧
    num_timedout total = Z.of_nat (timedout_of ps) ∧
    (num_sent total ≤ num_completed total + num_timedout total + num_interrupted total
       ≤ num_sent total + Z.of_nat (kept_of ps + lost_of ps))%Z ∧
    (interrupted = false → num_interrupted total = 0%Z) ∧
    num_completed total = u64 (sumZ (rcodecounts total)).
Proof.
  intros cfg Hb Hw Hran Hbound Hlat. apply main_begin_started in Hb as [Hok Et].
  destruct (dnsperf_report_adds_up fmt cfg (cf_latency_histogram cfg) (cf_timeout cfg) interrupted start nruns now lat conn ps
    (threads_ended _ _ _ _ _ Hok Et Hran) Hbound Hlat) as (total & e & pre & post & Ef & Ep & H).
  exists total, pre, post. split; [|exact H]. unfold main_end. rewrite (then_run _ _ _ Hw), (then_run _ _ _ Ef). exact Ep.
Qed.
End main.

(** *** A run *)

(** dnsperf with [-v]: one thread, which sends a query and gets an answer. *)
Notation small_main := (main_begin (FI := chunked_io) (HM := plain_hmac) (F := Z) (λ _, 0%Z) id (λ s, (0%Z, s))
  (bytes "2.9.0") (λ _ _, bytes "127.0.0.1") (bytes "Thu Jan  1 00:00:00 1970" ++ nl) small_system (λ j, plain_opening (5 + Z.of_nat j)) [bytes "-v"]).

Lemma small_setup :
  match setup (FI := chunked_io) (HM := plain_hmac) (F := Z) (λ _, 0%Z) id (λ s, (0%Z, s)) small_system (argv [bytes "-v"]) with
  | Done s =>
      let c := s_config s in
      (cf_max_outstanding c, cf_max_qps c, cf_clients c, cf_threads c) = (100, 0, 1, 1)%Z ∧
      (cf_timelimit c, cf_latency_histogram c, cf_updates c) = (0%Z, false, false) ∧
      sa_family (tr_server (transport_of c)) = sa_family (tr_local (transport_of c)) ∧
      perf_sockaddr_port (tr_local (transport_of c)) = 0%Z
  | _ => False
  end.
Proof. vm_compute. repeat split. Qed.

Lemma small_started :
  ∃ out s t, small_main = Done (out, s, [t]) ∧ threadinfo_init 100 0 1 1 0 = Done t.1 ∧
    cf_timelimit (s_config s) = 0%Z ∧ cf_latency_histogram (s_config s) = false ∧ cf_updates (s_config s) = false.
Proof.
  pose proof (setup_started (FI := chunked_io) (HM := plain_hmac) (F := Z) (λ _, 0%Z) id (λ s, (0%Z, s)) small_system
    (argv [bytes "-v"])) as Hs.
  pose proof small_setup as Hc. unfold main_begin.
  destruct (setup _ _ _ _ _) as [s| | | |]; [|destruct Hc..]. destruct Hs as [Hok _].
  destruct Hc as (H1 & H2 & Hf & Hp). injection H1 as M1 M2 M3 M4. injection H2 as T1 T2 T3.
  rewrite (then_run (Done s) _ s eq_refl). pose proof (start_threads_spec _ (λ j, plain_opening (5 + Z.of_nat j)) Hok 1 [] (no_threads _ _ Hok)) as Ht.
  rewrite M4 in Ht |- *. specialize (Ht ltac:(simpl; lia)). change (Z.to_nat 1) with 1.
  destruct (start_threads (s_config s) _ 1 []) as [ths| |c| |]; [|destruct Ht| |destruct Ht..].
  - destruct Ht as [[Hi _ _ _ _] Hl]. destruct ths as [|t [|]]; [discriminate| |discriminate].
    rewrite (then_run (Done [t]) _ [t] eq_refl). eexists _, s, t. split; [reflexivity|].
    destruct (Hi 0 t eq_refl) as [E _]. rewrite M1, M2, M3, M4 in E. exact (conj E (conj T1 (conj T2 T3))).
  - destruct Ht as (_ & k & _ & [Hr|[[Hr _]|Hr]]); [contradiction..|]. destruct Hr. unfold opens, plain_opening.
    cbn [op_memory op_fd op_bind op_flags op_setfl op_libraries op_connect]. split_and!; try lia; done.
Qed.

Lemma dnsperf_run_witness :
  ∃ out s t x total pre post, small_main = Done (out, s, [t]) ∧ runs (cf_timeout (s_config s)) t.1 x ∧
    main_end (λ _ _, bytes "?") (s_config s) 0 (λ _, PollReady false) 50 1 [(ti x, [])] None None =
      Done (pre ++ print_counts (λ _ _, bytes "?") (bytes "Queries") total ++ post) ∧
    num_sent total = 1%Z ∧ num_completed total = 1%Z.
Proof.
  destruct small_started as (out & s & t & E & Ei & Htl & Hhist & Hup).
  destruct (one_query_answered_from (cf_timeout (s_config s)) t.1 Ei) as [x R]. clear Ei.
  set (a := Sys x (SStopped None) RStopped (History 1 0 1 0)) in R.
  destruct (dnsperf_run (FI := chunked_io) (HM := plain_hmac) (F := Z) (λ _, 0%Z) id (λ s, (0%Z, s)) (λ _ _, bytes "?")
    (bytes "2.9.0") (λ _ _, bytes "127.0.0.1") (bytes "Thu Jan  1 00:00:00 1970" ++ nl) small_system (λ j, plain_opening (5 + Z.of_nat j)) [bytes "-v"] out s [t]
    0 (λ _, PollReady false) false 50 1 [(a, [])] None None) as (total & pre & post & Em & H1 & H2 & _).
  - exact E.
  - unfold stop_time. rewrite Htl. reflexivity.
  - constructor; [|constructor]. split; [exact R|by exists None|by left].
  - reflexivity.
  - rewrite Hhist. discriminate.
  - rewrite Hup in Em. exists out, s, t, a, total, pre, post.
    split; [exact E|]. split; [exact R|]. split; [exact Em|]. split; [exact H1|exact H2].
Defined.
