(* ===== verification/Resperf.v ===== *)
(** * resperf (resperf.c)

    resperf is one loop: it raises the query rate over time, sends a query when one is due,
    takes in responses, retires queries that have timed out, and moves through the phases
    ramp, sustain and wait.  A query is an entry of one array; its index encodes the message
    id and the socket.  The clock, the readiness of the sockets, the input lines, what the
    sockets return and the floating-point schedule [num_scheduled] are arguments. *)

From S2P Require Import Prelude Doubles LinkedList Buffer Dname Edns Tsig Dns Dnsperf.

Module Resperf.

Definition DEFAULT_MAX_OUTSTANDING : Z := (64 * 1024)%Z.
Definition EAGAIN : Z := 11.
Definition EINTR : Z := 4.

Inductive query_list : Set := instanding | outstanding.

#[export] Instance query_list_eq_dec : EqDecision query_list.
Proof. solve_decision. Defined.

(** [query_info] without its link. *)
Record query_info : Type := QueryInfo {
  sent_timestamp : Z;
  is_inprogress : bool;
  qlist : query_list;
}.

Inductive phase : Set := PHASE_RAMP | PHASE_SUSTAIN | PHASE_WAIT.

#[export] Instance phase_eq_dec : EqDecision phase.
Proof. solve_decision. Defined.

(** [ramp_bucket]. *)
Record ramp_bucket : Type := RampBucket {
  b_queries : Z;
  b_responses : Z;
  b_failures : Z;
  b_latency_sum : double;
  b_connections : Z;
  b_conn_latency_sum : double;
}.

(** What [setup] leaves fixed. *)
Record config : Type := Config {
  nsocks : Z;
  max_outstanding : Z;
  query_timeout : Z;
  ramp_time : Z;
  traffic_time : Z;
  end_time : Z;
  n_buckets : Z;
  max_fall_behind : Z;
  time_of_program_start : Z;
}.

(** The queries: the array, the links and the two lists. *)
Record table : Type := Table {
  queries : gmap nat query_info;
  links : gmap nat link;
  outstanding_list : perf_list;
  instanding_list : perf_list;
}.

Record counters : Type := Counters {
  num_queries_sent : Z;
  num_queries_outstanding : Z;
  num_responses_received : Z;
  num_queries_timed_out : Z;
  rcodecounts : list Z;
  num_conn_completed : Z;
  num_conn_attempts : Z;
}.

(** The variables of the loop. *)
Record state : Type := State {
  tbl : table;
  cnt : counters;
  buckets : list ramp_bucket;
  cur_phase : phase;
  sustain_phase_began : Z;
  wait_phase_began : Z;
  time_now : Z;
}.

Definition set_tbl (x : state) (t : table) : state :=
  State t (cnt x) (buckets x) (cur_phase x) (sustain_phase_began x) (wait_phase_began x) (time_now x).
Definition set_cnt (x : state) (c : counters) : state :=
  State (tbl x) c (buckets x) (cur_phase x) (sustain_phase_began x) (wait_phase_began x) (time_now x).
Definition set_buckets (x : state) (b : list ramp_bucket) : state :=
  State (tbl x) (cnt x) b (cur_phase x) (sustain_phase_began x) (wait_phase_began x) (time_now x).
Definition set_time (x : state) (now : Z) : state :=
  State (tbl x) (cnt x) (buckets x) (cur_phase x) (sustain_phase_began x) (wait_phase_began x) now.

(** [enter_sustain_phase] and [enter_wait_phase]. *)
Definition enter_sustain_phase (x : state) : state :=
  State (tbl x) (cnt x) (buckets x) PHASE_SUSTAIN (time_now x) (wait_phase_began x) (time_now x).
Definition enter_wait_phase (x : state) : state :=
  State (tbl x) (cnt x) (buckets x) PHASE_WAIT (sustain_phase_began x) (time_now x) (time_now x).

(** ** Setup *)

(** The loop over the queries, lines 400-404. *)
Fixpoint init_queries (n i : nat) (t : table) : run table :=
  match n with
  | 0 => Done t
  | S n' =>
      let st := perf_link_init i (links t) in
      '(l, st) ← perf_list_append (instanding_list t) i st;
      init_queries n' (S i)
        (Table (<[i := QueryInfo 0 false instanding]> (queries t)) st (outstanding_list t) l)
  end.

(** [init_buckets(n)].  [calloc] takes the number as a [size_t]: a negative one is more than there
    can be, and for zero the GNU C library gives an array of no elements. *)
Definition init_buckets (n : Z) : run (list ramp_bucket) :=
  if decide (n < 0)%Z then Exit 1 else Done (replicate (Z.to_nat n) (RampBucket 0 0 0 d_zero 0 d_zero)).

(** The computing part of [setup], lines 386-404 and 423-432, on the values of the options. *)
Definition setup (socks_opt outstanding_opt timeout ramp sustain wait interval fall_behind now : Z)
    : run (config * state) :=
  if decide (u32 (socks_opt * DEFAULT_MAX_OUTSTANDING) < outstanding_opt)%Z then Exit 1
  else if decide (u64 (ramp + sustain) = 0)%Z then Exit 1
  else
    t ← init_queries (Z.to_nat outstanding_opt) 0 (Table ∅ ∅ perf_list_init perf_list_init);
    let traffic := u64 (ramp + sustain) in
    if decide (interval = 0)%Z then Undef
    else
      let nb := s32 (u64 (traffic + interval - 1) / interval) in
      b ← init_buckets nb;
      Done (Config socks_opt outstanding_opt timeout ramp traffic (u64 (traffic + wait)) nb fall_behind now,
            State t (Counters 0 0 0 0 (replicate 16 0%Z) 0 0) b PHASE_RAMP 0 0 now).

Section resperf.
Context (cfg : config).

(** ** Buckets *)

(** [find_bucket(when)]: the index. *)
Definition find_bucket (when : Z) : Z :=
  let sent_at := u64 (when - time_of_program_start cfg) in
  let i := s32 (u64 (u64 (n_buckets cfg) * sent_at) / traffic_time cfg) in
  let i := if decide (i < 0)%Z then 0%Z else i in
  if decide (n_buckets cfg - 1 < i)%Z then (n_buckets cfg - 1)%Z else i.

(** A time in microseconds over [(double)MILLION]. *)
Definition in_seconds (t : Z) : double := d_div (d_of_int t) (d_of_int MILLION).

(** An update of the bucket for the time [when]. *)
Definition update_bucket (when : Z) (f : ramp_bucket → ramp_bucket) : M state unit := λ x,
  let i := find_bucket when in
  match (if decide (0 ≤ i)%Z then buckets x !! Z.to_nat i else None) with
  | Some b => Done ((), set_buckets x (<[Z.to_nat i := f b]> (buckets x)))
  | None => Undef
  end.

Definition count_query (b : ramp_bucket) : ramp_bucket :=
  RampBucket (s32 (b_queries b + 1)) (b_responses b) (b_failures b) (b_latency_sum b) (b_connections b)
    (b_conn_latency_sum b).

(** [perf__net_event(sock, event, elapsed_time)]. *)
Definition net_event (ev : perf_socket_event) (elapsed : Z) : M state unit :=
  x ← get;
  match ev with
  | perf_socket_event_reconnected | perf_socket_event_connected =>
      update_bucket (time_now x) (λ b,
        RampBucket (b_queries b) (b_responses b) (b_failures b) (b_latency_sum b) (s32 (b_connections b + 1))
          (d_add (b_conn_latency_sum b) (in_seconds elapsed)));;
      modify (λ x, let c := cnt x in
        set_cnt x (Counters (num_queries_sent c) (num_queries_outstanding c) (num_responses_received c)
          (num_queries_timed_out c) (rcodecounts c) (u64 (num_conn_completed c + 1)) (num_conn_attempts c)))
  | perf_socket_event_reconnecting | perf_socket_event_connecting =>
      modify (λ x, let c := cnt x in
        set_cnt x (Counters (num_queries_sent c) (num_queries_outstanding c) (num_responses_received c)
          (num_queries_timed_out c) (rcodecounts c) (num_conn_completed c) (u64 (num_conn_attempts c + 1))))
  end.

(** ** Queries *)

Definition get_query (q : nat) : M state query_info := λ x,
  match queries (tbl x) !! q with Some qi => Done (qi, x) | None => Undef end.

Definition set_query (q : nat) (qi : query_info) : M state unit :=
  modify (λ x, let t := tbl x in
    set_tbl x (Table (<[q := qi]> (queries t)) (links t) (outstanding_list t) (instanding_list t))).

(** [perf__net_sent(sock, qid)]; [data] is the number of the socket. *)
Definition net_sent (qid data : Z) : M state unit :=
  x ← get;
  update_bucket (time_now x) count_query;;
  let idx := (qid * nsocks cfg + data)%Z in
  assert (idx < max_outstanding cfg)%Z;;
  qi ← get_query (Z.to_nat idx);
  set_query (Z.to_nat idx) (QueryInfo (time_now x) (is_inprogress qi) (qlist qi)).

(** What a call of [perf_net_sockready] on each socket does: its answer and the callbacks it
    makes. *)
Inductive callback : Set := CbSent (qid : Z) | CbEvent (ev : perf_socket_event) (elapsed : Z).
Definition sock_call : Type := Z → Z * list callback.

Fixpoint run_callbacks (sock : Z) (cs : list callback) : M state unit :=
  match cs with
  | [] => mret ()
  | CbSent qid :: cs' => net_sent qid sock;; run_callbacks sock cs'
  | CbEvent ev elapsed :: cs' => net_event ev elapsed;; run_callbacks sock cs'
  end.
Definition sockready (a : sock_call) (sock : Z) : M state Z := run_callbacks sock (a sock).2;; mret (a sock).1.

(** Off the list of ids that can be used, to the front of the outstanding queries. *)
Definition to_outstanding (q : nat) : M state unit := λ x,
  let t := tbl x in
  match queries t !! q with
  | None => Undef
  | Some qi =>
      '(l1, st) ← perf_list_unlink (instanding_list t) q (links t);
      '(l2, st) ← perf_list_prepend (outstanding_list t) q st;
      Done ((), set_tbl x
        (Table (<[q := QueryInfo (sent_timestamp qi) (is_inprogress qi) outstanding]> (queries t)) st l2 l1))
  end.

(** Off the outstanding queries, to the end of the ids that can be used. *)
Definition to_instanding (q : nat) : M state unit := λ x,
  let t := tbl x in
  match queries t !! q with
  | None => Undef
  | Some qi =>
      '(l1, st) ← perf_list_unlink (outstanding_list t) q (links t);
      '(l2, st) ← perf_list_append (instanding_list t) q st;
      Done ((), set_tbl x
        (Table (<[q := QueryInfo (sent_timestamp qi) (is_inprogress qi) instanding]> (queries t)) st l1 l2))
  end.

(** The counters after a query was sent, answered, or timed out. *)
Definition count_sent (x : state) : state :=
  let c := cnt x in
  set_cnt x (Counters (u64 (num_queries_sent c + 1)) (u64 (num_queries_outstanding c + 1))
    (num_responses_received c) (num_queries_timed_out c) (rcodecounts c) (num_conn_completed c)
    (num_conn_attempts c)).
Definition count_unsent (x : state) : state :=
  let c := cnt x in
  set_cnt x (Counters (num_queries_sent c) (u64 (num_queries_outstanding c - 1))
    (num_responses_received c) (num_queries_timed_out c) (rcodecounts c) (num_conn_completed c)
    (num_conn_attempts c)).
Definition count_received (rcode : nat) (x : state) : state :=
  let c := cnt x in
  set_cnt x (Counters (num_queries_sent c) (num_queries_outstanding c)
    (u64 (num_responses_received c + 1)) (num_queries_timed_out c)
    (alter (λ c, u64 (c + 1)) rcode (rcodecounts c)) (num_conn_completed c) (num_conn_attempts c)).
Definition count_timed_out (x : state) : state :=
  let c := cnt x in
  set_cnt x (Counters (num_queries_sent c) (num_queries_outstanding c)
    (num_responses_received c) (u64 (num_queries_timed_out c + 1)) (rcodecounts c) (num_conn_completed c)
    (num_conn_attempts c)).

(** What resperf relies on from dns.c: building a request returns, or ends the process. *)
Class RequestBuilder : Type := {
  build_request : list Z → Z → run (perf_result * list Z);
  build_request_returns line qid : Forall byte_ok line →
    match build_request line qid with Done _ => True | Exit c => c = 1%Z | _ => False end;
}.
Context `{RequestBuilder}.

(** ** Sending *)

(** Whether [perf_net_sendto] returned at least 1, and if not whether [errno] is
    [EINPROGRESS]. *)
Inductive send_result : Set := SendOk | SendFailed (inprogress : bool).

(** The start of [do_one_line], lines 595-627: the first id that can be used; queries at the
    front whose sending was in progress are taken to be sent by now.  [ready k] is the [k]-th
    call of [perf_net_sockready]. *)
Definition sock_of (q : nat) : Z := Z.of_nat q mod nsocks cfg.
Fixpoint take_id (fuel : nat) (k : nat) (ready : nat → sock_call) : M state (perf_result + nat * nat) :=
  match fuel with
  | 0 => lift NoFuel
  | S fuel' =>
      x ← get;
      match pl_head (instanding_list (tbl x)) with
      | None => mret (inl PERF_R_NOMORE)
      | Some q =>
          qi ← get_query q;
          if is_inprogress qi then
            z ← sockready (ready k) (sock_of q);
            if decide (z = -1)%Z then mret (inl PERF_R_FAILURE)
            else
              qi ← get_query q;
              set_query q (QueryInfo (sent_timestamp qi) false (qlist qi));;
              to_outstanding q;;
              modify count_sent;;
              take_id fuel' (S k) ready
          else mret (inr (q, k))
      end
  end.

(** [do_one_line(lines, msg)]; [line] is what [perf_datafile_next] delivers. *)
Definition do_one_line (ready : nat → sock_call) (line : option (list Z)) (send : send_result) : M state perf_result :=
  r ← take_id (S (Z.to_nat (max_outstanding cfg))) 0 ready;
  match r with
  | inl result => mret result
  | inr (q, k) =>
      let qid := (Z.of_nat q / nsocks cfg)%Z in
      z ← sockready (ready k) (sock_of q);
      if decide (z = 0 ∨ z = -1)%Z then mret PERF_R_FAILURE
      else
        match line with
        | None => perf_log_fatal
        | Some line =>
            '(result, _) ← lift (build_request line qid);
            if decide (result ≠ PERF_R_SUCCESS) then mret result
            else
              x ← get;
              qi ← get_query q;
              set_query q (QueryInfo (time_now x) (is_inprogress qi) (qlist qi));;
              match send with
              | SendFailed inprogress =>
                  (if inprogress : bool then
                     qi ← get_query q;
                     set_query q (QueryInfo (sent_timestamp qi) true (qlist qi))
                   else mret ());;
                  mret PERF_R_FAILURE
              | SendOk =>
                  to_outstanding q;;
                  modify count_sent;;
                  mret PERF_R_SUCCESS
              end
        end
  end.

(** ** Receiving *)

(** [try_process_response(sockindex)]; [a] is the call of [perf_net_sockready] and [r] what
    [perf_net_recv] returned. *)
Definition try_process_response (sockindex : Z) (a : sock_call) (r : recv_out) : M state unit :=
  _ ← sockready a sockindex;
  match r with
  | RecvErr e => if decide (e = EAGAIN ∨ e = EINTR) then mret () else perf_log_fatal
  | RecvClosed => mret ()
  | RecvData packet =>
      if decide (length packet < 4) then mret ()
      else
        let b i := default 0%Z (packet !! i) in
        let qid := rd16 (b 0) (b 1) in
        let rcode := Z.to_nat (Z.land (rd16 (b 2) (b 3)) 15) in
        let idx := u32 (u32 (qid * nsocks cfg) + sockindex) in
        if decide (max_outstanding cfg ≤ idx)%Z then mret ()
        else
          let q := Z.to_nat idx in
          qi ← get_query q;
          if decide (qlist qi ≠ outstanding) then mret ()
          else
            to_instanding q;;
            modify count_unsent;;
            x ← get;
            let latency := in_seconds (u64 (time_now x - sent_timestamp qi)) in
            update_bucket (sent_timestamp qi) (λ b,
              RampBucket (b_queries b) (s32 (b_responses b + 1))
                (if decide (rcode = 0 ∨ rcode = 3) then b_failures b else s32 (b_failures b + 1))
                (d_add (b_latency_sum b) latency) (b_connections b) (b_conn_latency_sum b));;
            modify (count_received rcode)
  end.

(** [retire_old_queries()]. *)
Fixpoint retire_old_queries (fuel : nat) : M state unit :=
  match fuel with
  | 0 => lift NoFuel
  | S fuel' =>
      x ← get;
      match pl_tail (outstanding_list (tbl x)) with
      | None => mret ()
      | Some q =>
          qi ← get_query q;
          if decide (u64 (time_now x - sent_timestamp qi) < query_timeout cfg)%Z then mret ()
          else
            to_instanding q;;
            modify count_unsent;;
            modify count_timed_out;;
            retire_old_queries fuel'
      end
  end.

(** ** The loop *)

(** What one round of the loop is given: the value of [num_scheduled], what the sockets do, the
    next line, one call of [perf_net_recv] for each of [try_responses], and the time at the end
    of the round. *)
Record round_input : Type := RoundInput {
  scheduled : Z;
  in_ready : nat → sock_call;
  in_line : option (list Z);
  in_send : send_result;
  in_recvs : list (sock_call * recv_out);
  in_now : Z;
}.

(** The [switch] on the phase, lines 865-878: [true] to leave the loop. *)
Definition phase_step (since : Z) : M state bool :=
  x ← get;
  match cur_phase x with
  | PHASE_RAMP =>
      if decide (ramp_time cfg ≤ since)%Z then modify enter_sustain_phase;; mret false else mret false
  | PHASE_SUSTAIN =>
      if decide (traffic_time cfg ≤ since)%Z then modify enter_wait_phase;; mret false else mret false
  | PHASE_WAIT =>
      mret (bool_decide (end_time cfg ≤ since)%Z || perf_list_empty (outstanding_list (tbl x)))
  end.

(** Lines 879-896: [should_send] is an [int] compared with the [unsigned int]
    [max_fall_behind]. *)
Definition send_step (i : round_input) : M state unit :=
  x ← get;
  if decide (cur_phase x = PHASE_WAIT) then mret ()
  else
    let should_send := s32 (scheduled i - num_queries_sent (cnt x)) in
    (if decide (max_fall_behind cfg ≠ 0 ∧ max_fall_behind cfg ≤ u32 should_send)%Z
     then modify enter_wait_phase else mret ());;
    if decide (0 < should_send)%Z then
      result ← do_one_line (in_ready i) (in_line i) (in_send i);
      (if decide (result = PERF_R_SUCCESS) then x ← get; update_bucket (time_now x) count_query else mret ());;
      (if decide (result = PERF_R_NOMORE) then modify enter_wait_phase else mret ())
    else mret ().

(** Lines 897-901: the sockets are tried in turn from [current_sock] on. *)
Fixpoint responses_step (rs : list (sock_call * recv_out)) (current_sock : Z) : M state Z :=
  match rs with
  | [] => mret current_sock
  | (a, r) :: rs' =>
      try_process_response current_sock a r;;
      let next := u32 (current_sock + 1) in
      responses_step rs' (if decide (nsocks cfg ≤ next)%Z then 0%Z else next)
  end.

(** One round of the loop: [None] when the loop is left, otherwise the next [current_sock]. *)
Definition round (i : round_input) (current_sock : Z) : M state (option Z) :=
  x ← get;
  stop ← phase_step (u64 (time_now x - time_of_program_start cfg));
  if stop : bool then mret None
  else
    send_step i;;
    s ← responses_step (in_recvs i) current_sock;
    retire_old_queries (S (Z.to_nat (max_outstanding cfg)));;
    modify (λ x, set_time x (in_now i));;
    mret (Some s).

(** The loop, as long as it is given input. *)
Fixpoint rounds (ins : list round_input) (current_sock : Z) : M state (option Z) :=
  match ins with
  | [] => mret (Some current_sock)
  | i :: ins' =>
      s ← round i current_sock;
      match s with None => mret None | Some s => rounds ins' s end
  end.
End resperf.

(** ** The table of queries *)

Definition entry_out (t : table) (q : nat) : Prop :=
  ∃ qi, queries t !! q = Some qi ∧ qlist qi = outstanding ∧ is_inprogress qi = false.
Definition entry_in (t : table) (q : nat) : Prop := ∃ qi, queries t !! q = Some qi ∧ qlist qi = instanding.

(** The two lists partition the ids below [n]; every entry knows its list, no outstanding query is
    in progress of being sent, and of the ids that can be used only the first may be. *)
Record table_rep (n : nat) (t : table) (os ins : list nat) : Prop := {
  r_out : dll (outstanding_list t) (links t) os;
  r_in : dll (instanding_list t) (links t) ins;
  r_ids : os ++ ins ≡ₚ seq 0 n;
  r_entry_o : ∀ q, q ∈ os → entry_out t q;
  r_entry_i : ∀ q, q ∈ ins → entry_in t q;
  r_head : ∀ q qi, q ∈ tail ins → queries t !! q = Some qi → is_inprogress qi = false;
}.

Lemma rep_NoDup n t os ins : table_rep n t os ins → NoDup (os ++ ins).
Proof. intros Hr. rewrite (r_ids _ _ _ _ Hr). apply NoDup_seq. Qed.

Lemma rep_entry n t os ins q : table_rep n t os ins → q < n → is_Some (queries t !! q).
Proof.
  intros Hr Hq. assert (q ∈ os ++ ins) as Hin by (rewrite (r_ids _ _ _ _ Hr); apply elem_of_seq; lia).
  apply elem_of_app in Hin as [Hin|Hin];
    [destruct (r_entry_o _ _ _ _ Hr q Hin) as (qi & ? & _)|destruct (r_entry_i _ _ _ _ Hr q Hin) as (qi & ? & _)]; eauto.
Qed.

Lemma rep_bound n t os ins q : table_rep n t os ins → q ∈ os ++ ins → q < n.
Proof. intros Hr Hq. rewrite (r_ids _ _ _ _ Hr), elem_of_seq in Hq. lia. Qed.

Lemma rep_length n t os ins : table_rep n t os ins → length os + length ins = n.
Proof.
  intros Hr. pose proof (Permutation_length (r_ids _ _ _ _ Hr)) as Hp. by rewrite length_app, length_seq in Hp.
Qed.

Lemma elem_of_tail {A} (y : A) l : y ∈ tail l → y ∈ l.
Proof. destruct l; [done|]. by right. Qed.
Lemma elem_of_tail_middle {A} (y q : A) a b : y ∈ tail (a ++ b) → y ∈ tail (a ++ q :: b).
Proof.
  destruct a as [|z a]; [apply elem_of_tail|]. simpl. rewrite !elem_of_app, elem_of_cons. tauto.
Qed.

(** Assignments to an entry that keep its list. *)
Lemma rep_set n t os ins q qi qi' :
  table_rep n t os ins → queries t !! q = Some qi → qlist qi' = qlist qi →
  (qlist qi = outstanding → is_inprogress qi' = is_inprogress qi) →
  is_inprogress qi' = is_inprogress qi ∨ is_inprogress qi' = false ∨ head ins = Some q →
  table_rep n (Table (<[q := qi']> (queries t)) (links t) (outstanding_list t) (instanding_list t)) os ins.
Proof.
  intros [Ho Hi Hp Heo Hei Hh] Hq Hl Hprog Hhead. split; simpl; auto.
  - intros x Hx. destruct (Heo x Hx) as (qx & Hqx & Hlx & Hpx). unfold entry_out. simpl.
    destruct (decide (x = q)) as [->|Hne]; [|exists qx; by rewrite lookup_insert_ne].
    exists qi'. rewrite lookup_insert_eq. simplify_eq. rewrite Hprog by done. by rewrite Hl.
  - intros x Hx. destruct (Hei x Hx) as (qx & Hqx & Hlx). unfold entry_in. simpl.
    destruct (decide (x = q)) as [->|Hne]; [|exists qx; by rewrite lookup_insert_ne].
    exists qi'. rewrite lookup_insert_eq. simplify_eq. by rewrite Hl.
  - intros x qx Hx. destruct (decide (x = q)) as [->|Hne]; [|rewrite lookup_insert_ne by done; by apply Hh].
    rewrite lookup_insert_eq. intros [= <-]. destruct Hhead as [->|[->|Hhead]]; [by apply (Hh q)|done|].
    destruct Hi as (Hnd & _). destruct ins as [|y ins]; [done|]. injection Hhead as ->.
    by apply NoDup_cons in Hnd as [? _].
Qed.

Lemma to_outstanding_spec n x os a q b qi :
  table_rep n (tbl x) os (a ++ q :: b) → queries (tbl x) !! q = Some qi → is_inprogress qi = false →
  ∃ t', to_outstanding q x = Done ((), set_tbl x t') ∧ table_rep n t' (q :: os) (a ++ b).
Proof.
  intros Hr Hqi Hprog. pose proof Hr as [Ho Hi Hp Heo Hei Hh]. pose proof (rep_NoDup _ _ _ _ Hr) as Hnd.
  apply NoDup_app in Hnd as (_ & Hdis & _).
  destruct (unlink_spec _ _ _ _ _ Hi) as (l1 & st1 & E1 & Hd1 & Hn1 & Hf1 & _).
  assert (q ∉ os) as Hqo by (intros Hin; apply (Hdis q Hin), elem_of_app; right; by left).
  assert (∀ y, y ∈ os → y ∉ a ++ b) as Hdis'.
  { intros y Hy Hin. apply (Hdis y Hy). apply elem_of_app in Hin as [?|?]; apply elem_of_app; [by left|right; by right]. }
  assert (dll (outstanding_list (tbl x)) st1 os) as Ho1.
  { eapply dll_frame, Ho. intros y Hy. apply Hf1; [by apply Hdis'|by intros ->]. }
  destruct (prepend_spec _ _ _ q Ho1 Hqo) as (l2 & st2 & E2 & Hd2 & Hf2 & _); [by rewrite Hn1|].
  unfold to_outstanding. rewrite Hqi, E1. simpl. rewrite E2. simpl. eexists. split; [done|].
  assert (q ∉ a ++ b) as Hqab.
  { pose proof Hi as (Hndi & _). rewrite <- Permutation_middle in Hndi. by apply NoDup_cons in Hndi as [? _]. }
  split; simpl.
  - done.
  - eapply dll_frame, Hd1. intros y Hy. apply Hf2; [intros Hy'; by apply (Hdis' y)|by intros ->].
  - rewrite <- Hp. by rewrite <- (Permutation_middle a b q), (Permutation_middle os).
  - intros y [->|Hy]%elem_of_cons; unfold entry_out; simpl.
    + eexists. by rewrite lookup_insert_eq.
    + rewrite lookup_insert_ne by (by intros ->). by apply Heo.
  - intros y Hy. unfold entry_in. simpl. rewrite lookup_insert_ne by (by intros ->).
    apply Hei. apply elem_of_app in Hy as [?|?]; apply elem_of_app; [by left|right; by right].
  - intros y qy Hy. assert (y ∈ a ++ b) as Hy' by (by apply elem_of_tail).
    rewrite lookup_insert_ne by (by intros ->). apply Hh. by apply elem_of_tail_middle.
Qed.

Lemma to_instanding_spec n x a q b ins :
  table_rep n (tbl x) (a ++ q :: b) ins →
  ∃ t', to_instanding q x = Done ((), set_tbl x t') ∧ table_rep n t' (a ++ b) (ins ++ [q]).
Proof.
  intros Hr. pose proof Hr as [Ho Hi Hp Heo Hei Hh]. pose proof (rep_NoDup _ _ _ _ Hr) as Hnd.
  apply NoDup_app in Hnd as (_ & Hdis & _).
  destruct (Heo q) as (qi & Hqi & _ & Hprog); [apply elem_of_app; right; by left|].
  destruct (unlink_spec _ _ _ _ _ Ho) as (l1 & st1 & E1 & Hd1 & Hn1 & Hf1 & _).
  assert (q ∉ ins) as Hqi' by (apply Hdis, elem_of_app; right; by left).
  assert (∀ y, y ∈ ins → y ∉ a ++ b) as Hdis'.
  { intros y Hy Hin. apply (Hdis y); [|done]. apply elem_of_app in Hin as [?|?]; apply elem_of_app; [by left|right; by right]. }
  assert (dll (instanding_list (tbl x)) st1 ins) as Hi1.
  { eapply dll_frame, Hi. intros y Hy. apply Hf1; [by apply Hdis'|by intros ->]. }
  destruct (append_spec _ _ _ q Hi1 Hqi') as (l2 & st2 & E2 & Hd2 & Hf2 & _); [by rewrite Hn1|].
  unfold to_instanding. rewrite Hqi, E1. simpl. rewrite E2. simpl. eexists. split; [done|].
  assert (q ∉ a ++ b) as Hqab.
  { pose proof Ho as (Hndo & _). rewrite <- Permutation_middle in Hndo. by apply NoDup_cons in Hndo as [? _]. }
  split; simpl.
  - eapply dll_frame, Hd1. intros y Hy. apply Hf2; [intros Hy'; by apply (Hdis' y)|by intros ->].
  - done.
  - rewrite <- Hp, app_assoc, <- Permutation_cons_append. by rewrite <- (Permutation_middle a b q).
  - intros y Hy. unfold entry_out. simpl. rewrite lookup_insert_ne by (by intros ->).
    apply Heo. apply elem_of_app in Hy as [?|?]; apply elem_of_app; [by left|right; by right].
  - intros y Hy. unfold entry_in. simpl. apply elem_of_app in Hy as [Hy| ->%list_elem_of_singleton].
    + rewrite lookup_insert_ne by (by intros ->). by apply Hei.
    + eexists. by rewrite lookup_insert_eq.
  - intros y qy Hy. destruct (decide (y = q)) as [->|Hne]; [rewrite lookup_insert_eq; by intros [= <-]|].
    rewrite lookup_insert_ne by done. apply Hh. destruct ins as [|z ins]; [by apply elem_of_nil in Hy|].
    apply elem_of_app in Hy as [?|?%list_elem_of_singleton]; done.
Qed.

(** *** The initial table *)
Lemma fill_queries_spec k i t :
  table_rep i t [] (seq 0 i) → outstanding_list t = perf_list_init →
  (∀ q qi, queries t !! q = Some qi → is_inprogress qi = false) →
  ∃ t', init_queries k i t = Done t' ∧ table_rep (i + k) t' [] (seq 0 (i + k)).
Proof.
  revert i t. induction k as [|k IH]; intros i t [Ho Hi _ _ Hei _] Hl Hno.
  { rewrite Nat.add_0_r. exists t. split; [done|]. split; [done|done|done| |done|]; [by intros q ?%elem_of_nil|by eauto]. }
  assert (i ∉ seq 0 i) as Hn by (rewrite elem_of_seq; lia). cbn [init_queries].
  destruct (append_spec (instanding_list t) (perf_link_init i (links t)) (seq 0 i) i)
    as (l & st & El & Hd & _); [|done|unfold perf_link_init; by rewrite lookup_insert_eq|].
  { eapply dll_frame, Hi. intros x Hx. unfold perf_link_init. rewrite lookup_insert_ne; [done|]. by intros ->. }
  rewrite El. cbn [mbind run_bind]. replace (i + S k) with (S i + k) by lia.
  assert (∀ q qi, <[i:=QueryInfo 0 false instanding]> (queries t) !! q = Some qi → is_inprogress qi = false) as Hno'.
  { intros q qi. destruct (decide (q = i)) as [->|]; [rewrite lookup_insert_eq; by intros [= <-]|].
    rewrite lookup_insert_ne by done. apply Hno. }
  apply IH; [|done|done].
  assert (seq 0 (S i) = seq 0 i ++ [i]) as Hseq by (by rewrite seq_S).
  split; cbn [queries links outstanding_list instanding_list].
  - rewrite Hl. apply dll_nil.
  - by rewrite Hseq.
  - done.
  - by intros q ?%elem_of_nil.
  - rewrite Hseq. intros q [Hq| ->%list_elem_of_singleton]%elem_of_app; unfold entry_in; cbn [queries].
    + rewrite lookup_insert_ne by (intros ->; by apply Hn). by apply Hei.
    + eexists. by rewrite lookup_insert_eq.
  - intros q qi _. apply Hno'.
Qed.

Lemma init_table_spec n :
  ∃ t, init_queries n 0 (Table ∅ ∅ perf_list_init perf_list_init) = Done t ∧ table_rep n t [] (seq 0 n).
Proof.
  apply (fill_queries_spec n 0); [|done|intros q qi; simpl; by rewrite lookup_empty].
  split; simpl; [apply dll_nil|apply dll_nil|done| | |]; [by intros q ?%elem_of_nil..|by intros q ? ?%elem_of_nil].
Qed.

(** ** The invariant of the loop *)

Record cfg_ok (cfg : config) : Prop := {
  cfg_nsocks : (1 ≤ nsocks cfg < 2 ^ 32)%Z;
  cfg_max : (1 ≤ max_outstanding cfg < 2 ^ 32)%Z;
  cfg_ids : (max_outstanding cfg ≤ nsocks cfg * 65536)%Z;
  cfg_buckets : (1 ≤ n_buckets cfg < 2 ^ 31)%Z;
}.

Section invariant.
Context (cfg : config) (Hcfg : cfg_ok cfg).

(** [d] responses have been taken off the outstanding queries but not been counted yet. *)
Record inv (d : Z) (os ins : list nat) (x : state) : Prop := {
  inv_tbl : table_rep (Z.to_nat (max_outstanding cfg)) (tbl x) os ins;
  inv_out : num_queries_outstanding (cnt x) = Z.of_nat (length os);
  inv_bal : num_queries_sent (cnt x) =
              u64 (num_responses_received (cnt x) + num_queries_timed_out (cnt x) + Z.of_nat (length os) + d);
  inv_rcodes : length (rcodecounts (cnt x)) = 16;
  inv_resp : num_responses_received (cnt x) = u64 (sumZ (rcodecounts (cnt x)));
  inv_buckets : length (buckets x) = Z.to_nat (n_buckets cfg);
}.

Lemma inv_lengths d os ins x : inv d os ins x → (Z.of_nat (length os) + Z.of_nat (length ins) = max_outstanding cfg)%Z.
Proof. intros [Hr _ _ _ _ _]. pose proof (rep_length _ _ _ _ Hr). destruct Hcfg. lia. Qed.

Lemma find_bucket_range when : (0 ≤ find_bucket cfg when < n_buckets cfg)%Z.
Proof.
  destruct Hcfg as [_ _ _ Hb]. unfold find_bucket. cbv zeta.
  destruct (decide (_ < 0)%Z); destruct (decide (n_buckets cfg - 1 < _)%Z); lia.
Qed.

Lemma update_bucket_inv d os ins when f :
  triple (inv d os ins) (update_bucket cfg when f) (λ _, inv d os ins).
Proof.
  intros x [Hr H1 H2 H3 H4 H5]. pose proof (find_bucket_range when) as Hi. unfold update_bucket.
  rewrite decide_True by lia. destruct (lookup_lt_is_Some_2 (buckets x) (Z.to_nat (find_bucket cfg when))) as [b ->];
    [lia|]. split; try done. simpl. by rewrite length_insert.
Qed.

Lemma update_bucket_returns d os ins when f x :
  inv d os ins x → ∃ x', update_bucket cfg when f x = Done ((), x') ∧ cnt x' = cnt x.
Proof.
  intros Hinv. pose proof (find_bucket_range when) as Hi. unfold update_bucket. rewrite decide_True by lia.
  destruct (lookup_lt_is_Some_2 (buckets x) (Z.to_nat (find_bucket cfg when))) as [b ->];
    [rewrite (inv_buckets _ _ _ _ Hinv); lia|]. by eexists.
Qed.

(** A query at the front of the usable ids becomes outstanding and is counted as sent. *)
Lemma send_inv d os q ins x qi :
  inv d os (q :: ins) x → queries (tbl x) !! q = Some qi → is_inprogress qi = false →
  match (to_outstanding q;; modify count_sent) x with
  | Done (_, x') => inv d (q :: os) ins x'
  | _ => False
  end.
Proof.
  intros Hinv Hqi Hp. pose proof (inv_lengths _ _ _ _ Hinv) as Hlen. destruct Hinv as [Hr H1 H2 H3 H4 H5].
  destruct (to_outstanding_spec _ x os [] q ins qi Hr Hqi Hp) as (t' & E & Hr').
  rewrite (bind_Done _ _ _ _ _ E). destruct Hcfg. simpl in *. split; simpl; auto.
  - rewrite H1, u64_small by lia. lia.
  - rewrite H2. unfold u64. rewrite Zplus_mod_idemp_l. f_equal. lia.
Qed.

(** A query is taken off the outstanding ones. *)
Lemma retire_inv d a q b ins x :
  inv d (a ++ q :: b) ins x →
  match (to_instanding q;; modify count_unsent) x with
  | Done (_, x') => inv (d + 1) (a ++ b) (ins ++ [q]) x' ∧ time_now x' = time_now x
  | _ => False
  end.
Proof.
  intros [Hr H1 H2 H3 H4 H5]. destruct (to_instanding_spec _ x a q b ins Hr) as (t' & E & Hr').
  rewrite (bind_Done _ _ _ _ _ E). pose proof (rep_length _ _ _ _ Hr) as Hlen. destruct Hcfg.
  rewrite length_app in *. simpl in *. split; [|done].
  split; simpl; auto; rewrite length_app.
  - rewrite H1, u64_small by lia. lia.
  - rewrite H2. f_equal. lia.
Qed.

(** [get_query] and [set_query] on an id in range. *)
Lemma get_query_inv d os ins q x :
  inv d os ins x → (Z.of_nat q < max_outstanding cfg)%Z →
  ∃ qi, get_query q x = Done (qi, x) ∧ queries (tbl x) !! q = Some qi.
Proof.
  intros Hinv Hq. destruct (rep_entry _ _ _ _ q (inv_tbl _ _ _ _ Hinv)) as [qi Hqi]; [lia|].
  exists qi. unfold get_query. by rewrite Hqi.
Qed.

Lemma set_query_inv d os ins q qi qi' x :
  inv d os ins x → queries (tbl x) !! q = Some qi → qlist qi' = qlist qi →
  (qlist qi = outstanding → is_inprogress qi' = is_inprogress qi) →
  is_inprogress qi' = is_inprogress qi ∨ is_inprogress qi' = false ∨ head ins = Some q →
  ∃ x', set_query q qi' x = Done ((), x') ∧ inv d os ins x' ∧ queries (tbl x') !! q = Some qi' ∧
        time_now x' = time_now x.
Proof.
  intros [Hr H1 H2 H3 H4 H5] Hqi Hl Hp Hh. eexists. split; [done|]. split; [|split; [|done]].
  - split; simpl; auto. by eapply rep_set.
  - simpl. by rewrite lookup_insert_eq.
Qed.

Lemma count_received_inv d os ins rcode x :
  inv d os ins x → rcode < 16 → inv (d - 1) os ins (count_received rcode x).
Proof.
  intros [Hr H1 H2 H3 H4 H5] Hrc. split; simpl; auto.
  - rewrite H2. unfold u64. rewrite <- !Z.add_assoc, Zplus_mod_idemp_l. f_equal. lia.
  - by rewrite length_alter.
  - rewrite sumZ_alter by lia. rewrite H4. unfold u64. by rewrite Zplus_mod_idemp_l.
Qed.

Lemma count_timed_out_inv d os ins x : inv d os ins x → inv (d - 1) os ins (count_timed_out x).
Proof.
  intros [Hr H1 H2 H3 H4 H5]. split; simpl; auto.
  rewrite H2. unfold u64.
  match goal with |- _ = ((_ + (?t + 1) mod ?m + _ + _) mod ?m)%Z =>
    replace (num_responses_received (cnt x) + (t + 1) mod m + Z.of_nat (length os) + (d - 1))%Z
      with ((t + 1) mod m + (num_responses_received (cnt x) + Z.of_nat (length os) + (d - 1)))%Z by lia end.
  rewrite Zplus_mod_idemp_l. f_equal. lia.
Qed.
End invariant.

(** ** The operations keep the invariant *)

(** The callback [sent] is called for a query of that socket. *)
Definition callback_ok (cfg : config) (sock : Z) (c : callback) : Prop :=
  match c with CbSent qid => (0 ≤ qid ∧ qid * nsocks cfg + sock < max_outstanding cfg)%Z | CbEvent _ _ => True end.
Definition call_ok (cfg : config) (a : sock_call) : Prop :=
  ∀ sock, (0 ≤ sock < nsocks cfg)%Z → Forall (callback_ok cfg sock) (a sock).2.

Section operations.
Context (cfg : config) (Hcfg : cfg_ok cfg).
Context {B : RequestBuilder}.

Definition Inv (x : state) : Prop := ∃ os ins, inv cfg 0 os ins x.

(** What a call of [perf_net_sockready] may change: times of sending, buckets, and the counts of
    connections. *)
Record called (x x' : state) : Prop := {
  called_entry q qi : queries (tbl x) !! q = Some qi →
    ∃ t, queries (tbl x') !! q = Some (QueryInfo t (is_inprogress qi) (qlist qi));
  called_sent : num_queries_sent (cnt x') = num_queries_sent (cnt x);
  called_received : num_responses_received (cnt x') = num_responses_received (cnt x);
  called_rcodes : rcodecounts (cnt x') = rcodecounts (cnt x);
  called_time : cur_phase x' = cur_phase x ∧ time_now x' = time_now x;
}.
Lemma called_refl x : called x x.
Proof. split; try done. intros q [t p l] ?. by exists t. Qed.
Lemma called_trans x y z : called x y → called y z → called x z.
Proof.
  intros [H1 H2 H3 H4 [H5 H5']] [H1' H2' H3' H4' [H6 H6']]. split; try congruence; [|split; congruence].
  intros q qi Hq. destruct (H1 q qi Hq) as [t Ht]. destruct (H1' _ _ Ht) as [t' Ht']. by exists t'.
Qed.

Lemma bucket_called d os ins when f x : inv cfg d os ins x →
  ∃ x', update_bucket cfg when f x = Done ((), x') ∧ inv cfg d os ins x' ∧ called x x'.
Proof.
  intros Hinv. destruct (update_bucket_returns cfg Hcfg _ _ _ when f x Hinv) as (x' & E & _).
  pose proof (update_bucket_inv cfg Hcfg _ _ _ when f x Hinv) as Hi. rewrite E in Hi. exists x'. split_and!; [done|done|].
  revert E. unfold update_bucket. destruct (if decide _ then _ else _); [|done]. intros [= <-].
  split; try done. intros q [t p l] ?. by exists t.
Qed.

Lemma net_event_spec d os ins ev elapsed x : inv cfg d os ins x →
  ∃ x', net_event cfg ev elapsed x = Done ((), x') ∧ inv cfg d os ins x' ∧ called x x'.
Proof.
  intros Hinv. unfold net_event. rewrite (bind_Done get _ _ _ _ eq_refl).
  destruct ev; try (eexists; split; [done|]; split; [by destruct Hinv|]; split; try done; by intros q [t p l] ?; exists t);
    match goal with |- context [update_bucket _ ?w ?f] =>
      destruct (bucket_called _ _ _ w f x Hinv) as (x1 & E & Hi & Hc) end;
    rewrite (bind_Done _ _ _ _ _ E); (eexists; split; [done|]; split; [by destruct Hi|]);
    (eapply called_trans; [exact Hc|]); split; try done; by intros q [t p l] ?; exists t.
Qed.

Lemma net_sent_spec d os ins qid sock x : inv cfg d os ins x →
  (0 ≤ qid)%Z → (0 ≤ sock)%Z → (qid * nsocks cfg + sock < max_outstanding cfg)%Z →
  ∃ x', net_sent cfg qid sock x = Done ((), x') ∧ inv cfg d os ins x' ∧ called x x'.
Proof.
  intros Hinv Hq Hs Hidx. unfold net_sent. rewrite (bind_Done get _ _ _ _ eq_refl).
  destruct (bucket_called _ _ _ (time_now x) count_query x Hinv) as (x1 & E & Hi & Hc).
  rewrite (bind_Done _ _ _ _ _ E). cbv zeta. set (idx := (qid * nsocks cfg + sock)%Z) in *.
  rewrite (bind_Done (assert _) _ x1 () x1) by (unfold assert; by rewrite decide_True by lia).
  assert (0 ≤ idx)%Z as Hidx0 by (destruct Hcfg as [? _ _ _]; unfold idx; nia).
  destruct (get_query_inv cfg _ _ _ (Z.to_nat idx) x1 Hi) as (qi & E2 & Hqi); [lia|].
  rewrite (bind_Done _ _ _ _ _ E2).
  destruct (set_query_inv cfg _ _ _ (Z.to_nat idx) qi (QueryInfo (time_now x) (is_inprogress qi) (qlist qi)) x1 Hi Hqi)
    as (x2 & E3 & Hi2 & _); [done|done|by left|]. exists x2. split_and!; [done|done|].
  eapply called_trans; [exact Hc|]. injection E3 as <-. split; try done. intros q' [t p l] Hq'. simpl.
  destruct (decide (q' = Z.to_nat idx)) as [->|]; [|rewrite lookup_insert_ne by done; by exists t].
  rewrite lookup_insert_eq. simplify_eq. by eexists.
Qed.

Lemma callbacks_spec d os ins sock cs x : inv cfg d os ins x → (0 ≤ sock)%Z → Forall (callback_ok cfg sock) cs →
  ∃ x', run_callbacks cfg sock cs x = Done ((), x') ∧ inv cfg d os ins x' ∧ called x x'.
Proof.
  intros Hinv Hs Hcs. revert x Hinv. induction Hcs as [|c cs Hc Hcs IH]; intros x Hinv.
  { exists x. split_and!; [done|done|apply called_refl]. }
  assert (∃ x1, (match c with CbSent qid => net_sent cfg qid sock | CbEvent ev el => net_event cfg ev el end) x = Done ((), x1)
    ∧ inv cfg d os ins x1 ∧ called x x1) as (x1 & E & Hi & Hc1).
  { destruct c as [qid|ev el]; [destruct Hc; by apply net_sent_spec|by apply net_event_spec]. }
  destruct (IH x1 Hi) as (x2 & E2 & Hi2 & Hc2). exists x2. split_and!; [|done|by eapply called_trans].
  destruct c; cbn [run_callbacks]; by rewrite (bind_Done _ _ _ _ _ E).
Qed.

Lemma sockready_spec d os ins a sock x : inv cfg d os ins x → call_ok cfg a → (0 ≤ sock < nsocks cfg)%Z →
  ∃ x', sockready cfg a sock x = Done ((a sock).1, x') ∧ inv cfg d os ins x' ∧ called x x'.
Proof.
  intros Hinv Ha Hs. destruct (callbacks_spec d os ins sock (a sock).2 x Hinv) as (x' & E & Hi & Hc); [lia|by apply Ha|].
  exists x'. unfold sockready. by rewrite (bind_Done _ _ _ _ _ E).
Qed.

Lemma sock_of_range q : (0 ≤ sock_of cfg q < nsocks cfg)%Z.
Proof. destruct Hcfg as [? _ _ _]. apply Z.mod_pos_bound. lia. Qed.

Lemma take_id_spec fuel k ready os ins x :
  (∀ k, call_ok cfg (ready k)) → inv cfg 0 os ins x → length ins < fuel →
  match take_id cfg fuel k ready x with
  | Done (inl r, x') => ∃ os' ins', inv cfg 0 os' ins' x' ∧ r ≠ PERF_R_SUCCESS ∧ (r = PERF_R_NOMORE → ins' = [])
  | Done (inr (q, _), x') =>
      ∃ os' ins' qi, inv cfg 0 os' (q :: ins') x' ∧ queries (tbl x') !! q = Some qi ∧ is_inprogress qi = false
  | _ => False
  end.
Proof.
  intros Hready. revert k os ins x. induction fuel as [|fuel IH]; intros k os ins x Hinv Hf; [lia|]. cbn [take_id].
  rewrite (bind_Done get _ _ _ _ eq_refl). pose proof (r_in _ _ _ _ (inv_tbl _ _ _ _ _ Hinv)) as (_ & -> & _).
  destruct ins as [|q ins]; [cbn; eauto 10|]. change (head (q :: ins)) with (Some q). cbv iota.
  pose proof (inv_lengths _ Hcfg _ _ _ _ Hinv) as Hlen.
  assert (q < Z.to_nat (max_outstanding cfg)) as Hq.
  { eapply rep_bound; [exact (inv_tbl _ _ _ _ _ Hinv)|]. apply elem_of_app. right. by left. }
  destruct (get_query_inv cfg _ _ _ q x Hinv) as (qi & E & Hqi); [lia|]. rewrite (bind_Done _ _ _ _ _ E).
  destruct (r_entry_i _ _ _ _ (inv_tbl _ _ _ _ _ Hinv) q) as (qi' & Hqi' & Hl); [by left|]. simplify_eq.
  destruct (is_inprogress qi) eqn:Hp; [|cbn; eauto 10].
  destruct (sockready_spec _ _ _ (ready k) (sock_of cfg q) x Hinv (Hready k) (sock_of_range q)) as (x0 & E0 & Hinv0 & Hc).
  rewrite (bind_Done _ _ _ _ _ E0). destruct (decide _); [cbn; exists os, (q :: ins); split_and!; done|].
  destruct (called_entry _ _ Hc q qi Hqi) as [t Ht]. rewrite Hp, Hl in Ht.
  rewrite (bind_Done (get_query q) _ x0 _ x0) by (unfold get_query; by rewrite Ht). cbn [sent_timestamp qlist].
  destruct (set_query_inv cfg _ _ _ q _ (QueryInfo t false instanding) x0 Hinv0 Ht)
    as (x1 & E1 & Hinv1 & Hq1 & _); [done|done|by right; left|]. rewrite (bind_Done _ _ _ _ _ E1).
  pose proof (send_inv cfg Hcfg _ _ _ _ x1 _ Hinv1 Hq1 eq_refl) as Hs. revert Hs.
  unfold mbind, M_bind. destruct (to_outstanding q x1) as [[u x2]| | | |]; try done. cbn [modify]. intros Hs.
  simpl in Hf. exact (IH (S k) _ _ _ Hs ltac:(lia)).
Qed.

Lemma do_one_line_inv ready line send :
  (∀ k, call_ok cfg (ready k)) → match line with Some l => Forall byte_ok l | None => True end →
  triple Inv (do_one_line cfg ready line send) (λ _, Inv).
Proof.
  intros Hready Hline x (os & ins & Hinv). unfold do_one_line.
  pose proof (inv_lengths _ Hcfg _ _ _ _ Hinv) as Hlen.
  pose proof (take_id_spec (S (Z.to_nat (max_outstanding cfg))) 0 ready os ins x Hready Hinv ltac:(lia)) as Ht.
  unfold mbind at 1, M_bind at 1. destruct (take_id _ _ _ _ x) as [[[r|[q k]] x1]| | | |]; try done.
  { destruct Ht as (os' & ins' & Hinv' & _). by eexists _, _. }
  destruct Ht as (os1 & ins1 & qi0 & Hinv0 & Hqi0 & Hp0). cbv beta iota zeta.
  destruct (sockready_spec _ _ _ (ready k) (sock_of cfg q) x1 Hinv0 (Hready k) (sock_of_range q)) as (x2 & E0 & Hinv1 & Hc).
  rewrite (bind_Done _ _ _ _ _ E0). destruct (called_entry _ _ Hc q qi0 Hqi0) as [t Hqi]. rewrite Hp0 in Hqi.
  set (qi := QueryInfo t false (qlist qi0)) in *. assert (is_inprogress qi = false) as Hp by done. clearbody qi.
  clear Hinv0 Hqi0 E0 Hc. clear x1. rename x2 into x1.
  destruct (decide _); [by eexists _, _|].
  destruct line as [l|]; [|done]. pose proof (build_request_returns l (Z.of_nat q / nsocks cfg)%Z Hline) as Hb.
  unfold mbind at 1, M_bind at 1, lift.
  destruct (build_request l _) as [[result pkt]| | | |]; try done. cbv beta iota.
  destruct (decide (result ≠ PERF_R_SUCCESS)) as [Hr|Hr]; [by eexists _, _|].
  rewrite (bind_Done get _ _ _ _ eq_refl).
  rewrite (bind_Done (get_query q) _ x1 qi x1) by (unfold get_query; by rewrite Hqi).
  destruct (set_query_inv cfg _ _ _ q qi (QueryInfo (time_now x1) (is_inprogress qi) (qlist qi)) x1 Hinv1 Hqi)
    as (x2 & E2 & Hinv2 & Hq2 & _); [done|done|by left|]. rewrite (bind_Done _ _ _ _ _ E2).
  destruct send as [|[|]].
  - pose proof (send_inv cfg Hcfg _ _ _ _ x2 _ Hinv2 Hq2 Hp) as Hs. revert Hs.
    unfold mbind, M_bind. destruct (to_outstanding q x2) as [[u x3]| | | |]; try done. cbn. intros Hs. by eexists _, _.
  - pose proof (r_entry_i _ _ _ _ (inv_tbl _ _ _ _ _ Hinv2) q ltac:(by left)) as (qi' & Hqi' & Hl).
    destruct (set_query_inv cfg _ _ _ q qi' (QueryInfo (sent_timestamp qi') true (qlist qi')) x2 Hinv2 Hqi')
      as (x3 & E3 & Hinv3 & _); [done|congruence|by right; right|].
    unfold mbind at 1, M_bind at 1. rewrite (bind_Done (get_query q) _ x2 qi' x2) by (unfold get_query; by rewrite Hqi').
    rewrite E3. by eexists _, _.
  - by eexists _, _.
Qed.

Lemma get_outstanding d os ins x q qi :
  inv cfg d os ins x → queries (tbl x) !! q = Some qi → q < Z.to_nat (max_outstanding cfg) →
  qlist qi = outstanding → q ∈ os.
Proof.
  intros Hinv Hqi Hq Hl. pose proof (inv_tbl _ _ _ _ _ Hinv) as Hr.
  assert (q ∈ os ++ ins) as Hin by (rewrite (r_ids _ _ _ _ Hr); apply elem_of_seq; lia).
  apply elem_of_app in Hin as [Hin|Hin]; [done|].
  destruct (r_entry_i _ _ _ _ Hr q Hin) as (qi' & ? & ?). congruence.
Qed.

Lemma try_process_response_inv s c r :
  call_ok cfg c → (0 ≤ s < nsocks cfg)%Z → triple Inv (try_process_response cfg s c r) (λ _, Inv).
Proof.
  intros Ha Hs x0 (os & ins & Hinv0). unfold try_process_response.
  destruct (sockready_spec _ _ _ c s x0 Hinv0 Ha Hs) as (x & E0 & Hinv & _). rewrite (bind_Done _ _ _ _ _ E0).
  clear x0 Hinv0 E0. destruct r as [e| |packet].
  - destruct (decide _); [by eexists _, _|done].
  - by eexists _, _.
  - destruct (decide (length packet < 4)); [by eexists _, _|]. cbv zeta.
    set (idx := u32 (u32 _ + s)). set (rcode := Z.to_nat (Z.land _ 15)).
    assert (rcode < 16) as Hrc by apply rcode_range.
    destruct (decide (max_outstanding cfg ≤ idx)%Z) as [|Hlt]; [by eexists _, _|].
    pose proof (u32_range (u32 (rd16 (default 0%Z (packet !! 0)) (default 0%Z (packet !! 1)) * nsocks cfg) + s)) as Hidx.
    fold idx in Hidx. destruct (get_query_inv cfg _ _ _ (Z.to_nat idx) x Hinv) as (qi & E & Hqi); [lia|].
    rewrite (bind_Done _ _ _ _ _ E). destruct (decide (qlist qi ≠ outstanding)) as [|Hl]; [by eexists _, _|].
    assert (qlist qi = outstanding) as Hl' by (destruct (qlist qi); [by destruct Hl|done]).
    pose proof (get_outstanding _ _ _ _ _ _ Hinv Hqi ltac:(lia) Hl') as (a & b & ->)%list_elem_of_split.
    pose proof (retire_inv cfg Hcfg _ _ _ _ _ x Hinv) as Hm. revert Hm. unfold mbind at 1 2, M_bind at 1 2.
    destruct (to_instanding (Z.to_nat idx) x) as [[u x1]| | | |]; try done. cbn [modify]. intros [Hinv1 _].
    unfold mbind at 1, M_bind at 1. cbn [modify]. rewrite (bind_Done get _ _ _ _ eq_refl).
    refine (triple_bind _ _ _ _ (λ _, Inv) (update_bucket_inv cfg Hcfg _ _ _ _ _) _ _ Hinv1). intros [].
    apply triple_modify. intros y Hy. eexists _, _. exact (count_received_inv cfg _ _ _ rcode y Hy Hrc).
Qed.

Lemma retire_spec fuel os ins x :
  inv cfg 0 os ins x → length os < fuel →
  match retire_old_queries cfg fuel x with
  | Done (_, x') =>
      ∃ os' ins', inv cfg 0 os' ins' x' ∧ time_now x' = time_now x ∧
        (∀ q qi, last os' = Some q → queries (tbl x') !! q = Some qi →
                 u64 (time_now x' - sent_timestamp qi) < query_timeout cfg)%Z
  | _ => False
  end.
Proof.
  revert os ins x. induction fuel as [|fuel IH]; intros os ins x Hinv Hf; [lia|]. cbn [retire_old_queries].
  rewrite (bind_Done get _ _ _ _ eq_refl). pose proof (r_out _ _ _ _ (inv_tbl _ _ _ _ _ Hinv)) as (_ & _ & -> & _).
  destruct os as [|q os _] using rev_ind; [cbn; exists [], ins; split_and!; done|]. rewrite last_snoc.
  destruct (r_entry_o _ _ _ _ (inv_tbl _ _ _ _ _ Hinv) q) as (qi & Hqi & _); [apply elem_of_app; right; by left|].
  rewrite (bind_Done (get_query q) _ x qi x) by (unfold get_query; by rewrite Hqi).
  destruct (decide _) as [Hd|Hd].
  { cbn. exists (os ++ [q]), ins. split_and!; [done|done|]. intros q' qi' Hl. rewrite last_snoc in Hl. simplify_eq.
    intros Hqi'. simplify_eq. done. }
  pose proof (retire_inv cfg Hcfg _ _ _ _ _ x Hinv) as Hm. revert Hm. unfold mbind at 1 2, M_bind at 1 2.
  destruct (to_instanding q x) as [[u x1]| | | |]; try done. cbn [modify]. intros [Hinv1 Ht1].
  unfold mbind at 1, M_bind at 1. cbn [modify]. unfold mbind at 1, M_bind at 1. cbn [modify].
  apply count_timed_out_inv in Hinv1. rewrite app_nil_r in Hinv1. rewrite length_app in Hf. simpl in Hf.
  specialize (IH _ _ _ Hinv1 ltac:(lia)). destruct (retire_old_queries cfg fuel _) as [[u' x']| | | |]; try done.
  destruct IH as (os' & ins' & ? & Ht & ?). exists os', ins'. split_and!; [done| |done]. rewrite Ht. exact Ht1.
Qed.

Lemma phase_inv since : triple Inv (phase_step cfg since) (λ _, Inv).
Proof.
  intros x (os & ins & Hinv). unfold phase_step. rewrite (bind_Done get _ _ _ _ eq_refl).
  destruct (cur_phase x); [destruct (decide _)|destruct (decide _)|]; cbn; exists os, ins; try done; by destruct Hinv.
Qed.

Lemma wait_inv : triple Inv (modify enter_wait_phase) (λ _, Inv).
Proof. apply triple_modify. intros x (os & ins & Hinv). exists os, ins. by destruct Hinv. Qed.

Lemma bucket_inv when f : triple Inv (update_bucket cfg when f) (λ _, Inv).
Proof.
  intros x (os & ins & Hinv). pose proof (update_bucket_inv cfg Hcfg _ _ _ when f x Hinv) as Hu.
  destruct (update_bucket cfg when f x) as [[u x']| | | |]; try done. by eexists _, _.
Qed.

(** What a round is given: input lines are bytes, and callbacks are for queries of the socket. *)
Definition input_ok (i : round_input) : Prop :=
  match in_line i with Some l => Forall byte_ok l | None => True end ∧
  (∀ k, call_ok cfg (in_ready i k)) ∧ Forall (λ r, call_ok cfg r.1) (in_recvs i).

Lemma send_step_inv i : input_ok i → triple Inv (send_step cfg i) (λ _, Inv).
Proof.
  intros Hi. unfold send_step. eapply triple_bind; [by apply (triple_get _ (λ _, Inv))|]. intros x.
  destruct (decide (cur_phase x = PHASE_WAIT)); [by apply triple_ret|]. cbv zeta.
  eapply triple_bind; [destruct (decide _); [apply wait_inv|by apply (triple_ret _ _ (λ _, Inv))]|]. intros [].
  destruct (decide _); [|by apply triple_ret].
  eapply triple_bind; [destruct Hi as (? & ? & _); by apply do_one_line_inv|]. intros r.
  eapply triple_bind.
  - destruct (decide _); [|by apply (triple_ret _ _ (λ _, Inv))].
    eapply triple_bind; [by apply (triple_get _ (λ _, Inv))|]. intros y. apply bucket_inv.
  - intros []. destruct (decide _); [apply wait_inv|by apply triple_ret].
Qed.

Lemma next_sock s : (0 ≤ s < nsocks cfg)%Z →
  (0 ≤ (if decide (nsocks cfg ≤ u32 (s + 1)) then 0 else u32 (s + 1)) < nsocks cfg)%Z.
Proof. intros Hs. pose proof (u32_range (s + 1)). destruct (decide _); lia. Qed.

Lemma responses_inv rs s : Forall (λ r, call_ok cfg r.1) rs → (0 ≤ s < nsocks cfg)%Z →
  triple Inv (responses_step cfg rs s) (λ s' x, Inv x ∧ (0 ≤ s' < nsocks cfg)%Z).
Proof.
  intros Hrs. revert s. induction Hrs as [|[a r] rs Ha Hrs IH]; intros s Hs; cbn [responses_step]; [by apply triple_ret|].
  eapply triple_bind; [by apply try_process_response_inv|]. intros []. by apply IH, next_sock.
Qed.

Lemma round_inv i s : input_ok i → (0 ≤ s < nsocks cfg)%Z →
  triple Inv (round cfg i s) (λ s' x, Inv x ∧ match s' with Some s' => (0 ≤ s' < nsocks cfg)%Z | None => True end).
Proof.
  intros Hi Hs. unfold round. eapply triple_bind; [by apply (triple_get _ (λ _, Inv))|]. intros x.
  eapply triple_bind; [apply phase_inv|]. intros [|]; [by apply triple_ret|].
  eapply triple_bind; [by apply send_step_inv|]. intros [].
  eapply triple_bind; [destruct Hi as (_ & _ & Hr); by apply responses_inv|]. intros s'.
  eapply (triple_bind _ _ (λ _ y, Inv y ∧ (0 ≤ s' < nsocks cfg)%Z)).
  - intros y [(os & ins & Hinv) Hs']. pose proof (inv_lengths _ Hcfg _ _ _ _ Hinv).
    pose proof (retire_spec (S (Z.to_nat (max_outstanding cfg))) os ins y Hinv ltac:(lia)) as Hr.
    destruct (retire_old_queries cfg _ y) as [[u y']| | | |]; try done.
    destruct Hr as (os' & ins' & ? & _). split; [by exists os', ins'|done].
  - intros []. eapply (triple_bind _ _ (λ _ y, Inv y ∧ (0 ≤ s' < nsocks cfg)%Z)); [|intros []; by apply triple_ret].
    apply triple_modify. intros y [(os & ins & Hinv) Hs']. split; [exists os, ins; by destruct Hinv|done].
Qed.

Lemma rounds_inv ins s : Forall input_ok ins → (0 ≤ s < nsocks cfg)%Z → triple Inv (rounds cfg ins s) (λ _, Inv).
Proof.
  intros Hi. revert s. induction Hi as [|i ins Hi His IH]; intros s Hs; cbn [rounds]; [by apply triple_ret|].
  eapply triple_bind; [by apply round_inv|]. intros [s'|]; [|apply triple_ret; by intros ? []].
  intros x [Hx Hs']. by apply IH.
Qed.
End operations.

(** ** Phases *)

(** [m] leaves the value of [f] as it is. *)
Definition keeps {A C} (f : state → C) (m : M state A) : Prop :=
  ∀ x, match m x with Done (_, x') => f x' = f x | _ => True end.

Section frames.
Context {C : Type} (f : state → C).

Lemma keeps_bind {A D} (m : M state A) (k : A → M state D) : keeps f m → (∀ a, keeps f (k a)) → keeps f (m ≫= k).
Proof.
  intros Hm Hk x. specialize (Hm x). unfold mbind, M_bind. destruct (m x) as [[a x']| | | |]; try done.
  specialize (Hk a x'). destruct (k a x') as [[d x'']| | | |]; try done. congruence.
Qed.
Lemma keeps_ret {A} (a : A) : keeps f (mret a).
Proof. done. Qed.
Lemma keeps_get : keeps f get.
Proof. done. Qed.
Lemma keeps_fatal {A} : keeps f (perf_log_fatal : M state A).
Proof. done. Qed.
Lemma keeps_lift {A} (r : run A) : keeps f (lift r).
Proof. intros x. by destruct r. Qed.
Lemma keeps_modify g : (∀ x, f (g x) = f x) → keeps f (modify g).
Proof. intros H x. apply H. Qed.
Lemma keeps_get_query q : keeps f (get_query q).
Proof. intros x. unfold get_query. by destruct (queries (tbl x) !! q). Qed.

Context (Htbl : ∀ x t, f (set_tbl x t) = f x) (Hbk : ∀ x b, f (set_buckets x b) = f x).

Lemma keeps_set_query q qi : keeps f (set_query q qi).
Proof. apply keeps_modify. intros. apply Htbl. Qed.
Lemma keeps_to_instanding q : keeps f (to_instanding q).
Proof.
  intros x. unfold to_instanding. destruct (queries (tbl x) !! q); [|done].
  destruct (perf_list_unlink _ _ _) as [[l1 st]| | | |]; simpl; try done.
  destruct (perf_list_append _ _ _) as [[l2 st2]| | | |]; simpl; try done; apply Htbl.
Qed.
Lemma keeps_to_outstanding q : keeps f (to_outstanding q).
Proof.
  intros x. unfold to_outstanding. destruct (queries (tbl x) !! q); [|done].
  destruct (perf_list_unlink _ _ _) as [[l1 st]| | | |]; simpl; try done.
  destruct (perf_list_prepend _ _ _) as [[l2 st2]| | | |]; simpl; try done; apply Htbl.
Qed.
Lemma keeps_update_bucket cfg w g : keeps f (update_bucket cfg w g).
Proof.
  intros x. unfold update_bucket. destruct (decide (0 ≤ find_bucket cfg w)%Z); [|done].
  destruct (buckets x !! _); [apply Hbk|done].
Qed.

Lemma keeps_assert (P : Prop) `{Decision P} : keeps f (assert P).
Proof. intros x. unfold assert. by destruct (decide P). Qed.

(** The callbacks change no more than times, buckets and the counts of connections. *)
Definition blind_to_connections : Prop := ∀ x n m, let c := cnt x in
  f (set_cnt x (Counters (num_queries_sent c) (num_queries_outstanding c) (num_responses_received c)
       (num_queries_timed_out c) (rcodecounts c) n m)) = f x.

Context (Hconn : blind_to_connections).

Lemma keeps_callbacks cfg s cs : keeps f (run_callbacks cfg s cs).
Proof.
  induction cs as [|[qid|ev el] cs IH]; cbn [run_callbacks]; [apply keeps_ret|..];
    (apply keeps_bind; [|intros _; exact IH]).
  - unfold net_sent. apply keeps_bind; [apply keeps_get|]. intros x.
    apply keeps_bind; [apply keeps_update_bucket|]. intros _. cbv zeta.
    apply keeps_bind; [apply keeps_assert|]. intros _. apply keeps_bind; [apply keeps_get_query|]. intros qi.
    apply keeps_set_query.
  - unfold net_event. apply keeps_bind; [apply keeps_get|]. intros x.
    destruct ev; try (apply keeps_modify; intros; apply Hconn);
      (apply keeps_bind; [apply keeps_update_bucket|]; intros _; apply keeps_modify; intros; apply Hconn).
Qed.
Lemma keeps_sockready cfg a s : keeps f (sockready cfg a s).
Proof. unfold sockready. apply keeps_bind; [apply keeps_callbacks|]. intros _. apply keeps_ret. Qed.
End frames.

Create HintDb keeps discriminated.
#[export] Hint Resolve keeps_bind keeps_ret keeps_get keeps_fatal keeps_lift keeps_modify keeps_get_query
  keeps_set_query keeps_to_instanding keeps_to_outstanding keeps_update_bucket keeps_callbacks keeps_sockready : keeps.
#[export] Hint Extern 1 (blind_to_connections _) => (intros ? ? ?; reflexivity) : keeps.

(** Frame goals: follow the structure of the program. *)
Ltac keeps_step :=
  first
    [ apply keeps_bind; [|intros ?]
    | match goal with
      | |- keeps _ (if decide ?P then _ else _) => destruct (decide P)
      | |- keeps _ (match ?e with _ => _ end) => destruct e
      | |- keeps _ (let _ := _ in _) => cbv zeta
      end
    | solve [eauto with keeps] ].
Ltac keeps_tac := repeat keeps_step.

(** The phase and the clock are changed by the loop only. *)
Definition phase_time (x : state) : phase * Z := (cur_phase x, time_now x).
Definition sent_of (x : state) : Z := num_queries_sent (cnt x).

Lemma take_id_phase cfg fuel k ready : keeps phase_time (take_id cfg fuel k ready).
Proof. revert k. induction fuel as [|fuel IH]; intros k; cbn [take_id]; keeps_tac. Qed.

Lemma do_one_line_phase cfg {B : RequestBuilder} ready line send : keeps phase_time (do_one_line cfg ready line send).
Proof. unfold do_one_line. apply keeps_bind; [apply take_id_phase|]. intros a. keeps_tac. Qed.

Lemma try_process_response_frame {C} (f : state → C) cfg s a r :
  (∀ x t, f (set_tbl x t) = f x) → (∀ x b, f (set_buckets x b) = f x) → blind_to_connections f →
  (∀ x, f (count_unsent x) = f x) → (∀ n x, f (count_received n x) = f x) →
  keeps f (try_process_response cfg s a r).
Proof. intros. unfold try_process_response. keeps_tac. Qed.

Lemma responses_frame {C} (f : state → C) cfg rs s :
  (∀ x t, f (set_tbl x t) = f x) → (∀ x b, f (set_buckets x b) = f x) → blind_to_connections f →
  (∀ x, f (count_unsent x) = f x) → (∀ n x, f (count_received n x) = f x) →
  keeps f (responses_step cfg rs s).
Proof.
  intros H1 H2 H3 H4 H5. revert s. induction rs as [|[a r] rs IH]; intros s; cbn [responses_step]; [done|].
  apply keeps_bind; [by apply try_process_response_frame|]. intros ?. apply IH.
Qed.

Lemma retire_frame {C} (f : state → C) cfg fuel :
  (∀ x t, f (set_tbl x t) = f x) → (∀ x, f (count_unsent x) = f x) → (∀ x, f (count_timed_out x) = f x) →
  keeps f (retire_old_queries cfg fuel).
Proof. intros H1 H2 H3. induction fuel as [|fuel IH]; cbn [retire_old_queries]; keeps_tac. Qed.

(** ** Theorems *)

Section theorems.
Context {B : RequestBuilder}.

(** What [setup] gives: the books are in order when there is a bucket. *)
Lemma setup_done s o timeout ramp sustain wait interval fb now cfg x :
  (1 ≤ s < 2 ^ 32)%Z → (1 ≤ o < 2 ^ 32)%Z →
  setup s o timeout ramp sustain wait interval fb now = Done (cfg, x) →
  (interval ≠ 0 ∧ 0 ≤ n_buckets cfg < 2 ^ 31 ∧ n_buckets cfg = s32 (u64 (u64 (ramp + sustain) + interval - 1) / interval))%Z ∧
  (1 ≤ n_buckets cfg → cfg_ok cfg)%Z ∧ Inv cfg x ∧ cur_phase x = PHASE_RAMP ∧
  (ramp_time cfg, traffic_time cfg, end_time cfg) = (ramp, u64 (ramp + sustain), u64 (u64 (ramp + sustain) + wait)) ∧
  max_outstanding cfg = o ∧ nsocks cfg = s ∧ num_queries_sent (cnt x) = 0%Z.
Proof.
  intros Hs Ho. unfold setup. destruct (decide _) as [|Hmax]; [done|]. destruct (decide _) as [|Hz]; [done|].
  destruct (init_table_spec (Z.to_nat o)) as (t & -> & Hrep). cbn [mbind run_bind].
  destruct (decide (interval = 0)%Z) as [|Hi]; [done|]. unfold init_buckets.
  set (nb := s32 (u64 (u64 (ramp + sustain) + interval - 1) / interval)) in *.
  assert (- 2 ^ 31 ≤ nb < 2 ^ 31)%Z as Hb by (unfold nb, s32, swrap; Z.div_mod_to_equations; lia).
  destruct (decide (nb < 0)%Z) as [|Hneg]; [done|]. cbn [mbind run_bind]. intros [= <- <-].
  split_and!; cbn [n_buckets]; try lia; try done.
  - intros H1. split; cbn [nsocks max_outstanding n_buckets]; [lia|lia| |lia].
    assert (u32 (s * DEFAULT_MAX_OUTSTANDING) ≤ s * DEFAULT_MAX_OUTSTANDING)%Z.
    { unfold DEFAULT_MAX_OUTSTANDING. apply Z.mod_le; lia. }
    unfold DEFAULT_MAX_OUTSTANDING in *. lia.
  - exists [], (seq 0 (Z.to_nat o)). split; try done. cbn [buckets n_buckets]. by rewrite length_replicate.
Qed.

Lemma setup_spec s o timeout ramp sustain wait interval fb now cfg x :
  (1 ≤ s < 2 ^ 32)%Z → (1 ≤ o < 2 ^ 32)%Z → (0 ≤ ramp ∧ 0 ≤ sustain ∧ 0 ≤ wait ∧ 1 ≤ interval)%Z →
  (ramp + sustain + wait + interval < 2 ^ 64)%Z → ((ramp + sustain + interval - 1) / interval < 2 ^ 31)%Z →
  setup s o timeout ramp sustain wait interval fb now = Done (cfg, x) →
  cfg_ok cfg ∧ Inv cfg x ∧ cur_phase x = PHASE_RAMP ∧
  (ramp_time cfg ≤ traffic_time cfg ≤ end_time cfg)%Z ∧ max_outstanding cfg = o ∧ nsocks cfg = s.
Proof.
  intros Hs Ho (Hr & Hsu & Hw & Hi) Hsum Hnb E.
  destruct (setup_done _ _ _ _ _ _ _ _ _ _ _ Hs Ho E) as ((_ & Hb & Eb) & Hcfg & Hinv & Hph & [= E1 E2 E3] & Em & En & _).
  rewrite !(u64_small (ramp + sustain)) in * by lia.
  assert (ramp + sustain ≠ 0)%Z as Hz.
  { intros Hz. revert E. unfold setup. destruct (decide _); [done|]. by rewrite Hz, decide_True by done. }
  rewrite (u64_small (_ - 1)) in Eb by lia. rewrite (u64_small (_ + wait)) in E3 by lia.
  assert (1 ≤ (ramp + sustain + interval - 1) / interval)%Z as Hnb1 by (apply Z.div_le_lower_bound; lia).
  assert (s32 ((ramp + sustain + interval - 1) / interval) = (ramp + sustain + interval - 1) / interval)%Z as Es.
  { unfold s32, swrap. rewrite Z.mod_small by lia. lia. }
  rewrite Es in Eb. rewrite E1, E2, E3, Em, En. split_and!; try done; [apply Hcfg|..]; lia.
Qed.

(** C10: whatever the clock, the schedule, the input and the sockets do, every run of the loop
    from [setup] on keeps its books: the outstanding queries and the usable ids partition the
    array, [num_queries_outstanding] is the number of outstanding queries, every query sent
    was answered, timed out or is outstanding, and the response codes add up to the responses
    (all modulo 2^64).  No assertion fails and nothing out of bounds is accessed. *)
Theorem resperf_accounting s o timeout ramp sustain wait interval fb now cfg x inputs :
  (1 ≤ s < 2 ^ 32)%Z → (1 ≤ o < 2 ^ 32)%Z → (0 ≤ ramp ∧ 0 ≤ sustain ∧ 0 ≤ wait ∧ 1 ≤ interval)%Z →
  (ramp + sustain + wait + interval < 2 ^ 64)%Z → ((ramp + sustain + interval - 1) / interval < 2 ^ 31)%Z →
  setup s o timeout ramp sustain wait interval fb now = Done (cfg, x) → Forall (input_ok cfg) inputs →
  match rounds cfg inputs 0 x with
  | Done (_, x') =>
      ∃ os ins, table_rep (Z.to_nat o) (tbl x') os ins ∧
        num_queries_outstanding (cnt x') = Z.of_nat (length os) ∧
        num_queries_sent (cnt x') =
          u64 (num_responses_received (cnt x') + num_queries_timed_out (cnt x') + Z.of_nat (length os)) ∧
        num_responses_received (cnt x') = u64 (sumZ (rcodecounts (cnt x')))
  | Exit c => c = 1%Z
  | _ => False
  end.
Proof.
  intros Hs Ho Hp Hsum Hnb E Hin.
  destruct (setup_spec _ _ _ _ _ _ _ _ _ _ _ Hs Ho Hp Hsum Hnb E) as (Hcfg & Hinv & _ & _ & Hm & _).
  pose proof Hcfg as [Hn _ _ _]. pose proof (rounds_inv cfg Hcfg inputs 0 Hin ltac:(lia) x Hinv) as Hr.
  destruct (rounds cfg inputs 0 x) as [[r x']| | | |]; try done. destruct Hr as (os & ins & [H1 H2 H3 _ H5 _]).
  exists os, ins. rewrite Hm, Z.add_0_r in *. done.
Qed.

(** the index of a query, its message id and its socket determine each other: the id fits
    in 16 bits, and a response with the id that arrives on the socket is looked up at the
    index, so the callback for a sent query never fails its assertion. *)
Theorem resperf_ids cfg q qid sock :
  cfg_ok cfg → (nsocks cfg * 65536 ≤ 2 ^ 32)%Z → (0 ≤ q < max_outstanding cfg)%Z →
  (0 ≤ qid < 65536)%Z → (0 ≤ sock < nsocks cfg)%Z →
  (0 ≤ q / nsocks cfg < 65536 ∧ 0 ≤ q mod nsocks cfg < nsocks cfg)%Z ∧
  (u32 (u32 (qid * nsocks cfg) + sock) = q ↔ qid = q / nsocks cfg ∧ sock = q mod nsocks cfg)%Z ∧
  (∀ x, Inv cfg x → returns (net_sent cfg (q / nsocks cfg) (q mod nsocks cfg) x) (λ '(_, x'), Inv cfg x')).
Proof.
  intros Hcfg Hn Hq Hqid Hsock. pose proof Hcfg as [Hn1 _ Hids _].
  pose proof (Z.div_mod q (nsocks cfg) ltac:(lia)) as Hdm.
  pose proof (Z.mod_pos_bound q (nsocks cfg) ltac:(lia)) as Hm.
  assert (0 ≤ q / nsocks cfg < 65536)%Z as Hd.
  { split; [apply Z.div_pos; lia|apply Z.div_lt_upper_bound; lia]. }
  split; [done|]. split.
  - assert (qid * nsocks cfg + sock < 2 ^ 32)%Z by nia.
    rewrite (u32_small (qid * _)), u32_small by nia. split.
    + intros <-. split; [apply (Z.div_unique _ _ _ sock)|apply (Z.mod_unique _ _ qid)]; lia.
    + intros [-> ->]. lia.
  - intros x (os & ins & Hinv).
    destruct (net_sent_spec cfg Hcfg 0 os ins (q / nsocks cfg) (q mod nsocks cfg) x Hinv) as (x' & -> & Hi & _);
      [lia|lia|lia|]. by exists os, ins.
Qed.

(** A round once the time for responses is over: the loop is left, or a phase is completed. *)
Definition rank (p : phase) : nat := match p with PHASE_RAMP => 2 | PHASE_SUSTAIN => 1 | PHASE_WAIT => 0 end.

Definition since (cfg : config) (now : Z) : Z := u64 (now - time_of_program_start cfg).

Lemma send_step_phase cfg i x :
  match send_step cfg i x with
  | Done (_, x') => rank (cur_phase x') ≤ rank (cur_phase x) ∧ time_now x' = time_now x
  | _ => True
  end.
Proof.
  unfold send_step. rewrite (bind_Done get _ _ _ _ eq_refl). destruct (decide (cur_phase x = PHASE_WAIT)); [done|].
  cbv zeta. set (c := s32 _).
  assert (∃ x1, ((if decide (max_fall_behind cfg ≠ 0 ∧ max_fall_behind cfg ≤ u32 c)%Z
     then modify enter_wait_phase else mret ()) : M state ()) x = Done ((), x1) ∧
     rank (cur_phase x1) ≤ rank (cur_phase x) ∧ time_now x1 = time_now x) as (x1 & E1 & Hr1 & Ht1).
  { destruct (decide _); [eexists; split; [done|]; simpl; split; [lia|done]|by exists x]. }
  rewrite (bind_Done _ _ _ _ _ E1). destruct (decide (0 < c)%Z); [|done].
  pose proof (do_one_line_phase cfg (in_ready i) (in_line i) (in_send i) x1) as Hd.
  unfold mbind at 1, M_bind at 1. destruct (do_one_line _ _ _ _ x1) as [[r x2]| | | |]; try done.
  injection Hd as Hp2 Ht2. unfold mbind at 1, M_bind at 1.
  destruct (decide (r = PERF_R_SUCCESS)) as [Hr|Hr].
  - rewrite (bind_Done get _ _ _ _ eq_refl).
    pose proof (keeps_update_bucket phase_time (λ _ _, eq_refl) cfg (time_now x2) count_query x2) as Hb.
    destruct (update_bucket _ _ _ _) as [[u x3]| | | |]; try done. injection Hb as Hp3 Ht3.
    rewrite decide_False by congruence. cbn. rewrite Hp3, Hp2, Ht3, Ht2. done.
  - cbn [mret M_ret]. destruct (decide (r = PERF_R_NOMORE)); cbn; [split; [lia|by rewrite Ht2]|].
    by rewrite Hp2, Ht2.
Qed.
Lemma round_late cfg i sk x :
  cfg_ok cfg → (ramp_time cfg ≤ traffic_time cfg ≤ end_time cfg)%Z → Inv cfg x → input_ok cfg i →
  (0 ≤ sk < nsocks cfg)%Z → (end_time cfg ≤ since cfg (time_now x))%Z →
  match round cfg i sk x with
  | Done (None, x') => rank (cur_phase x) = 0
  | Done (Some s, x') =>
      Inv cfg x' ∧ (0 ≤ s < nsocks cfg)%Z ∧ rank (cur_phase x') < rank (cur_phase x) ∧ time_now x' = in_now i
  | Exit c => c = 1%Z
  | _ => False
  end.
Proof.
  intros Hcfg Hord Hinv Hi Hsk Hlate. pose proof (round_inv cfg Hcfg i sk Hi Hsk x Hinv) as Hsafe. revert Hsafe.
  unfold round. rewrite (bind_Done get _ _ _ _ eq_refl). fold (since cfg (time_now x)).
  assert (∃ b x1, phase_step cfg (since cfg (time_now x)) x = Done (b, x1) ∧
    (if b then rank (cur_phase x) = 0 else rank (cur_phase x1) < rank (cur_phase x))) as (b & x1 & E1 & Hb).
  { unfold phase_step. rewrite (bind_Done get _ _ _ _ eq_refl).
    destruct (cur_phase x); [rewrite decide_True by lia|rewrite decide_True by lia|]; cbn;
      [by exists false, (enter_sustain_phase x); simpl; auto|by exists false, (enter_wait_phase x); simpl; auto|].
    rewrite bool_decide_eq_true_2 by done. by exists true, x. }
  rewrite (bind_Done _ _ _ _ _ E1). destruct b; [done|].
  pose proof (send_step_phase cfg i x1) as Hs. unfold mbind at 1, M_bind at 1. unfold mbind at 4, M_bind at 4.
  destruct (send_step cfg i x1) as [[u x2]| | | |]; try done. destruct Hs as [Hr2 _].
  pose proof (responses_frame phase_time cfg (in_recvs i) sk (λ _ _, eq_refl) (λ _ _, eq_refl) (λ _ _ _, eq_refl)
                (λ _, eq_refl) (λ _ _, eq_refl) x2) as Hf.
  unfold mbind at 1, M_bind at 1. unfold mbind at 3, M_bind at 3.
  destruct (responses_step cfg (in_recvs i) sk x2) as [[s3 x3]| | | |]; try done. injection Hf as Hp3 _.
  pose proof (retire_frame phase_time cfg (S (Z.to_nat (max_outstanding cfg))) (λ _ _, eq_refl) (λ _, eq_refl)
                (λ _, eq_refl) x3) as Hf.
  unfold mbind at 1, M_bind at 1. unfold mbind at 2, M_bind at 2.
  destruct (retire_old_queries cfg _ x3) as [[u' x4]| | | |]; try done. injection Hf as Hp4 _.
  intros [Hsafe Hs3]. refine (conj Hsafe (conj Hs3 (conj _ eq_refl))). change (rank (cur_phase x4) < rank (cur_phase x)).
  rewrite Hp4, Hp3. lia.
Qed.

(** C28: the test ends: once the clock has passed the end of the test, the loop is left within
    three rounds, whatever is still outstanding. *)
Theorem resperf_terminates cfg x inputs sk :
  cfg_ok cfg → (ramp_time cfg ≤ traffic_time cfg ≤ end_time cfg)%Z → Inv cfg x →
  (0 ≤ sk < nsocks cfg)%Z → Forall (λ i, input_ok cfg i ∧ end_time cfg ≤ since cfg (in_now i))%Z inputs →
  (end_time cfg ≤ since cfg (time_now x))%Z → 3 ≤ length inputs →
  match rounds cfg inputs sk x with
  | Done (None, _) => True
  | Exit c => c = 1%Z
  | _ => False
  end.
Proof.
  intros Hcfg Hord Hinv Hsk Hin Hlate Hlen.
  assert (rank (cur_phase x) < length inputs) as Hr by (destruct (cur_phase x); simpl; lia). clear Hlen.
  revert x sk Hsk Hinv Hlate Hr. induction Hin as [|i inputs [Hi Hnow] Hin IH]; intros x sk Hsk Hinv Hlate Hr;
    [simpl in Hr; lia|].
  cbn [rounds]. pose proof (round_late cfg i sk x Hcfg Hord Hinv Hi Hsk Hlate) as Hl.
  unfold mbind, M_bind. destruct (round cfg i sk x) as [[[s'|] x']| | | |]; try done.
  destruct Hl as (Hinv' & Hs' & Hrank & Ht). simpl in Hr. apply IH; [done|done| |lia]. by rewrite Ht.
Qed.

(** The code of a response is in the low bits of its fourth byte. *)
Lemma rcode_low b2 b3 : Z.land (rd16 b2 b3) 15 = Z.land b3 15.
Proof.
  unfold rd16. change 15%Z with (Z.ones 4). rewrite !Z.land_ones by lia. change (2 ^ 4)%Z with 16%Z.
  replace (b2 * 256 + b3)%Z with (b3 + b2 * 16 * 16)%Z by lia. by rewrite Z_mod_plus_full.
Qed.

(** C29: a response is matched to its query: when the query with index [q] is outstanding, a
    packet with its id on its socket takes it off the outstanding queries, counts the response
    and its code, and the id can be used again after all others. *)
Theorem resperf_response_accepted cfg x os ins q a hi lo b2 b3 rest :
  cfg_ok cfg → (nsocks cfg * 65536 ≤ 2 ^ 32)%Z → inv cfg 0 os ins x → q ∈ os → call_ok cfg a →
  (0 ≤ hi < 256)%Z → (0 ≤ lo < 256)%Z → rd16 hi lo = (Z.of_nat q / nsocks cfg)%Z →
  returns (try_process_response cfg (Z.of_nat q mod nsocks cfg) a (RecvData (hi :: lo :: b2 :: b3 :: rest)) x)
    (λ '(_, x'), inv cfg 0 (filter (λ y, y ≠ q) os) (ins ++ [q]) x' ∧
       num_responses_received (cnt x') = u64 (num_responses_received (cnt x) + 1) ∧
       rcodecounts (cnt x') = alter (λ c, u64 (c + 1)) (Z.to_nat (Z.land b3 15)) (rcodecounts (cnt x))).
Proof.
  intros Hcfg Hn Hinv0 Hq Ha Hhi Hlo Hid. unfold try_process_response.
  destruct (sockready_spec cfg Hcfg _ _ _ a (Z.of_nat q mod nsocks cfg)%Z x Hinv0 Ha (sock_of_range cfg Hcfg q))
    as (x0 & E0 & Hinv & Hc0). rewrite (bind_Done _ _ _ _ _ E0).
  rewrite <- (called_received _ _ Hc0), <- (called_rcodes _ _ Hc0). clear x Hinv0 E0 Hc0. rename x0 into x.
  clear a Ha. pose proof Hcfg as [Hn1 Hm1 Hids _].
  assert (q < Z.to_nat (max_outstanding cfg)) as Hqb.
  { eapply rep_bound; [exact (inv_tbl _ _ _ _ _ Hinv)|]. apply elem_of_app. by left. }
  pose proof (Z.div_mod (Z.of_nat q) (nsocks cfg) ltac:(lia)) as Hdm.
  pose proof (Z.mod_pos_bound (Z.of_nat q) (nsocks cfg) ltac:(lia)) as Hmb.
  assert (0 ≤ Z.of_nat q / nsocks cfg < 65536)%Z as Hd.
  { split; [apply Z.div_pos; lia|apply Z.div_lt_upper_bound; lia]. }
  rewrite decide_False by (simpl; lia). cbv zeta. cbn [lookup list_lookup default from_option id].
  rewrite Hid. rewrite rcode_low.
  rewrite (u32_small (_ / _ * _)), u32_small by nia.
  replace (Z.of_nat q / nsocks cfg * nsocks cfg + Z.of_nat q mod nsocks cfg)%Z with (Z.of_nat q) by lia.
  rewrite decide_False by lia. rewrite Nat2Z.id.
  destruct (r_entry_o _ _ _ _ (inv_tbl _ _ _ _ _ Hinv) q Hq) as (qi & Hqi & Hl & _).
  rewrite (bind_Done (get_query q) _ x qi x) by (unfold get_query; by rewrite Hqi).
  rewrite decide_False by (by intros ?).
  pose proof Hq as (a & b & ->)%list_elem_of_split.
  pose proof (inv_tbl _ _ _ _ _ Hinv) as Hrep. pose proof (r_out _ _ _ _ Hrep) as (Hnd & _).
  rewrite filter_split_NoDup by done. pose proof (rcode_range b3) as Hrc.
  pose proof (retire_inv cfg Hcfg _ _ _ _ _ x Hinv) as Hm. revert Hm. unfold mbind at 1 2, M_bind at 1 2.
  pose proof (keeps_to_instanding cnt (λ _ _, eq_refl) q x) as Hk.
  destruct (to_instanding q x) as [[u x1]| | | |]; try done. cbn [modify]. intros [Hinv1 _].
  unfold mbind at 1, M_bind at 1. cbn [modify]. rewrite (bind_Done get _ _ _ _ eq_refl).
  match goal with |- returns ((update_bucket _ ?w ?g ≫= _) ?y) _ =>
    pose proof (update_bucket_inv cfg Hcfg _ _ _ w g y Hinv1) as Hu;
    pose proof (update_bucket_returns cfg Hcfg _ _ _ w g y Hinv1) as (x2 & E2 & Hc2) end.
  rewrite E2 in Hu. rewrite (bind_Done _ _ _ _ _ E2). cbn [modify returns].
  split; [exact (count_received_inv cfg _ _ _ _ x2 Hu Hrc)|]. simpl. rewrite Hc2. simpl. by rewrite Hk.
Qed.
End theorems.

(** ** Requests are built by dns.c

    [perf_dns_buildrequest] on a cleared packet buffer keeps the promise resperf relies on. *)
Section dns_requests.
Context {H : Hmac} {HL : HmacLaws H}.
Context (edns dnssec : bool) (key : option perf_tsigkey) (o : option perf_ednsoption) (time : Z) (msg : perf_buffer).
Context (Hmsg : buffer_wf msg ∧ pb_used msg = 0 ∧ 12 + QUESTION_MAX ≤ pb_length msg).
Context (Ho : option_ok o) (Hkey : match key with Some k => key_ok k | None => True end).

Definition dns_request (line : list Z) (qid : Z) : run (perf_result * list Z) :=
  '(r, p) ← perf_dns_buildrequest line qid edns dnssec false key o time msg;
  Done (r, contents p).

Lemma dns_request_returns line qid :
  Forall byte_ok line → match dns_request line qid with Done _ => True | Exit c => c = 1%Z | _ => False end.
Proof.
  intros Hl. destruct Hmsg as (Hwf & Hu & Hlen). unfold dns_request.
  pose proof (buildrequest_safe line qid edns dnssec false key o time msg Hl Hwf Hu Hlen Ho Hkey) as Ht.
  destruct (perf_dns_buildrequest _ _ _ _ _ _ _ _ _) as [[r p]| | | |]; try done. by destruct Ht.
Qed.

Definition dns_builder : RequestBuilder := Build_RequestBuilder dns_request dns_request_returns.
End dns_requests.

(** within the traffic part of the test, the bucket of a time is the interval it falls
    into: [n_buckets] equal parts of [traffic_time]; later times are in the last bucket. *)
Theorem resperf_find_bucket cfg when :
  cfg_ok cfg → (0 ≤ time_of_program_start cfg ≤ when)%Z → (when < 2 ^ 64)%Z → (0 < traffic_time cfg)%Z →
  (n_buckets cfg * (when - time_of_program_start cfg) < 2 ^ 64)%Z →
  (n_buckets cfg * (when - time_of_program_start cfg) / traffic_time cfg < 2 ^ 31)%Z →
  find_bucket cfg when =
    Z.min (n_buckets cfg - 1) (n_buckets cfg * (when - time_of_program_start cfg) / traffic_time cfg).
Proof.
  intros [_ _ _ Hb] Hw H64 Ht Hmul Hq. unfold find_bucket. rewrite (u64_small (when - _)) by lia.
  rewrite (u64_small (n_buckets cfg)), u64_small by nia.
  assert (0 ≤ n_buckets cfg * (when - time_of_program_start cfg) / traffic_time cfg)%Z by (apply Z.div_pos; nia).
  set (i := (n_buckets cfg * (when - time_of_program_start cfg) / traffic_time cfg)%Z) in *.
  assert (s32 i = i) as -> by (unfold s32, swrap; rewrite Z.mod_small by lia; lia). cbv zeta.
  rewrite (decide_False (P := (i < 0)%Z)) by lia. destruct (decide (n_buckets cfg - 1 < i)%Z); lia.
Qed.

(** *** Concrete runs *)

(** A builder that accepts every line. *)
Definition any_builder : RequestBuilder.
Proof. exact (Build_RequestBuilder (λ _ _, Done (PERF_R_SUCCESS, [])) (λ _ _ _, I)). Defined.

(** One client, four ids, a ramp of 60 seconds, 500 ms buckets and 1000 queries to fall behind. *)
Definition example_setup : run (config * state) := setup 1 4 45000000 60000000 0 40000000 500000 1000 7.

(** Sockets that are ready and have nothing to report. *)
Definition ready_call : sock_call := λ _, (1%Z, []).
Definition round_at (sched now : Z) (send : send_result) (rs : list recv_out) : round_input :=
  RoundInput sched (λ _, ready_call) (Some (bytes "example.com A")) send (map (pair ready_call) rs) now.

Lemma ready_call_ok cfg : call_ok cfg ready_call.
Proof. intros s _. constructor. Qed.
Lemma round_at_ok cfg sched now send rs : input_ok cfg (round_at sched now send rs).
Proof.
  split_and!; [by apply (bool_decide_unpack _)|intros ?; apply ready_call_ok|].
  apply Forall_fmap, Forall_forall. intros r _. apply ready_call_ok.
Qed.

Lemma example_setup_ok : ∃ cfg x, example_setup = Done (cfg, x) ∧ cfg_ok cfg ∧ Inv cfg x ∧ end_time cfg = 100000000%Z ∧
  (ramp_time cfg ≤ traffic_time cfg ≤ end_time cfg)%Z ∧ time_of_program_start cfg = 7%Z ∧ max_outstanding cfg = 4%Z ∧
  nsocks cfg = 1%Z.
Proof.
  destruct example_setup as [[cfg x]| | | |] eqn:E; try (by vm_compute in E).
  exists cfg, x. destruct (setup_spec 1 4 45000000 60000000 0 40000000 500000 1000 7 cfg x)
    as (Hcfg & Hinv & _ & Hord & Hm & Hn); [lia|lia|lia|lia|reflexivity|exact E|].
  split_and!; try done; try lia; vm_compute in E; by simplify_eq.
Qed.

Lemma resperf_accounting_witness :
  ∃ cfg x, example_setup = Done (cfg, x) ∧
  match @rounds cfg any_builder [round_at 2 9 SendOk []; round_at 2 11 SendOk [RecvData [0; 0; 128; 3]%Z]] 0 x with
  | Done (_, x') =>
      ∃ os ins, table_rep 4 (tbl x') os ins ∧
        num_queries_outstanding (cnt x') = Z.of_nat (length os) ∧
        num_queries_sent (cnt x') =
          u64 (num_responses_received (cnt x') + num_queries_timed_out (cnt x') + Z.of_nat (length os)) ∧
        num_responses_received (cnt x') = u64 (sumZ (rcodecounts (cnt x')))
  | Exit c => c = 1%Z
  | _ => False
  end.
Proof.
  destruct example_setup_ok as (cfg & x & E & _). exists cfg, x. split; [exact E|].
  refine (@resperf_accounting any_builder 1 4 45000000 60000000 0 40000000 500000 1000 7 cfg x _ _ _ _ _ _ E _);
    [lia|lia|lia|lia|reflexivity|].
  constructor; [apply round_at_ok|constructor; [apply round_at_ok|constructor]].
Defined.

Lemma resperf_ids_witness :
  ∃ cfg, ((0 ≤ 3 / nsocks cfg < 65536 ∧ 0 ≤ 3 mod nsocks cfg < nsocks cfg)%Z ∧
          (u32 (u32 (3 * nsocks cfg) + 0) = 3 ↔ 3 = 3 / nsocks cfg ∧ 0 = 3 mod nsocks cfg)%Z).
Proof.
  destruct example_setup_ok as (cfg & x & _ & Hcfg & _ & _ & _ & _ & Hm & Hn). exists cfg.
  destruct (resperf_ids cfg 3 3 0 Hcfg) as (H1 & H2 & _); [rewrite Hn; lia|rewrite Hm; lia|lia|rewrite Hn; lia|].
  split; [exact H1|exact H2].
Defined.

Lemma resperf_terminates_witness :
  ∃ cfg x, match @rounds cfg any_builder (replicate 3 (round_at 0 200000007 SendOk [])) 0 x with
           | Done (None, _) => True | Exit c => c = 1%Z | _ => False end.
Proof.
  destruct example_setup_ok as (cfg & x & _ & Hcfg & Hinv & He & Hord & Hstart & _ & Hn1). exists cfg, (set_time x 200000007).
  apply (@resperf_terminates any_builder cfg _ (replicate 3 (round_at 0 200000007 SendOk [])) 0 Hcfg Hord).
  - destruct Hinv as (os & ins & Hi). exists os, ins. by destruct Hi.
  - rewrite Hn1. lia.
  - apply Forall_replicate. split; [apply round_at_ok|]. unfold since. rewrite He, Hstart. by vm_compute.
  - unfold since. rewrite He, Hstart. by vm_compute.
  - simpl. lia.
Defined.

Lemma resperf_find_bucket_witness :
  find_bucket (Config 1 4 45000000 60000000 60000000 100000000 120 1000 7) 30000007 = Z.min 119 (120 * 30000000 / 60000000).
Proof.
  apply (resperf_find_bucket (Config 1 4 45000000 60000000 60000000 100000000 120 1000 7) 30000007);
    [split; simpl; lia|simpl; lia|lia|simpl; lia|simpl; lia|by vm_compute].
Defined.

(** The state after one query has been sent. *)
Lemma example_one_sent :
  ∃ cfg x, cfg_ok cfg ∧ nsocks cfg = 1%Z ∧ inv cfg 0 [0] [1; 2; 3] x.
Proof.
  destruct example_setup_ok as (cfg & x & E & Hcfg & Hinv & _ & _ & _ & Hm & Hn).
  assert (∃ os ins, inv cfg 0 os ins x ∧ os = [] ∧ ins = [0; 1; 2; 3]) as (os & ins & Hi & -> & ->).
  { unfold example_setup, setup in E. revert E. rewrite !decide_False by (by vm_compute).
    destruct (init_table_spec (Z.to_nat 4)) as (t & Et & Hrep). rewrite Et. cbn [mbind run_bind].
    rewrite decide_False by lia. intros [= <- <-]. eexists _, _. split; [|done]. by split. }
  destruct (r_entry_i _ _ _ _ (inv_tbl _ _ _ _ _ Hi) 0) as (qi & Hqi & Hl); [by left|].
  destruct (set_query_inv cfg _ _ _ 0 qi (QueryInfo 9 false (qlist qi)) x Hi Hqi) as (x1 & _ & Hi1 & Hq1 & _);
    [done|congruence|by right; left|].
  pose proof (send_inv cfg Hcfg _ _ _ _ x1 _ Hi1 Hq1 eq_refl) as Hs.
  destruct ((to_outstanding 0;; modify count_sent) x1) as [[u x2]| | | |]; try done. by exists cfg, x2.
Qed.

Lemma resperf_response_accepted_witness :
  ∃ cfg x, inv cfg 0 [0] [1; 2; 3] x ∧
    returns (try_process_response cfg 0 ready_call (RecvData [0; 0; 129; 131]%Z) x) (λ '(_, x'), inv cfg 0 [] [1; 2; 3; 0] x').
Proof.
  destruct example_one_sent as (cfg & x & Hcfg & Hn & Hi). exists cfg, x. split; [exact Hi|].
  pose proof (resperf_response_accepted cfg x [0] [1; 2; 3] 0 ready_call 0 0 129 131 [] Hcfg) as Hr. rewrite Hn in Hr.
  specialize (Hr ltac:(lia) Hi ltac:(by left) (ready_call_ok cfg) ltac:(lia) ltac:(lia) eq_refl).
  change (Z.of_nat 0 mod 1)%Z with 0%Z in Hr.
  destruct (try_process_response cfg 0 ready_call (RecvData [0; 0; 129; 131]%Z) x) as [[u x']| | | |]; simpl in *; try done.
  exact (proj1 Hr).
Defined.

(** Sending more than was scheduled counts as falling behind: [should_send] is negative and is
    compared as an unsigned number.  A query whose sending was in progress is counted
    together with the next one, so one round can send two queries where one is due; the
    next round then ends the test. *)
Theorem resperf_falls_behind_ahead :
  ∃ cfg x x', example_setup = Done (cfg, x) ∧
    @rounds cfg any_builder [round_at 1 8 (SendFailed true) []; round_at 1 9 SendOk []; round_at 1 10 SendOk []] 0 x =
      Done (Some 0%Z, x') ∧
    num_queries_sent (cnt x') = 2%Z ∧ max_fall_behind cfg = 1000%Z ∧ cur_phase x' = PHASE_WAIT.
Proof.
  destruct example_setup as [[cfg x]| | | |] eqn:E; try (by vm_compute in E).
  exists cfg, x. vm_compute in E. injection E as <- <-. eexists. split; [done|]. split; [vm_compute; reflexivity|].
  by vm_compute.
Qed.

End Resperf.
