(* ===== verification/ResperfSetup.v ===== *)
(** * The options of resperf (resperf.c)

    [setup] of resperf: the options, the addresses and the input as in Setup.v, the table of
    queries and the buckets as in Resperf.v, and the sockets. *)

From S2P Require Import Prelude Edns Tsig ParseUri DohRequest Datafile Net NetTcp Sockets Opt CommandLine Stats Dnsperf Setup Resperf.
Import Resperf.

Inductive rvar : Set :=
| r_family | r_mode | r_server_name | r_server_port | r_local_name | r_local_port | r_filename | r_timeout | r_bufsize
| r_edns | r_edns_option | r_dnssec | r_tsigkey | r_interval | r_max_qps | r_plotfile | r_ramp | r_sustain | r_max_loss
| r_nsocks | r_outstanding | r_verbose | r_log_stdout | r_reopen | r_fall_behind | r_doh_uri | r_doh_method | r_tls_sni
| r_suppress | r_num_queries_per_conn.

Definition all_rvars : list rvar :=
  [r_family; r_mode; r_server_name; r_server_port; r_local_name; r_local_port; r_filename; r_timeout; r_bufsize;
   r_edns; r_edns_option; r_dnssec; r_tsigkey; r_interval; r_max_qps; r_plotfile; r_ramp; r_sustain; r_max_loss;
   r_nsocks; r_outstanding; r_verbose; r_log_stdout; r_reopen; r_fall_behind; r_doh_uri; r_doh_method; r_tls_sni;
   r_suppress; r_num_queries_per_conn].

#[export] Instance rvar_eq_dec : EqDecision rvar.
Proof. solve_decision. Defined.

Definition rvar_place (v : rvar) : nat := match list_find (eq v) all_rvars with Some (i, _) => S i | None => 0 end.

Definition rvar_type (v : rvar) : perf_opttype :=
  match v with
  | r_server_port | r_local_port => perf_opt_port
  | r_timeout | r_interval | r_ramp | r_sustain => perf_opt_timeval
  | r_bufsize | r_nsocks | r_outstanding | r_num_queries_per_conn => perf_opt_uint
  | r_edns | r_dnssec | r_verbose | r_log_stdout | r_reopen => perf_opt_boolean
  | r_max_qps | r_max_loss => perf_opt_double
  | r_fall_behind => perf_opt_zpint
  | _ => perf_opt_string
  end.

#[export, refine] Instance rvar_variables : Variables rvar := {| place := rvar_place; place_type := rvar_type |}.
Proof.
  - intros []; vm_compute; lia.
  - assert (∀ v, all_rvars !! pred (rvar_place v) = Some v) as Hinv by (by intros []).
    intros v1 v2 E. apply (inj Some). by rewrite <- !Hinv, E.
Defined.

Definition DEFAULT_SOCKET_BUFFER : Z := 32.
Definition DEFAULT_RESPERF_TIMEOUT : Z := 45.
Definition DEFAULT_RAMP_TIME : Z := 60.
Definition DEFAULT_SUSTAIN_TIME : Z := 0.
Definition DEFAULT_MAX_FALL_BEHIND : Z := 1000.
(** [DEFAULT_BUCKET_INTERVAL * MILLION] and [wait_time]. *)
Definition DEFAULT_INTERVAL_US : Z := 500000.
Definition WAIT_TIME : Z := 40 * MILLION.

Definition short_options : option_table Z rvar :=
  [(102, Some (bytes "family"), bytes "address family of DNS transport, inet or inet6", Some (bytes "any"), r_family);
   (77, Some (bytes "mode"), bytes "set transport mode: udp, tcp, dot or doh", Some (bytes "udp"), r_mode);
   (115, Some (bytes "server_addr"), bytes "the server to query", Some DEFAULT_SERVER_NAME, r_server_name);
   (112, Some (bytes "port"),
      bytes "the port on which to query the server", Some DEFAULT_SERVER_PORTS, r_server_port);
   (97, Some (bytes "local_addr"), bytes "the local address from which to send queries", None, r_local_name);
   (120, Some (bytes "local_port"),
      bytes "the local port from which to send queries", Some (bytes "0"), r_local_port);
   (100, Some (bytes "datafile"), bytes "the input data file", Some (bytes "stdin"), r_filename);
   (116, Some (bytes "timeout"), bytes "the timeout for query completion in seconds", Some (bytes "45"), r_timeout);
   (98, Some (bytes "buffer_size"), bytes "socket send/receive buffer size in kilobytes", None, r_bufsize);
   (101, None, bytes "enable EDNS 0", None, r_edns);
   (69, Some (bytes "code:value"), bytes "send EDNS option", None, r_edns_option);
   (68, None, bytes "set the DNSSEC OK bit (implies EDNS)", None, r_dnssec);
   (121, Some (bytes "[alg:]name:secret"), bytes "the TSIG algorithm, name and secret", None, r_tsigkey);
   (105, Some (bytes "plot_interval"),
      bytes "the time interval between plot data points, in seconds", Some (bytes "0.5"), r_interval);
   (109, Some (bytes "max_qps"), bytes "the maximum number of queries per second", Some (bytes "100000"), r_max_qps);
   (80, Some (bytes "plotfile"), bytes "the name of the plot data file", Some (bytes "resperf.gnuplot"), r_plotfile);
   (114, Some (bytes "ramp_time"), bytes "the ramp-up time in seconds", Some (bytes "60"), r_ramp);
   (99, Some (bytes "constant_traffic_time"),
      bytes "how long to send constant traffic, in seconds", Some (bytes "0"), r_sustain);
   (76, Some (bytes "max_query_loss"),
      bytes "the maximum acceptable query loss, in percent", Some (bytes "100"), r_max_loss);
   (67, Some (bytes "clients"), bytes "the number of clients to act as", Some (bytes "1"), r_nsocks);
   (113, Some (bytes "num_outstanding"),
      bytes "the maximum number of queries outstanding", Some (bytes "65536"), r_outstanding);
   (118, None, bytes "verbose: report additional information to stdout", None, r_verbose);
   (87, None, bytes "log warnings and errors to stdout instead of stderr", None, r_log_stdout);
   (82, None, bytes "reopen datafile on end, allow for infinit use of it", None, r_reopen);
   (70, Some (bytes "fall_behind"),
      bytes "the maximum number of queries that is allowed to fall behind, zero to disable", Some (bytes "1000"), r_fall_behind)]%Z.

Definition long_options : option_table (list Z) rvar :=
  [(bytes "doh-uri", Some (bytes "doh_uri"),
      bytes "the URI to use for DNS-over-HTTPS", Some DEFAULT_DOH_URI, r_doh_uri);
   (bytes "doh-method", Some (bytes "doh_method"),
      bytes "the HTTP method to use for DNS-over-HTTPS: GET or POST", Some DEFAULT_DOH_METHOD, r_doh_method);
   (bytes "tls-sni", Some (bytes "tls_sni"), bytes "the TLS SNI to use for TLS connections", None, r_tls_sni);
   (bytes "suppress", Some (bytes "message[,message,...]"),
      bytes "suppress messages/warnings, see dnsperf(1) man-page for list of message types", None, r_suppress);
   (bytes "num-queries-per-conn", Some (bytes "queries"),
      bytes "Number of queries to send per connection", None, r_num_queries_per_conn)].

Section setup.
Context {FI : FileIO} {HM : Hmac} {F : Type} (atof : list Z → F) (micros : F → Z) (EVP_DecodeUpdate : list Z → Z * list Z).
(** The initial values of [max_qps] and [max_loss_percent]. *)
Context (max_qps0 max_loss0 : F).

(** The globals [setup] leaves behind, apart from those of Resperf.v. *)
Record settings : Type := Settings {
  g_sockets : list client; g_bufsize : Z; g_input : perf_datafile; g_edns : bool; g_dnssec : bool;
  g_tsigkey : option perf_tsigkey; g_edns_option : option perf_ednsoption; g_max_qps : F; g_max_loss : F;
  g_plotfile : list Z; g_verbose : bool; g_suppress : perf_suppress; g_doh_uri : URI; g_doh_method : perf_doh_method;
  g_doh_max_concurr : Z; g_tls_sni : option (list Z); g_log_stdout : bool;
}.

(** [setup] once the options are parsed; [now] is the time at its end.  The table and the
    buckets are those of [setup] in Resperf.v; the code interleaves them with the addresses and
    the input, on which they do not depend. *)
Definition configure (sys : system) (net : nat → opening) (now : Z) (st : optstate (F := F)) : run (config * state * settings) :=
  suppress ← perf_opt_parse_suppress (str_var st r_suppress None);
  mode ← choose_mode (str_var st r_mode None);
  uri ← perf_net_doh_parse_uri (default [] (str_var st r_doh_uri (Some DEFAULT_DOH_URI)));
  method ← perf_net_doh_parse_method (default [] (str_var st r_doh_method (Some DEFAULT_DOH_METHOD)));
  let max_outstanding := uint_var st r_outstanding DEFAULT_MAX_OUTSTANDING in
  let nsocks := uint_var st r_nsocks 1 in
  let timeout := time_var st r_timeout (DEFAULT_RESPERF_TIMEOUT * MILLION)%Z in
  '(sa, la) ← choose_addresses sys (str_var st r_family None)
    (default [] (str_var st r_server_name (Some DEFAULT_SERVER_NAME))) (port_var st r_server_port 0) mode
    (str_var st r_local_name None) (port_var st r_local_port DEFAULT_LOCAL_PORT);
  input ← perf_datafile_open (sys_stdin sys) (sys_file sys <$> str_var st r_filename None) input_format_text_query;
  let input := if bool_var st r_reopen then perf_datafile_setmaxruns input (u32 (-1)) else input in
  let dnssec := bool_var st r_dnssec in
  let edns_option_str := str_var st r_edns_option None in
  let edns := bool_var st r_edns || dnssec || bool_decide (is_Some edns_option_str) in
  tsigkey ← match str_var st r_tsigkey None with
            | Some k => k ← perf_tsig_parsekey EVP_DecodeUpdate k; Done (Some k)
            | None => Done None
            end;
  edns_option ← match edns_option_str with
                | Some e => o ← perf_edns_parseoption e; Done (Some o)
                | None => Done None
                end;
  '(cfg, x) ← setup nsocks max_outstanding timeout (time_var st r_ramp (DEFAULT_RAMP_TIME * MILLION)%Z)
    (time_var st r_sustain (DEFAULT_SUSTAIN_TIME * MILLION)%Z) WAIT_TIME (time_var st r_interval DEFAULT_INTERVAL_US)
    (uint_var st r_fall_behind DEFAULT_MAX_FALL_BEHIND) now;
  socks ← open_sockets (Transport mode sa la (uint_var st r_bufsize DEFAULT_SOCKET_BUFFER) (uint_var st r_num_queries_per_conn 0) timeout)
    net (Z.to_nat nsocks) 0;
  Done (cfg, x, Settings socks (uint_var st r_bufsize DEFAULT_SOCKET_BUFFER) input edns dnssec tsigkey edns_option
    (double_var st r_max_qps max_qps0) (double_var st r_max_loss max_loss0)
    (default [] (str_var st r_plotfile (Some (bytes "resperf.gnuplot")))) (bool_var st r_verbose) suppress uri method
    max_outstanding (str_var st r_tls_sni None) (bool_var st r_log_stdout)).

(** [setup(argc, argv)]. *)
Definition resperf_setup (sys : system) (net : nat → opening) (now : Z) (getopt : getopt_t)
    : run (config * state * settings) :=
  st ← read_options atof micros short_options long_options getopt; configure sys net now st.
End setup.

(** ** Correctness *)

Section configured.
Context {FI : FileIO} {HM : Hmac} {F : Type} (EVP_DecodeUpdate : list Z → Z * list Z) (max_qps0 max_loss0 : F) (net : nat → opening).

(** A value, the end with status 1, or undefined behaviour under a condition. *)
Definition value_or {A} (P : A → Prop) (U : Prop) (m : run A) : Prop :=
  match m with Done a => P a | Exit c => c = 1%Z | Undef => U | _ => False end.

Lemma value_or_bind {A B} (P : A → Prop) (Q : B → Prop) U (m : run A) (k : A → run B) :
  value_or_exit P m → (∀ a, P a → value_or Q U (k a)) → value_or Q U (m ≫= k).
Proof. intros Hm Hk. destruct m; simpl in *; try done. by apply Hk. Qed.

(** The times given by the options. *)
Definition opt_ramp (st : optstate (F := F)) : Z := time_var st r_ramp (DEFAULT_RAMP_TIME * MILLION)%Z.
Definition opt_sustain (st : optstate (F := F)) : Z := time_var st r_sustain (DEFAULT_SUSTAIN_TIME * MILLION)%Z.
Definition opt_interval (st : optstate (F := F)) : Z := time_var st r_interval DEFAULT_INTERVAL_US.

(** The sums of the times fit in their types. *)
Definition times_fit (st : optstate (F := F)) : Prop :=
  (opt_ramp st + opt_sustain st + WAIT_TIME + opt_interval st < 2 ^ 64)%Z ∧
  ((opt_ramp st + opt_sustain st + opt_interval st - 1) / opt_interval st < 2 ^ 31)%Z.

(** What [setup] leaves.  The number of intervals is not negative, and when it is not zero, as it
    never is when the times fit in their types, the main loop is in order. *)
Record ready_to_run (st : optstate (F := F)) (cfg : config) (x : state) (g : settings (F := F)) : Prop := {
  ready_buckets : (0 ≤ n_buckets cfg < 2 ^ 31)%Z;
  ready_cfg : (n_buckets cfg ≠ 0 → cfg_ok cfg)%Z;
  ready_inv : Inv cfg x;
  ready_phase : cur_phase x = PHASE_RAMP;
  ready_times : times_fit st → n_buckets cfg ≠ 0%Z ∧ (ramp_time cfg ≤ traffic_time cfg ≤ end_time cfg)%Z;
  ready_doh : g_doh_max_concurr g = max_outstanding cfg;
  ready_number : Z.of_nat (length (g_sockets g)) = nsocks cfg;
  ready_sockets : ∃ tr, transport_ok tr ∧ ∀ j c, g_sockets g !! j = Some c → client_ok tr net j c;
}.

Lemma setup_cases s o timeout ramp sustain wait interval fb now :
  match setup s o timeout ramp sustain wait interval fb now with
  | Done _ => interval ≠ 0%Z | Exit c => c = 1%Z | Undef => interval = 0%Z | _ => False end.
Proof.
  unfold setup. destruct (decide _); [done|]. destruct (decide _); [done|].
  destruct (init_table_spec (Z.to_nat o)) as (t & -> & _). cbn [mbind run_bind]. destruct (decide (interval = 0)%Z); [done|].
  unfold init_buckets. by destruct (decide _).
Qed.

Lemma configure_ready sys now (st : optstate (F := F)) :
  typed (V := rvar) st →
  value_or (λ '(cfg, x, g), ready_to_run st cfg x g) (opt_interval st = 0%Z)
    (configure EVP_DecodeUpdate max_qps0 max_loss0 sys net now st).
Proof.
  intros Ht. unfold configure. apply (value_or_bind _ _ _ _ _ (suppress_exits _)). intros sup _.
  apply (value_or_bind _ _ _ _ _ (mode_exits _)). intros mode Hmode. apply (value_or_bind (λ _, True)).
  { unfold perf_net_doh_parse_uri. by destruct (parse_uri _). }
  intros uri _. apply (value_or_bind (λ _, True)). { unfold perf_net_doh_parse_method. repeat case_match; done. }
  intros method _. cbv zeta. set (sp := port_var st r_server_port 0). set (lp := port_var st r_local_port _).
  assert (0 ≤ sp ≤ 65535)%Z as Hsp by (apply port_var_range; [done|done|lia]).
  assert (0 ≤ lp ≤ 65535)%Z as Hlp by (apply port_var_range; [done|done|unfold DEFAULT_LOCAL_PORT; lia]).
  apply (value_or_bind _ _ _ _ _ (addresses_exit sys _ _ sp mode _ lp Hsp Hlp)). intros [sa la] (_ & Pla & Fla & _).
  apply (value_or_bind _ _ _ _ _ (open_exits _ _ _)). intros input _. apply (value_or_bind (λ _, True)).
  { destruct (str_var st r_tsigkey None); [|done]. by apply (voe_bind _ _ _ _ (tsig_exits _ _)). }
  intros key _. apply (value_or_bind (λ _, True)).
  { destruct (str_var st r_edns_option None); [|done]. by apply (voe_bind _ _ _ _ (edns_exits _)). }
  intros eo _. fold (opt_ramp st) (opt_sustain st) (opt_interval st).
  assert (1 ≤ DEFAULT_MAX_OUTSTANDING ≤ UINT32_MAX)%Z as HD by (unfold DEFAULT_MAX_OUTSTANDING, UINT32_MAX; lia).
  pose proof (uint_var_1 st r_nsocks 1 Ht eq_refl ltac:(unfold UINT32_MAX; lia)) as Hn.
  pose proof (uint_var_1 st r_outstanding _ Ht eq_refl HD) as Ho.
  set (ns := uint_var st r_nsocks 1) in *. set (mo := uint_var st r_outstanding _) in *.
  set (to := time_var st r_timeout _). set (fb := uint_var st r_fall_behind _). clearbody to fb.
  pose proof (setup_cases ns mo to (opt_ramp st) (opt_sustain st) WAIT_TIME (opt_interval st) fb now) as Hc.
  destruct (setup ns mo to _ _ _ _ fb now) as [[cfg x]| |c| |] eqn:Es; cbn [mbind run_bind]; [|exact Hc..].
  set (tr := Transport mode sa la _ _ to). assert (transport_ok tr) as Htr by (split; cbn [tr tr_mode tr_local]; [done|lia|done]).
  pose proof (open_sockets_spec tr net Htr (Z.to_nat ns) 0 ltac:(destruct Htr; lia) ltac:(lia)) as Hos. change (Z.of_nat 0) with 0%Z in Hos.
  destruct (open_sockets tr net (Z.to_nat ns) 0) as [cs| |c| |]; [|exact Hos|exact (proj1 Hos)|destruct Hos|exact Hos].
  destruct Hos as (Hl & Hcl & _). unfold UINT32_MAX in Hn, Ho.
  assert (1 ≤ ns < 2 ^ 32 ∧ 1 ≤ mo < 2 ^ 32)%Z as [Hn' Ho'] by lia.
  destruct (setup_done _ _ _ _ _ _ _ _ _ _ _ Hn' Ho' Es) as ((_ & Hb & _) & Hcfg & Hinv & Hph & _ & Em & En & _).
  split; try done; [intros ?; apply Hcfg; lia| |cbn [g_sockets]; by rewrite Hl, En, Z2Nat.id by lia|by exists tr].
  intros [Hs1 Hs2].
  assert (0 ≤ opt_ramp st < 2 ^ 64)%Z by (apply time_var_range; [done|done|unfold DEFAULT_RAMP_TIME, MILLION; lia]).
  assert (0 ≤ opt_sustain st < 2 ^ 64)%Z by (apply time_var_range; [done|done|unfold DEFAULT_SUSTAIN_TIME; lia]).
  assert (0 ≤ opt_interval st < 2 ^ 64)%Z by (apply time_var_range; [done|done|unfold DEFAULT_INTERVAL_US; lia]).
  assert (0 ≤ WAIT_TIME)%Z by (unfold WAIT_TIME, MILLION; lia).
  destruct (setup_spec ns mo to (opt_ramp st) (opt_sustain st) WAIT_TIME (opt_interval st) fb now cfg x) as (K1 & _ & _ & K4 & _);
    [lia|lia|lia|lia|done|exact Es|]. split; [destruct K1; lia|exact K4].
Qed.
End configured.

Section theorem.
Context {FI : FileIO} {HM : Hmac} {F : Type} (atof : list Z → F) (micros : F → Z).
Context (EVP_DecodeUpdate : list Z → Z * list Z) (max_qps0 max_loss0 : F).

(** C33: Every command line of resperf ends the program with status 0 or 1, divides by a plot interval of
    zero, or leaves what the main loop starts from: the table of queries and the counters are in
    order, the phase is the ramp, and each client has its socket.  When the number of plot
    intervals is not zero, the invariant of the main loop has all it needs; this and the order of
    the phases in time hold when the sums of the times fit in their types.  ([resperf_no_buckets]
    shows a command line for which the number is zero, and what comes of it.) *)
Theorem resperf_configures sys net now getopt :
  match read_options atof micros short_options long_options getopt with
  | Done st =>
      match configure EVP_DecodeUpdate max_qps0 max_loss0 sys net now st with
      | Done (cfg, x, g) => ready_to_run net st cfg x g
      | Exit c => c = 1%Z
      | Undef => opt_interval st = 0%Z
      | _ => False
      end
  | Exit c => c = 0%Z ∨ c = 1%Z
  | _ => False
  end.
Proof.
  pose proof (read_options_typed atof micros short_options long_options getopt) as Hr.
  assert (length short_options + 3 ≤ MAX_OPTS) as H1 by (by apply (bool_decide_unpack _)).
  assert (defaults_fit short_options ∧ defaults_fit long_options) as [H2 H3] by (split; by apply defaults_check).
  specialize (Hr H1 H2 H3). destruct (read_options _ _ _ _ _) as [st| | | |]; try done.
  pose proof (configure_ready EVP_DecodeUpdate max_qps0 max_loss0 net sys now st Hr) as Hc.
  destruct (configure _ _ _ _ _ _ _) as [[[cfg x] g]| | | |]; exact Hc.
Qed.
End theorem.

(** ** Command lines *)

Section command_lines.
Context {FI : FileIO} {HM : Hmac} (EVP_DecodeUpdate : list Z → Z * list Z).
Context (stdin : fio) (files : list Z → option (fio * option nat)).

Definition some_net : nat → opening := λ j, plain_opening (5 + Z.of_nat j).
(** Words that stand for times, in microseconds. *)
Definition some_atof (w : list Z) : Z :=
  if decide (w = bytes "4294.967296") then 4294967296%Z else if decide (w = bytes "3000") then 3000000000%Z
  else if decide (w = bytes "0.000001") then 1%Z else 0%Z.

Notation resperf args :=
  (resperf_setup (F := Z) some_atof id EVP_DecodeUpdate 100000%Z 100%Z (local_system stdin files) some_net 7%Z (argv args)).

(** With four queries and two clients ([-q 4 -C 2 -x 5000]) the ramp of 60 seconds has 120
    buckets, and the clients use the ports 5000 and 5001. *)
Theorem resperf_example :
  match resperf [bytes "-q"; bytes "4"; bytes "-C"; bytes "2"; bytes "-x"; bytes "5000"] with
  | Done (cfg, x, g) =>
      (max_outstanding cfg, nsocks cfg, n_buckets cfg, traffic_time cfg) = (4, 2, 120, 60000000)%Z ∧
      map (λ c, perf_sockaddr_port (cl_addr c)) (g_sockets g) = [5000; 5001]%Z
  | _ => False
  end.
Proof. vm_compute. split; reflexivity. Qed.

(** A plot interval of zero ([-i 0]) divides by zero. *)
Theorem resperf_zero_interval : resperf [bytes "-q4"; bytes "-i0"] = Undef.
Proof. vm_compute. reflexivity. Qed.

(** The number of plot intervals is computed in 64 bits and kept in an [int]: a ramp of
    4294.967296 seconds has none of a microsecond ([-r 4294.967296 -i 0.000001]), and the first
    query sent is counted in front of the array.  With a ramp of 3000 seconds the number is
    negative, and the program ends for lack of memory. *)
Theorem resperf_no_buckets :
  match resperf [bytes "-q"; bytes "4"; bytes "-r"; bytes "4294.967296"; bytes "-i"; bytes "0.000001"] with
  | Done (cfg, x, g) => n_buckets cfg = 0%Z ∧ ∀ when f, update_bucket cfg when f x = Undef
  | _ => False
  end ∧
  resperf [bytes "-q"; bytes "4"; bytes "-r"; bytes "3000"; bytes "-i"; bytes "0.000001"] = Exit 1.
Proof.
  split; vm_compute; [|reflexivity]. split; [reflexivity|]. intros when f. reflexivity.
Qed.
End command_lines.
