(* ===== verification/ResperfMain.v ===== *)
(** * The pace of resperf (resperf.c, [num_scheduled] and [main])

    How many queries should have been sent at a time is computed in floating point; the main loop
    sends one more when there are fewer.  The loop of Resperf.v, which takes that number as an
    argument, is here given the number the code computes.  The theorems show that it never runs
    ahead of the schedule by more than one query. *)

From S2P Require Import Prelude Doubles LinkedList Stats Dnsperf Resperf.
Import Resperf.

(** ** The schedule *)

Definition half : real := r_div (r_int 1) (r_int 2).

(** [num_scheduled(time_since_start)] as a formula, and the conversion of its value to [int]. *)
Definition scheduled_queries (cfg : config) (max_qps : double) (p : phase) (since : Z) : real :=
  let million := r_int MILLION in
  match p with
  | PHASE_RAMP =>
      r_div (r_mul (r_mul (r_mul half (r_val max_qps)) (r_int since)) (r_int since)) (r_int (u64 (ramp_time cfg * MILLION)))
  | _ =>
      r_add (r_mul (r_mul half (r_val max_qps)) (r_div (r_int (ramp_time cfg)) million))
            (r_div (r_mul (r_val max_qps) (r_int (u64 (since - ramp_time cfg)))) million)
  end.
Definition num_scheduled (cfg : config) (max_qps : double) (p : phase) (since : Z) : run Z :=
  d_to_int (eval (scheduled_queries cfg max_qps p since)).

(** [try_responses]: [(max_qps / max_outstanding) + 1]. *)
Definition try_responses (cfg : config) (max_qps : double) : run Z :=
  d_to_int (eval (r_add (r_div (r_val max_qps) (r_int (max_outstanding cfg))) (r_int 1))).

Lemma num_scheduled_range cfg max_qps p since n :
  nonneg max_qps → (0 ≤ since)%Z → (0 ≤ ramp_time cfg)%Z → num_scheduled cfg max_qps p since = Done n →
  (0 ≤ n < 2 ^ 31)%Z.
Proof.
  intros Hq Hs Hr. apply to_int_nonneg. unfold scheduled_queries, half.
  pose proof (u64_range (ramp_time cfg * MILLION)). pose proof (u64_range (since - ramp_time cfg)).
  assert (0 ≤ MILLION)%Z by done. destruct p; cbn [eval]; auto 10 with nonneg.
Qed.

(** ** The main loop *)
Section main.
Context (cfg : config) (max_qps : double).
Context `{RequestBuilder}.

(** The number of queries that are due in a round: [num_scheduled] is called unless the loop is
    left or waits, in the phase the [switch] of this round has set. *)
Definition due (x : state) : run Z :=
  let since := u64 (time_now x - time_of_program_start cfg) in
  '(stop, x1) ← phase_step cfg since x;
  if decide (stop = true ∨ cur_phase x1 = PHASE_WAIT) then Done 0%Z
  else num_scheduled cfg max_qps (cur_phase x1) since.

Definition with_scheduled (n : Z) (i : round_input) : round_input :=
  RoundInput n (in_ready i) (in_line i) (in_send i) (in_recvs i) (in_now i).

(** One round, and the loop for as long as it is given input; the field [scheduled] of the
    input is not used. *)
Definition main_round (i : round_input) (current_sock : Z) : M state (option Z) := λ x,
  n ← due x; round cfg (with_scheduled n i) current_sock x.
Fixpoint main_loop (ins : list round_input) (current_sock : Z) : M state (option Z) :=
  match ins with
  | [] => mret (Some current_sock)
  | i :: ins' =>
      s ← main_round i current_sock;
      match s with None => mret None | Some s => main_loop ins' s end
  end.

(** ** The number of queries sent *)

(** [m] sends at most [n] queries. *)
Definition adds {A} (n : Z) (m : M state A) : Prop := ∀ x,
  (0 ≤ sent_of x)%Z → (sent_of x + n < 2 ^ 64)%Z →
  match m x with Done (_, x') => (sent_of x ≤ sent_of x' ≤ sent_of x + n)%Z | _ => True end.

Lemma adds_keeps {A} (m : M state A) n : (0 ≤ n)%Z → keeps sent_of m → adds n m.
Proof. intros Hn Hm x H0 H1. specialize (Hm x). destruct (m x) as [[a x']| | | |]; try done. lia. Qed.

Lemma adds_bind {A B} n1 n2 n (m : M state A) (k : A → M state B) :
  (0 ≤ n1)%Z → (0 ≤ n2)%Z → n = (n1 + n2)%Z → adds n1 m → (∀ a, adds n2 (k a)) → adds n (m ≫= k).
Proof.
  intros Hn1 Hn2 -> Hm Hk x H0 H1. specialize (Hm x H0 ltac:(lia)). unfold mbind, M_bind.
  destruct (m x) as [[a x1]| | | |]; try done. specialize (Hk a x1 ltac:(lia) ltac:(lia)).
  destruct (k a x1) as [[b x2]| | | |]; try done. lia.
Qed.

Lemma adds_after {A} n lo d (m : M state A) x :
  (0 ≤ lo ≤ sent_of x ∧ sent_of x ≤ lo + d)%Z → (lo + (d + n) < 2 ^ 64)%Z → adds n m →
  match m x with Done (_, x') => (lo ≤ sent_of x' ≤ lo + (d + n))%Z | _ => True end.
Proof.
  intros H0 H1 Hm. specialize (Hm x ltac:(lia) ltac:(lia)). destruct (m x) as [[a x']| | | |]; try done. lia.
Qed.

Lemma adds_count_sent : adds 1 (modify count_sent).
Proof. intros x H0 H1. unfold sent_of in *. simpl. rewrite u64_small by lia. lia. Qed.

(** Follow the program; a part that sends nothing is a frame. *)
Ltac adds_step :=
  first
    [ apply adds_keeps; [lia|solve [keeps_tac]]
    | apply adds_count_sent
    | apply (adds_bind 0 1); [lia|lia|done|apply adds_keeps; [lia|solve [keeps_tac]]|intros ?]
    | apply (adds_bind 1 0); [lia|lia|done|apply adds_count_sent|intros ?]
    | match goal with |- adds _ (if decide ?P then _ else _) => destruct (decide P) end
    | match goal with |- adds _ (match ?e with _ => _ end) => destruct e end ].

(** When the first id is not in progress of being sent, [take_id] changes nothing. *)
Lemma take_id_quiet fuel k ready x :
  (∀ q qi, pl_head (instanding_list (tbl x)) = Some q → queries (tbl x) !! q = Some qi → is_inprogress qi = false) →
  match take_id cfg fuel k ready x with Done (_, x') => x' = x | _ => True end.
Proof.
  intros Hq. destruct fuel as [|fuel]; [done|]. cbn [take_id]. rewrite (bind_Done get _ _ _ _ eq_refl).
  destruct (pl_head _) as [q|]; [|done]. unfold mbind, M_bind, get_query.
  destruct (queries (tbl x) !! q) as [qi|] eqn:E; [|done]. by rewrite (Hq q qi eq_refl E).
Qed.

(** Moving a query leaves the others as they are. *)
Lemma to_outstanding_others q x u x' q' :
  to_outstanding q x = Done (u, x') → q' ≠ q → queries (tbl x') !! q' = queries (tbl x) !! q'.
Proof.
  unfold to_outstanding. intros E Hne. destruct (queries (tbl x) !! q); [|done].
  destruct (perf_list_unlink _ _ _) as [[l1 st]| | | |]; simpl in E; try done.
  destruct (perf_list_prepend _ _ _) as [[l2 st2]| | | |]; simpl in E; try done.
  injection E as _ <-. simpl. by rewrite lookup_insert_ne.
Qed.

Context (Hcfg : cfg_ok cfg).

(** The query in progress, if there is one, is counted by [take_id]; there is never a second. *)
Lemma take_id_adds fuel k ready x : (∀ k, call_ok cfg (ready k)) → Inv cfg x →
  (0 ≤ sent_of x)%Z → (sent_of x + 1 < 2 ^ 64)%Z →
  match take_id cfg fuel k ready x with Done (_, x') => (sent_of x ≤ sent_of x' ≤ sent_of x + 1)%Z | _ => True end.
Proof.
  intros Hready (os & ins & Hinv) H0 H1. destruct fuel as [|fuel]; [done|]. cbn [take_id].
  rewrite (bind_Done get _ _ _ _ eq_refl). pose proof (inv_tbl _ _ _ _ _ Hinv) as Hr.
  pose proof (r_in _ _ _ _ Hr) as (_ & -> & _). destruct ins as [|q ins]; [simpl; lia|].
  change (head (q :: ins)) with (Some q). cbv iota.
  destruct (r_entry_i _ _ _ _ Hr q) as (qi & Hqi & Hl); [by left|].
  rewrite (bind_Done (get_query q) _ x qi x) by (unfold get_query; by rewrite Hqi).
  destruct (is_inprogress qi) eqn:Hp; [|simpl; lia].
  destruct (sockready_spec cfg Hcfg _ _ _ (ready k) (sock_of cfg q) x Hinv (Hready k) (sock_of_range cfg Hcfg q))
    as (x0 & E0 & Hinv0 & Hc). rewrite (bind_Done _ _ _ _ _ E0). pose proof (called_sent _ _ Hc) as Hs0.
  fold (sent_of x0) (sent_of x) in Hs0. destruct (decide _); [simpl; lia|].
  destruct (called_entry _ _ Hc q qi Hqi) as [t Ht]. rewrite Hp, Hl in Ht.
  rewrite (bind_Done (get_query q) _ x0 _ x0) by (unfold get_query; by rewrite Ht). cbn [sent_timestamp qlist].
  destruct (set_query_inv cfg _ _ _ q _ (QueryInfo t false instanding) x0 Hinv0 Ht)
    as (x1 & E1 & Hinv1 & Hq1 & _); [done|done|by right; left|]. rewrite (bind_Done _ _ _ _ _ E1).
  pose proof (send_inv cfg Hcfg _ _ _ _ x1 _ Hinv1 Hq1 eq_refl) as Hs.
  pose proof (keeps_to_outstanding sent_of (λ _ _, eq_refl) q x1) as Hk.
  revert Hs. unfold mbind, M_bind. destruct (to_outstanding q x1) as [[u x2]| | | |] eqn:E2; try done. cbn [modify].
  intros Hs. assert (sent_of (count_sent x2) = sent_of x + 1)%Z as Hsent.
  { assert (sent_of x2 = sent_of x) as Hx by (rewrite Hk, <- Hs0; injection E1 as <-; done).
    unfold sent_of in *. simpl. rewrite Hx, u64_small by lia. done. }
  pose proof (take_id_quiet fuel (S k) ready (count_sent x2)) as Htq.
  destruct (take_id cfg fuel (S k) ready (count_sent x2)) as [[r x3]| | | |]; try done. rewrite Htq; [lia|].
  intros q' qi' Hh Hq'. pose proof (r_in _ _ _ _ (inv_tbl _ _ _ _ _ Hs)) as (_ & Hh' & _). rewrite Hh' in Hh.
  assert (q' ∈ ins) as Hin by (destruct ins; [done|]; injection Hh as ->; by left).
  assert (q' ≠ q) as Hne by (intros ->; pose proof (r_in _ _ _ _ Hr) as (Hnd & _); by apply NoDup_cons in Hnd as [? _]).
  apply (r_head _ _ _ _ (inv_tbl _ _ _ _ _ Hinv1) q' qi'); [done|].
  rewrite <- (to_outstanding_others q x1 u x2 q' E2 Hne). exact Hq'.
Qed.

Lemma do_one_line_adds ready line send x : (∀ k, call_ok cfg (ready k)) → Inv cfg x →
  (0 ≤ sent_of x)%Z → (sent_of x + 2 < 2 ^ 64)%Z →
  match do_one_line cfg ready line send x with Done (_, x') => (sent_of x ≤ sent_of x' ≤ sent_of x + (1 + 1))%Z | _ => True end.
Proof.
  intros Hready Hinv H0 H1. unfold do_one_line.
  pose proof (take_id_adds (S (Z.to_nat (max_outstanding cfg))) 0 ready x Hready Hinv H0 ltac:(lia)) as Ht.
  unfold mbind at 1, M_bind at 1. destruct (take_id _ _ _ _ x) as [[r x1]| | | |]; try done.
  apply (adds_after 1 (sent_of x) 1); [lia|lia|].
  destruct r as [r|[q k]]; [apply adds_keeps; [lia|apply keeps_ret]|]. repeat adds_step.
Qed.

Lemma run_keeps {A} (m : M state A) x (P : Z → Prop) :
  keeps sent_of m → P (sent_of x) → match m x with Done (_, x') => P (sent_of x') | _ => True end.
Proof. intros Hm Hx. specialize (Hm x). destruct (m x) as [[a x']| | | |]; try done. by rewrite Hm. Qed.

Lemma should_send_exact n sent : (0 ≤ n < 2 ^ 31)%Z → (0 ≤ sent ≤ 2 ^ 31)%Z → s32 (n - sent) = (n - sent)%Z.
Proof. intros Hn Hs. unfold s32, swrap. rewrite Z.mod_small by lia. lia. Qed.

(** A round sends only when fewer queries were sent than are due. *)
Lemma send_step_pace i x top :
  input_ok cfg i → Inv cfg x → (0 ≤ scheduled i < 2 ^ 31)%Z → (0 ≤ top < 2 ^ 31)%Z → (0 ≤ sent_of x ≤ top + 1)%Z →
  match send_step cfg i x with
  | Done (_, x') => (0 ≤ sent_of x' ≤ Z.max top (scheduled i) + 1)%Z
  | _ => True
  end.
Proof.
  intros Hin Hinv Hi Ht Hs. unfold send_step. rewrite (bind_Done get _ _ _ _ eq_refl).
  destruct (decide (cur_phase x = PHASE_WAIT)); [simpl; lia|]. fold (sent_of x).
  cbv zeta. rewrite should_send_exact by lia. set (c := (scheduled i - sent_of x)%Z).
  assert (∃ x1, ((if decide (max_fall_behind cfg ≠ 0 ∧ max_fall_behind cfg ≤ u32 c)%Z
     then modify enter_wait_phase else mret ()) : M state ()) x = Done ((), x1) ∧
     Inv cfg x1 ∧ sent_of x1 = sent_of x) as (x1 & E1 & Hinv1 & Hs1).
  { destruct (decide _); [|by exists x]. eexists. split; [done|]. split; [|done].
    exact (wait_inv cfg x Hinv). }
  rewrite (bind_Done _ _ _ _ _ E1). destruct (decide (0 < c)%Z) as [Hc|]; [|simpl; lia].
  pose proof (do_one_line_adds (in_ready i) (in_line i) (in_send i) x1 (proj1 (proj2 Hin)) Hinv1 ltac:(lia) ltac:(lia)) as Hd.
  unfold mbind at 1, M_bind at 1. destruct (do_one_line cfg _ _ _ x1) as [[r x2]| | | |]; try done.
  apply (run_keeps _ x2 (λ z, 0 ≤ z ≤ Z.max top (scheduled i) + 1)%Z); [keeps_tac|lia].
Qed.

Lemma round_pace i sk x top :
  input_ok cfg i → Inv cfg x → (0 ≤ scheduled i < 2 ^ 31)%Z → (0 ≤ top < 2 ^ 31)%Z → (0 ≤ sent_of x ≤ top + 1)%Z →
  match round cfg i sk x with
  | Done (_, x') => (0 ≤ sent_of x' ≤ Z.max top (scheduled i) + 1)%Z
  | _ => True
  end.
Proof.
  intros Hin Hinv Hi Ht Hs. unfold round. rewrite (bind_Done get _ _ _ _ eq_refl).
  pose proof (phase_inv cfg (u64 (time_now x - time_of_program_start cfg)) x Hinv) as Hp.
  assert (keeps sent_of (phase_step cfg (u64 (time_now x - time_of_program_start cfg)))) as Hk.
  { unfold phase_step. keeps_tac. }
  specialize (Hk x). unfold mbind at 1, M_bind at 1.
  destruct (phase_step _ _ x) as [[[|] x1]| | | |]; try done; [simpl; lia|].
  pose proof (send_step_pace i x1 top Hin Hp Hi Ht ltac:(lia)) as Hst. unfold mbind at 1, M_bind at 1.
  destruct (send_step cfg i x1) as [[u x2]| | | |]; try done.
  apply (run_keeps _ x2 (λ z, 0 ≤ z ≤ Z.max top (scheduled i) + 1)%Z); [|lia].
  apply keeps_bind; [by apply responses_frame|]. intros s.
  apply keeps_bind; [by apply retire_frame|]. intros ?. by keeps_tac.
Qed.

(** *** The loop *)

(** The numbers of queries that were due in the rounds of the loop. *)
Fixpoint dues (ins : list round_input) (current_sock : Z) (x : state) : list Z :=
  match ins with
  | [] => []
  | i :: ins' =>
      match due x with
      | Done n =>
          n :: match round cfg (with_scheduled n i) current_sock x with
               | Done (Some s, x') => dues ins' s x'
               | _ => []
               end
      | _ => []
      end
  end.

(** The conversion to [int] is not defined at some time in some phase. *)
Definition schedule_overflows : Prop := ∃ p since, (0 ≤ since)%Z ∧ num_scheduled cfg max_qps p since = Undef.

Context (Hqps : nonneg max_qps) (Hramp : (0 ≤ ramp_time cfg)%Z).

Lemma due_spec x :
  match due x with Done n => (0 ≤ n < 2 ^ 31)%Z | Undef => schedule_overflows | _ => False end.
Proof.
  unfold due. set (t := u64 (time_now x - time_of_program_start cfg)).
  assert (0 ≤ t)%Z by apply u64_range.
  assert (∃ b x1, phase_step cfg t x = Done (b, x1)) as (b & x1 & ->).
  { unfold phase_step. rewrite (bind_Done get _ _ _ _ eq_refl).
    destruct (cur_phase x); [destruct (decide _)|destruct (decide _)|]; by eexists _, _. }
  cbn [mbind run_bind]. destruct (decide _); [lia|].
  pose proof (num_scheduled_range cfg max_qps (cur_phase x1) t) as Hn.
  pose proof (to_int_cases (eval (scheduled_queries cfg max_qps (cur_phase x1) t))) as Hc.
  fold (num_scheduled cfg max_qps (cur_phase x1) t) in Hc.
  destruct (num_scheduled cfg max_qps (cur_phase x1) t) as [m| | | |] eqn:E; try done; [by apply Hn|].
  by exists (cur_phase x1), t.
Qed.

Lemma main_loop_pace ins sk x top :
  Inv cfg x → (0 ≤ sk < nsocks cfg)%Z → Forall (input_ok cfg) ins → (0 ≤ top < 2 ^ 31)%Z → (0 ≤ sent_of x ≤ top + 1)%Z →
  match main_loop ins sk x with
  | Done (_, x') => Inv cfg x' ∧ (0 ≤ sent_of x' ≤ foldr Z.max top (dues ins sk x) + 1)%Z
  | Exit c => c = 1%Z
  | Undef => schedule_overflows
  | _ => False
  end.
Proof.
  intros Hinv Hsk Hins. revert sk x top Hsk Hinv. induction Hins as [|i ins Hi Hins IH]; intros sk x top Hsk Hinv Ht Hs; [done|].
  cbn [main_loop dues]. unfold mbind, M_bind, main_round. pose proof (due_spec x) as Hd.
  destruct (due x) as [n| | | |]; cbn [mbind run_bind]; try done.
  pose proof (round_inv cfg Hcfg (with_scheduled n i) sk Hi Hsk x Hinv) as Hr.
  pose proof (round_pace (with_scheduled n i) sk x top Hi Hinv Hd Ht Hs) as Hp. cbn [with_scheduled scheduled] in Hp.
  destruct (round cfg (with_scheduled n i) sk x) as [[[s|] x1]| | | |]; try done; [|simpl; split; [apply Hr|lia]].
  destruct Hr as [Hr Hs1].
  specialize (IH s x1 (Z.max top n) Hs1 Hr ltac:(lia) Hp).
  destruct (main_loop ins s x1) as [[r x2]| | | |]; try done. destruct IH as [Hi2 Hb]. split; [done|].
  assert (∀ l a b, foldr Z.max (Z.max a b) l = Z.max b (foldr Z.max a l)) as Hmax.
  { intros l a b. induction l as [|z l IHl]; simpl; lia. }
  rewrite Hmax in Hb. simpl. lia.
Qed.
End main.

(** What [setup] leaves in some variables. *)
Lemma setup_start s o timeout ramp sustain wait interval fb now cfg x :
  setup s o timeout ramp sustain wait interval fb now = Done (cfg, x) →
  ramp_time cfg = ramp ∧ num_queries_sent (cnt x) = 0%Z.
Proof.
  unfold setup. destruct (decide _); [done|]. destruct (decide _); [done|].
  destruct (init_queries _ _ _) as [t| | | |]; cbn [mbind run_bind]; try done. destruct (decide _); [done|].
  unfold init_buckets. destruct (decide _); [done|]. by intros [= <- <-].
Qed.

(** ** Theorems *)

(** C12: resperf follows its schedule: from its start on, whatever the clock, the input and the
    sockets do, the loop never sends more than one query beyond the largest number the
    ramp-up called for in any round, keeps its books, and every computation of the schedule
    gives an [int] or is out of the range of one. *)
Theorem resperf_on_schedule {B : RequestBuilder} s o timeout ramp sustain wait interval fb now max_qps cfg x inputs :
  (1 ≤ s < 2 ^ 32)%Z → (1 ≤ o < 2 ^ 32)%Z → (0 ≤ ramp ∧ 0 ≤ sustain ∧ 0 ≤ wait ∧ 1 ≤ interval)%Z →
  (ramp + sustain + wait + interval < 2 ^ 64)%Z → ((ramp + sustain + interval - 1) / interval < 2 ^ 31)%Z →
  setup s o timeout ramp sustain wait interval fb now = Done (cfg, x) → nonneg max_qps → Forall (input_ok cfg) inputs →
  match main_loop cfg max_qps inputs 0 x with
  | Done (_, x') => Inv cfg x' ∧ (0 ≤ num_queries_sent (cnt x') ≤ foldr Z.max 0 (dues cfg max_qps inputs 0 x) + 1)%Z
  | Exit c => c = 1%Z
  | Undef => schedule_overflows cfg max_qps
  | _ => False
  end.
Proof.
  intros Hs Ho Hp Hsum Hnb E Hq Hin.
  destruct (setup_spec _ _ _ _ _ _ _ _ _ _ _ Hs Ho Hp Hsum Hnb E) as (Hcfg & Hinv & _).
  destruct (setup_start _ _ _ _ _ _ _ _ _ _ _ E) as [Hr H0]. pose proof Hcfg as [Hn _ _ _].
  apply (main_loop_pace cfg max_qps Hcfg Hq); [rewrite Hr; lia|done|lia|done|lia|unfold sent_of; rewrite H0; lia].
Qed.

(** A schedule of 1000 queries per second after 60 seconds; one second after the start 8 queries
    are due. *)
Definition example_rounds : list round_input :=
  [ round_at 0 1000007 SendOk []; round_at 0 1000008 SendOk []; round_at 0 1000009 (SendFailed true) [];
    round_at 0 1000010 SendOk [RecvData [0; 0; 128; 3]%Z] ].

Lemma resperf_on_schedule_witness :
  ∃ cfg x, example_setup = Done (cfg, x) ∧
  match @main_loop cfg (d_of_int 1000) any_builder example_rounds 0 x with
  | Done (_, x') => Inv cfg x' ∧
      (0 ≤ num_queries_sent (cnt x') ≤ foldr Z.max 0 (@dues cfg (d_of_int 1000) any_builder example_rounds 0 x) + 1)%Z
  | Exit c => c = 1%Z
  | Undef => schedule_overflows cfg (d_of_int 1000)
  | _ => False
  end.
Proof.
  destruct example_setup_ok as (cfg & x & E & _). exists cfg, x. split; [exact E|].
  refine (@resperf_on_schedule any_builder 1 4 45000000 60000000 0 40000000 500000 1000 7 (d_of_int 1000) cfg x
            example_rounds _ _ _ _ _ E _ _); [lia|lia|lia|lia|reflexivity|reflexivity|].
  repeat (constructor; [apply round_at_ok|]). constructor.
Defined.

(** There 8 queries are due from the second round on, and three have been sent after four
    rounds: the first round was too early, and the third one's query is counted in the fourth. *)
Example example_dues :
  match example_setup with
  | Done (cfg, x) =>
      @dues cfg (d_of_int 1000) any_builder example_rounds 0 x = [0; 8; 8; 8]%Z ∧
      match @main_loop cfg (d_of_int 1000) any_builder example_rounds 0 x with
      | Done (_, x') => num_queries_sent (cnt x') = 3%Z
      | _ => False
      end
  | _ => False
  end.
Proof. vm_compute. done. Qed.

(** A query whose sending is in progress is counted as sent, and becomes outstanding, at the next
    attempt to send another one, also when the socket answers that it is not ready: only the
    answer -1 is taken for "still sending". *)
Theorem resperf_counts_unsent :
  ∃ cfg x x', example_setup = Done (cfg, x) ∧
    @rounds cfg any_builder
      [ round_at 1 8 (SendFailed true) [];
        RoundInput 1 (λ _ _, (0%Z, [])) (Some (bytes "example.com A")) SendOk [] 9 ] 0 x = Done (Some 0%Z, x') ∧
    num_queries_sent (cnt x') = 1%Z ∧ num_queries_outstanding (cnt x') = 1%Z.
Proof.
  destruct example_setup as [[cfg x]| | | |] eqn:E; try (by vm_compute in E).
  exists cfg, x. vm_compute in E. injection E as <- <-. eexists. split; [done|]. split; [vm_compute; reflexivity|].
  by vm_compute.
Qed.
