(* ===== verification/ResperfReport.v ===== *)
(** * The report of resperf (resperf.c, the end of [main] and [print_statistics])

    When the loop has ended, resperf writes a file for gnuplot with a line per interval of the
    test, and prints the totals and the highest throughput it saw.  As in Report.v, how
    [printf] writes a [double] is a parameter; comparisons of doubles are computed. *)

From S2P Require Import Prelude Doubles LinkedList Stats Dnsperf Report Resperf ResperfMain.
Import Resperf.

Section report.
Context (cfg : config) (bucket_interval : Z) (max_qps max_loss_percent : double).
(** [printf] of a double: the conversion and the value. *)
Context (fmt : list Z → real → list Z).

(** ** The intervals *)

Definition seconds (t : Z) : real := r_div (r_int t) (r_int MILLION).

(** [last_bucket_used]: the interval in which sending ended, or the one before it. *)
Definition last_bucket_used (x : state) : Z :=
  let l := find_bucket cfg (wait_phase_began x) in if decide (0 < l)%Z then (l - 1)%Z else l.
Definition used_buckets (x : state) : list ramp_bucket := take (Z.to_nat (last_bucket_used x + 1)) (buckets x).

(** A line of the plot file, of the interval [i]; [per_sec n] is [n] over the length of an
    interval. *)
Definition plot_time (i : Z) : real :=
  r_div (r_mul (r_add (r_int i) half) (r_int (traffic_time cfg))) (r_mul (r_int (n_buckets cfg)) (r_int MILLION)).
Definition target_qps (i : Z) : real :=
  if decide (d_le (eval (plot_time i)) (eval (seconds (ramp_time cfg))))
  then r_mul (r_div (plot_time i) (seconds (ramp_time cfg))) (r_val max_qps)
  else r_val max_qps.
Definition per_sec (n : Z) : real := r_div (r_int n) (seconds bucket_interval).
Definition average (sum : double) (n : Z) : real := if decide (n = 0)%Z then r_int 0 else r_div (r_val sum) (r_int n).
Definition plot_line (i : Z) (b : ramp_bucket) : list Z :=
  fmt (bytes "%7.3f") (plot_time i) ++ bytes " " ++ fmt (bytes "%8.2f") (target_qps i) ++ bytes " " ++
  fmt (bytes "%8.2f") (per_sec (b_queries b)) ++ bytes " " ++ fmt (bytes "%8.2f") (per_sec (b_responses b)) ++ bytes " " ++
  fmt (bytes "%8.2f") (per_sec (b_failures b)) ++ bytes " " ++
  fmt (bytes "%8.6f") (average (b_latency_sum b) (b_responses b)) ++ bytes " " ++
  fmt (bytes "%8.2f") (per_sec (b_connections b)) ++ bytes " " ++
  fmt (bytes "%8.6f") (average (b_conn_latency_sum b) (b_connections b)) ++ nl.
Definition plot_header : list Z :=
  bytes "# time target_qps actual_qps responses_per_sec failures_per_sec avg_latency connections conn_avg_latency" ++ nl.
Definition plot_file (x : state) : list Z :=
  plot_header ++ concat (imap (λ i b, plot_line (Z.of_nat i) b) (used_buckets x)).

(** ** The highest throughput *)

Definition loss_percent (b : ramp_bucket) : real :=
  r_mul (if decide (b_queries b = 0)%Z then r_int 0
         else r_div (r_int (s32 (b_queries b - b_responses b))) (r_int (b_queries b))) (r_int 100).

(** The loop of [print_statistics]: the intervals up to the first with too many lost queries. *)
Fixpoint max_throughput (bs : list ramp_bucket) (best loss : double) : double * double :=
  match bs with
  | [] => (best, loss)
  | b :: bs' =>
      let rps := eval (per_sec (b_responses b)) in
      let lost := eval (loss_percent b) in
      if decide (d_lt max_loss_percent lost) then (best, loss)
      else if decide (d_lt best rps) then max_throughput bs' rps lost else max_throughput bs' best loss
  end.

(** ** [print_statistics()] *)

Definition print_counts (c : counters) : list Z :=
  bytes "  Queries sent:         " ++ fmt_u (num_queries_sent c) ++ nl ++
  bytes "  Queries completed:    " ++ fmt_u (num_responses_received c) ++ nl ++
  bytes "  Queries lost:         " ++ fmt_u (u64 (num_queries_sent c - num_responses_received c)) ++ nl ++
  bytes "  Response codes:       " ++ print_rcodes fmt 0 true (rcodecounts c) (num_responses_received c) ++ nl ++ nl.
Definition print_statistics (x : state) (time_of_end_of_run : Z) : list Z :=
  let c := cnt x in
  let run_time := u64 (time_of_end_of_run - time_of_program_start cfg) in
  let '(best, loss) := max_throughput (used_buckets x) d_zero d_zero in
  nl ++ bytes "Statistics:" ++ nl ++ nl ++ print_counts c ++
  bytes "  Run time (s):         " ++ fmt_time run_time ++ nl ++
  bytes "  Maximum throughput:   " ++ fmt (bytes "%.6lf") (r_val best) ++ bytes " qps" ++ nl ++
  bytes "  Lost at that point:   " ++ fmt (bytes "%.2f") (r_val loss) ++ bytes "%" ++ nl ++ nl ++
  bytes "  Connection attempts:  " ++ fmt_u (num_conn_attempts c) ++ bytes " (" ++ fmt_u (num_conn_completed c) ++
  bytes " successful, " ++ fmt (bytes "%.2lf") (percent (num_conn_completed c) (num_conn_attempts c)) ++ bytes "%)" ++ nl ++ nl.

(** The end of [main]: the clock, whether the plot file could be opened, and what is written to
    the file and to the output. *)
Definition finish (opened : bool) (now : Z) (x : state) : run (list Z * list Z) :=
  if opened then Done (plot_file x, bytes "[Status] Testing complete" ++ nl ++ print_statistics x now) else Exit 1.

(** ** Correctness of the search *)

(** The intervals looked at: those before the first with too many lost queries. *)
Fixpoint considered (bs : list ramp_bucket) : list ramp_bucket :=
  match bs with
  | [] => []
  | b :: bs' => if decide (d_lt max_loss_percent (eval (loss_percent b))) then [] else b :: considered bs'
  end.

Definition too_lossy (b : ramp_bucket) : Prop := d_lt max_loss_percent (eval (loss_percent b)).

(** In a list of intervals, [i] is the place of [b], and no interval up to it lost too much. *)
Definition within_loss (bs : list ramp_bucket) (i : nat) (b : ramp_bucket) : Prop :=
  bs !! i = Some b ∧ ∀ j b', j ≤ i → bs !! j = Some b' → ¬ too_lossy b'.

Lemma considered_spec bs b : b ∈ considered bs ↔ ∃ i, within_loss bs i b.
Proof.
  unfold within_loss, too_lossy. induction bs as [|c bs IH]; cbn [considered].
  { split; [by intros ?%elem_of_nil|intros (i & Hi & _); by rewrite lookup_nil in Hi]. }
  destruct (decide (d_lt max_loss_percent (eval (loss_percent c)))) as [Hl|Hl].
  { split; [by intros ?%elem_of_nil|intros (i & _ & Hall)]. by destruct (Hall 0 c ltac:(lia) eq_refl). }
  rewrite elem_of_cons, IH. split.
  - intros [->|(i & Hi & Hall)].
    + exists 0. split; [done|]. intros j b' Hj. replace j with 0 by lia. by intros [= <-].
    + exists (S i). split; [done|]. intros [|j] b' Hj; [by intros [= <-]|]. apply Hall. lia.
  - intros ([|i] & Hi & Hall); [left; by injection Hi|right]. exists i. split; [done|].
    intros j b' Hj Hb'. apply (Hall (S j)); [lia|done].
Qed.

Lemma max_throughput_spec bs best loss best' loss' :
  max_throughput bs best loss = (best', loss') →
  (best' = best ∧ loss' = loss ∨
   ∃ b, b ∈ considered bs ∧ best' = eval (per_sec (b_responses b)) ∧ loss' = eval (loss_percent b)) ∧
  (best' = best ∨ d_lt best best') ∧
  (∀ b, b ∈ considered bs → ¬ d_lt best' (eval (per_sec (b_responses b)))).
Proof.
  revert best loss. induction bs as [|b bs IH]; intros best loss; cbn [max_throughput considered].
  { intros [= <- <-]. split_and!; [by left|by left|]. by intros b ?%elem_of_nil. }
  cbv zeta. destruct (decide (d_lt max_loss_percent (eval (loss_percent b)))).
  { intros [= <- <-]. split_and!; [by left|by left|]. by intros ? ?%elem_of_nil. }
  destruct (decide (d_lt best (eval (per_sec (b_responses b))))) as [Hlt|Hge]; intros E;
    destruct (IH _ _ E) as (Hin & Hle & Hall).
  - split_and!.
    + right. destruct Hin as [[-> ->]|(b' & ? & ?)]; [exists b|exists b']; (split; [by constructor|done]).
    + right. destruct Hle as [->|Hl]; [done|exact (d_lt_trans _ _ _ Hlt Hl)].
    + intros b' [->|Hb']%elem_of_cons; [|by apply Hall]. intros Hl.
      destruct Hle as [->|Hl']; [by apply d_lt_irrefl in Hl|]. by apply (d_lt_irrefl best'), (d_lt_trans _ _ _ Hl).
  - split_and!.
    + destruct Hin as [?|(b' & ? & ?)]; [by left|right; exists b'; split; [by constructor|done]].
    + done.
    + intros b' [->|Hb']%elem_of_cons; [|by apply Hall]. intros Hl. apply Hge.
      destruct Hle as [->|Hl']; [done|exact (d_lt_trans _ _ _ Hl' Hl)].
Qed.
End report.

(** ** The intervals add up *)

Definition responded (bs : list ramp_bucket) : Z := sumZ (map b_responses bs).
Definition failed (bs : list ramp_bucket) : Z := sumZ (map b_failures bs).

(** The responses with a code other than NOERROR and NXDOMAIN; [i] is the first code. *)
Fixpoint failures_from (i : nat) (codes : list Z) : Z :=
  match codes with
  | [] => 0%Z
  | c :: cs => if decide (i = 0 ∨ i = 3) then failures_from (S i) cs else (c + failures_from (S i) cs)%Z
  end.

(** What the intervals have counted beyond the totals; 0 throughout a run. *)
Definition gap (x : state) : Z * Z :=
  (u32 (responded (buckets x) - num_responses_received (cnt x)),
   u32 (failed (buckets x) - failures_from 0 (rcodecounts (cnt x)))).

Lemma sum_insert (f : ramp_bucket → Z) bs i b b' :
  bs !! i = Some b → sumZ (map f (<[i := b']> bs)) = (sumZ (map f bs) + f b' - f b)%Z.
Proof.
  revert i. induction bs as [|c bs IH]; intros [|i] Hb; simpl in *; [done|done|injection Hb as ->; lia|].
  rewrite (IH i Hb). lia.
Qed.

Lemma failures_alter i codes r : r < length codes →
  eq32 (failures_from i (alter (λ c, u64 (c + 1)) r codes))
       (failures_from i codes + (if decide (i + r = 0 ∨ i + r = 3) then 0%Z else 1%Z)).
Proof.
  revert i r. induction codes as [|c cs IH]; intros i [|r] Hr; simpl in Hr; [lia|lia| |].
  - change (alter (λ c, u64 (c + 1)) 0 (c :: cs)) with (u64 (c + 1) :: cs). cbn [failures_from]. rewrite Nat.add_0_r.
    destruct (decide _); [by rewrite Z.add_0_r|]. rewrite eq32_u64. by rewrite <- !Z.add_assoc, (Z.add_comm 1).
  - change (alter (λ c, u64 (c + 1)) (S r) (c :: cs)) with (c :: alter (λ c, u64 (c + 1)) r cs). cbn [failures_from].
    replace (i + S r) with (S i + r) by lia. destruct (decide (i = 0 ∨ i = 3)); [by apply IH; lia|].
    rewrite IH by lia. by rewrite Z.add_assoc.
Qed.

Section tally.
Context (cfg : config).

Lemma gap_update when f :
  (∀ b, b_responses (f b) = b_responses b ∧ b_failures (f b) = b_failures b) → keeps gap (update_bucket cfg when f).
Proof.
  intros Hf x. unfold update_bucket. destruct (if decide _ then _ else _) as [b|] eqn:E; [|done].
  destruct (decide _); [|done]. unfold gap, responded, failed. simpl.
  rewrite !(sum_insert _ _ _ b) by done. destruct (Hf b) as [-> ->]. f_equal; f_equal; lia.
Qed.

Lemma gap_callbacks sock cs : keeps gap (run_callbacks cfg sock cs).
Proof.
  induction cs as [|[qid|ev el] cs IH]; cbn [run_callbacks]; [apply keeps_ret|..];
    (apply keeps_bind; [|intros _; exact IH]).
  - unfold net_sent. apply keeps_bind; [apply keeps_get|]. intros x.
    apply keeps_bind; [by apply gap_update|]. intros _. cbv zeta.
    apply keeps_bind; [apply keeps_assert|]. intros _. apply keeps_bind; [apply keeps_get_query|]. intros qi.
    by apply keeps_set_query.
  - unfold net_event. apply keeps_bind; [apply keeps_get|]. intros x.
    destruct ev; try by apply keeps_modify. all: (apply keeps_bind; [by apply gap_update|]; intros _; by apply keeps_modify).
Qed.
Lemma gap_sockready a s : keeps gap (sockready cfg a s).
Proof. unfold sockready. apply keeps_bind; [apply gap_callbacks|]. intros _. apply keeps_ret. Qed.

#[local] Hint Resolve gap_sockready gap_callbacks gap_update : keeps.

Lemma take_id_gap fuel k ready : keeps gap (take_id cfg fuel k ready).
Proof. revert k. induction fuel as [|fuel IH]; intros k; cbn [take_id]; keeps_tac. Qed.

Context `{RequestBuilder}.

Lemma send_step_gap i : keeps gap (send_step cfg i).
Proof.
  unfold send_step. apply keeps_bind; [apply keeps_get|]. intros x. destruct (decide _); [apply keeps_ret|]. cbv zeta.
  apply keeps_bind; [keeps_tac|]. intros _. destruct (decide _); [|apply keeps_ret].
  apply keeps_bind; [|intros r; keeps_tac].
  unfold do_one_line. apply keeps_bind; [apply take_id_gap|]. intros a. keeps_tac.
Qed.

Context (Hcfg : cfg_ok cfg).

(** A response is counted in an interval and in the totals. *)
Lemma count_response_gap rcode latency x when :
  length (rcodecounts (cnt x)) = 16 → rcode < 16 →
  let m := update_bucket cfg when (λ b,
             RampBucket (b_queries b) (s32 (b_responses b + 1))
               (if decide (rcode = 0 ∨ rcode = 3) then b_failures b else s32 (b_failures b + 1))
               (d_add (b_latency_sum b) latency) (b_connections b) (b_conn_latency_sum b));;
           modify (count_received rcode) in
  match m x with Done (_, x') => gap x' = gap x | _ => True end.
Proof.
  intros Hlen Hr. cbv zeta. unfold mbind, M_bind, update_bucket.
  destruct (if decide _ then _ else _) as [b|] eqn:E; [|done]. destruct (decide _); [|done]. cbn [modify].
  unfold gap, responded, failed. simpl. rewrite !(sum_insert _ _ _ b) by done. cbn [b_responses b_failures]. f_equal.
  - change (eq32 (sumZ (map b_responses (buckets x)) + s32 (b_responses b + 1) - b_responses b -
      u64 (num_responses_received (cnt x) + 1)) (sumZ (map b_responses (buckets x)) - num_responses_received (cnt x))).
    rewrite eq32_s32, eq32_u64. unfold eq32. f_equal. lia.
  - change (eq32 (sumZ (map b_failures (buckets x)) +
      (if decide (rcode = 0 ∨ rcode = 3) then b_failures b else s32 (b_failures b + 1)) - b_failures b -
      failures_from 0 (alter (λ c, u64 (c + 1)) rcode (rcodecounts (cnt x))))
      (sumZ (map b_failures (buckets x)) - failures_from 0 (rcodecounts (cnt x)))).
    rewrite failures_alter by lia. simpl.
    destruct (decide (rcode = 0 ∨ rcode = 3)); [|rewrite eq32_s32]; unfold eq32; f_equal; lia.
Qed.

(** [m] keeps the invariant and the gap. *)
Definition keeps_books {A} (m : M state A) (P : A → Prop) : Prop :=
  ∀ g, triple (λ x, Inv cfg x ∧ gap x = g) m (λ a x, (Inv cfg x ∧ P a) ∧ gap x = g).

Lemma books_of {A} (m : M state A) (P : A → Prop) :
  triple (Inv cfg) m (λ a x, Inv cfg x ∧ P a) → keeps gap m → keeps_books m P.
Proof.
  intros Hm Hk g x [Hx Hg]. specialize (Hm x Hx). specialize (Hk x).
  destruct (m x) as [[a x']| | | |]; try done. by rewrite Hk.
Qed.

Lemma books_bind {A B} (m : M state A) P (k : A → M state B) Q :
  keeps_books m P → (∀ a, P a → keeps_books (k a) Q) → keeps_books (m ≫= k) Q.
Proof.
  intros Hm Hk g x Hx. specialize (Hm g x Hx). unfold mbind, M_bind.
  destruct (m x) as [[a x1]| | | |]; try done. destruct Hm as [[Hi Ha] Hg]. by apply (Hk a Ha g).
Qed.

Lemma try_process_books s c r : call_ok cfg c → (0 ≤ s < nsocks cfg)%Z →
  keeps_books (try_process_response cfg s c r) (λ _, True).
Proof.
  intros Hc Hs g x0 [Hx0 Hg]. pose proof (try_process_response_inv cfg Hcfg s c r Hc Hs x0 Hx0) as Hinv.
  assert (match try_process_response cfg s c r x0 with Done (_, x') => gap x' = gap x0 | _ => True end) as Hk;
    [|destruct (try_process_response cfg s c r x0) as [[u x']| | | |]; try done; split; [done|congruence]].
  clear Hinv Hg. destruct Hx0 as (os & ins & Hi0). unfold try_process_response.
  destruct (sockready_spec cfg Hcfg _ _ _ c s x0 Hi0 Hc Hs) as (x & E0 & Hi & _). rewrite (bind_Done _ _ _ _ _ E0).
  pose proof (gap_sockready c s x0) as Hg0. rewrite E0 in Hg0. rewrite <- Hg0. clear x0 Hi0 E0 Hg0.
  destruct r as [e| |packet]; [by destruct (decide _)|done|]. destruct (decide (length packet < 4)); [done|].
  cbv zeta. set (rcode := Z.to_nat (Z.land _ 15)). set (idx := u32 (u32 _ + s)).
  assert (rcode < 16) as Hrc by apply rcode_range. destruct (decide _); [done|].
  unfold mbind at 1, M_bind at 1, get_query. destruct (queries (tbl x) !! Z.to_nat idx) as [qi|] eqn:Hqi; [|done].
  destruct (decide (qlist qi ≠ outstanding)) as [|Hl]; [done|].
  pose proof (keeps_to_instanding gap (λ _ _, eq_refl) (Z.to_nat idx) x) as Hg1.
  pose proof (keeps_to_instanding (λ y, length (rcodecounts (cnt y))) (λ _ _, eq_refl) (Z.to_nat idx) x) as Hl1.
  unfold mbind at 1, M_bind at 1. destruct (to_instanding _ x) as [[u x1]| | | |]; try done. cbv beta iota.
  rewrite <- Hg1. unfold mbind at 1, M_bind at 1. cbn [modify]. rewrite (bind_Done get _ _ _ _ eq_refl).
  change (gap x1) with (gap (count_unsent x1)). apply count_response_gap; [|done].
  change (length (rcodecounts (cnt x1)) = 16). rewrite Hl1. exact (inv_rcodes _ _ _ _ _ Hi).
Qed.

Lemma books_plain {A} (m : M state A) : triple (Inv cfg) m (λ _, Inv cfg) → keeps gap m → keeps_books m (λ _, True).
Proof. intros Hm. apply books_of. by apply (triple_weaken (Inv cfg) _ m (λ _, Inv cfg)). Qed.
Lemma books_ret {A} (a : A) (P : A → Prop) : P a → keeps_books (mret a) P.
Proof. intros Ha g x [Hx Hg]. done. Qed.

Lemma responses_books rs s : Forall (λ r, call_ok cfg r.1) rs → (0 ≤ s < nsocks cfg)%Z →
  keeps_books (responses_step cfg rs s) (λ s', 0 ≤ s' < nsocks cfg)%Z.
Proof.
  intros Hrs. revert s. induction Hrs as [|[a r] rs Ha Hrs IH]; intros s Hs; cbn [responses_step]; [by apply books_ret|].
  eapply books_bind; [by apply try_process_books|]. intros [] _. by apply IH, next_sock.
Qed.

Lemma round_books i s : input_ok cfg i → (0 ≤ s < nsocks cfg)%Z →
  keeps_books (round cfg i s) (λ s', match s' with Some s' => 0 ≤ s' < nsocks cfg | None => True end)%Z.
Proof.
  intros Hi Hs. unfold round. eapply books_bind; [by apply books_plain; [apply triple_get|]|]. intros x _.
  eapply books_bind.
  { apply books_plain; [apply phase_inv|]. unfold phase_step. keeps_tac. }
  intros [|] _; [by apply books_ret|].
  eapply books_bind; [apply books_plain; [by apply send_step_inv|apply send_step_gap]|]. intros [] _.
  eapply books_bind; [destruct Hi as (_ & _ & Hr); by apply responses_books|]. intros s' Hs'.
  eapply (books_bind _ (λ _, True)).
  - apply books_plain; [|by apply retire_frame]. intros y (os & ins & Hinv).
    pose proof (inv_lengths cfg Hcfg _ _ _ _ Hinv).
    pose proof (retire_spec cfg Hcfg (S (Z.to_nat (max_outstanding cfg))) os ins y Hinv ltac:(lia)) as Hr.
    destruct (retire_old_queries cfg _ y) as [[u y']| | | |]; try done.
    destruct Hr as (os' & ins' & ? & _). by exists os', ins'.
  - intros [] _. eapply (books_bind _ (λ _, True)); [|intros [] _; by apply books_ret].
    apply books_plain; [|by apply keeps_modify]. apply triple_modify.
    intros y (os & ins & Hinv). exists os, ins. by destruct Hinv.
Qed.

Lemma main_loop_gap max_qps ins sk x : Inv cfg x → (0 ≤ sk < nsocks cfg)%Z → Forall (input_ok cfg) ins →
  match main_loop cfg max_qps ins sk x with Done (_, x') => gap x' = gap x | _ => True end.
Proof.
  intros Hinv Hsk Hins. revert sk x Hsk Hinv. induction Hins as [|i ins Hi Hins IH]; intros sk x Hsk Hinv; [done|].
  cbn [main_loop]. unfold mbind, M_bind, main_round. destruct (due cfg max_qps x) as [n| | | |]; cbn [mbind run_bind]; try done.
  pose proof (round_books (with_scheduled n i) sk Hi Hsk (gap x) x (conj Hinv eq_refl)) as Hr.
  destruct (round cfg (with_scheduled n i) sk x) as [[[s|] x1]| | | |]; try done; [|apply Hr].
  destruct Hr as [[Hinv1 Hs1] Hg]. rewrite <- Hg. by apply IH.
Qed.
End tally.

Lemma setup_gap s o timeout ramp sustain wait interval fb now cfg x :
  setup s o timeout ramp sustain wait interval fb now = Done (cfg, x) → gap x = (0, 0)%Z.
Proof.
  unfold setup. destruct (decide _); [done|]. destruct (decide _); [done|].
  destruct (init_queries _ _ _) as [t| | | |]; cbn [mbind run_bind]; try done. destruct (decide _); [done|].
  unfold init_buckets. destruct (decide _); [done|]. intros [= <- <-]. unfold gap, responded, failed. cbn [buckets cnt num_responses_received rcodecounts].
  assert (∀ (f : ramp_bucket → Z) n b, f b = 0%Z → sumZ (map f (replicate n b)) = 0%Z) as Hz.
  { intros f k b Hb. induction k as [|k IH]; [done|]. simpl. by rewrite Hb, IH. }
  by rewrite !Hz by done.
Qed.

Lemma eq32_diff a b : u32 (a - b) = 0%Z → eq32 a b.
Proof.
  intros H. assert (eq32 (a - b) 0) as H' by exact H.
  replace a with (a - b + b)%Z by lia. by rewrite H'.
Qed.

(** ** Theorems *)

(** resperf's report adds up: at the end of any run, from its start on, the output says how many
    queries were sent, completed and lost; those lost are the ones that timed out and the ones
    still outstanding, the response codes listed add up to the responses, and so do the
    responses of all intervals (modulo 2^32), whose failures are the responses with a code
    other than NOERROR and NXDOMAIN. *)
Theorem resperf_report_adds_up {B : RequestBuilder} s o timeout ramp sustain wait interval fb now max_qps max_loss fmt cfg x
    inputs r x' time_end :
  (1 ≤ s < 2 ^ 32)%Z → (1 ≤ o < 2 ^ 32)%Z → (0 ≤ ramp ∧ 0 ≤ sustain ∧ 0 ≤ wait ∧ 1 ≤ interval)%Z →
  (ramp + sustain + wait + interval < 2 ^ 64)%Z → ((ramp + sustain + interval - 1) / interval < 2 ^ 31)%Z →
  setup s o timeout ramp sustain wait interval fb now = Done (cfg, x) → nonneg max_qps → Forall (input_ok cfg) inputs →
  main_loop cfg max_qps inputs 0 x = Done (r, x') →
  let c := cnt x' in
  (∃ pre post, finish cfg interval max_qps max_loss fmt true time_end x' =
     Done (plot_file cfg interval max_qps fmt x', pre ++ print_counts fmt c ++ post)) ∧
  u64 (num_queries_sent c - num_responses_received c) = u64 (num_queries_timed_out c + num_queries_outstanding c) ∧
  num_responses_received c = u64 (sumZ (rcodecounts c)) ∧
  eq32 (responded (buckets x')) (num_responses_received c) ∧
  eq32 (failed (buckets x')) (failures_from 0 (rcodecounts c)).
Proof.
  intros Hs Ho Hp Hsum Hnb E Hq Hin Em. cbv zeta.
  destruct (setup_spec _ _ _ _ _ _ _ _ _ _ _ Hs Ho Hp Hsum Hnb E) as (Hcfg & Hinv & _).
  destruct (setup_start _ _ _ _ _ _ _ _ _ _ _ E) as [Hr H0]. pose proof Hcfg as [Hn _ _ _].
  pose proof (main_loop_pace cfg max_qps Hcfg Hq ltac:(lia) inputs 0 x 0 Hinv ltac:(lia) Hin ltac:(lia)) as Hpace.
  pose proof (main_loop_gap cfg Hcfg max_qps inputs 0 x Hinv ltac:(lia) Hin) as Hgap. rewrite Em in Hpace, Hgap.
  destruct Hpace as [(os & ins & [_ H1 H2 _ H4 _]) _]; [unfold sent_of; lia|].
  rewrite (setup_gap _ _ _ _ _ _ _ _ _ _ _ E) in Hgap. injection Hgap as Hg1 Hg2.
  split_and!; [|rewrite H2, H1|done|by apply eq32_diff|by apply eq32_diff].
  - unfold finish, print_statistics. destruct (max_throughput _ _ _ _ _) as [best loss].
    eexists (bytes "[Status] Testing complete" ++ nl ++ nl ++ bytes "Statistics:" ++ nl ++ nl), _.
    rewrite <- !(app_assoc (bytes "[Status] Testing complete")), <- !app_assoc. reflexivity.
  - unfold u64. rewrite Zminus_mod_idemp_l. f_equal. lia.
Qed.

Lemma resperf_report_adds_up_witness :
  ∃ cfg x, example_setup = Done (cfg, x) ∧
  match @main_loop cfg (d_of_int 1000) any_builder example_rounds 0 x with
  | Done (_, x') =>
      u64 (num_queries_sent (cnt x') - num_responses_received (cnt x')) =
        u64 (num_queries_timed_out (cnt x') + num_queries_outstanding (cnt x')) ∧
      eq32 (responded (buckets x')) (num_responses_received (cnt x'))
  | _ => True
  end.
Proof.
  destruct example_setup_ok as (cfg & x & E & _). exists cfg, x. split; [exact E|].
  destruct (@main_loop cfg (d_of_int 1000) any_builder example_rounds 0 x) as [[r x']| | | |] eqn:Em; [|exact I..].
  destruct (@resperf_report_adds_up any_builder 1 4 45000000 60000000 0 40000000 500000 1000 7 (d_of_int 1000) (d_of_int 100)
    (λ _ _, []) cfg x example_rounds r x' 2000000) as (_ & H1 & _ & H2 & _);
    [lia|lia|lia|lia|reflexivity|exact E|reflexivity| |exact Em|split; [exact H1|exact H2]].
  repeat (constructor; [apply round_at_ok|]). constructor.
Defined.

(** That run answers one of three queries; what is said of it. *)
Example example_report :
  match example_setup with
  | Done (cfg, x) =>
      match @main_loop cfg (d_of_int 1000) any_builder example_rounds 0 x with
      | Done (_, x') =>
          (num_queries_sent (cnt x'), num_responses_received (cnt x'), num_queries_outstanding (cnt x')) = (3, 1, 2)%Z ∧
          print_counts (λ _ _, bytes "100.00") (cnt x') =
            bytes "  Queries sent:         3" ++ nl ++ bytes "  Queries completed:    1" ++ nl ++
            bytes "  Queries lost:         2" ++ nl ++ bytes "  Response codes:       NXDOMAIN 1 (100.00%)" ++ nl ++ nl
      | _ => False
      end
  | _ => False
  end.
Proof. vm_compute. done. Qed.

(** The intervals that are printed: all that were complete when sending ended, but not the last
    one of the test, and the first one in any case. *)
Lemma used_buckets_spec cfg x i :
  cfg_ok cfg → length (buckets x) = Z.to_nat (n_buckets cfg) →
  (0 ≤ time_of_program_start cfg ≤ wait_phase_began x)%Z → (wait_phase_began x < 2 ^ 64)%Z → (0 < traffic_time cfg)%Z →
  (n_buckets cfg * (wait_phase_began x - time_of_program_start cfg) < 2 ^ 64)%Z →
  (n_buckets cfg * (wait_phase_began x - time_of_program_start cfg) / traffic_time cfg < 2 ^ 31)%Z →
  used_buckets cfg x !! i =
    if decide (i = 0 ∨ ((Z.of_nat i + 1) * traffic_time cfg ≤ n_buckets cfg * (wait_phase_began x - time_of_program_start cfg)
                        ∧ Z.of_nat i + 1 < n_buckets cfg)%Z)
    then buckets x !! i else None.
Proof.
  intros Hcfg Hlen Hw H64 Ht H1 H2. pose proof Hcfg as [_ _ _ Hb]. unfold used_buckets, last_bucket_used.
  rewrite (resperf_find_bucket cfg (wait_phase_began x) Hcfg) by lia.
  set (e := (n_buckets cfg * (wait_phase_began x - time_of_program_start cfg))%Z) in *.
  assert (0 ≤ e / traffic_time cfg)%Z as H0 by (apply Z.div_pos; nia).
  assert ((Z.of_nat i + 1) * traffic_time cfg ≤ e ↔ Z.of_nat i + 1 ≤ e / traffic_time cfg)%Z as Hdiv.
  { split; intros Hi; [apply Z.div_le_lower_bound; lia|]. etrans; [apply Z.mul_le_mono_nonneg_r; [lia|exact Hi]|].
    rewrite Z.mul_comm. apply Z.mul_div_le. lia. }
  cbv zeta. set (k := Z.min (n_buckets cfg - 1) (e / traffic_time cfg)). rewrite lookup_take.
  destruct (decide (0 < k)%Z); repeat case_decide; try done; exfalso; lia.
Qed.

(** C14: the maximum throughput that is printed, with the loss printed next to it, is that of an
    interval that counts, or 0 when none of them had more; no interval that counts had more.
    An interval counts when neither it nor one before it lost more than is allowed and it was
    complete when sending ended.  The first interval counts even if it was not complete, and
    the last of the test never does.  The clock is assumed not to overflow the products of
    [find_bucket]. *)
Theorem resperf_max_throughput cfg interval max_loss fmt x now :
  cfg_ok cfg → length (buckets x) = Z.to_nat (n_buckets cfg) →
  (0 ≤ time_of_program_start cfg ≤ wait_phase_began x)%Z → (wait_phase_began x < 2 ^ 64)%Z → (0 < traffic_time cfg)%Z →
  (n_buckets cfg * (wait_phase_began x - time_of_program_start cfg) < 2 ^ 64)%Z →
  (n_buckets cfg * (wait_phase_began x - time_of_program_start cfg) / traffic_time cfg < 2 ^ 31)%Z →
  let counts i b :=
    within_loss max_loss (buckets x) i b ∧
    (i = 0 ∨ ((Z.of_nat i + 1) * traffic_time cfg ≤ n_buckets cfg * (wait_phase_began x - time_of_program_start cfg)
              ∧ Z.of_nat i + 1 < n_buckets cfg)%Z) in
  let rps b := eval (per_sec interval (b_responses b)) in
  ∃ best loss pre post,
    print_statistics cfg interval max_loss fmt x now =
      pre ++ bytes "  Maximum throughput:   " ++ fmt (bytes "%.6lf") (r_val best) ++ bytes " qps" ++ nl ++
      bytes "  Lost at that point:   " ++ fmt (bytes "%.2f") (r_val loss) ++ bytes "%" ++ nl ++ nl ++ post ∧
    (best = d_zero ∧ loss = d_zero ∨ ∃ i b, counts i b ∧ best = rps b ∧ loss = eval (loss_percent b)) ∧
    (∀ i b, counts i b → ¬ d_lt best (rps b)).
Proof.
  intros Hcfg Hlen Hw H64 Ht H1 H2. cbv zeta.
  pose proof (λ i, used_buckets_spec cfg x i Hcfg Hlen Hw H64 Ht H1 H2) as Hused.
  assert (∀ b, b ∈ considered max_loss (used_buckets cfg x) ↔ ∃ i, within_loss max_loss (buckets x) i b ∧
    (i = 0 ∨ ((Z.of_nat i + 1) * traffic_time cfg ≤ n_buckets cfg * (wait_phase_began x - time_of_program_start cfg)
              ∧ Z.of_nat i + 1 < n_buckets cfg)%Z)) as Hcount.
  { intros b. rewrite considered_spec. unfold within_loss. setoid_rewrite Hused. split; intros (i & Hi).
    - exists i. destruct Hi as [Hi Hall]. destruct (decide _) as [Hc|]; [|done]. split; [|exact Hc]. split; [exact Hi|].
      intros j b' Hj Hb'. apply (Hall j b' Hj). rewrite decide_True; [done|]. destruct Hc as [->|Hc]; [left; lia|].
      destruct (decide (j = 0)); [by left|right]. nia.
    - destruct Hi as [[Hi Hall] Hc]. exists i. rewrite decide_True by exact Hc. split; [exact Hi|].
      intros j b' Hj. destruct (decide _); [by apply Hall|done]. }
  unfold print_statistics. cbv zeta. destruct (max_throughput interval max_loss (used_buckets cfg x) d_zero d_zero) as [best loss] eqn:E.
  destruct (max_throughput_spec _ _ _ _ _ _ _ E) as (Hin & _ & Hall). exists best, loss.
  eexists (nl ++ bytes "Statistics:" ++ nl ++ nl ++ print_counts fmt (cnt x) ++ bytes "  Run time (s):         " ++ fmt_time _ ++ nl), _.
  split; [rewrite <- !app_assoc; reflexivity|]. split.
  - destruct Hin as [Hin|(b & Hb & E1 & E2)]; [by left|right]. apply Hcount in Hb as (i & Hi). by exists i, b.
  - intros i b Hi. apply Hall, Hcount. by exists i.
Qed.

(** A test of ten intervals of a second that stopped sending after 3.5 seconds: the first three
    count, of which the second was the best; the fourth, which had more, was not complete. *)
Definition stopped_test : config := Config 1 4 45000000 10000000 10000000 50000000 10 1000 7.
Definition stopped_state : state :=
  State (Table ∅ ∅ perf_list_init perf_list_init) (Counters 0 0 0 0 (replicate 16 0%Z) 0 0)
    (map (λ n, RampBucket n n 0 d_zero 0 d_zero) [10; 300; 250; 900; 0; 0; 0; 0; 0; 0]%Z) PHASE_WAIT 0 3500007 3500007.

Lemma resperf_max_throughput_witness :
  ∃ best loss pre post,
    print_statistics stopped_test 1000000 (d_of_int 100) (λ _ _, bytes "?") stopped_state 4000007 =
      pre ++ bytes "  Maximum throughput:   " ++ bytes "?" ++ bytes " qps" ++ nl ++
      bytes "  Lost at that point:   " ++ bytes "?" ++ bytes "%" ++ nl ++ nl ++ post ∧
    (best = d_zero ∧ loss = d_zero ∨
     ∃ i b, within_loss (d_of_int 100) (buckets stopped_state) i b ∧ best = eval (per_sec 1000000 (b_responses b))).
Proof.
  destruct (resperf_max_throughput stopped_test 1000000 (d_of_int 100) (λ _ _, bytes "?") stopped_state 4000007)
    as (best & loss & pre & post & E & Hin & _);
    [split; simpl; lia|reflexivity|simpl; lia|simpl; lia|simpl; lia|simpl; lia|by vm_compute|].
  exists best, loss, pre, post. split; [exact E|]. destruct Hin as [?|(i & b & [Hw _] & Hb & _)]; [by left|right].
  exists i, b. split; [exact Hw|exact Hb].
Defined.
Example stopped_throughput :
  let '(best, _) := max_throughput 1000000 (d_of_int 100) (used_buckets stopped_test stopped_state) d_zero d_zero in
  best = d_of_int 300.
Proof. vm_compute. done. Qed.

(** Ten intervals of half a second: at most 3 per cent may be lost, the fourth loses 10. *)
Example example_throughput :
  let b q r := RampBucket q r 0 d_zero 0 d_zero in
  let '(best, loss) := max_throughput 500000 (d_of_int 3) [b 10 10; b 100 98; b 90 90; b 200 180; b 400 400]%Z d_zero d_zero in
  best = d_of_int 196 ∧ d_to_int loss = Done 2%Z.
Proof. vm_compute. done. Qed.
