(* ===== verification/ResperfRun.v ===== *)
(** * resperf from its command line to its report (resperf.c, [main])

    The parts of [main] in order: the options, the loop and what follows it.  The theorem follows
    a run through all of them. *)

From S2P Require Import Prelude Doubles Edns Tsig ParseUri DohRequest Datafile Net Opt CommandLine Stats Dnsperf NetTcp NetDoh Sockets Setup.
From S2P Require Import Finish Report Resperf ResperfSetup ResperfMain ResperfReport.
Import Resperf.

Section run.
Context {FI : FileIO} {HM : Hmac} (atof : list Z → double) (micros : double → Z) (EVP_DecodeUpdate : list Z → Z * list Z).
Context (fmt : list Z → real → list Z) {B : RequestBuilder}.

(** The initial values of [max_qps] and [max_loss_percent]. *)
Definition initial_max_qps : double := d_of_int 100000.
Definition initial_max_loss : double := d_of_int 100.

Notation read_command_line := (read_options atof micros short_options long_options).
Notation set_up := (configure EVP_DecodeUpdate initial_max_qps initial_max_loss).

(** [main] after the loop; [socks] are the sockets with the statistics they have collected. *)
Definition resperf_end (cfg : config) (interval : Z) (mode : perf_net_mode) (g : settings (F := double)) (opened : bool)
    (now : Z) (socks : list doh) (x : state) : run (list Z * list Z) :=
  '(plot, out) ← finish cfg interval (g_max_qps g) (g_max_loss g) fmt opened now x;
  Done (plot, out ++ perf_net_stats_print mode (foldl (perf_net_stats_compile mode) doh_stats_init socks)).

(** [main]: what is written to the plot file and, from the end of the loop on, to the output.
    [inputs] is what the rounds of the loop meet; fewer than it takes do not end it. *)
Definition resperf_main (sys : system) (net : nat → opening) (now : Z) (args : list (list Z)) (inputs : list round_input) (opened : bool)
    (time_end : Z) (socks : list doh) : run (list Z * list Z) :=
  st ← read_command_line (argv args);
  '(cfg, x, g) ← set_up sys net now st;
  mode ← choose_mode (str_var st r_mode None);
  '(r, x) ← main_loop cfg (g_max_qps g) inputs 0 x;
  match r with
  | None => resperf_end cfg (opt_interval st) mode g opened time_end socks x
  | Some _ => NoFuel
  end.

(** What [setup] in Resperf.v was called with. *)
Lemma configure_setup sys net now st cfg x g :
  typed (V := rvar) st → set_up sys net now st = Done (cfg, x, g) →
  (∃ mode, choose_mode (str_var st r_mode None) = Done mode) ∧
  ∃ s o timeout fb, (1 ≤ s < 2 ^ 32)%Z ∧ (1 ≤ o < 2 ^ 32)%Z ∧ (1 ≤ opt_interval st)%Z ∧ (0 ≤ opt_ramp st ∧ 0 ≤ opt_sustain st)%Z ∧
    setup s o timeout (opt_ramp st) (opt_sustain st) WAIT_TIME (opt_interval st) fb now = Done (cfg, x).
Proof.
  intros Ht E. unfold configure in E.
  apply bound in E as (sup & _ & E). apply bound in E as (mode & Em & E). apply bound in E as (uri & _ & E).
  apply bound in E as (method & _ & E). cbv zeta in E. apply bound in E as ([sa la] & _ & E).
  apply bound in E as (input & _ & E). apply bound in E as (key & _ & E). apply bound in E as (eo & _ & E).
  apply bound in E as ([cfg' x'] & Es & E). apply bound in E as (socks & _ & E). injection E as -> -> _.
  split; [by exists mode|]. fold (opt_ramp st) (opt_sustain st) (opt_interval st) in Es.
  assert (1 ≤ DEFAULT_MAX_OUTSTANDING ≤ UINT32_MAX)%Z as HD by (unfold DEFAULT_MAX_OUTSTANDING, UINT32_MAX; lia).
  pose proof (uint_var_1 st r_nsocks 1 Ht eq_refl ltac:(unfold UINT32_MAX; lia)) as Hn.
  pose proof (uint_var_1 st r_outstanding _ Ht eq_refl HD) as Ho. unfold UINT32_MAX in Hn, Ho.
  assert (0 ≤ opt_ramp st < 2 ^ 64)%Z as H1 by (apply time_var_range; [done|done|unfold DEFAULT_RAMP_TIME, MILLION; lia]).
  assert (0 ≤ opt_sustain st < 2 ^ 64)%Z as H2 by (apply time_var_range; [done|done|unfold DEFAULT_SUSTAIN_TIME; lia]).
  assert (0 ≤ opt_interval st < 2 ^ 64)%Z as H3 by (apply time_var_range; [done|done|unfold DEFAULT_INTERVAL_US; lia]).
  match type of Es with setup ?s ?o ?t _ _ _ _ ?fb _ = _ =>
    exists s, o, t, fb; pose proof (setup_cases s o t (opt_ramp st) (opt_sustain st) WAIT_TIME (opt_interval st) fb now) as Hc end.
  rewrite Es in Hc. split_and!; [lia..|exact Es].
Qed.

(** ** Theorem *)

(** C13: A run of resperf, from the command line to the report: when the options were read, [setup]
    went well and the loop has come to its end, the report is printed and it adds up: the queries
    lost are those that timed out and those still outstanding, the response codes listed add up
    to the responses, and so do the responses of all intervals of the plot (modulo 2^32), whose
    failures are the responses with a code other than NOERROR and NXDOMAIN. *)
Theorem resperf_run sys net now args inputs time_end socks st cfg x g x' :
  read_command_line (argv args) = Done st → times_fit st → set_up sys net now st = Done (cfg, x, g) →
  nonneg (g_max_qps g) → Forall (input_ok cfg) inputs → main_loop cfg (g_max_qps g) inputs 0 x = Done (None, x') →
  let c := cnt x' in
  (∃ pre post, resperf_main sys net now args inputs true time_end socks =
     Done (plot_file cfg (opt_interval st) (g_max_qps g) fmt x', pre ++ print_counts fmt c ++ post)) ∧
  u64 (num_queries_sent c - num_responses_received c) = u64 (num_queries_timed_out c + num_queries_outstanding c) ∧
  num_responses_received c = u64 (sumZ (rcodecounts c)) ∧
  eq32 (responded (buckets x')) (num_responses_received c) ∧
  eq32 (failed (buckets x')) (failures_from 0 (rcodecounts c)).
Proof.
  intros Er [Hf1 Hf2] Ec Hq Hin Em c.
  pose proof (read_options_typed atof micros short_options long_options (argv args)) as Ht.
  assert (length short_options + 3 ≤ MAX_OPTS) as L1 by (by apply (bool_decide_unpack _)).
  assert (defaults_fit short_options ∧ defaults_fit long_options) as [L2 L3] by (split; by apply defaults_check).
  specialize (Ht L1 L2 L3). rewrite Er in Ht.
  destruct (configure_setup sys net now st cfg x g Ht Ec) as ([mode Emode] & s & o & t & fb & Hs & Ho & Hi & [Hr1 Hr2] & Es).
  assert (0 ≤ WAIT_TIME)%Z as Hw by (unfold WAIT_TIME, MILLION; lia).
  destruct (resperf_report_adds_up s o t (opt_ramp st) (opt_sustain st) WAIT_TIME (opt_interval st) fb now (g_max_qps g)
    (g_max_loss g) fmt cfg x inputs None x' time_end) as ((pre & post & Ef) & H); [lia..|lia|exact Hf2|exact Es|exact Hq|exact Hin|exact Em|].
  split; [|exact H]. exists pre, (post ++ perf_net_stats_print mode (foldl (perf_net_stats_compile mode) doh_stats_init socks)).
  unfold resperf_main. rewrite (then_run _ _ _ Er), (then_run _ _ _ Ec), (then_run _ _ _ Emode), (then_run _ _ _ Em).
  unfold resperf_end. rewrite (then_run _ _ _ Ef). by rewrite <- !app_assoc.
Qed.
End run.

(** *** A run *)

(** resperf with [-q 4]: of five queries one is answered before the clock jumps to the end. *)
Definition small_inputs : list round_input := example_rounds ++ replicate 4 (round_at 0 200000007 SendOk []).

Notation small_options := (read_options (F := double) (λ _, d_zero) (λ _, 0%Z) short_options long_options (argv [bytes "-q4"])).
Notation small_configure := (configure (FI := chunked_io) (HM := plain_hmac) (λ s, (0%Z, s)) initial_max_qps initial_max_loss
  small_system (λ j, plain_opening (5 + Z.of_nat j)) 7).

Lemma small_resperf :
  match small_options with
  | Done st =>
      times_fit st ∧
      match small_configure st with
      | Done (cfg, x, g) =>
          (max_outstanding cfg, nsocks cfg) = (4, 1)%Z ∧ nonneg (g_max_qps g) ∧
          match @main_loop cfg (g_max_qps g) any_builder small_inputs 0 x with
          | Done (None, x') => num_queries_sent (cnt x') = 5%Z ∧ num_responses_received (cnt x') = 1%Z
          | _ => False
          end
      | _ => False
      end
  | _ => False
  end.
Proof. vm_compute. repeat split. Qed.

Lemma resperf_run_witness :
  ∃ plot pre post c, resperf_main (FI := chunked_io) (HM := plain_hmac) (B := any_builder) (λ _, d_zero) (λ _, 0%Z) (λ s, (0%Z, s))
      (λ _ _, bytes "?") small_system (λ j, plain_opening (5 + Z.of_nat j)) 7 [bytes "-q4"] small_inputs true 200000009 [] =
    Done (plot, pre ++ print_counts (λ _ _, bytes "?") c ++ post) ∧
  num_queries_sent c = 5%Z ∧ num_responses_received c = 1%Z ∧
  u64 (num_queries_sent c - num_responses_received c) = u64 (num_queries_timed_out c + num_queries_outstanding c).
Proof.
  pose proof small_resperf as H. destruct small_options as [st| | | |] eqn:Er; [|destruct H..]. destruct H as [Hf H].
  destruct (small_configure st) as [[[cfg x] g]| | | |] eqn:Ec; [|destruct H..]. destruct H as (_ & Hq & H).
  destruct (@main_loop cfg (g_max_qps g) any_builder small_inputs 0 x) as [[[r|] x']| | | |] eqn:Em; [destruct H| |destruct H..].
  destruct H as [H1 H2].
  destruct (resperf_run (FI := chunked_io) (HM := plain_hmac) (B := any_builder) (λ _, d_zero) (λ _, 0%Z) (λ s, (0%Z, s))
    (λ _ _, bytes "?") small_system (λ j, plain_opening (5 + Z.of_nat j)) 7 [bytes "-q4"] small_inputs 200000009 [] st cfg x g x' Er Hf Ec Hq) as ((pre & post & E) & Hl & _).
  - repeat (constructor; [apply round_at_ok|]). constructor.
  - exact Em.
  - eexists _, pre, post, (cnt x'). split; [exact E|]. split; [exact H1|]. split; [exact H2|exact Hl].
Defined.
